(* ===== verification/_CoqProject ===== *)
-Q . S2P
Prelude.v
Monad.v
PyStr.v
Logging.v
Platform.v
Mock.v
Scan.v
Panorama.v
Main.v
Codec.v
Tree.v
Env.v
Replay.v
Order.v
Trace.v
Calls.v
Raising.v
Machine.v
Observer.v
Liveness.v
Spec.v
Engine.v
Rerun.v
FileSystem.v
Args.v
Usage.v
EndToEnd.v
