(* ===== verification/Prelude.v ===== *)
(** * img2panorama: a verification development for [src/main.py]

    ** The program

    [src/main.py] is a batch pipeline of four functions.
    [scan_images] (lines 40-51) lists a directory and keeps the
    entries whose lower-cased name ends in [.jpg], [.jpeg] or [.png];
    [create_panorama] (lines 11-33) decodes every file with
    [cv2.imread], gives up if any of them is [None], and otherwise
    calls OpenCV's stitcher once and turns its status into a panorama
    or [None]; [save_image] (lines 35-38) writes the panorama with
    [cv2.imwrite]; [main] (lines 53-73) parses the command line and
    sequences the three, logging every outcome under the configuration
    of line 9.  The parser (lines 55-57) has one option, [-i] or
    [--input_dir], which is required and takes the directory.
    Everything the program does to the outside goes through
    [argparse], [os], [cv2] and [logging].

    ** The model

    The development is a shallow embedding.  A Python function that
    calls the libraries is a program of the monad [M] of [Monad] and
    [Platform]: a function from a [World] (command line, file system,
    trace of events) to an outcome (a returned value or a raised
    exception) and the next world.  The libraries are the operations
    of the type class [Platform]; each call appends one event to the
    trace, so a theorem can say which calls were made, with which
    arguments and in which order.

    - [Prelude] (this file): the scope [pano_scope], the tactics
      [inv], [destruct_match] and [bool_prop], the hint databases
      [pano], and the lemmas on options, lists and strings that the
      components share.
    - [Monad]: the state-and-exception monad ([ret], [bind], [raise],
      [mapM] for comprehensions), its laws up to pointwise equality
      ([peq], an [Equivalence] with [Proper] instances), and the two
      judgements [preserves R m] and [returns m] with their rules.
    - [PyStr]: the string operations the source uses: [lower]
      ([str.lower]), [endswith] and [endswith_any] ([str.endswith]
      with a string and with a tuple), [lowers] (the lower-casings
      of text outside ASCII), [path_join] ([os.path.join]),
      [str_of_nat] and [str_of_Z] (the conversions of the f-strings
      of lines 13 and 29).
    - [Logging]: line 9.  [basicConfig] is the threshold [INFO] and
      the format string; [format_record] interprets the format string
      with a small [%]-format scanner ([percent_format]).
    - [Platform]: the class [Platform] (types [image] and [fsys];
      [parse_args], [listdir], [imread], [stitch], [imwrite]), the
      laws [PlatformLaws] a client may assume of it, the [World], the
      primitives [argparse_parse_args], [os_listdir], [cv2_imread],
      [cv2_Stitcher_create], [stitcher_stitch], [cv2_imwrite],
      [logging_info], [logging_warning], [logging_error], and the
      projections of a trace ([imread_calls], [stitch_calls],
      [imwrite_calls], [log_records], [engine_calls]).
    - [Mock]: an executable instance of [Platform] and
      [PlatformLaws], on which the witnesses and scenarios run.
    - [Scan]: [supported_extensions], [is_image_file], [image_paths]
      and [scan_images].
    - [Panorama]: [load_images], [any_none], [create_panorama] and
      [save_image], with the closed forms [create_panorama_value] and
      [create_panorama_events] of one attempt.
    - [Main]: [main], [run_module] (the guard of lines 75-76),
      [exit_status], and the big-step relation [MainRun] with one
      rule per way a run ends.
    - [Codec]: the formats of image files: [imwrite_format], the
      encoder [cv2.imwrite] chooses by the extension of a file name,
      and the class [Codec] of what decoding gives back after
      encoding in a format.
    - [Tree]: a second reading of the program, as interaction trees
      over the library calls ([pipeE], [scan_images_tree],
      [create_panorama_tree], [save_image_tree], [main_tree]), with
      environments that answer the calls ([Env], [platform_env],
      [handler]) and an interpreter with fuel ([run_tree]).
    - [Env]: the trees against an arbitrary environment: [logged],
      an environment with the record of its calls and their answers
      ([Call]), and the rules [Scanned], [Attempt] and [Script] of
      the calls that [scan_images], [create_panorama] and [main]
      make, one rule per path.
    - [Replay]: [replay], the environment that answers from a record
      of calls, and [silent], an answer of each type for a call that
      has none.
    - [Calls]: the record of [Env] and the trace of [Platform] side
      by side: [event_of] takes a call to its event, [visible] says
      which events reach the trace under the threshold of line 9,
      [traced] gives the events of a record.
    - [Raising]: the trees against an environment in which any call
      may raise ([Raising]): [run_raising] stops at the first
      exception, as the program has no handler, and ends with the
      call and what it raised ([Failed]); [recorded] keeps the
      answered calls; [Interrupted] is the record of a run up to
      some point; [raiser] is the environment as a handler of the
      library's interpreter, in which a call that raises is a
      [throw]; [platform_raising] is the platform with calls that
      raise.
    - [Order]: [relisted], two file systems that list the same
      entries of a directory in different orders, and the class
      [OrderInsensitive] of the engines that do not look at the order
      of the images.
    - [Trace]: the traces of [main] as the language of a monitor:
      [delta] has one transition per call or log record of the four
      functions and checks the messages, [accepts] runs it;
      [call_stage] and [stages] give the order of the calls; [entries]
      is the size of the listed directory.
    - [Machine]: the control flow of [main] with the three functions
      inlined, as a transition system: [Phase] names the control
      points, [step] is the transition relation, [next] the function
      that computes it, [run] its bounded iteration.
    - [Observer]: [observes] relates the control points of the
      machine to the states of the monitor.
    - [Liveness]: [eventually] and [leads_to] over the runs of the
      machine, and the predicates [reported] and [saved] on final
      configurations.
    - [Spec]: the design of [spec.md] ([Module spec]: [load],
      [assemble], [pipeline], the state graph [edge]) and the
      refinement of the code to it.
    - [Engine]: the stitching engine as the pipeline sees it:
      [Status], the contract [StitcherLaws], and the control flow of
      [Stitcher::stitch] over abstract stages ([Stages],
      [matchImages], [estimateCameraParams], [estimateTransform],
      [Stitcher_stitch]).
    - [Rerun]: what a run writes, how it ends and which events it
      produces as functions of its inputs ([plan], [main_outcome],
      [main_events]), and when a second run repeats the first.
    - [FileSystem]: an instance of [Platform] on stdpp's finite maps,
      for any parser and engine ([disk_platform_of]), in which a
      written file shows up in the listing of its directory and holds
      the image as the codec of its format gives it back.
    - [Args]: the parser of lines 55-57 ([Module argparse]: the table
      of option strings [parser], the classification of one argument
      string [parse_optional], the loop [consume], and [parse_args]),
      the grammar [CommandLine] of the accepted command lines, and
      the class [ArgparseLaws], which ties the parameter [parse_args]
      of [Platform] to that parser.
    - [Usage]: the accepted command lines as they are typed: the
      [spellings] of the option, an [Occurrence] of it with its
      value, and [Usage], a sequence of occurrences.
    - [EndToEnd]: the parser of [Args], the file system of
      [FileSystem] with the formats of [Codec] and the staged engine
      of [Engine] as one platform ([whole_platform]), and
      [goes_through], the conditions under which a run succeeds on
      it.

    ** The theorems

    - [Scan]: the result of [scan_images] in closed form; soundness
      and completeness of discovery for the three extensions in any
      case; the extension test is the same for every lower-casing of
      characters outside ASCII; the warning is logged exactly when
      nothing is found; a
      failed listing raises before anything is logged; discovery is
      read-only.
    - [Panorama]: [create_panorama] returns a panorama exactly when
      every file decodes and the engine answers [Stitcher_OK]; one
      undecoded file stops the attempt before the stitcher is created;
      the engine is called at most once and only on fully decoded
      lists; every file is read once, in order; the status of a
      refusal reaches the log unaltered; nothing but [save_image]
      writes; [save_image] writes once and ignores the result of the
      write.
    - [Main]: [main] and [MainRun] agree; the output file is written
      exactly when the whole pipeline succeeds; every failure leaves
      the file system untouched; which exceptions escape; the exit
      status.
    - [Codec]: the format of a file name does not depend on the case
      of its letters; every name [scan_images] accepts is a JPEG or
      PNG file for the writer; the output of [main] is a JPEG file.
    - [Tree]: the trees interpreted by the platform are the programs
      of the monadic model: [main_tree] ends in the world and with
      the outcome of [main], within the fuel [main_fuel], and its
      interpretation by the library's [interp_state] is equivalent
      to returning them.
    - [Env]: against every environment, whatever it answers and
      whatever state it keeps, the tree of [main] ends within one
      node per call and one more, and the record of its calls is a
      [Script]; every script calls the engine at most once, on the
      answers of the decoder, none of them [None], and the writer at
      most once, with the fixed name and the panorama the engine
      answered with [Stitcher_OK].
    - [Replay]: every script is the record of a run, that of the
      tree of [main] against the replay of the script, so the rules of
      [Script] are exact: they hold of the records of the runs and of
      nothing else, and running the program decides them.
    - [Calls]: the monitor of [Trace] accepts the events of every
      script, so the calls of a script come in the order of the
      stages; the record of the tree of [main] against the platform
      is a script that ends as [main] does and whose events are the
      trace of [main]: the two models describe the same runs.
    - [Raising]: against every environment whose calls may raise,
      the tree of [main] ends; the record of the run is a script, or
      the part of a script before the call that raised, and the run
      ends with what that call raised.  The monitor reads every part
      of a script, and the safety of a script holds of each of its
      parts: the engine is called after the last read, the writer
      after the engine has answered [Stitcher_OK].  Every part of a
      script is the record of such a run, so [Interrupted] is exact
      as [Script] is.  On the platform
      with calls that raise ([platform_raising], with [written] for
      the file system after the writes of a record) the file system
      after a run is the one before it, or the one after the single
      write of the panorama.
    - [Order]: [os.listdir] lists in arbitrary order.  Discovery,
      loading and the guard of [create_panorama] respect permutations
      ([Proper] instances), so two runs that differ in the order of
      the listing end the same way and reach the engine together; they
      log and write the same when the engine is [OrderInsensitive],
      and need not when it is not.
    - [Trace]: every trace of [main] is accepted by the monitor; the
      calls come in the order of the stages, each but the decoding at
      most once; a run logs at most three records and its trace has
      at most eight events besides the decodings, which are at most
      the entries of the directory; under the contract of the engine
      the log says that a panorama was created exactly when one is
      written, and an engine that breaks the contract makes the log
      contradict itself.
    - [Machine]: the machine and [main] agree; runs terminate within
      the fuel [remaining]; the invariant [run_invariant] holds in
      every reachable configuration; stages never go backwards; the
      transition relation is a function.
    - [Observer]: the monitor follows the machine transition by
      transition, so the trace of every reachable configuration is
      read by the monitor, and is accepted when the run is over.
    - [Liveness]: every run reaches a final configuration in which
      it has raised or logged, as its last record, how it went; a
      panorama that [create_panorama] has returned is written and
      reported; the files still to decode are all decoded.
    - [Spec]: [create_panorama] and [main] compute the specified
      outcome; every run follows a path of the specified state graph.
    - [Engine]: under [StitcherLaws] a run writes only when two
      image files or more were discovered, a run on a single image
      file logs the code 1 and writes nothing, and every status in
      the log is 1, 2 or 3; the staged engine keeps the contract
      whatever its stages compute, and answers [OK] exactly when two
      images or more are kept and the cameras are estimated and
      adjusted.
    - [Rerun], [FileSystem]: a run is a function of its command line
      and file system, and of the file system it looks at the image
      files of the input directory only ([same_images]): entries with
      other extensions do not change what it does; a second run repeats the first when the
      first leaves the input directory as it was; on a file system
      with listings that holds when the input directory is not the
      working directory, and fails when it is, because
      [panorama_output.jpg] is then an input of the second run; what
      is read back from the output file is the panorama as JPEG
      keeps it, the panorama itself exactly when it survives JPEG.
    - [Logging], [Platform]: the line the format string produces, and
      which logging calls pass the threshold.
    - [Args], [Usage]: [parse_args] yields a directory exactly on the
      command lines of the grammar, which are the sequences of
      occurrences of the option in one of its ten spellings, and the
      directory is the value of the last one; a value given with [=]
      is taken as it is, a value in an argument string of its own must
      not read as an option; the exit code of the parser is 0 or 2 and
      that of the program 0, 1 or 2; [main] lists the directory the
      command line names.
    - [EndToEnd]: the whole platform keeps the laws of the three
      interfaces; on it [main] writes exactly when the pipeline goes
      through, from the usage of the option to the adjusted cameras,
      the panorama is the composition of the images the engine kept,
      and the output file holds it as JPEG keeps it.

    ** Fuel and bounds

    The only loop of the program is the comprehension of line 16; the
    machine runs it one file per transition.  [remaining] gives the
    fuel: [9 + n] transitions from [Start] for [n] discovered files
    ([8 + n] are taken on the longest path), and it decreases by at
    least one on every transition, so [run (remaining c) c] is final
    for every [c].  The interpreter [run_tree] of [Tree] takes fuel
    because an interaction tree is not an inductive object: one unit
    per node.  [main_fuel n] is [n + 9] for [n] files read, which is
    what the longest run uses (eleven nodes for two files); against
    an arbitrary environment the fuel is the number of calls of the
    run and one more, and for a run that a raising call interrupts
    the calls of the script it is part of and one more.  The result
    does not change with more.  No other definition needs fuel: every
    function of the model is structurally recursive.  Statuses of the
    engine are [Z], as Python's integers are unbounded; nothing in
    the source depends on a machine width.  The bounds of [Trace] are exact on
    the longest run: three records, and eight events besides one
    decoding per discovered file.

    ** Assumptions of the model

    - [lower] maps the letters [A]-[Z] and leaves every other
      character alone; [str.lower] also maps letters outside ASCII.
      The relation [lowers] of [PyStr] covers every such lower-casing,
      and [is_image_file_unicode] shows that the extension test gives
      the same answer on all of them.
    - [path_join] is [os.path.join] of [posixpath], with two
      arguments.
    - In the monadic model [stitch] and [imread] are functions: the
      engine and the decoder are deterministic in the images and the
      file system.  [Env] drops the assumption: its theorems hold
      for libraries that answer anything, from any state.  [listdir]
      is a function too; the arbitrary order of [os.listdir] is the
      subject of [Order], which compares runs on file systems that
      list the same entries in different orders.  [stitch]
      takes the list as Python holds it, [None] included, so the guard
      of line 18 is visible in the model.
    - In the monadic model [imread], [stitch] and [imwrite] do not
      raise; its exceptions are [SystemExit] from [parse_args] and
      [OSError] from [listdir].  [Raising] drops the assumption:
      there every call may raise, and the run ends where one does.
      A call that raises leaves the file system as it is, the
      writer included: what a write that fails half-way leaves
      behind is not modelled.  [silent] of [Replay] and [quiet] of
      [Raising] are devices of the proofs (the answers of the run an
      interrupted run is compared with, and of a replay that has run
      out); no theorem depends on what they answer.
    - [Module argparse] of [Args] follows the parser of CPython 3.8
      to 3.11 on the parser that lines 55-56 build.  It is written
      from the behaviour of the library, whose code is not part of the
      repository.  The argument strings [--] and [-h=] are treated
      differently by different versions of the interpreter;
      [argparse.parse_args] is [None] on a command line that contains
      one of them, and [ArgparseLaws] assumes nothing there.  The
      texts of the usage and help messages are not produced: the
      result of the parser is the directory or the exit code.
    - [imwrite_format] of [Codec] follows the way OpenCV finds an
      encoder: the text after the last dot of the name, its leading
      letters and digits, compared without case.  Of its formats the
      file has JPEG and PNG, the formats of the extensions
      [scan_images] accepts.  The file system of [FileSystem] fails a
      write to a name without encoder, where OpenCV raises; [main]
      writes to [panorama_output.jpg] only.
    - [StitcherLaws] and the stages of [Engine] are written from the
      behaviour of OpenCV's [Stitcher], whose code is not part of the
      repository: the four status codes, "need more images" for
      fewer than two images before and after matching, and a
      panorama with the status [OK] only.  The theorems that depend
      on the contract name it as a hypothesis.
    - In [Tree] an exception of [parse_args] or [os.listdir] is an
      answer of the library that ends the run: the trees of
      [scan_images] and [main] return an [outcome], as no function
      of [main.py] catches anything.
    - The time stamp of a log record is an argument of
      [format_record]; handlers and streams are not modelled: a record
      that passes the threshold is an event of the trace.

    ** Not modelled

    The stitching algorithm and the image codecs are library code
    that the source only calls; they are the parameters [stitch],
    [imread] and [imwrite] of [Platform], and what the theorems need
    of them is stated in [PlatformLaws] and [StitcherLaws].  Of the
    engine the development has the contract and the order of the
    stages with the status each failure gives; what the stages
    compute (feature detection and matching, homography estimation,
    bundle adjustment, warping, seam finding, blending) is a
    parameter ([Stages]).  Of the codecs it has the choice of the
    format by the file name and the difference between a lossless
    and a lossy format; the bit streams and the pixel arithmetic are
    not modelled.  [Mock], [FileSystem] and the stages and codec of
    the witnesses instantiate the parameters for scenarios and make
    no claim about OpenCV.  Every line of [main.py] that does
    something is modelled; what remains outside is behind the
    interface and cannot be modelled from the repository: the
    content of images, the handlers and streams of [logging], the
    texts [argparse] prints, and memory use, timing and signals. *)

From Stdlib Require Import List String Ascii Bool Arith Lia.
Import ListNotations.

Declare Scope pano_scope.
Delimit Scope pano_scope with pano.

Create HintDb pano.
Create Rewrite HintDb pano.

(** ** Tactics *)

Ltac inv H := inversion H; subst; clear H.

Ltac destruct_match :=
  match goal with
  | |- context [match ?x with _ => _ end] => destruct x eqn:?
  | H : context [match ?x with _ => _ end] |- _ => destruct x eqn:?
  end.

Ltac bool_prop :=
  repeat rewrite ?andb_true_iff, ?orb_true_iff, ?negb_true_iff,
    ?andb_false_iff, ?orb_false_iff, ?negb_false_iff in *.

(** ** Options: Python's [x is None] *)

Definition is_none {A : Type} (o : option A) : bool :=
  match o with
  | None => true
  | Some _ => false
  end.

Definition is_nil {A : Type} (l : list A) : bool :=
  match l with
  | [] => true
  | _ :: _ => false
  end.

Lemma is_none_true {A : Type} (o : option A) : is_none o = true <-> o = None.
Proof. destruct o; simpl; split; congruence. Qed.

Lemma is_none_false {A : Type} (o : option A) :
  is_none o = false <-> exists a, o = Some a.
Proof.
  destruct o; simpl; split; try congruence; eauto.
  intros [a Ha]; discriminate.
Qed.

Lemma is_nil_true {A : Type} (l : list A) : is_nil l = true <-> l = [].
Proof. destruct l; simpl; split; congruence. Qed.

Lemma is_nil_false {A : Type} (l : list A) : is_nil l = false <-> l <> [].
Proof. destruct l; simpl; split; congruence. Qed.

#[export] Hint Rewrite @is_none_true @is_none_false @is_nil_true @is_nil_false : pano.

(** ** Lists *)

Section Lists.
Context {A B : Type}.
Implicit Types (l : list A) (f : A -> bool).

Lemma existsb_map (g : B -> A) f (l : list B) :
  existsb f (map g l) = existsb (fun x => f (g x)) l.
Proof. induction l as [|x l IH]; simpl; congruence. Qed.

Lemma forallb_map (g : B -> A) f (l : list B) :
  forallb f (map g l) = forallb (fun x => f (g x)) l.
Proof. induction l as [|x l IH]; simpl; congruence. Qed.

Lemma existsb_negb_forallb f l :
  existsb (fun x => negb (f x)) l = negb (forallb f l).
Proof.
  induction l as [|x l IH]; simpl; auto.
  rewrite IH, negb_andb. reflexivity.
Qed.

Lemma existsb_false_iff f l :
  existsb f l = false <-> forall x, In x l -> f x = false.
Proof.
  induction l as [|x l IH]; simpl.
  - tauto.
  - rewrite orb_false_iff, IH. firstorder congruence.
Qed.

Lemma filter_nil_iff f l :
  filter f l = [] <-> existsb f l = false.
Proof.
  induction l as [|x l IH]; simpl; [tauto|].
  destruct (f x); simpl; [split; discriminate | exact IH].
Qed.

Lemma filter_all_false f l :
  (forall x, In x l -> f x = false) -> filter f l = [].
Proof. intros H. apply filter_nil_iff, existsb_false_iff, H. Qed.

Lemma map_eq_nil_iff (g : A -> B) l : map g l = [] <-> l = [].
Proof. destruct l; simpl; split; congruence. Qed.

Lemma is_nil_map (g : A -> B) l : is_nil (map g l) = is_nil l.
Proof. destruct l; reflexivity. Qed.

Lemma is_nil_length l : is_nil l = (List.length l =? 0).
Proof. destruct l; reflexivity. Qed.

End Lists.

(** ** Strings *)

Section Strings.
Open Scope string_scope.
Implicit Types (s p t : string) (c : ascii).

Lemma str_app_nil_r s : s ++ "" = s.
Proof. induction s; simpl; congruence. Qed.

Lemma str_app_assoc s p t : (s ++ p) ++ t = s ++ (p ++ t).
Proof. induction s; simpl; congruence. Qed.

Lemma str_length_app s p :
  String.length (s ++ p) = String.length s + String.length p.
Proof. induction s; simpl; congruence. Qed.

Lemma str_app_inv_head s p t : s ++ p = s ++ t -> p = t.
Proof. induction s; simpl; intros H; [auto|inversion H; auto]. Qed.

Lemma substring_full s : substring 0 (String.length s) s = s.
Proof. induction s; simpl; congruence. Qed.

Lemma substring_skip p s n m :
  substring (String.length p + n) m (p ++ s) = substring n m s.
Proof. induction p; simpl; auto. Qed.

Lemma substring_app_r p s :
  substring (String.length p) (String.length s) (p ++ s) = s.
Proof.
  rewrite <- (Nat.add_0_r (String.length p)), substring_skip.
  apply substring_full.
Qed.

Lemma substring_split s n m :
  n + m = String.length s -> substring 0 n s ++ substring n m s = s.
Proof.
  revert n m; induction s as [|c s IH]; intros [|n] m H; simpl in *; try lia.
  - destruct m; reflexivity.
  - destruct m as [|m]; [lia|]. injection H as H. f_equal.
    subst m. apply substring_full.
  - f_equal. apply IH. lia.
Qed.

End Strings.

#[export] Hint Rewrite str_app_nil_r str_app_assoc str_length_app
  substring_full substring_app_r : pano.
