(* ===== verification/Monad.v ===== *)
(** * The effect monad of the pipeline

    Python code that reads and writes the outside world and may raise
    is modelled as a function from a state to an outcome and a new
    state.  [Returned a] is a normal return with value [a]; [Raised e]
    is an exception that no handler of the program catches ([main.py]
    has no [try]), so [bind] stops at the first one and keeps the state
    reached so far.  The file holds the monad, its laws up to pointwise
    equality [peq] (with the [Proper] instances that let [rewrite] work
    under [bind]), the traversal [mapM] that models a list
    comprehension with effects, and a small program logic:
    [preserves R m] says that every run of [m] relates the state
    before to the state after by [R]. *)

From Stdlib Require Import List Morphisms Setoid RelationClasses.
From S2P Require Import Prelude.
Import ListNotations.

Inductive outcome (E A : Type) : Type :=
| Returned (a : A)
| Raised (e : E).

Arguments Returned {E A} a.
Arguments Raised {E A} e.

Definition prog (S E A : Type) : Type := S -> outcome E A * S.

Definition ret {S E A : Type} (a : A) : prog S E A :=
  fun s => (Returned a, s).

Definition bind {S E A B : Type} (m : prog S E A) (k : A -> prog S E B) : prog S E B :=
  fun s =>
    match m s with
    | (Returned a, s') => k a s'
    | (Raised e, s') => (Raised e, s')
    end.

Definition raise {S E A : Type} (e : E) : prog S E A :=
  fun s => (Raised e, s).

Definition gets {S E A : Type} (f : S -> A) : prog S E A :=
  fun s => (Returned (f s), s).

Definition modify {S E : Type} (f : S -> S) : prog S E unit :=
  fun s => (Returned tt, f s).

Notation "x <- c1 ;; c2" := (bind c1 (fun x => c2))
  (at level 100, c1 at next level, c2 at level 200, right associativity) : pano_scope.
Notation "c1 ;; c2" := (bind c1 (fun _ => c2))
  (at level 100, c2 at level 200, right associativity) : pano_scope.

#[local] Open Scope pano_scope.

(** [mapM f l] runs [f] on every element of [l] from left to right
    and collects the results: the list comprehension [[f(x) for x in l]]
    when [f] has effects. *)
Fixpoint mapM {S E A B : Type} (f : A -> prog S E B) (l : list A) : prog S E (list B) :=
  match l with
  | [] => ret []
  | x :: xs => y <- f x ;; ys <- mapM f xs ;; ret (y :: ys)
  end.

Definition eval {S E A : Type} (m : prog S E A) (s : S) : outcome E A := fst (m s).
Definition exec {S E A : Type} (m : prog S E A) (s : S) : S := snd (m s).

(** Pointwise equality of programs. *)
Definition peq {S E A : Type} (m1 m2 : prog S E A) : Prop :=
  forall s, m1 s = m2 s.

Infix "≅" := peq (at level 70, no associativity) : pano_scope.

(** [preserves R m]: the state after any run of [m], whether it
    returns or raises, is related by [R] to the state before. *)
Definition preserves {S E A : Type} (R : S -> S -> Prop) (m : prog S E A) : Prop :=
  forall s, R s (exec m s).

(** [returns m]: [m] never raises. *)
Definition returns {S E A : Type} (m : prog S E A) : Prop :=
  forall s, exists a, eval m s = Returned a.

Section Laws.
Context {S E : Type}.

#[export] Instance peq_equiv {A : Type} : Equivalence (@peq S E A).
Proof.
  split; red; unfold peq; intros; congruence.
Qed.

#[export] Instance bind_proper {A B : Type} :
  Proper (peq ==> pointwise_relation A peq ==> peq) (@bind S E A B).
Proof.
  intros m1 m2 Hm k1 k2 Hk s. unfold bind. rewrite Hm.
  destruct (m2 s) as [[a|e] s']; auto. apply Hk.
Qed.

Lemma bind_ret_l {A B : Type} (a : A) (k : A -> prog S E B) :
  (x <- ret a ;; k x) ≅ k a.
Proof. intro s; reflexivity. Qed.

Lemma bind_ret_r {A : Type} (m : prog S E A) :
  (x <- m ;; ret x) ≅ m.
Proof. intro s; unfold bind, ret. destruct (m s) as [[a|e] s']; reflexivity. Qed.

Lemma bind_assoc {A B C : Type} (m : prog S E A) (k : A -> prog S E B)
  (h : B -> prog S E C) :
  (y <- (x <- m ;; k x) ;; h y) ≅ (x <- m ;; y <- k x ;; h y).
Proof. intro s; unfold bind. destruct (m s) as [[a|e] s']; reflexivity. Qed.

Lemma bind_raise {A B : Type} (e : E) (k : A -> prog S E B) :
  (x <- raise e ;; k x) ≅ raise e.
Proof. intro s; reflexivity. Qed.

(** Running a [bind]: the two cases of the first computation. *)
Lemma bind_returned {A B : Type} (m : prog S E A) (k : A -> prog S E B) s a s' :
  m s = (Returned a, s') -> bind m k s = k a s'.
Proof. intros H; unfold bind; rewrite H; reflexivity. Qed.

Lemma bind_raised {A B : Type} (m : prog S E A) (k : A -> prog S E B) s e s' :
  m s = (Raised e, s') -> bind m k s = (Raised e, s').
Proof. intros H; unfold bind; rewrite H; reflexivity. Qed.

Lemma mapM_app {A B : Type} (f : A -> prog S E B) (l1 l2 : list A) :
  mapM f (l1 ++ l2) ≅ (ys1 <- mapM f l1 ;; ys2 <- mapM f l2 ;; ret (ys1 ++ ys2)).
Proof.
  induction l1 as [|x l1 IH]; intro s; simpl.
  - unfold bind, ret. destruct (mapM f l2 s) as [[ys|e] s']; reflexivity.
  - unfold peq, bind, ret in *.
    destruct (f x s) as [[y|e] s1]; [|reflexivity]. rewrite (IH s1).
    destruct (mapM f l1 s1) as [[ys1|e] s2]; [|reflexivity].
    destruct (mapM f l2 s2) as [[ys2|e] s3]; reflexivity.
Qed.

(** A traversal whose body always returns, returns a list as long as
    its input. *)
Lemma mapM_length {A B : Type} (f : A -> prog S E B) (l : list A) s ys s' :
  mapM f l s = (Returned ys, s') -> length ys = length l.
Proof.
  revert s ys s'. induction l as [|x l IH]; simpl; intros s ys s' H.
  - inv H. reflexivity.
  - unfold bind in H. destruct (f x s) as [[y|e] s1]; [|discriminate].
    destruct (mapM f l s1) as [[ys'|e] s2] eqn:Hl; [|discriminate].
    inv H. simpl. f_equal. eauto.
Qed.

Section Preserves.
Context (R : S -> S -> Prop) {HR : PreOrder R}.

Lemma preserves_ret {A : Type} (a : A) : preserves R (@ret S E A a).
Proof. intro s. unfold exec; simpl. reflexivity. Qed.

Lemma preserves_raise {A : Type} (e : E) : preserves R (@raise S E A e).
Proof. intro s. unfold exec; simpl. reflexivity. Qed.

Lemma preserves_gets {A : Type} (f : S -> A) : preserves R (@gets S E A f).
Proof. intro s. unfold exec; simpl. reflexivity. Qed.

Lemma preserves_bind {A B : Type} (m : prog S E A) (k : A -> prog S E B) :
  preserves R m -> (forall a, preserves R (k a)) -> preserves R (bind m k).
Proof.
  intros Hm Hk s. specialize (Hm s). unfold exec, bind in *.
  destruct (m s) as [[a|e] s']; simpl in *; auto.
  etransitivity; [exact Hm|]. apply Hk.
Qed.

Lemma preserves_mapM {A B : Type} (f : A -> prog S E B) (l : list A) :
  (forall a, preserves R (f a)) -> preserves R (mapM f l).
Proof.
  intros Hf. induction l as [|x l IH]; simpl.
  - apply preserves_ret.
  - apply preserves_bind; [apply Hf|]. intros y.
    apply preserves_bind; [apply IH|]. intros ys. apply preserves_ret.
Qed.

Lemma preserves_if {A : Type} (b : bool) (m1 m2 : prog S E A) :
  preserves R m1 -> preserves R m2 -> preserves R (if b then m1 else m2).
Proof. destruct b; auto. Qed.

End Preserves.

Lemma returns_ret {A : Type} (a : A) : returns (@ret S E A a).
Proof. intro s; exists a; reflexivity. Qed.

Lemma returns_bind {A B : Type} (m : prog S E A) (k : A -> prog S E B) :
  returns m -> (forall a, returns (k a)) -> returns (bind m k).
Proof.
  intros Hm Hk s. destruct (Hm s) as [a Ha]. unfold eval, bind in *.
  destruct (m s) as [[a'|e] s']; simpl in Ha; [|discriminate].
  apply Hk.
Qed.

Lemma returns_mapM {A B : Type} (f : A -> prog S E B) (l : list A) :
  (forall a, returns (f a)) -> returns (mapM f l).
Proof.
  intros Hf. induction l as [|x l IH]; simpl.
  - apply returns_ret.
  - apply returns_bind; [apply Hf|]. intros y.
    apply returns_bind; [apply IH|]. intros ys. apply returns_ret.
Qed.

Lemma returns_if {A : Type} (b : bool) (m1 m2 : prog S E A) :
  returns m1 -> returns m2 -> returns (if b then m1 else m2).
Proof. destruct b; auto. Qed.

End Laws.

#[export] Hint Resolve preserves_ret preserves_raise preserves_gets preserves_bind
  preserves_mapM preserves_if returns_ret returns_bind returns_mapM returns_if : pano.
