(* ===== verification/PyStr.v ===== *)
(** * Python string operations used by [main.py]

    [scan_images] tests every directory entry with
    [f.lower().endswith(('.jpg', '.jpeg', '.png'))] and builds the
    path with [os.path.join(directory, f)]; the log messages are
    f-strings that print an [int].  This file models those library
    calls on [string]:

    - [lower] is [str.lower] on ASCII: the letters [A]..[Z] move to
      [a]..[z] and every other character is kept.  Python also maps
      upper-case code points outside ASCII; the only ones whose
      lower-case form contains an ASCII character are U+0130 (giving
      [i]) and the Kelvin sign U+212A (giving [k]).  As the supported
      extensions are made of the characters [.], [e], [g], [j], [n],
      [p] only, the extension test gives the same answer:
      [endswith_lowers] proves it for every lower-casing in the sense
      of the relation [lowers];
    - [endswith] compares the last [len(suffix)] characters, as
      CPython's tail match does, and [endswith_any] is the tuple form;
    - [path_join] is POSIX [os.path.join] on two components;
    - [str_of_nat] and [str_of_Z] are [str(int)], in decimal. *)

From Stdlib Require Import List String Ascii Bool Arith ZArith Lia.
From Stdlib Require Import DecimalString DecimalNat DecimalPos DecimalZ.
From S2P Require Import Prelude.
Import ListNotations.

#[local] Open Scope string_scope.

Definition is_upper_ascii (c : ascii) : bool :=
  let n := nat_of_ascii c in ((65 <=? n) && (n <=? 90))%nat.

Definition lower_char (c : ascii) : ascii :=
  if is_upper_ascii c then ascii_of_nat (nat_of_ascii c + 32) else c.

Fixpoint lower (s : string) : string :=
  match s with
  | EmptyString => EmptyString
  | String c s' => String (lower_char c) (lower s')
  end.

(** Characters of the ASCII range. *)
Definition is_ascii (c : ascii) : bool := (nat_of_ascii c <? 128)%nat.

(** Every character of [s] satisfies [f]. *)
Fixpoint all_chars (f : ascii -> bool) (s : string) : bool :=
  match s with
  | EmptyString => true
  | String c s' => f c && all_chars f s'
  end.

(** [lowers plain s t]: [t] is a lower-casing of [s] that agrees with
    [lower] on ASCII and is free on everything else, up to one
    constraint: what replaces a run of characters outside ASCII ends
    in a character that is not [plain].  The characters of a string
    may be read as code points (rules [lowers_nil], [lowers_ascii],
    [lowers_last]) or as the bytes of its UTF-8 encoding, where a code
    point outside ASCII is a run of bytes outside ASCII and
    [lowers_run] consumes the bytes before the last. *)
Inductive lowers (plain : ascii -> bool) : string -> string -> Prop :=
| lowers_nil : lowers plain "" ""
| lowers_ascii c s t :
    is_ascii c = true -> lowers plain s t ->
    lowers plain (String c s) (String (lower_char c) t)
| lowers_last c q d s t :
    is_ascii c = false -> plain d = false -> lowers plain s t ->
    lowers plain (String c s) (q ++ String d t)
| lowers_run c c' q s t :
    is_ascii c = false -> is_ascii c' = false ->
    lowers plain (String c' s) t ->
    lowers plain (String c (String c' s)) (q ++ t).

Definition endswith (s suffix : string) : bool :=
  let n := String.length s in
  let k := String.length suffix in
  if (k <=? n)%nat then String.eqb (substring (n - k) k s) suffix else false.

Definition endswith_any (s : string) (suffixes : list string) : bool :=
  existsb (endswith s) suffixes.

Definition startswith (s pre : string) : bool := String.prefix pre s.

(** [posixpath.join(a, b)]: an absolute [b] or an empty [a] gives [b];
    otherwise exactly one separator stands between the two. *)
Definition path_join (a b : string) : string :=
  if startswith b "/" || String.eqb a "" then b
  else if endswith a "/" then a ++ b
  else a ++ "/" ++ b.

Definition str_of_nat (n : nat) : string :=
  NilEmpty.string_of_uint (Nat.to_uint n).

Definition str_of_Z (z : Z) : string :=
  NilZero.string_of_int (Z.to_int z).

(** ** [lower] *)

Section Lower.
Implicit Types (s p : string) (c : ascii).

Lemma lower_char_idem c : lower_char (lower_char c) = lower_char c.
Proof. destruct c as [[] [] [] [] [] [] [] []]; reflexivity. Qed.

Lemma lower_char_not_upper c : is_upper_ascii (lower_char c) = false.
Proof. destruct c as [[] [] [] [] [] [] [] []]; reflexivity. Qed.

Lemma lower_char_fixed c : is_upper_ascii c = false -> lower_char c = c.
Proof. unfold lower_char; intros ->; reflexivity. Qed.

Lemma lower_idem s : lower (lower s) = lower s.
Proof. induction s; simpl; [|rewrite lower_char_idem]; congruence. Qed.

Lemma lower_length s : String.length (lower s) = String.length s.
Proof. induction s; simpl; congruence. Qed.

Lemma lower_app s p : lower (s ++ p) = lower s ++ lower p.
Proof. induction s; simpl; congruence. Qed.

End Lower.

(** ** [endswith] *)

Section Endswith.
Implicit Types (s p suffix : string).

Lemma endswith_app p suffix : endswith (p ++ suffix) suffix = true.
Proof.
  unfold endswith. rewrite str_length_app.
  destruct (Nat.leb_spec (String.length suffix)
              (String.length p + String.length suffix)); [|lia].
  rewrite Nat.add_sub, substring_app_r. apply String.eqb_refl.
Qed.

Lemma endswith_spec s suffix :
  endswith s suffix = true <-> exists p, s = p ++ suffix.
Proof.
  split.
  - unfold endswith.
    destruct (Nat.leb_spec (String.length suffix) (String.length s)) as [Hle|];
      [|discriminate].
    intros H%String.eqb_eq.
    exists (substring 0 (String.length s - String.length suffix) s).
    rewrite <- (substring_split s (String.length s - String.length suffix)
                  (String.length suffix)) at 1 by lia.
    f_equal. exact H.
  - intros [p ->]. apply endswith_app.
Qed.

Lemma endswith_length s suffix :
  endswith s suffix = true -> String.length suffix <= String.length s.
Proof. intros [p ->]%endswith_spec. rewrite str_length_app. lia. Qed.

Lemma endswith_refl s : endswith s s = true.
Proof. apply endswith_spec. exists "". reflexivity. Qed.

Lemma endswith_extend p s suffix :
  endswith s suffix = true -> endswith (p ++ s) suffix = true.
Proof.
  intros [q ->]%endswith_spec. apply endswith_spec.
  exists (p ++ q). symmetry. apply str_app_assoc.
Qed.

Lemma endswith_trans s p suffix :
  endswith s p = true -> endswith p suffix = true -> endswith s suffix = true.
Proof. intros [q ->]%endswith_spec H. apply endswith_extend, H. Qed.

Lemma endswith_lower s suffix :
  endswith s suffix = true -> endswith (lower s) (lower suffix) = true.
Proof. intros [q ->]%endswith_spec. rewrite lower_app. apply endswith_app. Qed.

Lemma endswith_any_spec s suffixes :
  endswith_any s suffixes = true <->
  exists suffix p, In suffix suffixes /\ s = p ++ suffix.
Proof.
  unfold endswith_any. rewrite existsb_exists. split.
  - intros (suffix & Hin & [p Hp]%endswith_spec). eauto.
  - intros (suffix & p & Hin & ->). exists suffix. split; [auto|apply endswith_app].
Qed.

End Endswith.

(** ** Lower-casing beyond ASCII

    [str.lower] maps code points outside ASCII too, and the final
    sigma depends on its context.  The test of a suffix made of
    [plain] ASCII characters does not see the difference: it gives the
    same answer on every lower-casing in the sense of [lowers]. *)

Section Lowerings.
Variable plain : ascii -> bool.
Implicit Types (s t q suffix : string) (c d : ascii).

(** The characters a suffix may be made of. *)
Definition plain_ascii (d : ascii) : bool := is_ascii d && plain d.

Lemma is_ascii_lower_char c : is_ascii (lower_char c) = is_ascii c.
Proof. destruct c as [[] [] [] [] [] [] [] []]; reflexivity. Qed.

Lemma lower_char_not_ascii c : is_ascii c = false -> lower_char c = c.
Proof. destruct c as [[] [] [] [] [] [] [] []]; (discriminate || reflexivity). Qed.

Lemma all_chars_app f s t : all_chars f (s ++ t) = all_chars f s && all_chars f t.
Proof. induction s as [|c s IH]; simpl; [|rewrite IH, andb_assoc]; reflexivity. Qed.

Lemma endswith_cons c s suffix :
  endswith (String c s) suffix = endswith s suffix || String.eqb (String c s) suffix.
Proof.
  apply eq_iff_eq_true.
  rewrite orb_true_iff, String.eqb_eq, !endswith_spec. split.
  - intros [[|a p] Hp]; [right; exact Hp|left].
    injection Hp as _ Hp. eauto.
  - intros [[p ->]|<-]; [exists (String c p)|exists ""]; reflexivity.
Qed.

(** A suffix of plain characters cannot reach across a character that
    is not plain. *)
Lemma endswith_not_plain q d t suffix :
  plain d = false -> all_chars plain_ascii suffix = true ->
  endswith (q ++ String d t) suffix = endswith t suffix.
Proof.
  intros Hd Hsuf.
  assert (Hno : forall q', String.eqb (q' ++ String d t) suffix = false).
  { intros q'. apply String.eqb_neq. intros <-.
    rewrite all_chars_app in Hsuf. simpl in Hsuf. unfold plain_ascii in Hsuf at 2.
    rewrite Hd, andb_false_r, andb_false_r in Hsuf. discriminate. }
  induction q as [|a q IH]; cbn [append]; rewrite endswith_cons.
  - pose proof (Hno "") as H0. cbn [append] in H0. rewrite H0. apply orb_false_r.
  - pose proof (Hno (String a q)) as H0. cbn [append] in H0.
    rewrite IH, H0. apply orb_false_r.
Qed.

(** The model's [lower] is one of the lower-casings. *)
Lemma lowers_lower s :
  (forall d, plain d = true -> is_ascii d = true) -> lowers plain s (lower s).
Proof.
  intros Hplain. induction s as [|c s IH]; simpl; [constructor|].
  destruct (is_ascii c) eqn:Hc; [constructor; assumption|].
  rewrite (lower_char_not_ascii c Hc). apply (lowers_last plain c "" c); auto.
  destruct (plain c) eqn:Hp; [|reflexivity]. apply Hplain in Hp. congruence.
Qed.

(** A lower-casing made of plain characters only is [lower]. *)
Lemma lowers_plain s t :
  lowers plain s t -> all_chars plain_ascii t = true -> t = lower s.
Proof.
  induction 1 as [|c s t Hc _ IH|c q d s t Hc Hd _ _|c c' q s t Hc Hc' _ IH];
    simpl; intros Hall.
  - reflexivity.
  - apply andb_true_iff in Hall as [_ Hall]. f_equal. auto.
  - rewrite all_chars_app in Hall. simpl in Hall. unfold plain_ascii in Hall at 2.
    rewrite Hd, andb_false_r, andb_false_r in Hall. discriminate.
  - rewrite all_chars_app in Hall. apply andb_true_iff in Hall as [_ Hall].
    specialize (IH Hall). simpl in IH.
    rewrite IH in Hall. simpl in Hall. unfold plain_ascii in Hall at 1.
    rewrite is_ascii_lower_char, Hc' in Hall. discriminate.
Qed.

(** The lower-casing of a string of ASCII characters is [lower]. *)
Lemma lowers_ascii_only s t :
  lowers plain s t -> all_chars is_ascii (lower s) = true -> t = lower s.
Proof.
  induction 1 as [|c s t Hc _ IH|c q d s t Hc Hd _ _|c c' q s t Hc Hc' _ _];
    simpl; rewrite ?is_ascii_lower_char; intros Hall.
  - reflexivity.
  - apply andb_true_iff in Hall as [_ Hall]. f_equal. auto.
  - rewrite Hc in Hall. discriminate.
  - rewrite Hc in Hall. discriminate.
Qed.

Lemma all_chars_plain_ascii s :
  all_chars plain_ascii s = true -> all_chars is_ascii s = true.
Proof.
  induction s as [|c s IH]; simpl; [reflexivity|]. unfold plain_ascii at 1.
  intros [[-> _]%andb_true_iff H]%andb_true_iff. auto.
Qed.

(** What replaces a string that starts outside ASCII contains a
    character that is not plain, and a plain suffix lies behind it. *)
Lemma lowers_run_tail c s t suffix :
  lowers plain (String c s) t -> is_ascii c = false ->
  all_chars plain_ascii suffix = true ->
  forall q, endswith (q ++ t) suffix = endswith t suffix.
Proof.
  intros H. remember (String c s) as cs eqn:Hcs. revert c s Hcs.
  induction H as [|a s t Ha _ _|a q' d s t Ha Hd _ _|a a' q' s t Ha Ha' _ IH];
    intros c s0 Hcs Hc Hsuf q; inversion Hcs; subst.
  - congruence.
  - rewrite <- str_app_assoc, !endswith_not_plain by assumption. reflexivity.
  - rewrite <- str_app_assoc, !(IH _ _ eq_refl Ha' Hsuf). reflexivity.
Qed.

(** The suffix test gives the same answer on every lower-casing. *)
Lemma endswith_lowers s t suffix :
  lowers plain s t -> all_chars plain_ascii suffix = true ->
  endswith t suffix = endswith (lower s) suffix.
Proof.
  intros H Hsuf.
  assert (Hhead : forall c x, is_ascii c = false ->
            endswith (String c x) suffix = endswith x suffix).
  { intros c x Hc. rewrite endswith_cons.
    replace (String.eqb (String c x) suffix) with false; [apply orb_false_r|].
    symmetry. apply String.eqb_neq. intros <-. simpl in Hsuf.
    unfold plain_ascii in Hsuf at 1. rewrite Hc in Hsuf. discriminate. }
  induction H as [|c s t Hc H IH|c q d s t Hc Hd _ IH|c c' q s t Hc Hc' H IH].
  - reflexivity.
  - simpl. rewrite !endswith_cons, IH. f_equal.
    apply eq_iff_eq_true. rewrite !String.eqb_eq. split; intros <-; f_equal;
      simpl in Hsuf; apply andb_true_iff in Hsuf as [_ Hsuf].
    + symmetry. eapply lowers_plain; eauto.
    + eapply lowers_ascii_only; eauto using all_chars_plain_ascii.
  - simpl. rewrite (lower_char_not_ascii c Hc), (Hhead _ _ Hc).
    rewrite endswith_not_plain by assumption. exact IH.
  - rewrite (lowers_run_tail _ _ _ _ H Hc' Hsuf), IH.
    change (lower (String c (String c' s))) with (String (lower_char c) (lower (String c' s))).
    rewrite (lower_char_not_ascii c Hc), (Hhead _ _ Hc). reflexivity.
Qed.

End Lowerings.

(** ** [path_join] *)

Section PathJoin.
Implicit Types (a b : string).

Lemma startswith_empty pre : startswith "" pre = String.eqb pre "".
Proof. destruct pre; reflexivity. Qed.

Lemma startswith_char c s (x : ascii) :
  startswith (String c s) (String x "") = Ascii.eqb x c.
Proof.
  unfold startswith. simpl.
  destruct (ascii_dec x c) as [->|Hne].
  - rewrite Ascii.eqb_refl. destruct s; reflexivity.
  - symmetry. apply Ascii.eqb_neq, Hne.
Qed.

Lemma path_join_endswith a b : endswith (path_join a b) b = true.
Proof.
  unfold path_join.
  destruct (startswith b "/" || String.eqb a ""); [apply endswith_refl|].
  destruct (endswith a "/"); [apply endswith_app|].
  rewrite <- str_app_assoc. apply endswith_app.
Qed.

Lemma path_join_empty b : path_join "" b = b.
Proof. unfold path_join. rewrite String.eqb_refl, orb_true_r. reflexivity. Qed.

Lemma path_join_absolute a b : startswith b "/" = true -> path_join a b = b.
Proof. unfold path_join. intros ->. reflexivity. Qed.

Lemma path_join_relative a b :
  a <> "" -> startswith b "/" = false ->
  path_join a b = a ++ (if endswith a "/" then "" else "/") ++ b.
Proof.
  intros Ha Hb. unfold path_join. rewrite Hb.
  destruct (String.eqb_spec a ""); [contradiction|]. simpl.
  destruct (endswith a "/"); reflexivity.
Qed.

Lemma path_join_inj a b b' :
  startswith b "/" = false -> startswith b' "/" = false ->
  path_join a b = path_join a b' -> b = b'.
Proof.
  intros Hb Hb'. destruct (String.eqb_spec a "") as [->|Ha].
  - rewrite !path_join_empty. auto.
  - rewrite !path_join_relative by assumption.
    intros H%str_app_inv_head%str_app_inv_head. exact H.
Qed.

End PathJoin.

(** ** Decimal printing *)

Section Decimal.

Lemma str_of_nat_inj n m : str_of_nat n = str_of_nat m -> n = m.
Proof.
  unfold str_of_nat. intros H.
  apply (f_equal NilEmpty.uint_of_string) in H.
  rewrite !NilEmpty.usu in H. injection H as H.
  apply DecimalNat.Unsigned.to_uint_inj, H.
Qed.

Lemma to_int_not_nil z :
  Z.to_int z <> Decimal.Pos Decimal.Nil /\ Z.to_int z <> Decimal.Neg Decimal.Nil.
Proof.
  destruct z; simpl; split; try discriminate; intros H; injection H;
    apply DecimalPos.Unsigned.to_uint_nonnil.
Qed.

Lemma str_of_Z_inj z z' : str_of_Z z = str_of_Z z' -> z = z'.
Proof.
  unfold str_of_Z. intros H.
  apply (f_equal NilZero.int_of_string) in H.
  rewrite !NilZero.isi in H by apply to_int_not_nil.
  injection H as H. apply DecimalZ.to_int_inj, H.
Qed.

End Decimal.

#[export] Hint Resolve endswith_app endswith_refl endswith_extend
  path_join_endswith endswith_lower : pano.
#[export] Hint Rewrite lower_idem lower_length lower_app path_join_empty : pano.
