(* ===== verification/Logging.v ===== *)
(** * The logging configuration of [main.py]

    Line 9 of [main.py] configures the root logger once, when the
    module is loaded: threshold [INFO] and the line format
    ["%(asctime)s - %(levelname)s - %(message)s"].  The pipeline then
    calls [logging.info], [logging.warning] and [logging.error].

    The model keeps what those calls depend on: the five standard
    levels with their numeric values, the threshold test
    [isEnabledFor], a log record with its level and message, and the
    [%]-style formatting of a record, interpreted from the format
    string itself by [percent_format] (a four-state scanner that
    understands [%(name)s] and [%%] and rejects anything else).  The
    time stamp is an input of [format_record]: the clock is outside
    the model. *)

From Stdlib Require Import List String Ascii Bool ZArith Lia.
From S2P Require Import Prelude.
Import ListNotations.

#[local] Open Scope string_scope.

Inductive Level : Type := DEBUG | INFO | WARNING | ERROR | CRITICAL.

Definition level_no (l : Level) : Z :=
  match l with
  | DEBUG => 10
  | INFO => 20
  | WARNING => 30
  | ERROR => 40
  | CRITICAL => 50
  end.

Definition levelname (l : Level) : string :=
  match l with
  | DEBUG => "DEBUG"
  | INFO => "INFO"
  | WARNING => "WARNING"
  | ERROR => "ERROR"
  | CRITICAL => "CRITICAL"
  end.

Definition Level_eqb (a b : Level) : bool := (level_no a =? level_no b)%Z.

Record LogRecord : Type := mkLogRecord {
  rec_level : Level;
  rec_message : string
}.

Record LogConfig : Type := mkLogConfig {
  cfg_level : Level;
  cfg_format : string
}.

(** [logging.basicConfig(level=logging.INFO, format=...)]. *)
Definition basicConfig : LogConfig :=
  {| cfg_level := INFO;
     cfg_format := "%(asctime)s - %(levelname)s - %(message)s" |}.

Definition isEnabledFor (cfg : LogConfig) (l : Level) : bool :=
  (level_no (cfg_level cfg) <=? level_no l)%Z.

(** The scanner of a [%]-style format: in running text, after a [%],
    inside the parentheses of a field name, and after the closing
    parenthesis where the conversion character is due. *)
Inductive fmt_state : Type :=
| FText
| FPercent
| FName (acc : string)
| FConv (name : string).

Fixpoint percent_format (st : fmt_state) (fields : string -> option string)
    (fmt : string) : option string :=
  match fmt with
  | EmptyString =>
      match st with
      | FText => Some EmptyString
      | _ => None
      end
  | String c rest =>
      match st with
      | FText =>
          if Ascii.eqb c "%" then percent_format FPercent fields rest
          else option_map (String c) (percent_format FText fields rest)
      | FPercent =>
          if Ascii.eqb c "%" then
            option_map (String c) (percent_format FText fields rest)
          else if Ascii.eqb c "(" then percent_format (FName "") fields rest
          else None
      | FName acc =>
          if Ascii.eqb c ")" then percent_format (FConv acc) fields rest
          else percent_format (FName (acc ++ String c "")) fields rest
      | FConv name =>
          if Ascii.eqb c "s" then
            match fields name, percent_format FText fields rest with
            | Some v, Some out => Some (v ++ out)
            | _, _ => None
            end
          else None
      end
  end.

(** The attributes of a record the format may name. *)
Definition record_fields (asctime : string) (r : LogRecord) (name : string)
    : option string :=
  if String.eqb name "asctime" then Some asctime
  else if String.eqb name "levelname" then Some (levelname (rec_level r))
  else if String.eqb name "message" then Some (rec_message r)
  else None.

Definition format_record (cfg : LogConfig) (asctime : string) (r : LogRecord)
    : option string :=
  percent_format FText (record_fields asctime r) (cfg_format cfg).

(** ** Levels *)

Section Levels.
Implicit Types (l : Level).

Lemma level_no_inj l l' : level_no l = level_no l' -> l = l'.
Proof. destruct l, l'; simpl; intros H; congruence || discriminate. Qed.

Lemma Level_eqb_eq l l' : Level_eqb l l' = true <-> l = l'.
Proof.
  unfold Level_eqb. rewrite Z.eqb_eq. split; [apply level_no_inj|congruence].
Qed.

Lemma levelname_inj l l' : levelname l = levelname l' -> l = l'.
Proof. destruct l, l'; simpl; intros H; congruence || discriminate. Qed.

Lemma isEnabledFor_mono cfg l l' :
  (level_no l <= level_no l')%Z ->
  isEnabledFor cfg l = true -> isEnabledFor cfg l' = true.
Proof. unfold isEnabledFor. rewrite !Z.leb_le. lia. Qed.

(** Under line 9's threshold exactly [DEBUG] is dropped. *)
Lemma basicConfig_enabled l : isEnabledFor basicConfig l = negb (Level_eqb l DEBUG).
Proof. destruct l; reflexivity. Qed.

End Levels.

(** ** Formatting *)

Section Formatting.

(** Running text without [%] is copied. *)
Lemma percent_format_text fields (s : string) :
  (forall c, In c (list_ascii_of_string s) -> c <> "%"%char) ->
  percent_format FText fields s = Some s.
Proof.
  induction s as [|c s IH]; simpl; intros H; [reflexivity|].
  destruct (Ascii.eqb_spec c "%") as [->|_].
  - exfalso. apply (H "%"%char); auto.
  - rewrite IH by auto. reflexivity.
Qed.

(** The format string of line 9, interpreted by the [%]-format
    scanner, renders a record as the time stamp, the level name and
    the message separated by [" - "]; in particular the scanner
    accepts the format string and finds each of its three fields. *)
Theorem format_record_basicConfig asctime r :
  format_record basicConfig asctime r =
  Some (asctime ++ " - " ++ levelname (rec_level r) ++ " - " ++ rec_message r).
Proof.
  unfold format_record, basicConfig; simpl.
  rewrite str_app_nil_r. reflexivity.
Qed.

End Formatting.
