(* ===== verification/Platform.v ===== *)
(** * The platform interface and the world

    [main.py] talks to four libraries: [argparse] for the command
    line, [os] for the directory listing, [cv2] (OpenCV) to decode,
    stitch and encode images, and [logging].  The class [Platform] is
    what the pipeline needs from the first three, as functions of the
    file-system state; nothing else is assumed of them, so every
    theorem proved over the class holds for any decoder, any stitching
    engine and any file system.  [PlatformLaws] states the few
    promises of OpenCV that individual theorems rely on.

    The state of a run is a [World]: the command line, the file
    system, and the trace of observable events in the order they
    happened (every library call and every emitted log record).  A
    Python function of [main.py] is a program of the monad
    [M = prog World Exn]; the primitives below are the library calls,
    each of which records its event. *)

From Stdlib Require Import String ZArith Bool Lia RelationClasses List.
From S2P Require Import Prelude Monad Logging.
Import ListNotations.

#[local] Open Scope string_scope.
#[local] Open Scope list_scope.
#[local] Open Scope pano_scope.

Create Rewrite HintDb run.

(** Exceptions that escape [main]: [os.listdir] raises [OSError] on a
    missing or unreadable directory, and [argparse] leaves through
    [SystemExit] on [-h] or on a malformed command line. *)
Inductive Exn : Type :=
| OSError (path : string)
| SystemExit (code : Z).

Class Platform : Type := {
  image : Type;
  fsys : Type;
  (** [parser.parse_args()] for the parser of [main]: the value of
      [--input_dir], or the exit code. *)
  parse_args : list string -> string + Z;
  (** [os.listdir]: the entries of a directory, [None] when it raises. *)
  listdir : string -> fsys -> option (list string);
  (** [cv2.imread]: the decoded image, [None] when the file is missing
      or cannot be decoded. *)
  imread : string -> fsys -> option image;
  (** [cv2.Stitcher_create().stitch]: a status code and, on success,
      the panorama. *)
  stitch : list (option image) -> Z * option image;
  (** [cv2.imwrite]: whether the file was written, and the file
      system after the call. *)
  imwrite : string -> image -> fsys -> bool * fsys
}.

(** [cv2.Stitcher_OK]. *)
Definition Stitcher_OK : Z := 0.

Inductive Event `{P : Platform} : Type :=
| EvParseArgs
| EvListdir (directory : string)
| EvImread (path : string)
| EvStitcherCreate
| EvStitch (images : list (option image))
| EvImwrite (file_name : string) (img : image)
| EvLog (lvl : Level) (msg : string).

Record World `{P : Platform} : Type := mkWorld {
  w_argv : list string;
  w_fs : fsys;
  w_trace : list Event
}.

Definition M `{P : Platform} (A : Type) : Type := prog World Exn A.

(** The world after the events [evs] have been observed. *)
Definition extend `{P : Platform} (w : World) (evs : list Event) : World :=
  {| w_argv := w_argv w; w_fs := w_fs w; w_trace := w_trace w ++ evs |}.

Definition set_fs `{P : Platform} (w : World) (s : fsys) : World :=
  {| w_argv := w_argv w; w_fs := s; w_trace := w_trace w |}.

Definition emit `{P : Platform} (e : Event) : M unit :=
  modify (fun w => extend w [e]).

Definition argparse_parse_args `{P : Platform} : M string :=
  fun w =>
    match parse_args (w_argv w) with
    | inl input_dir => (Returned input_dir, extend w [EvParseArgs])
    | inr code => (Raised (SystemExit code), extend w [EvParseArgs])
    end.

Definition os_listdir `{P : Platform} (directory : string) : M (list string) :=
  fun w =>
    match listdir directory (w_fs w) with
    | Some names => (Returned names, extend w [EvListdir directory])
    | None => (Raised (OSError directory), extend w [EvListdir directory])
    end.

Definition cv2_imread `{P : Platform} (path : string) : M (option image) :=
  fun w => (Returned (imread path (w_fs w)), extend w [EvImread path]).

Definition cv2_Stitcher_create `{P : Platform} : M unit :=
  emit EvStitcherCreate.

Definition stitcher_stitch `{P : Platform} (images : list (option image))
    : M (Z * option image) :=
  fun w => (Returned (stitch images), extend w [EvStitch images]).

Definition cv2_imwrite `{P : Platform} (file_name : string) (img : image) : M bool :=
  fun w =>
    let (ok, s') := imwrite file_name img (w_fs w) in
    (Returned ok, extend (set_fs w s') [EvImwrite file_name img]).

(** A logging call emits its record when the configured threshold
    lets the level through. *)
Definition logging_log `{P : Platform} (lvl : Level) (msg : string) : M unit :=
  if isEnabledFor basicConfig lvl then emit (EvLog lvl msg) else ret tt.

Definition logging_info `{P : Platform} (msg : string) : M unit :=
  logging_log INFO msg.
Definition logging_warning `{P : Platform} (msg : string) : M unit :=
  logging_log WARNING msg.
Definition logging_error `{P : Platform} (msg : string) : M unit :=
  logging_log ERROR msg.

(** The events a program adds to the trace when run from [w]. *)
Definition emitted `{P : Platform} {A : Type} (m : M A) (w : World) : list Event :=
  skipn (length (w_trace w)) (w_trace (exec m w)).

(** Projections of a trace on one kind of event. *)
Definition imread_calls `{P : Platform} (evs : list Event) : list string :=
  flat_map (fun e => match e with EvImread p => [p] | _ => [] end) evs.

Definition stitch_calls `{P : Platform} (evs : list Event)
    : list (list (option image)) :=
  flat_map (fun e => match e with EvStitch imgs => [imgs] | _ => [] end) evs.

Definition imwrite_calls `{P : Platform} (evs : list Event)
    : list (string * image) :=
  flat_map (fun e => match e with EvImwrite f i => [(f, i)] | _ => [] end) evs.

Definition log_records `{P : Platform} (evs : list Event) : list LogRecord :=
  flat_map (fun e => match e with EvLog l m => [mkLogRecord l m] | _ => [] end) evs.

Definition engine_calls `{P : Platform} (evs : list Event) : nat :=
  length (stitch_calls evs).

(** [evolves w w']: a run from [w] may reach [w']: the command line is
    the same and the trace has only grown. *)
Definition evolves `{P : Platform} (w w' : World) : Prop :=
  w_argv w' = w_argv w /\ exists evs, w_trace w' = w_trace w ++ evs.

(** [read_only w w']: as [evolves], and the file system is untouched. *)
Definition read_only `{P : Platform} (w w' : World) : Prop :=
  evolves w w' /\ w_fs w' = w_fs w.

(** What individual theorems assume of OpenCV. *)
Class PlatformLaws (P : Platform) : Prop := {
  (** The status [Stitcher_OK] comes with a panorama. *)
  stitch_ok_some : forall imgs status pano,
    stitch imgs = (status, pano) -> status = Stitcher_OK -> pano <> None;
  (** A write that reports failure leaves the file system as it was. *)
  imwrite_failed : forall f img s,
    fst (imwrite f img s) = false -> snd (imwrite f img s) = s
}.

(** ** The world *)

Section WorldLemmas.
Context `{P : Platform}.
Implicit Types (w : World) (evs : list Event).

Lemma extend_nil w : extend w [] = w.
Proof. destruct w; unfold extend; simpl. rewrite app_nil_r. reflexivity. Qed.

Lemma extend_extend w evs evs' :
  extend (extend w evs) evs' = extend w (evs ++ evs').
Proof. unfold extend; simpl. rewrite app_assoc. reflexivity. Qed.

Lemma extend_set_fs w s evs : extend (set_fs w s) evs = set_fs (extend w evs) s.
Proof. reflexivity. Qed.

Lemma set_fs_same w : set_fs w (w_fs w) = w.
Proof. destruct w; reflexivity. Qed.

Lemma skipn_length_app {A : Type} (l l' : list A) : skipn (length l) (l ++ l') = l'.
Proof. induction l; simpl; auto. Qed.

(** When the final world is known, so is what was emitted. *)
Lemma emitted_extend {A : Type} (m : M A) w r evs :
  m w = (r, extend w evs) -> emitted m w = evs.
Proof.
  intros H. unfold emitted, exec. rewrite H. simpl. apply skipn_length_app.
Qed.

Lemma emitted_extend_fs {A : Type} (m : M A) w r s evs :
  m w = (r, extend (set_fs w s) evs) -> emitted m w = evs.
Proof.
  intros H. unfold emitted, exec. rewrite H. simpl. apply skipn_length_app.
Qed.

#[export] Instance evolves_preorder : PreOrder evolves.
Proof.
  split.
  - intros w. split; [reflexivity|]. exists []. symmetry. apply app_nil_r.
  - intros w1 w2 w3 [Ha [e1 H1]] [Hb [e2 H2]]. split; [congruence|].
    exists (e1 ++ e2). rewrite H2, H1, app_assoc. reflexivity.
Qed.

#[export] Instance read_only_preorder : PreOrder read_only.
Proof.
  split.
  - intros w. split; reflexivity.
  - intros w1 w2 w3 [Ha Hb] [Hc Hd]. split; [etransitivity; eauto|congruence].
Qed.

Lemma read_only_extend w evs : read_only w (extend w evs).
Proof. repeat split. exists evs. reflexivity. Qed.

Lemma evolves_extend_fs w s evs : evolves w (extend (set_fs w s) evs).
Proof. split; [reflexivity|]. exists evs. reflexivity. Qed.

Lemma read_only_evolves w w' : read_only w w' -> evolves w w'.
Proof. intros [H _]; exact H. Qed.

(** A run that only evolves the world extends the trace by what it
    emitted. *)
Lemma evolves_emitted {A : Type} (m : M A) w :
  evolves w (exec m w) -> w_trace (exec m w) = w_trace w ++ emitted m w.
Proof.
  intros [_ [evs H]]. unfold emitted. rewrite H, skipn_length_app. reflexivity.
Qed.

End WorldLemmas.

(** ** Projections *)

Section Projections.
Context `{P : Platform}.
Implicit Types (evs : list Event).

Lemma imread_calls_app evs evs' :
  imread_calls (evs ++ evs') = imread_calls evs ++ imread_calls evs'.
Proof. apply flat_map_app. Qed.

Lemma stitch_calls_app evs evs' :
  stitch_calls (evs ++ evs') = stitch_calls evs ++ stitch_calls evs'.
Proof. apply flat_map_app. Qed.

Lemma imwrite_calls_app evs evs' :
  imwrite_calls (evs ++ evs') = imwrite_calls evs ++ imwrite_calls evs'.
Proof. apply flat_map_app. Qed.

Lemma log_records_app evs evs' :
  log_records (evs ++ evs') = log_records evs ++ log_records evs'.
Proof. apply flat_map_app. Qed.

Lemma imread_calls_cons e evs :
  imread_calls (e :: evs) =
  match e with EvImread p => [p] | _ => [] end ++ imread_calls evs.
Proof. reflexivity. Qed.

Lemma stitch_calls_cons e evs :
  stitch_calls (e :: evs) =
  match e with EvStitch imgs => [imgs] | _ => [] end ++ stitch_calls evs.
Proof. reflexivity. Qed.

Lemma imwrite_calls_cons e evs :
  imwrite_calls (e :: evs) =
  match e with EvImwrite f i => [(f, i)] | _ => [] end ++ imwrite_calls evs.
Proof. reflexivity. Qed.

Lemma log_records_cons e evs :
  log_records (e :: evs) =
  match e with EvLog l m => [mkLogRecord l m] | _ => [] end ++ log_records evs.
Proof. reflexivity. Qed.

Lemma imread_calls_nil : imread_calls [] = [].
Proof. reflexivity. Qed.

Lemma stitch_calls_nil : stitch_calls [] = [].
Proof. reflexivity. Qed.

Lemma imwrite_calls_nil : imwrite_calls [] = [].
Proof. reflexivity. Qed.

Lemma log_records_nil : log_records [] = [].
Proof. reflexivity. Qed.

Lemma imread_calls_map (paths : list string) :
  imread_calls (map EvImread paths) = paths.
Proof. induction paths; simpl; congruence. Qed.

Lemma stitch_calls_imreads (paths : list string) :
  stitch_calls (map EvImread paths) = [].
Proof. induction paths; simpl; auto. Qed.

Lemma imwrite_calls_imreads (paths : list string) :
  imwrite_calls (map EvImread paths) = [].
Proof. induction paths; simpl; auto. Qed.

Lemma log_records_imreads (paths : list string) :
  log_records (map EvImread paths) = [].
Proof. induction paths; simpl; auto. Qed.

End Projections.

#[export] Hint Rewrite @extend_nil @extend_extend @set_fs_same
  @imread_calls_app @stitch_calls_app @imwrite_calls_app @log_records_app
  @imread_calls_map @stitch_calls_imreads @imwrite_calls_imreads
  @log_records_imreads @imread_calls_cons @stitch_calls_cons @imwrite_calls_cons
  @log_records_cons @imread_calls_nil @stitch_calls_nil @imwrite_calls_nil
  @log_records_nil : pano.

#[global] Arguments imread_calls : simpl never.
#[global] Arguments stitch_calls : simpl never.
#[global] Arguments imwrite_calls : simpl never.
#[global] Arguments log_records : simpl never.
#[export] Hint Resolve read_only_extend evolves_extend_fs read_only_evolves : pano.

(** ** The primitives *)

Section Primitives.
Context `{P : Platform}.

Lemma logging_log_run lvl msg w :
  logging_log lvl msg w =
  (Returned tt, extend w (if isEnabledFor basicConfig lvl then [EvLog lvl msg] else [])).
Proof.
  unfold logging_log. destruct (isEnabledFor basicConfig lvl); [reflexivity|].
  rewrite extend_nil. reflexivity.
Qed.

Lemma logging_info_run msg w :
  logging_info msg w = (Returned tt, extend w [EvLog INFO msg]).
Proof. reflexivity. Qed.

Lemma logging_warning_run msg w :
  logging_warning msg w = (Returned tt, extend w [EvLog WARNING msg]).
Proof. reflexivity. Qed.

Lemma logging_error_run msg w :
  logging_error msg w = (Returned tt, extend w [EvLog ERROR msg]).
Proof. reflexivity. Qed.

Lemma read_only_emit e : preserves read_only (emit e).
Proof. intro w. apply read_only_extend. Qed.

Lemma read_only_logging_log lvl msg : preserves read_only (logging_log lvl msg).
Proof.
  intro w. unfold exec. rewrite logging_log_run. apply read_only_extend.
Qed.

Lemma read_only_logging_info msg : preserves read_only (logging_info msg).
Proof. apply read_only_logging_log. Qed.

Lemma read_only_logging_warning msg : preserves read_only (logging_warning msg).
Proof. apply read_only_logging_log. Qed.

Lemma read_only_logging_error msg : preserves read_only (logging_error msg).
Proof. apply read_only_logging_log. Qed.

Lemma read_only_parse_args : preserves read_only argparse_parse_args.
Proof.
  intro w. unfold exec, argparse_parse_args.
  destruct (parse_args (w_argv w)); apply read_only_extend.
Qed.

Lemma read_only_listdir d : preserves read_only (os_listdir d).
Proof.
  intro w. unfold exec, os_listdir.
  destruct (listdir d (w_fs w)); apply read_only_extend.
Qed.

Lemma read_only_imread p : preserves read_only (cv2_imread p).
Proof. intro w. apply read_only_extend. Qed.

Lemma read_only_Stitcher_create : preserves read_only cv2_Stitcher_create.
Proof. apply read_only_emit. Qed.

Lemma read_only_stitch imgs : preserves read_only (stitcher_stitch imgs).
Proof. intro w. apply read_only_extend. Qed.

Lemma evolves_imwrite f img : preserves evolves (cv2_imwrite f img).
Proof.
  intro w. unfold exec, cv2_imwrite.
  destruct (imwrite f img (w_fs w)). apply evolves_extend_fs.
Qed.

Lemma returns_logging_log lvl msg : returns (logging_log lvl msg).
Proof. intro w. exists tt. unfold eval. rewrite logging_log_run. reflexivity. Qed.

Lemma returns_logging_info msg : returns (logging_info msg).
Proof. apply returns_logging_log. Qed.

Lemma returns_logging_warning msg : returns (logging_warning msg).
Proof. apply returns_logging_log. Qed.

Lemma returns_logging_error msg : returns (logging_error msg).
Proof. apply returns_logging_log. Qed.

Lemma returns_imread p : returns (cv2_imread p).
Proof. intro w. eexists. reflexivity. Qed.

Lemma returns_Stitcher_create : returns cv2_Stitcher_create.
Proof. intro w. eexists. reflexivity. Qed.

Lemma returns_stitch imgs : returns (stitcher_stitch imgs).
Proof. intro w. eexists. reflexivity. Qed.

Lemma returns_imwrite f img : returns (cv2_imwrite f img).
Proof.
  intro w. unfold eval, cv2_imwrite. destruct (imwrite f img (w_fs w)).
  eexists. reflexivity.
Qed.

(** Weakening: a read-only program evolves the world. *)
Lemma preserves_read_only_evolves {A : Type} (m : M A) :
  preserves read_only m -> preserves evolves m.
Proof. intros H w. apply read_only_evolves, H. Qed.

(** Under the configuration of line 9 a logging call emits its
    record, with its level and message unchanged, for every level but
    [DEBUG], and emits nothing for [DEBUG]; it never raises and never
    touches the file system. *)
Theorem logging_log_emitted lvl msg w :
  emitted (logging_log lvl msg) w =
    (if Level_eqb lvl DEBUG then [] else [EvLog lvl msg]) /\
  eval (logging_log lvl msg) w = Returned tt /\
  w_fs (exec (logging_log lvl msg) w) = w_fs w.
Proof.
  unfold eval, exec. rewrite (emitted_extend _ _ _ _ (logging_log_run lvl msg w)).
  rewrite logging_log_run, basicConfig_enabled.
  destruct (Level_eqb lvl DEBUG); auto.
Qed.

End Primitives.

#[export] Hint Resolve read_only_logging_info read_only_logging_warning
  read_only_logging_error returns_logging_info returns_logging_warning
  returns_logging_error : pano.
#[export] Hint Resolve read_only_emit read_only_logging_log read_only_parse_args
  read_only_listdir read_only_imread read_only_Stitcher_create read_only_stitch
  evolves_imwrite returns_logging_log returns_imread returns_Stitcher_create
  returns_stitch returns_imwrite : pano.
#[export] Hint Resolve preserves_read_only_evolves | 5 : pano.

(** [run_prog] evaluates the monadic plumbing of a goal: it unfolds
    [bind] and [ret], replaces every logging call by its run, and
    merges consecutive trace extensions. *)
#[export] Hint Rewrite @logging_info_run @logging_warning_run @logging_error_run
  @extend_extend : run.

Ltac run_prog :=
  unfold bind, ret; repeat (progress (autorewrite with run; simpl)).

(** [solve_preserves] and [solve_returns] walk the structure of a
    program and close each leaf with the lemmas of the database
    [pano]. *)
Ltac solve_preserves :=
  repeat (intros; cbv zeta;
    lazymatch goal with
    | |- preserves _ (bind _ _) => apply preserves_bind
    | |- preserves _ (ret _) => apply preserves_ret
    | |- preserves _ (mapM _ _) => apply preserves_mapM
    | |- preserves _ (if _ then _ else _) => apply preserves_if
    | |- preserves _ (match ?x with _ => _ end) => destruct x
    | |- preserves _ _ => solve [eauto with pano]
    | |- PreOrder _ => typeclasses eauto
    end).

Ltac solve_returns :=
  repeat (intros; cbv zeta;
    lazymatch goal with
    | |- returns (bind _ _) => apply returns_bind
    | |- returns (ret _) => apply returns_ret
    | |- returns (mapM _ _) => apply returns_mapM
    | |- returns (if _ then _ else _) => apply returns_if
    | |- returns (match ?x with _ => _ end) => destruct x
    | |- returns _ => solve [eauto with pano]
    end).
