(* ===== verification/Mock.v ===== *)
(** * A test double of the platform

    An executable instance of [Platform] on which the theorems of the
    pipeline are exercised: a file system of association lists, a
    decoder that accepts the files marked as pictures, an engine that
    refuses fewer than two images with the code "need more images" and
    otherwise joins the rasters, and a writer that fails on the paths
    listed as read-only.  It makes no claim about OpenCV; it shows
    that the interface and its laws are inhabited and gives the
    witnesses something to run on. *)

From Stdlib Require Import String ZArith Bool List.
From S2P Require Import Prelude Monad Logging Platform.
Import ListNotations.

#[local] Open Scope string_scope.
#[local] Open Scope list_scope.

Inductive MockFile : Type :=
| Picture (pixels : list nat)
| Garbage.

Record MockFS : Type := mkMockFS {
  mock_dirs : list (string * list string);
  mock_files : list (string * MockFile);
  mock_readonly : list string
}.

Fixpoint assoc {V : Type} (k : string) (l : list (string * V)) : option V :=
  match l with
  | [] => None
  | (k', v) :: l' => if String.eqb k k' then Some v else assoc k l'
  end.

Definition mock_parse_args (argv : list string) : string + Z :=
  match argv with
  | [flag; d] =>
      if String.eqb flag "-i" || String.eqb flag "--input_dir" then inl d
      else inr 2%Z
  | [flag] => if String.eqb flag "-h" then inr 0%Z else inr 2%Z
  | _ => inr 2%Z
  end.

Definition mock_listdir (d : string) (s : MockFS) : option (list string) :=
  assoc d (mock_dirs s).

Definition mock_imread (p : string) (s : MockFS) : option (list nat) :=
  match assoc p (mock_files s) with
  | Some (Picture px) => Some px
  | _ => None
  end.

Definition mock_stitch (images : list (option (list nat))) : Z * option (list nat) :=
  if (length images <? 2)%nat then (1%Z, None)
  else if existsb is_none images then (2%Z, None)
  else (0%Z, Some (flat_map (fun o => match o with Some px => px | None => [] end) images)).

Definition mock_imwrite (f : string) (img : list nat) (s : MockFS) : bool * MockFS :=
  if existsb (String.eqb f) (mock_readonly s) then (false, s)
  else (true, {| mock_dirs := mock_dirs s;
                 mock_files := (f, Picture img) :: mock_files s;
                 mock_readonly := mock_readonly s |}).

#[export] Instance mock_platform : Platform := {|
  image := list nat;
  fsys := MockFS;
  parse_args := mock_parse_args;
  listdir := mock_listdir;
  imread := mock_imread;
  stitch := mock_stitch;
  imwrite := mock_imwrite
|}.

(** A holiday directory: two pictures, a text file, and an upper-case
    extension. *)
Definition holiday_fs : MockFS :=
  {| mock_dirs := [("photos", ["a.jpg"; "notes.txt"; "b.PNG"]);
                   ("empty", []);
                   ("docs", ["notes.txt"; "readme.md"; "jpg"]);
                   ("single", ["a.jpg"]);
                   ("broken", ["a.jpg"; "bad.jpeg"])];
     mock_files := [("photos/a.jpg", Picture [1; 2]);
                    ("photos/b.PNG", Picture [3]);
                    ("photos/notes.txt", Garbage);
                    ("single/a.jpg", Picture [1; 2]);
                    ("broken/a.jpg", Picture [1; 2]);
                    ("broken/bad.jpeg", Garbage)];
     mock_readonly := [] |}.

Definition mock_world (argv : list string) (s : MockFS) : World :=
  {| w_argv := argv; w_fs := s; w_trace := [] |}.

Lemma mock_stitch_ok_some imgs status pano :
  mock_stitch imgs = (status, pano) -> status = Stitcher_OK -> pano <> None.
Proof.
  unfold mock_stitch, Stitcher_OK.
  destruct (length imgs <? 2)%nat; [intros [= <- <-]; discriminate|].
  destruct (existsb is_none imgs); intros [= <- <-]; discriminate.
Qed.

Lemma mock_imwrite_failed f img s :
  fst (mock_imwrite f img s) = false -> snd (mock_imwrite f img s) = s.
Proof.
  unfold mock_imwrite.
  destruct (existsb (String.eqb f) (mock_readonly s)); simpl; congruence.
Qed.

#[export] Instance mock_laws : PlatformLaws mock_platform.
Proof.
  split.
  - exact mock_stitch_ok_some.
  - exact mock_imwrite_failed.
Qed.
