(* ===== verification/Scan.v ===== *)
(** * Discovery of the input images: [scan_images]

    [scan_images(directory)] lists the directory, keeps the names
    whose lower-cased form ends in [.jpg], [.jpeg] or [.png], joins
    each with the directory, logs a warning when nothing is left, and
    returns the paths in the order of the listing.  The listing may
    raise; nothing catches it.

    The theorems give the result in closed form, characterise the
    extension test, show that every returned path still passes it,
    that the warning is logged exactly when the result is empty, and
    that discovery is read-only and decodes nothing. *)

From Stdlib Require Import String Ascii ZArith Bool Arith Lia List.
From S2P Require Import Prelude Monad PyStr Logging Platform Mock.
Import ListNotations.

#[local] Open Scope string_scope.
#[local] Open Scope list_scope.
#[local] Open Scope pano_scope.

Definition supported_extensions : list string := [".jpg"; ".jpeg"; ".png"].

(** The characters the supported extensions are made of. *)
Definition extension_char (c : ascii) : bool :=
  existsb (fun ext => existsb (Ascii.eqb c) (list_ascii_of_string ext))
    supported_extensions.

(** [f.lower().endswith(supported_extensions)]. *)
Definition is_image_file (f : string) : bool :=
  endswith_any (lower f) supported_extensions.

(** The comprehension of [scan_images]. *)
Definition image_paths (directory : string) (names : list string) : list string :=
  map (path_join directory) (filter is_image_file names).

Definition scan_images `{P : Platform} (directory : string) : M (list string) :=
  names <- os_listdir directory ;;
  let image_files := image_paths directory names in
  (if is_nil image_files
   then logging_warning "No image files found in the directory."
   else ret tt) ;;
  ret image_files.

(** ** The extension test *)

Section ExtensionTest.
Implicit Types (f stem ext : string).

Lemma is_image_file_spec f :
  is_image_file f = true <->
  exists ext stem, In ext supported_extensions /\ lower f = (stem ++ ext)%string.
Proof. apply endswith_any_spec. Qed.

Lemma supported_extensions_lower ext :
  In ext supported_extensions -> lower ext = ext.
Proof.
  unfold supported_extensions; simpl.
  intros [<-|[<-|[<-|[]]]]; reflexivity.
Qed.

(** The test looks at the end of the name only. *)
Lemma is_image_file_suffix stem f :
  is_image_file f = true -> is_image_file (stem ++ f)%string = true.
Proof.
  rewrite !is_image_file_spec. intros (ext & q & Hin & Hq).
  exists ext, (lower stem ++ q)%string. split; [exact Hin|].
  rewrite lower_app, Hq. symmetry. apply str_app_assoc.
Qed.

(** The test does not see the case of the name. *)
Lemma is_image_file_lower f : is_image_file (lower f) = is_image_file f.
Proof. unfold is_image_file. rewrite lower_idem. reflexivity. Qed.

Lemma is_image_file_join directory f :
  is_image_file f = true -> is_image_file (path_join directory f) = true.
Proof.
  intros H. destruct (proj1 (endswith_spec _ _) (path_join_endswith directory f))
    as [q ->].
  apply is_image_file_suffix, H.
Qed.

Lemma supported_extensions_plain ext :
  In ext supported_extensions ->
  all_chars (plain_ascii extension_char) ext = true.
Proof.
  unfold supported_extensions; simpl.
  intros [<-|[<-|[<-|[]]]]; reflexivity.
Qed.

(** C27. The extension test does not depend on how characters outside
    ASCII are lower-cased: for every lower-casing [f'] of the name
    that maps ASCII letters as [str.lower] does and never ends the
    replacement of other characters in one of [.], [e], [g], [j],
    [n], [p], the test on [f'] is the test of the model, which
    lower-cases ASCII only. *)
Theorem is_image_file_unicode f f' :
  lowers extension_char f f' ->
  endswith_any f' supported_extensions = is_image_file f.
Proof.
  intros H. unfold is_image_file, endswith_any.
  assert (Hext : forall ext, In ext supported_extensions ->
                 endswith f' ext = endswith (lower f) ext).
  { intros ext Hin. eapply endswith_lowers; eauto using supported_extensions_plain. }
  unfold supported_extensions in *. cbn [existsb].
  rewrite !Hext by (simpl; auto). reflexivity.
Qed.

End ExtensionTest.

(** ** The comprehension *)

Section Comprehension.
Implicit Types (directory f p : string) (names : list string).

Lemma image_paths_In directory names p :
  In p (image_paths directory names) <->
  exists f, In f names /\ is_image_file f = true /\ p = path_join directory f.
Proof.
  unfold image_paths. rewrite in_map_iff. split.
  - intros (f & <- & [Hin Hf]%filter_In). eauto.
  - intros (f & Hin & Hf & ->). exists f. rewrite filter_In. auto.
Qed.

Lemma image_paths_nil_iff directory names :
  image_paths directory names = [] <->
  forall f, In f names -> is_image_file f = false.
Proof.
  unfold image_paths.
  rewrite map_eq_nil_iff, filter_nil_iff. apply existsb_false_iff.
Qed.

Lemma image_paths_length directory names :
  length (image_paths directory names) <= length names.
Proof. unfold image_paths. rewrite length_map. apply filter_length_le. Qed.

Lemma image_paths_app directory names names' :
  image_paths directory (names ++ names') =
  image_paths directory names ++ image_paths directory names'.
Proof. unfold image_paths. rewrite filter_app, map_app. reflexivity. Qed.

Lemma image_paths_supported directory names :
  Forall (fun p => is_image_file p = true) (image_paths directory names).
Proof.
  apply Forall_forall. intros p (f & _ & Hf & ->)%image_paths_In.
  apply is_image_file_join, Hf.
Qed.

End Comprehension.

(** ** [scan_images] *)

Section ScanImages.
Context `{P : Platform}.
Implicit Types (directory : string) (names : list string) (w : World).

Definition scan_warning : Event :=
  EvLog WARNING "No image files found in the directory.".

Lemma scan_images_run directory w :
  scan_images directory w =
  match listdir directory (w_fs w) with
  | None => (Raised (OSError directory), extend w [EvListdir directory])
  | Some names =>
      let image_files := image_paths directory names in
      (Returned image_files,
       extend w (EvListdir directory ::
                 if is_nil image_files then [scan_warning] else []))
  end.
Proof.
  unfold scan_images, bind, os_listdir.
  destruct (listdir directory (w_fs w)) as [names|]; [|reflexivity].
  destruct (is_nil (image_paths directory names)); run_prog; reflexivity.
Qed.

Lemma read_only_scan_images directory : preserves read_only (scan_images directory).
Proof. unfold scan_images. solve_preserves. Qed.

Lemma scan_images_emitted directory w :
  emitted (scan_images directory) w =
  EvListdir directory ::
  match listdir directory (w_fs w) with
  | Some names => if is_nil (image_paths directory names) then [scan_warning] else []
  | None => []
  end.
Proof.
  destruct (listdir directory (w_fs w)) as [names|] eqn:Hls;
    eapply emitted_extend; rewrite scan_images_run, Hls; reflexivity.
Qed.


(** C5. Discovery is sound and complete for the three extensions,
    whatever their case: a path is returned exactly when it is the
    directory joined with an entry whose lower-cased name ends in
    [.jpg], [.jpeg] or [.png]; every other entry is ignored without
    an error. *)
Theorem scan_images_complete directory w names files :
  listdir directory (w_fs w) = Some names ->
  eval (scan_images directory) w = Returned files ->
  forall p, In p files <->
    exists f stem ext,
      In f names /\ In ext [".jpg"; ".jpeg"; ".png"] /\
      lower f = (stem ++ ext)%string /\ p = path_join directory f.
Proof.
  intros Hls. unfold eval. rewrite scan_images_run, Hls. intros [= <-] p.
  rewrite image_paths_In.
  split.
  - intros (f & Hin & (ext & stem & Hext & Hlow)%is_image_file_spec & ->).
    exists f, stem, ext. auto.
  - intros (f & stem & ext & Hin & Hext & Hlow & ->).
    exists f. repeat split; auto. apply is_image_file_spec. eauto.
Qed.

(** Every path that [scan_images] returns still ends,
    case-insensitively, in a supported extension: joining the name
    with the directory does not disturb the test. *)
Theorem scan_images_supported directory w files :
  eval (scan_images directory) w = Returned files ->
  Forall (fun p => is_image_file p = true) files.
Proof.
  unfold eval. rewrite scan_images_run.
  destruct (listdir directory (w_fs w)); simpl; intros [= <-].
  apply image_paths_supported.
Qed.

(** When the directory cannot be listed, [OSError] escapes
    [scan_images] right after the call: nothing is logged and no path
    is returned. *)
Theorem scan_images_oserror directory w :
  listdir directory (w_fs w) = None ->
  scan_images directory w =
  (Raised (OSError directory), extend w [EvListdir directory]).
Proof. intros H. rewrite scan_images_run, H. reflexivity. Qed.

(** The warning "No image files found in the directory." is
    logged exactly when the listing succeeds and no entry has a
    supported extension. *)
Theorem scan_images_warning_iff directory w :
  In scan_warning (emitted (scan_images directory) w) <->
  exists names, listdir directory (w_fs w) = Some names /\
                forall f, In f names -> is_image_file f = false.
Proof.
  rewrite scan_images_emitted.
  destruct (listdir directory (w_fs w)) as [names|]; simpl.
  - destruct (is_nil (image_paths directory names)) eqn:Hn; simpl; split.
    + intros _. exists names. split; [reflexivity|].
      apply (image_paths_nil_iff directory), is_nil_true, Hn.
    + auto.
    + intros [?|[]]; discriminate.
    + intros (? & [= <-] & H). apply (image_paths_nil_iff directory) in H.
      rewrite H in Hn. discriminate.
  - split; [intros [?|[]]; discriminate|intros (? & ? & _); discriminate].
Qed.

(** Discovery is read-only and decodes nothing: whatever the
    outcome, [scan_images] leaves the file system and the command line
    as they were, and calls neither the decoder, nor the engine, nor
    the writer. *)
Theorem scan_images_only_lists directory w :
  read_only w (exec (scan_images directory) w) /\
  imread_calls (emitted (scan_images directory) w) = [] /\
  stitch_calls (emitted (scan_images directory) w) = [] /\
  imwrite_calls (emitted (scan_images directory) w) = [].
Proof.
  split; [apply read_only_scan_images|].
  rewrite scan_images_emitted.
  destruct (listdir directory (w_fs w)) as [names|]; [|auto].
  destruct (is_nil (image_paths directory names)); auto.
Qed.

End ScanImages.

#[export] Hint Resolve read_only_scan_images : pano.

(** ** Witnesses on the test double *)


Lemma scan_images_complete_witness :
  In "photos/b.PNG" ["photos/a.jpg"; "photos/b.PNG"] <->
  exists f stem ext,
    In f ["a.jpg"; "notes.txt"; "b.PNG"] /\ In ext [".jpg"; ".jpeg"; ".png"] /\
    lower f = (stem ++ ext)%string /\ "photos/b.PNG" = path_join "photos" f.
Proof.
  exact (scan_images_complete "photos" (mock_world [] holiday_fs)
           ["a.jpg"; "notes.txt"; "b.PNG"] _ eq_refl eq_refl "photos/b.PNG").
Defined.

(** The Kelvin sign, whose lower-case form is the ASCII letter [k],
    as the three bytes of its UTF-8 encoding. *)
Definition kelvin : string :=
  String (ascii_of_nat 226) (String (ascii_of_nat 132) (String (ascii_of_nat 170) "")).

Lemma is_image_file_unicode_witness :
  endswith_any "k.jpg" supported_extensions = is_image_file (kelvin ++ ".JPG").
Proof.
  refine (is_image_file_unicode (kelvin ++ ".JPG") "k.jpg" _).
  apply (lowers_run _ _ _ ""); [reflexivity..|].
  apply (lowers_run _ _ _ ""); [reflexivity..|].
  apply (lowers_last _ _ "" "k"); [reflexivity..|].
  repeat (apply (lowers_ascii extension_char); [reflexivity|]).
  apply lowers_nil.
Defined.

Lemma scan_images_supported_witness :
  Forall (fun p => is_image_file p = true) ["photos/a.jpg"; "photos/b.PNG"].
Proof.
  exact (scan_images_supported "photos" (mock_world [] holiday_fs) _ eq_refl).
Defined.

Lemma scan_images_oserror_witness :
  scan_images "missing" (mock_world [] holiday_fs) =
  (Raised (OSError "missing"),
   extend (mock_world [] holiday_fs) [EvListdir "missing"]).
Proof.
  exact (scan_images_oserror "missing" (mock_world [] holiday_fs) eq_refl).
Defined.
