(* ===== verification/Panorama.v ===== *)
(** * The stitch attempt and the writer: [create_panorama], [save_image]

    [create_panorama(image_files)] logs the number of files, decodes
    every file, gives up when any of them failed to decode, and
    otherwise creates a stitcher, calls it once on the whole list and
    turns its status into a result: the panorama on [Stitcher_OK],
    [None] (with the status in the log) on anything else.
    [save_image] writes the image and logs the file name; it does not
    look at what [cv2.imwrite] returns.

    The theorems characterise the result, show the all-or-nothing
    loading, bound the number of engine calls, show that the engine
    only ever sees decoded images, that the status reaches the log
    unaltered, and that nothing here but [save_image] touches the
    file system. *)

From Stdlib Require Import String Ascii ZArith Bool Arith Lia List.
From S2P Require Import Prelude Monad PyStr Logging Platform Mock.
Import ListNotations.

#[local] Open Scope string_scope.
#[local] Open Scope list_scope.
#[local] Open Scope pano_scope.

(** The comprehension [[cv2.imread(f) for f in image_files]]. *)
Definition load_images `{P : Platform} (image_files : list string)
    : M (list (option image)) :=
  mapM cv2_imread image_files.

(** [any(img is None for img in images)]. *)
Definition any_none {A : Type} (images : list (option A)) : bool :=
  existsb is_none images.

Definition stitching_message (n : nat) : string :=
  "Stitching " ++ str_of_nat n ++ " images into a panorama.".

Definition stitch_failed_message (status : Z) : string :=
  "Failed to stitch images, error code: " ++ str_of_Z status.

Definition create_panorama `{P : Platform} (image_files : list string)
    : M (option image) :=
  logging_info (stitching_message (length image_files)) ;;
  images <- load_images image_files ;;
  if any_none images then
    logging_error "One or more images could not be loaded." ;;
    ret None
  else
    cv2_Stitcher_create ;;
    result <- stitcher_stitch images ;;
    let (status, panorama) := result in
    if negb (status =? Stitcher_OK)%Z then
      logging_error (stitch_failed_message status) ;;
      ret None
    else
      logging_info "Panorama successfully created." ;;
      ret panorama.

Definition saved_message (file_name : string) : string :=
  "Panorama saved as " ++ file_name.

Definition save_image `{P : Platform} (img : image) (file_name : string) : M unit :=
  cv2_imwrite file_name img ;;
  logging_info (saved_message file_name).

(** What [create_panorama] reads from the file system: the decoding
    of every file, in order. *)
Definition decoded `{P : Platform} (image_files : list string) (s : fsys)
    : list (option image) :=
  map (fun f => imread f s) image_files.

(** The events of a [create_panorama] run, as a function of what the
    decoder and the engine answer. *)
Definition create_panorama_events `{P : Platform} (image_files : list string)
    (s : fsys) : list Event :=
  let images := decoded image_files s in
  EvLog INFO (stitching_message (length image_files)) ::
  map EvImread image_files ++
  if any_none images then
    [EvLog ERROR "One or more images could not be loaded."]
  else
    EvStitcherCreate :: EvStitch images ::
    if negb (fst (stitch images) =? Stitcher_OK)%Z then
      [EvLog ERROR (stitch_failed_message (fst (stitch images)))]
    else [EvLog INFO "Panorama successfully created."].

(** The value of a [create_panorama] run. *)
Definition create_panorama_value `{P : Platform} (image_files : list string)
    (s : fsys) : option image :=
  let images := decoded image_files s in
  if any_none images then None
  else if negb (fst (stitch images) =? Stitcher_OK)%Z then None
  else snd (stitch images).

#[global] Arguments create_panorama_events : simpl never.
#[global] Arguments create_panorama_value : simpl never.

(** ** Loading *)

Section Loading.
Context `{P : Platform}.
Implicit Types (image_files : list string) (w : World).

Lemma load_images_run image_files w :
  load_images image_files w =
  (Returned (decoded image_files (w_fs w)), extend w (map EvImread image_files)).
Proof.
  unfold load_images, decoded. revert w.
  induction image_files as [|f fs IH]; intros w; simpl.
  - rewrite extend_nil. reflexivity.
  - unfold bind at 1. unfold cv2_imread at 1. unfold bind at 1.
    rewrite IH. simpl. rewrite extend_extend. reflexivity.
Qed.

Lemma decoded_length image_files s :
  length (decoded image_files s) = length image_files.
Proof. apply length_map. Qed.

Lemma any_none_decoded image_files s :
  any_none (decoded image_files s) = true <->
  exists f, In f image_files /\ imread f s = None.
Proof.
  unfold any_none, decoded. rewrite existsb_map, existsb_exists.
  split; intros (f & Hin & Hf); exists f; split; auto; apply is_none_true, Hf.
Qed.

Lemma any_none_false {A : Type} (images : list (option A)) :
  any_none images = false <-> Forall (fun o => o <> None) images.
Proof.
  unfold any_none. rewrite existsb_false_iff, Forall_forall.
  split; intros H o Hin; specialize (H o Hin).
  - intros ->. discriminate.
  - destruct o; [reflexivity|contradiction].
Qed.

End Loading.

(** ** [create_panorama] *)

Section CreatePanorama.
Context `{P : Platform}.
Implicit Types (image_files : list string) (w : World) (s : fsys).

(** One run, in closed form. *)
Lemma create_panorama_run image_files w :
  create_panorama image_files w =
  (Returned (create_panorama_value image_files (w_fs w)),
   extend w (create_panorama_events image_files (w_fs w))).
Proof.
  unfold create_panorama, create_panorama_value, create_panorama_events.
  unfold bind at 1. rewrite logging_info_run.
  unfold bind at 1. rewrite load_images_run. simpl.
  destruct (any_none (decoded image_files (w_fs w))); [run_prog; reflexivity|].
  unfold bind, cv2_Stitcher_create, emit, modify, stitcher_stitch; simpl.
  destruct (stitch (decoded image_files (w_fs w))) as [status panorama]; simpl.
  destruct (status =? Stitcher_OK)%Z; run_prog; rewrite <- app_assoc; reflexivity.
Qed.

Lemma create_panorama_emitted image_files w :
  emitted (create_panorama image_files) w =
  create_panorama_events image_files (w_fs w).
Proof. eapply emitted_extend, create_panorama_run. Qed.

Lemma create_panorama_eval image_files w :
  eval (create_panorama image_files) w =
  Returned (create_panorama_value image_files (w_fs w)).
Proof. unfold eval. rewrite create_panorama_run. reflexivity. Qed.

Lemma read_only_create_panorama image_files :
  preserves read_only (create_panorama image_files).
Proof. unfold create_panorama, load_images. solve_preserves. Qed.

Lemma returns_create_panorama image_files : returns (create_panorama image_files).
Proof. unfold create_panorama, load_images. solve_returns. Qed.

(** The value is a panorama only on the path through [Stitcher_OK]. *)
Lemma create_panorama_value_Some image_files s pano :
  create_panorama_value image_files s = Some pano <->
  any_none (decoded image_files s) = false /\
  stitch (decoded image_files s) = (Stitcher_OK, Some pano).
Proof.
  unfold create_panorama_value.
  destruct (any_none (decoded image_files s)); [split; [|intros []]; discriminate|].
  destruct (stitch (decoded image_files s)) as [status panorama]; simpl.
  destruct (Z.eqb_spec status Stitcher_OK) as [->|Hne]; simpl.
  - split; [intros ->; auto|intros [_ [= ->]]; reflexivity].
  - split; [discriminate|intros [_ [= ? _]]; contradiction].
Qed.

(** The engine is called at most once, and exactly when every file
    decoded. *)
Lemma create_panorama_stitch_calls image_files s :
  stitch_calls (create_panorama_events image_files s) =
  if any_none (decoded image_files s) then [] else [decoded image_files s].
Proof.
  unfold create_panorama_events; cbv zeta.
  destruct (any_none (decoded image_files s)); [|destruct (negb _)];
    autorewrite with pano; reflexivity.
Qed.

Lemma create_panorama_imread_calls image_files s :
  imread_calls (create_panorama_events image_files s) = image_files.
Proof.
  unfold create_panorama_events; cbv zeta.
  destruct (any_none (decoded image_files s)); [|destruct (negb _)];
    autorewrite with pano; simpl; apply app_nil_r.
Qed.

Lemma create_panorama_imwrite_calls image_files s :
  imwrite_calls (create_panorama_events image_files s) = [].
Proof.
  unfold create_panorama_events; cbv zeta.
  destruct (any_none (decoded image_files s)); [|destruct (negb _)];
    autorewrite with pano; reflexivity.
Qed.

End CreatePanorama.

#[export] Hint Resolve read_only_create_panorama returns_create_panorama : pano.
#[export] Hint Rewrite @create_panorama_stitch_calls @create_panorama_imread_calls
  @create_panorama_imwrite_calls : pano.

(** ** Properties of [create_panorama] *)

Section CreatePanoramaProperties.
Context `{P : Platform}.
Implicit Types (image_files : list string) (w : World).

(** C2. [create_panorama] returns a panorama exactly when every file
    decodes and the engine, called on the decoded images in the order
    of the file list, answers [Stitcher_OK] with that panorama. *)
Theorem create_panorama_success_iff image_files w pano :
  eval (create_panorama image_files) w = Returned (Some pano) <->
  (forall f, In f image_files -> imread f (w_fs w) <> None) /\
  stitch (decoded image_files (w_fs w)) = (Stitcher_OK, Some pano).
Proof.
  rewrite create_panorama_eval.
  transitivity (create_panorama_value image_files (w_fs w) = Some pano);
    [split; congruence|].
  rewrite create_panorama_value_Some.
  apply and_iff_compat_r.
  rewrite any_none_false. unfold decoded. rewrite Forall_map, Forall_forall.
  reflexivity.
Qed.

(** C3. Loading is all or nothing: if any one file fails to decode,
    [create_panorama] returns [None], logs the load error, and neither
    creates a stitcher nor calls the engine, however many of the other
    files decoded. *)
Theorem create_panorama_load_failure image_files w f :
  In f image_files -> imread f (w_fs w) = None ->
  create_panorama image_files w =
  (Returned None,
   extend w (EvLog INFO (stitching_message (length image_files)) ::
             map EvImread image_files ++
             [EvLog ERROR "One or more images could not be loaded."])).
Proof.
  intros Hin Hf. rewrite create_panorama_run.
  unfold create_panorama_value, create_panorama_events. simpl.
  replace (any_none (decoded image_files (w_fs w))) with true; [reflexivity|].
  symmetry. apply any_none_decoded. eauto.
Qed.

(** C4. The engine is called at most once per attempt, and a call
    receives the whole decoded list, in discovery order, with no
    [None] in it: there is no retry and no call on a partial or
    undecoded set. *)
Theorem create_panorama_engine_calls image_files w :
  engine_calls (emitted (create_panorama image_files) w) <= 1 /\
  forall images, In images (stitch_calls (emitted (create_panorama image_files) w)) ->
    images = decoded image_files (w_fs w) /\
    Forall (fun o => o <> None) images.
Proof.
  unfold engine_calls.
  rewrite create_panorama_emitted, create_panorama_stitch_calls.
  destruct (any_none (decoded image_files (w_fs w))) eqn:Hany; simpl.
  - split; [lia|tauto].
  - split; [lia|]. intros images [<-|[]]. split; [reflexivity|].
    apply any_none_false, Hany.
Qed.

(** The engine is called exactly when every file decodes. *)
Theorem create_panorama_engine_called_iff image_files w :
  engine_calls (emitted (create_panorama image_files) w) = 1 <->
  forall f, In f image_files -> imread f (w_fs w) <> None.
Proof.
  unfold engine_calls.
  rewrite create_panorama_emitted, create_panorama_stitch_calls.
  destruct (any_none (decoded image_files (w_fs w))) eqn:Hany; simpl.
  - apply any_none_decoded in Hany as (f & Hin & Hf).
    split; [discriminate|]. intros H. elim (H f Hin Hf).
  - split; [intros _|reflexivity].
    apply any_none_false in Hany. unfold decoded in Hany.
    rewrite Forall_map, Forall_forall in Hany. exact Hany.
Qed.

(** Every file of the list is decoded exactly once and in order,
    whatever the outcome: a file that fails to decode does not stop
    the remaining files from being read. *)
Theorem create_panorama_reads_all image_files w :
  imread_calls (emitted (create_panorama image_files) w) = image_files.
Proof. rewrite create_panorama_emitted. apply create_panorama_imread_calls. Qed.

(** [create_panorama] never raises and never writes: it returns
    a value from every world, leaves the file system and the command
    line as they were, and makes no call to [cv2.imwrite]. *)
Theorem create_panorama_read_only image_files w :
  (exists r, eval (create_panorama image_files) w = Returned r) /\
  read_only w (exec (create_panorama image_files) w) /\
  imwrite_calls (emitted (create_panorama image_files) w) = [].
Proof.
  split; [apply returns_create_panorama|].
  split; [apply read_only_create_panorama|].
  rewrite create_panorama_emitted. apply create_panorama_imwrite_calls.
Qed.

(** The failure message determines the status it carries. *)
Lemma stitch_failed_message_inj status status' :
  stitch_failed_message status = stitch_failed_message status' -> status = status'.
Proof.
  unfold stitch_failed_message. intros H%str_app_inv_head.
  apply str_of_Z_inj, H.
Qed.

Lemma all_decoded_any_none image_files w :
  (forall f, In f image_files -> imread f (w_fs w) <> None) ->
  any_none (decoded image_files (w_fs w)) = false.
Proof.
  intros H. apply any_none_false. unfold decoded.
  rewrite Forall_map, Forall_forall. exact H.
Qed.

(** The events of an attempt that the engine refuses. *)
Lemma create_panorama_events_refused image_files w status pano :
  any_none (decoded image_files (w_fs w)) = false ->
  stitch (decoded image_files (w_fs w)) = (status, pano) ->
  status <> Stitcher_OK ->
  create_panorama_events image_files (w_fs w) =
  (EvLog INFO (stitching_message (length image_files)) ::
   map EvImread image_files ++
   [EvStitcherCreate; EvStitch (decoded image_files (w_fs w))]) ++
  [EvLog ERROR (stitch_failed_message status)].
Proof.
  intros Hany Hst Hne. unfold create_panorama_events.
  rewrite Hany, Hst. simpl.
  destruct (Z.eqb_spec status Stitcher_OK) as [|_]; [contradiction|]. simpl.
  rewrite <- app_assoc. reflexivity.
Qed.

(** C8. When every file decodes and the engine answers a status
    other than [Stitcher_OK], [create_panorama] returns [None] and the
    last event of the attempt is an error record whose message carries
    that status in decimal; two different statuses never produce the
    same message. *)
Theorem create_panorama_status_logged image_files w status pano :
  (forall f, In f image_files -> imread f (w_fs w) <> None) ->
  stitch (decoded image_files (w_fs w)) = (status, pano) ->
  status <> Stitcher_OK ->
  eval (create_panorama image_files) w = Returned None /\
  last (emitted (create_panorama image_files) w) EvStitcherCreate =
    EvLog ERROR (stitch_failed_message status) /\
  forall status', stitch_failed_message status' = stitch_failed_message status ->
                  status' = status.
Proof.
  intros Hdec%all_decoded_any_none Hst Hne.
  rewrite create_panorama_eval, create_panorama_emitted.
  rewrite (create_panorama_events_refused _ _ _ _ Hdec Hst Hne), last_last.
  split; [|split; [reflexivity|intros ?; apply stitch_failed_message_inj]].
  unfold create_panorama_value. rewrite Hdec, Hst. simpl.
  destruct (Z.eqb_spec status Stitcher_OK) as [|_]; [contradiction|reflexivity].
Qed.

(** Under the engine's contract, [None] is the result of a
    failure and of nothing else: [create_panorama] returns [None]
    exactly when some file fails to decode or the engine answers a
    status other than [Stitcher_OK].  With the success theorem this
    makes success and failure exclusive and exhaustive. *)
Theorem create_panorama_none_iff `{L : !PlatformLaws P} image_files w :
  eval (create_panorama image_files) w = Returned None <->
  (exists f, In f image_files /\ imread f (w_fs w) = None) \/
  fst (stitch (decoded image_files (w_fs w))) <> Stitcher_OK.
Proof.
  rewrite create_panorama_eval, <- any_none_decoded.
  unfold create_panorama_value.
  destruct (any_none (decoded image_files (w_fs w))); [tauto|].
  destruct (stitch (decoded image_files (w_fs w))) as [status pano] eqn:Hst; simpl.
  destruct (Z.eqb_spec status Stitcher_OK) as [Hok|Hne]; simpl.
  - pose proof (stitch_ok_some _ _ _ Hst Hok) as Hsome.
    split; [intros [= ->]; contradiction|intros [?|?]; [discriminate|contradiction]].
  - tauto.
Qed.

End CreatePanoramaProperties.

(** ** [save_image] *)

Section SaveImage.
Context `{P : Platform}.
Implicit Types (img : image) (file_name : string) (w : World).

Lemma save_image_run img file_name w :
  save_image img file_name w =
  (Returned tt,
   extend (set_fs w (snd (imwrite file_name img (w_fs w))))
     [EvImwrite file_name img; EvLog INFO (saved_message file_name)]).
Proof.
  unfold save_image, bind, cv2_imwrite.
  destruct (imwrite file_name img (w_fs w)) as [ok s']. run_prog. reflexivity.
Qed.

Lemma save_image_emitted img file_name w :
  emitted (save_image img file_name) w =
  [EvImwrite file_name img; EvLog INFO (saved_message file_name)].
Proof. eapply emitted_extend_fs, save_image_run. Qed.

Lemma evolves_save_image img file_name : preserves evolves (save_image img file_name).
Proof. unfold save_image. solve_preserves. Qed.

Lemma returns_save_image img file_name : returns (save_image img file_name).
Proof. unfold save_image. solve_returns. Qed.

(** [save_image] makes exactly one call to [cv2.imwrite], with
    the image and the file name it was given, and the file system
    after the call is the one the writer produced. *)
Theorem save_image_one_write img file_name w :
  imwrite_calls (emitted (save_image img file_name) w) = [(file_name, img)] /\
  w_fs (exec (save_image img file_name) w) = snd (imwrite file_name img (w_fs w)).
Proof.
  rewrite save_image_emitted. unfold exec. rewrite save_image_run. auto.
Qed.

(** C9. [save_image] does not look at the result of [cv2.imwrite]:
    when the write fails, the file system is unchanged, and still the
    function returns normally and logs "Panorama saved as ..." at
    level INFO, with no error record. *)
Theorem save_image_ignores_failure `{L : !PlatformLaws P} img file_name w :
  fst (imwrite file_name img (w_fs w)) = false ->
  eval (save_image img file_name) w = Returned tt /\
  w_fs (exec (save_image img file_name) w) = w_fs w /\
  log_records (emitted (save_image img file_name) w) =
    [mkLogRecord INFO (saved_message file_name)].
Proof.
  intros Hfail. rewrite save_image_emitted.
  unfold eval, exec. rewrite save_image_run. simpl.
  rewrite (imwrite_failed _ _ _ Hfail). auto.
Qed.

End SaveImage.

#[export] Hint Resolve evolves_save_image returns_save_image : pano.

(** ** Witnesses on the test double *)

Definition photos : list string := ["photos/a.jpg"; "photos/b.PNG"].
Definition broken : list string := ["broken/a.jpg"; "broken/bad.jpeg"].
Definition single : list string := ["single/a.jpg"].

Definition locked_fs : MockFS :=
  {| mock_dirs := mock_dirs holiday_fs;
     mock_files := mock_files holiday_fs;
     mock_readonly := ["panorama_output.jpg"] |}.

Lemma create_panorama_load_failure_witness :
  create_panorama broken (mock_world [] holiday_fs) =
  (Returned None,
   extend (mock_world [] holiday_fs)
     [EvLog INFO "Stitching 2 images into a panorama.";
      EvImread "broken/a.jpg"; EvImread "broken/bad.jpeg";
      EvLog ERROR "One or more images could not be loaded."]).
Proof.
  exact (create_panorama_load_failure broken (mock_world [] holiday_fs)
           "broken/bad.jpeg" (or_intror (or_introl eq_refl)) eq_refl).
Defined.

Lemma create_panorama_status_logged_witness :
  eval (create_panorama single) (mock_world [] holiday_fs) = Returned None /\
  last (emitted (create_panorama single) (mock_world [] holiday_fs)) EvStitcherCreate =
    EvLog ERROR "Failed to stitch images, error code: 1" /\
  forall status', stitch_failed_message status' = stitch_failed_message 1 ->
                  status' = 1%Z.
Proof.
  refine (create_panorama_status_logged single (mock_world [] holiday_fs) 1%Z None
            _ eq_refl _).
  - intros f [<-|[]]. discriminate.
  - discriminate.
Defined.

Lemma save_image_ignores_failure_witness :
  eval (save_image [1; 2; 3] "panorama_output.jpg") (mock_world [] locked_fs) =
    Returned tt /\
  w_fs (exec (save_image [1; 2; 3] "panorama_output.jpg") (mock_world [] locked_fs)) =
    locked_fs /\
  log_records (emitted (save_image [1; 2; 3] "panorama_output.jpg")
                 (mock_world [] locked_fs)) =
    [mkLogRecord INFO "Panorama saved as panorama_output.jpg"].
Proof.
  exact (save_image_ignores_failure (P := mock_platform) [1; 2; 3]
           "panorama_output.jpg" (mock_world [] locked_fs) eq_refl).
Defined.

Lemma create_panorama_none_iff_witness :
  eval (create_panorama single) (mock_world [] holiday_fs) = Returned None <->
  (exists f, In f single /\ imread f holiday_fs = None) \/
  fst (stitch (decoded single holiday_fs)) <> Stitcher_OK.
Proof.
  exact (create_panorama_none_iff (P := mock_platform) (L := mock_laws) single
           (mock_world [] holiday_fs)).
Defined.

(** The scenario of two overlapping photographs: both decode, the
    engine answers [Stitcher_OK], and the panorama is returned. *)
Example create_panorama_photos :
  eval (create_panorama photos) (mock_world [] holiday_fs) = Returned (Some [1; 2; 3]).
Proof. reflexivity. Qed.
