(* ===== verification/Main.v ===== *)
(** * The pipeline: [main]

    [main] parses the command line, scans the input directory, stops
    with an error record when no image was found, and otherwise makes
    one stitch attempt and either saves the panorama as
    [panorama_output.jpg] or logs that none was created.  Two
    exceptions can escape it: [SystemExit] from [argparse] and
    [OSError] from the directory listing.

    [MainRun] is the big-step semantics of [main]: one rule per way a
    run can end, with the final world of each.  [main_cases] shows
    that the program follows it, and the properties of the pipeline
    are read off the rules: when the output file is written, what is
    left untouched on every failure, which stage is reached in which
    order, and how the process exits. *)

From Stdlib Require Import String Ascii ZArith Bool Arith Lia List.
From S2P Require Import Prelude Monad PyStr Logging Platform Mock Scan Panorama.
Import ListNotations.

#[local] Open Scope string_scope.
#[local] Open Scope list_scope.
#[local] Open Scope pano_scope.

Definition output_file_name : string := "panorama_output.jpg".

Definition main `{P : Platform} : M unit :=
  input_dir <- argparse_parse_args ;;
  image_files <- scan_images input_dir ;;
  if is_nil image_files then
    logging_error "No images found to process. Exiting program."
  else
    panorama <- create_panorama image_files ;;
    match panorama with
    | Some p => save_image p output_file_name
    | None => logging_error "Failed to create a panorama."
    end.

(** [if __name__ == "__main__": main()]. *)
Definition run_module `{P : Platform} (name : string) : M unit :=
  if String.eqb name "__main__" then main else ret tt.

(** The exit status of the interpreter: 0 after a normal return, the
    code of a [SystemExit], 1 after any other uncaught exception. *)
Definition exit_status (o : outcome Exn unit) : Z :=
  match o with
  | Returned _ => 0
  | Raised (SystemExit code) => code
  | Raised (OSError _) => 1
  end.

Definition no_images_error `{P : Platform} : Event :=
  EvLog ERROR "No images found to process. Exiting program.".

Definition no_panorama_error `{P : Platform} : Event :=
  EvLog ERROR "Failed to create a panorama.".

(** The ways a run of [main] from [w] can end. *)
Inductive MainRun `{P : Platform} (w : World) : outcome Exn unit -> World -> Prop :=
| run_usage code :
    parse_args (w_argv w) = inr code ->
    MainRun w (Raised (SystemExit code)) (extend w [EvParseArgs])
| run_oserror dir :
    parse_args (w_argv w) = inl dir ->
    listdir dir (w_fs w) = None ->
    MainRun w (Raised (OSError dir)) (extend w [EvParseArgs; EvListdir dir])
| run_no_images dir names :
    parse_args (w_argv w) = inl dir ->
    listdir dir (w_fs w) = Some names ->
    image_paths dir names = [] ->
    MainRun w (Returned tt)
      (extend w [EvParseArgs; EvListdir dir; scan_warning; no_images_error])
| run_no_panorama dir names :
    parse_args (w_argv w) = inl dir ->
    listdir dir (w_fs w) = Some names ->
    image_paths dir names <> [] ->
    create_panorama_value (image_paths dir names) (w_fs w) = None ->
    MainRun w (Returned tt)
      (extend w (EvParseArgs :: EvListdir dir ::
                 create_panorama_events (image_paths dir names) (w_fs w) ++
                 [no_panorama_error]))
| run_saved dir names pano :
    parse_args (w_argv w) = inl dir ->
    listdir dir (w_fs w) = Some names ->
    image_paths dir names <> [] ->
    create_panorama_value (image_paths dir names) (w_fs w) = Some pano ->
    MainRun w (Returned tt)
      (extend (set_fs w (snd (imwrite output_file_name pano (w_fs w))))
         (EvParseArgs :: EvListdir dir ::
          create_panorama_events (image_paths dir names) (w_fs w) ++
          [EvImwrite output_file_name pano;
           EvLog INFO (saved_message output_file_name)])).

(** ** The program follows the rules *)

Section MainCases.
Context `{P : Platform}.
Implicit Types (w : World).

Lemma main_run w : exists o w', main w = (o, w') /\ MainRun w o w'.
Proof.
  unfold main, bind at 1, argparse_parse_args.
  destruct (parse_args (w_argv w)) as [dir|code] eqn:Hargs;
    [|eauto using MainRun].
  unfold bind at 1. rewrite scan_images_run. simpl.
  destruct (listdir dir (w_fs w)) as [names|] eqn:Hls;
    [|rewrite extend_extend; eauto using MainRun].
  simpl. destruct (is_nil (image_paths dir names)) eqn:Hnil.
  - run_prog. apply is_nil_true in Hnil. eauto using MainRun.
  - apply is_nil_false in Hnil.
    unfold bind at 1. rewrite create_panorama_run. simpl.
    destruct (create_panorama_value (image_paths dir names) (w_fs w))
      as [pano|] eqn:Hval.
    + rewrite save_image_run. simpl w_fs. rewrite !extend_set_fs, !extend_extend.
      do 2 eexists. split; [reflexivity|]. eapply run_saved; eauto.
    + run_prog. do 2 eexists. split; [reflexivity|]. eapply run_no_panorama; eauto.
Qed.

Lemma main_cases w : MainRun w (fst (main w)) (snd (main w)).
Proof. destruct (main_run w) as (o & w' & -> & H). exact H. Qed.

(** The rules are deterministic: a world has one run. *)
Lemma MainRun_main w o w' : MainRun w o w' -> main w = (o, w').
Proof.
  intros H. destruct (main_run w) as (om & wm & -> & Hm).
  destruct H; inv Hm;
    repeat match goal with
    | H1 : ?x = _, H2 : ?x = _ |- _ => rewrite H1 in H2; inv H2
    end; congruence.
Qed.

Lemma MainRun_functional w o o' w1 w2 :
  MainRun w o w1 -> MainRun w o' w2 -> o = o' /\ w1 = w2.
Proof. intros H1%MainRun_main H2%MainRun_main. split; congruence. Qed.

End MainCases.

(** [by_rules H] splits a goal about a run along the rules of a
    derivation [H : MainRun w o w'] and computes the final trace and
    file system in each case. *)
Ltac by_rules H :=
  unfold emitted, eval, exec;
  destruct H;
  cbn [w_trace w_fs w_argv extend set_fs];
  rewrite ?skipn_length_app;
  unfold scan_warning, no_images_error, no_panorama_error, engine_calls;
  autorewrite with pano;
  cbn [app length].

(** ** Properties of the pipeline *)

Section MainProperties.
Context `{P : Platform}.
Implicit Types (w : World).

(** C1. The output file is written exactly when the whole pipeline
    succeeds: [main] calls [cv2.imwrite], once, with the fixed name
    [panorama_output.jpg] and the panorama [pano], if and only if the
    command line parses, the directory lists, at least one entry is an
    image file, every image file decodes, and the engine answers
    [Stitcher_OK] with [pano]. *)
Theorem main_writes_iff w pano :
  imwrite_calls (emitted main w) = [(output_file_name, pano)] <->
  exists dir names,
    parse_args (w_argv w) = inl dir /\
    listdir dir (w_fs w) = Some names /\
    image_paths dir names <> [] /\
    (forall f, In f (image_paths dir names) -> imread f (w_fs w) <> None) /\
    stitch (decoded (image_paths dir names) (w_fs w)) = (Stitcher_OK, Some pano).
Proof.
  split.
  - by_rules (main_cases w); try discriminate. intros [= ->].
    exists dir, names. repeat (split; [assumption|]).
    apply create_panorama_value_Some in H2 as [Hany Hst].
    split; [|exact Hst]. apply any_none_false in Hany.
    unfold decoded in Hany. rewrite Forall_map, Forall_forall in Hany. exact Hany.
  - intros (dir & names & Hargs & Hls & Hne & Hdec & Hst).
    assert (Hval : create_panorama_value (image_paths dir names) (w_fs w) = Some pano).
    { apply create_panorama_value_Some. split; [|exact Hst].
      apply all_decoded_any_none, Hdec. }
    unfold emitted, exec.
    rewrite (MainRun_main _ _ _ (run_saved w dir names pano Hargs Hls Hne Hval)).
    cbn [snd w_trace extend set_fs]. rewrite skipn_length_app.
    autorewrite with pano. reflexivity.
Qed.

(** The rules of [MainRun] are the semantics of [main]: a run
    from [w] ends with outcome [o] in world [w'] exactly when one of
    the five rules says so.  Every run therefore ends in exactly one of
    five ways: usage exit, listing error, no images, no panorama, or
    panorama saved. *)
Theorem main_semantics w o w' :
  main w = (o, w') <-> MainRun w o w'.
Proof.
  split; [|apply MainRun_main].
  intros H. pose proof (main_cases w) as Hm. rewrite H in Hm. exact Hm.
Qed.

(** [main] writes at most one file per run, and only under the
    fixed name [panorama_output.jpg]. *)
Theorem main_at_most_one_write w :
  length (imwrite_calls (emitted main w)) <= 1 /\
  forall f pano, In (f, pano) (imwrite_calls (emitted main w)) ->
                 f = output_file_name.
Proof.
  by_rules (main_cases w); (split; [lia|]); intros f p Hin;
    [elim Hin..|destruct Hin as [[= <- _]|[]]; reflexivity].
Qed.

(** A run that does not reach the writer leaves the file system
    exactly as it found it: no failure path creates, truncates or
    replaces the output file. *)
Theorem main_failure_no_output w :
  imwrite_calls (emitted main w) = [] ->
  w_fs (exec main w) = w_fs w.
Proof. by_rules (main_cases w); try reflexivity. discriminate. Qed.

(** C12. With no image file in the directory the run stops before
    loading: [main] logs the warning of the scan and the error "No
    images found to process", returns, and calls neither the decoder
    nor the engine nor the writer. *)
Theorem main_no_images w dir names :
  parse_args (w_argv w) = inl dir ->
  listdir dir (w_fs w) = Some names ->
  (forall f, In f names -> is_image_file f = false) ->
  main w =
  (Returned tt,
   extend w [EvParseArgs; EvListdir dir; scan_warning; no_images_error]).
Proof.
  intros Hargs Hls Hnone. apply MainRun_main.
  eapply run_no_images; eauto. apply image_paths_nil_iff, Hnone.
Qed.

(** The engine is called at most once in a run of [main]: a
    failed attempt is never retried. *)
Lemma main_engine_at_most_once w :
  engine_calls (emitted main w) <= 1.
Proof.
  by_rules (main_cases w); try lia;
    destruct (any_none _); simpl; lia.
Qed.

(** C7. When the engine refuses the images, [main] does not call the
    writer and leaves the file system untouched; the status is in the
    log, followed by "Failed to create a panorama." as the last
    event. *)
Theorem main_stitch_failure w dir names status pano :
  parse_args (w_argv w) = inl dir ->
  listdir dir (w_fs w) = Some names ->
  image_paths dir names <> [] ->
  (forall f, In f (image_paths dir names) -> imread f (w_fs w) <> None) ->
  stitch (decoded (image_paths dir names) (w_fs w)) = (status, pano) ->
  status <> Stitcher_OK ->
  imwrite_calls (emitted main w) = [] /\
  w_fs (exec main w) = w_fs w /\
  In (EvLog ERROR (stitch_failed_message status)) (emitted main w) /\
  last (emitted main w) EvParseArgs = no_panorama_error.
Proof.
  intros Hargs Hls Hne Hdec%all_decoded_any_none Hst Hno.
  assert (Hval : create_panorama_value (image_paths dir names) (w_fs w) = None).
  { unfold create_panorama_value. rewrite Hdec, Hst. simpl.
    destruct (Z.eqb_spec status Stitcher_OK); [contradiction|reflexivity]. }
  unfold emitted, exec.
  rewrite (MainRun_main _ _ _ (run_no_panorama w dir names Hargs Hls Hne Hval)).
  cbn [snd w_trace w_fs extend]. rewrite skipn_length_app.
  rewrite (create_panorama_events_refused _ _ _ _ Hdec Hst Hno).
  autorewrite with pano. simpl app. repeat split.
  - rewrite !app_comm_cons, in_app_iff. left.
    rewrite in_app_iff. right. left. reflexivity.
  - rewrite !app_comm_cons. apply last_last.
Qed.

(** The decoder is called on the discovered files, in order. *)
Lemma main_imread_calls w dir names :
  parse_args (w_argv w) = inl dir ->
  listdir dir (w_fs w) = Some names ->
  imread_calls (emitted main w) = image_paths dir names.
Proof.
  intros Hargs Hls. by_rules (main_cases w); try congruence;
    repeat match goal with
    | H1 : ?x = _, H2 : ?x = _ |- _ => rewrite H1 in H2; inv H2
    end; rewrite ?app_nil_r; auto.
Qed.

(** C36. Once the command line has parsed and the directory has been
    listed, [main] returns normally whatever happens next, so the
    process exits with status 0 also when no image was found, when
    loading failed and when the engine refused. *)
Theorem main_exit_status w dir names :
  parse_args (w_argv w) = inl dir ->
  listdir dir (w_fs w) = Some names ->
  eval main w = Returned tt /\ exit_status (eval main w) = 0%Z.
Proof.
  intros Hargs Hls. unfold eval.
  destruct (main_cases w); try congruence; auto.
Qed.

(** C37. Two exceptions can escape [main] and no other: [SystemExit]
    with the code of [argparse] when the command line is rejected, and
    [OSError] when the input directory cannot be listed.  In both
    cases nothing has been logged, decoded, stitched or written, and
    the exit status is the code, respectively 1. *)
Theorem main_raises_iff w e :
  eval main w = Raised e <->
  (exists code, parse_args (w_argv w) = inr code /\ e = SystemExit code /\
                emitted main w = [EvParseArgs] /\
                exit_status (eval main w) = code) \/
  (exists dir, parse_args (w_argv w) = inl dir /\ listdir dir (w_fs w) = None /\
               e = OSError dir /\ emitted main w = [EvParseArgs; EvListdir dir] /\
               exit_status (eval main w) = 1%Z).
Proof.
  unfold emitted, eval, exec. destruct (main_cases w);
    cbn [fst snd w_trace extend set_fs exit_status]; rewrite ?skipn_length_app.
  - split; [intros [= <-]; left; eauto 6|].
    intros [(c & Hc & -> & _)|(d & Hd & _)]; congruence.
  - split; [intros [= <-]; right; eauto 8|].
    intros [(c & Hc & _)|(d & Hd & _ & -> & _)]; congruence.
  - split; [discriminate|]. intros [(c & Hc & _)|(d & Hd & Hl & _)]; congruence.
  - split; [discriminate|]. intros [(c & Hc & _)|(d & Hd & Hl & _)]; congruence.
  - split; [discriminate|]. intros [(c & Hc & _)|(d & Hd & Hl & _)]; congruence.
Qed.

End MainProperties.

(** ** Witnesses on the test double *)

Lemma main_failure_no_output_witness :
  w_fs (exec main (mock_world ["-i"; "broken"] holiday_fs)) = holiday_fs.
Proof.
  exact (main_failure_no_output (mock_world ["-i"; "broken"] holiday_fs) eq_refl).
Defined.

Lemma main_no_images_witness :
  main (mock_world ["--input_dir"; "docs"] holiday_fs) =
  (Returned tt,
   extend (mock_world ["--input_dir"; "docs"] holiday_fs)
     [EvParseArgs; EvListdir "docs"; scan_warning; no_images_error]).
Proof.
  refine (main_no_images (mock_world ["--input_dir"; "docs"] holiday_fs) "docs"
            ["notes.txt"; "readme.md"; "jpg"] eq_refl eq_refl _).
  intros f [<-|[<-|[<-|[]]]]; reflexivity.
Defined.

Lemma main_stitch_failure_witness :
  imwrite_calls (emitted main (mock_world ["-i"; "single"] holiday_fs)) = [] /\
  w_fs (exec main (mock_world ["-i"; "single"] holiday_fs)) = holiday_fs /\
  In (EvLog ERROR "Failed to stitch images, error code: 1")
     (emitted main (mock_world ["-i"; "single"] holiday_fs)) /\
  last (emitted main (mock_world ["-i"; "single"] holiday_fs)) EvParseArgs =
    no_panorama_error.
Proof.
  refine (main_stitch_failure (mock_world ["-i"; "single"] holiday_fs) "single"
            ["a.jpg"] 1%Z None eq_refl eq_refl _ _ eq_refl _).
  - discriminate.
  - intros f [<-|[]]. discriminate.
  - discriminate.
Defined.

Lemma main_exit_status_witness :
  eval main (mock_world ["-i"; "broken"] holiday_fs) = Returned tt /\
  exit_status (eval main (mock_world ["-i"; "broken"] holiday_fs)) = 0%Z.
Proof.
  exact (main_exit_status (mock_world ["-i"; "broken"] holiday_fs) "broken"
           ["a.jpg"; "bad.jpeg"] eq_refl eq_refl).
Defined.

(** The scenario of the directory with [a.jpg], [notes.txt] and
    [b.PNG]: the text file is ignored, both images decode, the engine
    answers [Stitcher_OK], and the panorama is in the output file
    afterwards. *)
Example main_photos :
  imread output_file_name (w_fs (exec main (mock_world ["-i"; "photos"] holiday_fs))) =
  Some [1; 2; 3].
Proof. reflexivity. Qed.

Example main_photos_trace :
  emitted main (mock_world ["-i"; "photos"] holiday_fs) =
  [EvParseArgs; EvListdir "photos";
   EvLog INFO "Stitching 2 images into a panorama.";
   EvImread "photos/a.jpg"; EvImread "photos/b.PNG";
   EvStitcherCreate; EvStitch [Some [1; 2]; Some [3]];
   EvLog INFO "Panorama successfully created.";
   EvImwrite "panorama_output.jpg" [1; 2; 3];
   EvLog INFO "Panorama saved as panorama_output.jpg"].
Proof. reflexivity. Qed.
