(* ===== verification/Codec.v ===== *)
(** * Image formats: what the codecs do with a file name

    [cv2.imwrite] chooses its encoder by the file name: it takes the
    text after the last dot, keeps the letters and digits it starts
    with, and compares them, whatever their case, with the extensions
    of the formats it knows.  [panorama_output.jpg] is written as
    JPEG.  [cv2.imread] does not look at the name: it recognises the
    format from the content of the file.

    Of the formats of OpenCV this file has the two that the extensions
    of [scan_images] name, [JPEG] and [PNG].  What pixels a file holds
    is not modelled; a [Codec] says what reading a file gives back
    after an image was written to it in a format ([reread]), and that
    PNG gives back the image.  JPEG is lossy, so nothing is promised
    of it.

    The theorems: the format of a file name does not depend on the
    case of its letters; every name that [scan_images] accepts is the
    name of a JPEG or PNG file for the writer, with any directory in
    front; the output file of [main] is a JPEG file, and a name
    [scan_images] accepts. *)

From Stdlib Require Import String Ascii Bool Arith Lia List.
From S2P Require Import Prelude Monad PyStr Logging Platform Mock Scan Panorama Main.
Import ListNotations.

#[local] Open Scope list_scope.
#[local] Open Scope string_scope.

Inductive Format : Type := JPEG | PNG.

(** [isalnum] in the C locale. *)
Definition is_alnum (c : ascii) : bool :=
  let n := nat_of_ascii c in
  ((48 <=? n) && (n <=? 57) || (65 <=? n) && (n <=? 90) || (97 <=? n) && (n <=? 122))%nat.

(** The letters and digits a string starts with. *)
Fixpoint take_alnum (s : string) : string :=
  match s with
  | EmptyString => EmptyString
  | String c rest => if is_alnum c then String c (take_alnum rest) else EmptyString
  end.

(** [strrchr(name, '.')]: the text after the last dot, [None] when
    there is no dot. *)
Fixpoint after_last_dot (s : string) : option string :=
  match s with
  | EmptyString => None
  | String c rest =>
      match after_last_dot rest with
      | Some e => Some e
      | None => if Ascii.eqb c "." then Some rest else None
      end
  end.

(** The encoder [cv2.imwrite] finds for a file name, among JPEG
    ([*.jpeg], [*.jpg], [*.jpe]) and PNG ([*.png]). *)
Definition imwrite_format (file_name : string) : option Format :=
  match after_last_dot file_name with
  | None => None
  | Some ext =>
      let e := lower (take_alnum ext) in
      if existsb (String.eqb e) ["jpeg"; "jpg"; "jpe"] then Some JPEG
      else if String.eqb e "png" then Some PNG
      else None
  end.

(** What the codecs do to an image: [reread fmt img] is what decoding
    gives after [img] was encoded in the format [fmt]. *)
Class Codec (image : Type) : Type := {
  reread : Format -> image -> image;
  reread_png : forall img, reread PNG img = img
}.

(** An image survives a format when it is read back as it was
    written. *)
Definition lossless `{Codec image} (fmt : Format) (img : image) : Prop :=
  reread fmt img = img.

(** A codec that keeps every second level of a pixel in JPEG. *)
Definition coarse_reread (fmt : Format) (pixels : list nat) : list nat :=
  match fmt with
  | JPEG => map (fun v => 2 * (v / 2)) pixels
  | PNG => pixels
  end.

#[export] Instance coarse_codec : Codec (list nat) := {|
  reread := coarse_reread;
  reread_png := fun img => eq_refl
|}.

(** ** Characters and case *)

Section Case.
Implicit Types (s p e : string) (c : ascii).

Lemma lower_char_dot c : Ascii.eqb (lower_char c) "." = Ascii.eqb c ".".
Proof.
  unfold lower_char. destruct (is_upper_ascii c) eqn:Hu; [|reflexivity].
  destruct (Ascii.eqb_spec c ".") as [->|_]; [discriminate Hu|].
  apply Ascii.eqb_neq. intros H%(f_equal nat_of_ascii).
  unfold is_upper_ascii in Hu. apply andb_true_iff in Hu as [Hl%Nat.leb_le Hh%Nat.leb_le].
  rewrite nat_ascii_embedding in H by lia.
  change (nat_of_ascii ".") with 46 in H. lia.
Qed.

Lemma is_alnum_lower_char c : is_alnum (lower_char c) = is_alnum c.
Proof.
  unfold lower_char. destruct (is_upper_ascii c) eqn:Hu; [|reflexivity].
  pose proof Hu as Hb. unfold is_upper_ascii in Hb. cbv zeta in Hb.
  apply andb_true_iff in Hb as [Hl%Nat.leb_le Hh%Nat.leb_le].
  unfold is_alnum. rewrite nat_ascii_embedding by lia. cbv zeta.
  fold (is_upper_ascii c). rewrite Hu.
  replace (97 <=? nat_of_ascii c + 32)%nat with true by (symmetry; apply Nat.leb_le; lia).
  replace (nat_of_ascii c + 32 <=? 122)%nat with true by (symmetry; apply Nat.leb_le; lia).
  rewrite !orb_true_r. reflexivity.
Qed.

Lemma take_alnum_lower s : take_alnum (lower s) = lower (take_alnum s).
Proof.
  induction s as [|c s IH]; simpl; [reflexivity|].
  rewrite is_alnum_lower_char. destruct (is_alnum c); simpl; congruence.
Qed.

Lemma after_last_dot_lower s :
  after_last_dot (lower s) = option_map lower (after_last_dot s).
Proof.
  induction s as [|c s IH]; simpl; [reflexivity|].
  rewrite IH, lower_char_dot.
  destruct (after_last_dot s); simpl; [reflexivity|].
  destruct (Ascii.eqb c "."); reflexivity.
Qed.

(** The text after the last dot of a string that ends in a dot and
    an extension. *)
Lemma after_last_dot_app p e :
  after_last_dot e = None -> after_last_dot (p ++ String "." e) = Some e.
Proof.
  intros He. induction p as [|c p IH]; simpl; [rewrite He; reflexivity|].
  rewrite IH. reflexivity.
Qed.

End Case.

(** ** The format of a file name *)

Section Formats.
Implicit Types (f dir stem ext : string).

(** The encoder is found whatever the case of the extension. *)
Lemma imwrite_format_lower f : imwrite_format (lower f) = imwrite_format f.
Proof.
  unfold imwrite_format. rewrite after_last_dot_lower.
  destruct (after_last_dot f) as [e|]; simpl; [|reflexivity].
  rewrite take_alnum_lower, lower_idem. reflexivity.
Qed.

(** A name that ends in one of the extensions of [scan_images] has a
    format, with anything in front of it. *)
Lemma imwrite_format_supported stem ext :
  In ext supported_extensions ->
  imwrite_format (stem ++ ext) = Some (if String.eqb ext ".png" then PNG else JPEG).
Proof.
  unfold supported_extensions. simpl.
  intros [<-|[<-|[<-|[]]]]; unfold imwrite_format;
    rewrite after_last_dot_app by reflexivity; reflexivity.
Qed.

Lemma is_image_file_format f :
  is_image_file f = true -> imwrite_format f = Some JPEG \/ imwrite_format f = Some PNG.
Proof.
  intros (ext & stem & Hext & Hf)%is_image_file_spec.
  rewrite <- imwrite_format_lower, Hf, (imwrite_format_supported _ _ Hext).
  destruct (String.eqb ext ".png"); auto.
Qed.

(** Joining a directory does not change the format. *)
Lemma imwrite_format_join dir f :
  is_image_file f = true -> imwrite_format (path_join dir f) = imwrite_format f.
Proof.
  intros (ext & stem & Hext & Hl)%is_image_file_spec.
  destruct (proj1 (endswith_spec _ _) (path_join_endswith dir f)) as [q ->].
  rewrite <- (imwrite_format_lower (q ++ f)), <- (imwrite_format_lower f).
  rewrite lower_app, Hl, <- str_app_assoc, !imwrite_format_supported by assumption.
  reflexivity.
Qed.

(** The output of [main] is a JPEG file, and a name that
    [scan_images] accepts. *)
Lemma output_format :
  imwrite_format output_file_name = Some JPEG /\ is_image_file output_file_name = true.
Proof. split; reflexivity. Qed.

End Formats.
