(* ===== verification/Tree.v ===== *)
(** * The program as an interaction tree

    A second reading of [main.py], which separates what the program
    does from what the libraries answer.  The functions of the file
    are interaction trees over the events [pipeE], one event per
    library call of the source: a tree says which calls are made, in
    which order, and how the next call depends on the answers, and
    nothing of what the answers are.  The exceptions of
    [parser.parse_args] and [os.listdir] are answers that end the run:
    the trees of [scan_images] and [main] return an [outcome].

    An environment ([Env]) answers the calls from a state of its own;
    [platform_env] is the platform as an environment: the primitives
    of [Platform] over the world.  [run_tree] interprets a tree in an
    environment, with fuel; [handler] makes an environment a handler
    of the library's [interp_state], and the two interpretations
    agree.  Interpreting the trees in the platform gives the programs
    of [Scan], [Panorama] and [Main]: the final world and the value
    are those of the monadic model, for every platform and every
    world, so what is proved of the one holds of the other.  The fuel
    a run needs is one unit per file read and nine more. *)

From ITree Require Import ITree ITreeFacts Events.State Events.StateFacts.
From Stdlib Require Import String ZArith Bool Arith Lia List.
From S2P Require Import Prelude Monad PyStr Logging Platform Mock Scan Panorama Main.
Import ListNotations.

Declare Scope tree_scope.
Delimit Scope tree_scope with tree.

Notation "x <- c1 ;; c2" := (ITree.bind c1 (fun x => c2))
  (at level 100, c1 at next level, c2 at level 200, right associativity) : tree_scope.
Notation "c1 ;; c2" := (ITree.bind c1 (fun _ => c2))
  (at level 100, c2 at level 200, right associativity) : tree_scope.
Notation "' p <- c1 ;; c2" := (ITree.bind c1 (fun x => match x with p => c2 end))
  (at level 100, p pattern, c1 at next level, c2 at level 200,
   right associativity) : tree_scope.

#[local] Open Scope string_scope.
#[local] Open Scope list_scope.
#[local] Open Scope tree_scope.

(** The library calls of [main.py], with the type of their answers. *)
Variant pipeE `{P : Platform} : Type -> Type :=
| ParseArgs : pipeE (string + Z)
| Listdir (directory : string) : pipeE (option (list string))
| Imread (path : string) : pipeE (option image)
| StitcherCreate : pipeE unit
| Stitch (images : list (option image)) : pipeE (Z * option image)
| Imwrite (file_name : string) (img : image) : pipeE bool
| Log (lvl : Level) (msg : string) : pipeE unit.

(** The comprehension [[cv2.imread(f) for f in image_files]]. *)
Fixpoint load_images_tree `{P : Platform} (image_files : list string)
    : itree pipeE (list (option image)) :=
  match image_files with
  | [] => Ret []
  | f :: rest =>
      img <- trigger (Imread f) ;;
      images <- load_images_tree rest ;;
      Ret (img :: images)
  end.

Definition create_panorama_tree `{P : Platform} (image_files : list string)
    : itree pipeE (option image) :=
  trigger (Log INFO (stitching_message (length image_files))) ;;
  images <- load_images_tree image_files ;;
  if any_none images then
    trigger (Log ERROR "One or more images could not be loaded.") ;;
    Ret None
  else
    trigger StitcherCreate ;;
    '(status, panorama) <- trigger (Stitch images) ;;
    if negb (status =? Stitcher_OK)%Z then
      trigger (Log ERROR (stitch_failed_message status)) ;;
      Ret None
    else
      trigger (Log INFO "Panorama successfully created.") ;;
      Ret panorama.

Definition save_image_tree `{P : Platform} (img : image) (file_name : string)
    : itree pipeE unit :=
  trigger (Imwrite file_name img) ;;
  trigger (Log INFO (saved_message file_name)).

Definition scan_images_tree `{P : Platform} (directory : string)
    : itree pipeE (outcome Exn (list string)) :=
  listing <- trigger (Listdir directory) ;;
  match listing with
  | None => Ret (Raised (OSError directory))
  | Some names =>
      let image_files := image_paths directory names in
      (if is_nil image_files
       then trigger (Log WARNING "No image files found in the directory.")
       else Ret tt) ;;
      Ret (Returned image_files)
  end.

Definition main_tree `{P : Platform} : itree pipeE (outcome Exn unit) :=
  args <- trigger ParseArgs ;;
  match args with
  | inr code => Ret (Raised (SystemExit code))
  | inl input_dir =>
      scanned <- scan_images_tree input_dir ;;
      match scanned with
      | Raised e => Ret (Raised e)
      | Returned image_files =>
          if is_nil image_files then
            trigger (Log ERROR "No images found to process. Exiting program.") ;;
            Ret (Returned tt)
          else
            panorama <- create_panorama_tree image_files ;;
            match panorama with
            | Some p => save_image_tree p output_file_name ;; Ret (Returned tt)
            | None =>
                trigger (Log ERROR "Failed to create a panorama.") ;;
                Ret (Returned tt)
            end
      end
  end.

(** An environment answers the calls, from a state of its own. *)
Definition Env `{P : Platform} (St : Type) : Type := forall T, pipeE T -> St -> St * T.

(** The platform as an environment whose state is the world: its
    answer to a call, and the world after it. *)
Definition platform_env `{P : Platform} : Env World := fun T e w =>
  match e in pipeE T return World * T with
  | ParseArgs => (extend w [EvParseArgs], parse_args (w_argv w))
  | Listdir directory => (extend w [EvListdir directory], listdir directory (w_fs w))
  | Imread path => (extend w [EvImread path], imread path (w_fs w))
  | StitcherCreate => (extend w [EvStitcherCreate], tt)
  | Stitch images => (extend w [EvStitch images], stitch images)
  | Imwrite file_name img =>
      (extend (set_fs w (snd (imwrite file_name img (w_fs w)))) [EvImwrite file_name img],
       fst (imwrite file_name img (w_fs w)))
  | Log lvl msg =>
      (if isEnabledFor basicConfig lvl then extend w [EvLog lvl msg] else w, tt)
  end.

(** An environment as a handler of the library's interpreter. *)
Definition handler `{P : Platform} {St : Type} (h : Env St)
    : pipeE ~> Monads.stateT St (itree void1) :=
  fun T e s => Ret (h T e s).

(** The interpretation with fuel: one unit per node of the tree. *)
Fixpoint run_tree `{P : Platform} {St A : Type} (h : Env St) (fuel : nat)
    (t : itree pipeE A) (s : St) : option (St * A) :=
  match fuel with
  | 0 => None
  | S n =>
      match observe t with
      | RetF r => Some (s, r)
      | TauF t' => run_tree h n t' s
      | VisF e k => run_tree h n (k (snd (h _ e s))) (fst (h _ e s))
      end
  end.

(** [runs h t s n r]: the tree [t] interpreted by [h] from [s] ends
    with [r] within [n] nodes. *)
Definition runs `{P : Platform} {St A : Type} (h : Env St) (t : itree pipeE A) (s : St)
    (n : nat) (r : St * A) : Prop :=
  forall fuel, n <= fuel -> run_tree h fuel t s = Some r.

(** The nodes of the tree of a run, at most, as a function of the
    number of files that are read. *)
Definition scan_images_fuel (scanned : outcome Exn (list string)) : nat :=
  match scanned with
  | Returned [] => 3
  | _ => 2
  end.
Definition load_fuel (n : nat) : nat := n + 1.
Definition create_panorama_fuel (n : nat) : nat := load_fuel n + 4.
Definition main_fuel (n : nat) : nat := create_panorama_fuel n + 4.

(** The result of a program of the monadic model, as the
    interpretation of a tree gives it. *)
Definition result `{P : Platform} {A : Type} (m : M A) (w : World)
    : World * outcome Exn A :=
  (exec m w, eval m w).

(** ** The interpreter with fuel *)

Section RunTree.
Context `{P : Platform} {St : Type} (h : Env St).
Implicit Types (s : St) (fuel n m : nat).

Lemma run_tree_observe {A : Type} fuel (t t' : itree pipeE A) s :
  observe t = observe t' -> run_tree h fuel t s = run_tree h fuel t' s.
Proof. intros H. destruct fuel; simpl; [reflexivity|]. rewrite H. reflexivity. Qed.

(** More fuel does not change the result. *)
Lemma run_tree_mono {A : Type} fuel fuel' (t : itree pipeE A) s r :
  run_tree h fuel t s = Some r -> fuel <= fuel' -> run_tree h fuel' t s = Some r.
Proof.
  revert fuel' t s. induction fuel as [|n IH]; intros [|n'] t s; simpl;
    try discriminate; try lia.
  destruct (observe t) as [a|t'|X e k]; intros H Hle;
    [exact H|apply (IH _ _ _ H); lia..].
Qed.

Lemma runs_le {A : Type} (t : itree pipeE A) s n n' r :
  runs h t s n r -> n <= n' -> runs h t s n' r.
Proof. intros H Hle fuel Hf. apply H. lia. Qed.

Lemma runs_pos {A : Type} (t : itree pipeE A) s n r : runs h t s n r -> 1 <= n.
Proof. intros H. destruct n; [discriminate (H 0 (le_n 0))|lia]. Qed.

Lemma runs_ret {A : Type} (a : A) s n r : r = (s, a) -> 1 <= n -> runs h (Ret a) s n r.
Proof. intros -> Hn [|fuel] Hle; [lia|reflexivity]. Qed.

(** A call costs one node. *)
Lemma runs_call {T A : Type} (e : pipeE T) (k : T -> itree pipeE A) s n r :
  runs h (k (snd (h _ e s))) (fst (h _ e s)) (n - 1) r -> 1 <= n ->
  runs h (x <- trigger e ;; k x) s n r.
Proof.
  intros H Hn [|fuel] Hle; [lia|]. cbn [run_tree]. rewrite observe_bind. cbn.
  rewrite (run_tree_observe _ _ (k (snd (h _ e s)))) by reflexivity.
  apply H. lia.
Qed.

Lemma runs_trigger {T : Type} (e : pipeE T) s n r :
  r = h _ e s -> 2 <= n -> runs h (trigger e) s n r.
Proof.
  intros -> Hn [|[|fuel]] Hle; try lia. cbn. f_equal. symmetry.
  exact (surjective_pairing (h _ e s)).
Qed.

Lemma run_tree_bind {A B : Type} (k : A -> itree pipeE B) s' a m r :
  runs h (k a) s' m r ->
  forall n (t : itree pipeE A) s,
    run_tree h n t s = Some (s', a) -> runs h (x <- t ;; k x) s (n + m - 1) r.
Proof.
  intros Hk. pose proof (runs_pos _ _ _ _ Hk) as Hm.
  induction n as [|n IH]; intros t s; cbn [run_tree]; [discriminate|].
  intros H [|fuel] Hle; [lia|]. cbn [run_tree]. rewrite observe_bind.
  destruct (observe t) as [a0|t'|X e k']; cbn;
    [injection H as <- <-; apply (Hk (S fuel)); lia|..];
    (assert (1 <= n) by (destruct n; [discriminate H|lia])); apply (IH _ _ H); lia.
Qed.

(** Sequencing adds the nodes, less the return of the first part:
    the rest of the program has what the first part has left. *)
Lemma runs_bind {A B : Type} (t : itree pipeE A) (k : A -> itree pipeE B)
    s s' a n p r :
  runs h t s n (s', a) -> runs h (k a) s' (p + 1 - n) r -> n <= p ->
  runs h (x <- t ;; k x) s p r.
Proof.
  intros Ht Hk Hn. apply (runs_le _ _ (n + (p + 1 - n) - 1)); [|lia].
  exact (run_tree_bind k s' a _ r Hk n t s (Ht n (le_n n))).
Qed.

(** The interpreter with fuel computes the interpretation of the
    library. *)
Lemma run_tree_interp {A : Type} fuel (t : itree pipeE A) s r :
  run_tree h fuel t s = Some r -> interp_state (handler h) t s ≈ Ret r.
Proof.
  revert t s. induction fuel as [|n IH]; intros t s; cbn [run_tree]; [discriminate|].
  rewrite unfold_interp_state. destruct (observe t) as [a|t'|X e k]; cbn.
  - intros [= <-]. reflexivity.
  - intros H. rewrite tau_eutt. apply IH, H.
  - intros H. unfold handler. rewrite Eqit.bind_ret_l, tau_eutt. apply IH, H.
Qed.

End RunTree.

(** [run_call] interprets the call at the head of the tree;
    [run_done] closes the equation between two results. *)
Ltac enabled :=
  repeat match goal with
         | |- context [isEnabledFor basicConfig ?l] =>
             let b := eval vm_compute in (isEnabledFor basicConfig l) in
             change (isEnabledFor basicConfig l) with b
         end.
Ltac run_call :=
  eapply runs_call; [|lia]; cbv beta; cbn [platform_env fst snd]; enabled;
  cbn [w_fs extend].
Ltac run_done :=
  cbv beta; unfold decoded;
  cbn [platform_env fst snd w_fs w_argv w_trace extend set_fs map];
  enabled;
  rewrite ?extend_set_fs, ?extend_extend, ?extend_nil, ?app_nil_r, <- ?app_assoc;
  simpl app; reflexivity.
Ltac run_ret := eapply runs_ret; [run_done|lia].
Ltac run_bind H := eapply runs_bind; [apply H| |lia]; cbv beta; cbn [w_fs extend].

(** ** The trees of the program *)

Section Trees.
Context `{P : Platform}.
Implicit Types (w : World) (image_files : list string).

Lemma runs_load_images image_files w :
  runs platform_env (load_images_tree image_files) w (load_fuel (length image_files))
    (extend w (map EvImread image_files), decoded image_files (w_fs w)).
Proof.
  unfold load_fuel. revert w.
  induction image_files as [|f rest IH]; intros w; cbn [load_images_tree length];
    [run_ret|].
  run_call. run_bind IH. run_ret.
Qed.

Lemma runs_create_panorama image_files w :
  runs platform_env (create_panorama_tree image_files) w
    (create_panorama_fuel (length image_files))
    (extend w (create_panorama_events image_files (w_fs w)),
     create_panorama_value image_files (w_fs w)).
Proof.
  unfold create_panorama_tree, create_panorama_events, create_panorama_value,
    create_panorama_fuel.
  run_call. run_bind runs_load_images. unfold load_fuel.
  destruct (any_none (decoded image_files (w_fs w))); [run_call; run_ret|].
  do 2 run_call. destruct (stitch (decoded image_files (w_fs w))) as [status panorama].
  cbn [fst snd]. destruct (negb _); run_call; run_ret.
Qed.

Lemma runs_save_image img file_name w :
  runs platform_env (save_image_tree img file_name) w 3
    (extend (set_fs w (snd (imwrite file_name img (w_fs w))))
       [EvImwrite file_name img; EvLog INFO (saved_message file_name)], tt).
Proof. unfold save_image_tree. run_call. eapply runs_trigger; [run_done|lia]. Qed.

Lemma scan_images_fuel_le scanned : scan_images_fuel scanned <= 3.
Proof. destruct scanned as [[|f rest]|e]; simpl; lia. Qed.

Lemma runs_scan_images directory w :
  runs platform_env (scan_images_tree directory) w
    (scan_images_fuel (eval (scan_images directory) w)) (result (scan_images directory) w).
Proof.
  unfold scan_images_tree, result, exec, eval. rewrite scan_images_run.
  destruct (listdir directory (w_fs w)) as [names|] eqn:Hls; cbn [fst snd scan_images_fuel];
    [|run_call; rewrite Hls; run_ret].
  cbv zeta. destruct (image_paths directory names) as [|f rest] eqn:Hfiles;
    run_call; rewrite Hls; cbv zeta; rewrite Hfiles; cbn [is_nil].
  - run_call. run_ret.
  - eapply runs_bind; [eapply runs_ret; [reflexivity|constructor]| |lia]. run_ret.
Qed.

(** The tree of [main] after the command line has parsed and the
    directory has been listed. *)
Lemma runs_main_listed w dir names n r :
  parse_args (w_argv w) = inl dir ->
  listdir dir (w_fs w) = Some names ->
  runs platform_env
    (if is_nil (image_paths dir names)
        then trigger (Log ERROR "No images found to process. Exiting program.") ;;
             Ret (Returned tt)
        else panorama <- create_panorama_tree (image_paths dir names) ;;
             match panorama with
             | Some p => save_image_tree p output_file_name ;; Ret (Returned tt)
             | None => trigger (Log ERROR "Failed to create a panorama.") ;;
                       Ret (Returned tt)
             end)
    (extend w (EvParseArgs :: EvListdir dir ::
               if is_nil (image_paths dir names) then [scan_warning] else [])) n r ->
  runs platform_env main_tree w (scan_images_fuel (Returned (image_paths dir names)) + n) r.
Proof.
  intros Hargs Hls Hrest. pose proof (runs_pos _ _ _ _ _ Hrest). unfold main_tree.
  assert (Hscan : eval (scan_images dir) (extend w [EvParseArgs]) =
                  Returned (image_paths dir names)).
  { unfold eval. rewrite scan_images_run. cbn [w_fs extend]. rewrite Hls. reflexivity. }
  eapply runs_call; [|destruct (image_paths dir names); simpl; lia].
  cbn [platform_env fst snd]. rewrite Hargs.
  eapply runs_bind; [apply runs_scan_images| |rewrite Hscan; lia].
  rewrite Hscan. unfold result, exec, eval. rewrite scan_images_run. cbn [w_fs extend].
  rewrite Hls. cbn [fst snd]. rewrite extend_extend.
  eapply runs_le; [exact Hrest|lia].
Qed.

(** The nodes of a run of [main], by the files it reads. *)
Lemma runs_main w :
  runs platform_env main_tree w (main_fuel (length (imread_calls (emitted main w))))
    (result main w).
Proof.
  unfold main_fuel, create_panorama_fuel, load_fuel.
  pose proof (main_imread_calls w) as Hreads. unfold result, exec, eval.
  destruct (main_cases w) as [code Hargs|dir Hargs Hls|dir names Hargs Hls Hnil
                             |dir names Hargs Hls Hne Hval|dir names pano Hargs Hls Hne Hval];
    cbn [fst snd]; try rewrite (Hreads _ _ Hargs Hls).
  - unfold main_tree. run_call. rewrite Hargs. run_ret.
  - unfold main_tree. run_call. rewrite Hargs.
    pose proof (scan_images_fuel_le (eval (scan_images dir) (extend w [EvParseArgs]))).
    run_bind runs_scan_images.
    unfold result, exec, eval. rewrite scan_images_run. cbn [w_fs extend].
    rewrite Hls. cbn [fst snd scan_images_fuel]. run_ret.
  - eapply runs_le; [eapply (runs_main_listed w dir names 2 _ Hargs Hls)|rewrite Hnil; simpl; lia].
    rewrite Hnil. cbn [is_nil]. run_call. run_ret.
  - eapply runs_le;
      [eapply (runs_main_listed w dir names
                 (create_panorama_fuel (length (image_paths dir names)) + 1) _ Hargs Hls)
      |unfold create_panorama_fuel, load_fuel;
       destruct (image_paths dir names); [contradiction|simpl; lia]].
    rewrite (proj2 (is_nil_false _) Hne). run_bind runs_create_panorama.
    rewrite Hval. run_call. run_ret.
  - eapply runs_le;
      [eapply (runs_main_listed w dir names
                 (create_panorama_fuel (length (image_paths dir names)) + 2) _ Hargs Hls)
      |unfold create_panorama_fuel, load_fuel;
       destruct (image_paths dir names); [contradiction|simpl; lia]].
    rewrite (proj2 (is_nil_false _) Hne). run_bind runs_create_panorama.
    rewrite Hval. run_bind runs_save_image. run_ret.
Qed.

End Trees.

(** ** The tree and the monadic model *)

Section Denotation.
Context `{P : Platform}.
Implicit Types (w : World).

(** The tree of [main] ends, and computes what the monadic model
    computes: interpreted by the platform with fuel for one node per
    file read and nine more, it returns the final world and the
    outcome of [main], and more fuel does not change the result. *)
Theorem main_tree_runs w fuel :
  main_fuel (length (imread_calls (emitted main w))) <= fuel ->
  run_tree platform_env fuel main_tree w = Some (exec main w, eval main w).
Proof. apply (runs_main w). Qed.

(** C20. The tree of [main] denotes the program [main]: its
    interpretation by the handler of the platform, from any world, is
    equivalent up to silent steps to returning the final world and the
    outcome of the monadic model. *)
Theorem interp_main w :
  interp_state (handler platform_env) main_tree w ≈ Ret (exec main w, eval main w).
Proof. exact (run_tree_interp _ _ _ _ _ (runs_main w _ (le_n _))). Qed.

(** The same for the attempt alone. *)
Lemma interp_create_panorama image_files w :
  interp_state (handler platform_env) (create_panorama_tree image_files) w ≈
  Ret (extend w (create_panorama_events image_files (w_fs w)),
       create_panorama_value image_files (w_fs w)).
Proof. exact (run_tree_interp _ _ _ _ _ (runs_create_panorama image_files w _ (le_n _))). Qed.

End Denotation.

(** ** Witnesses *)

Lemma main_tree_runs_witness :
  run_tree platform_env 11 main_tree (mock_world ["-i"; "photos"] holiday_fs) =
  Some (exec main (mock_world ["-i"; "photos"] holiday_fs),
        eval main (mock_world ["-i"; "photos"] holiday_fs)).
Proof.
  apply (main_tree_runs (P := mock_platform) (mock_world ["-i"; "photos"] holiday_fs) 11).
  vm_compute. lia.
Defined.

(** The tree on the holiday photographs: ten nodes are not enough,
    eleven are, and the panorama is written. *)
Example main_tree_photos :
  run_tree platform_env 10 main_tree (mock_world ["-i"; "photos"] holiday_fs) = None /\
  option_map (fun r => imwrite_calls (w_trace (fst r)))
    (run_tree platform_env 11 main_tree (mock_world ["-i"; "photos"] holiday_fs)) =
  Some [(output_file_name, [1; 2; 3])].
Proof. split; vm_compute; reflexivity. Qed.
