(* ===== verification/Env.v ===== *)
(** * The program against any environment

    The monadic model takes the libraries as functions of the file
    system: the same call on the same file system gives the same
    answer.  The trees of [Tree] need no such assumption.  Here they
    are run against an arbitrary environment: any state, any answer to
    any call, also answers that change from one call to the next, an
    engine that is not deterministic, a file that disappears between
    the listing and the read.

    [logged h] is the environment [h] with a record of the calls and
    their answers.  [Scanned], [Attempt] and [Script] say which
    sequences of calls the functions [scan_images], [create_panorama]
    and [main] can make, with which answers, and what they then
    return: one rule per path through the function.  Against every
    environment the tree of [main] ends, within one node per call and
    one more, and the record of its calls is a [Script].  From the
    rules alone: the engine is called at most once, on the answers of
    the decoder to the files of the listing, in order and none of them
    [None]; the writer is called at most once, with the fixed name and
    the panorama the engine has answered with the status
    [Stitcher_OK]. *)

From ITree Require Import ITree.
From Stdlib Require Import String ZArith Bool Arith Lia List.
From S2P Require Import Prelude Monad PyStr Logging Platform Mock Scan Panorama Main Tree.
Import ListNotations.

#[local] Open Scope string_scope.
#[local] Open Scope list_scope.
#[local] Open Scope tree_scope.

(** A call with the answer it got. *)
Inductive Call `{P : Platform} : Type :=
| Answered {T : Type} (e : pipeE T) (x : T).

(** An environment that keeps the record of its calls. *)
Definition logged `{P : Platform} {St : Type} (h : Env St) : Env (St * list Call) :=
  fun T e s =>
    (fst (h T e (fst s)), snd s ++ [Answered e (snd (h T e (fst s)))],
     snd (h T e (fst s))).

(** A logging call. *)
Definition said `{P : Platform} (lvl : Level) (msg : string) : Call :=
  Answered (Log lvl msg) tt.

(** The reads of a list of files, with what the decoder answered. *)
Definition reads `{P : Platform} (image_files : list string)
    (images : list (option image)) : list Call :=
  map (fun fi => Answered (Imread (fst fi)) (snd fi)) (combine image_files images).

(** The calls to the writer, to the engine and to the decoder in a
    record. *)
Definition writes `{P : Platform} (log : list Call) : list (string * image) :=
  flat_map (fun c => match c with
                     | Answered e _ =>
                         match e with
                         | Imwrite file_name img => [(file_name, img)]
                         | _ => []
                         end
                     end) log.

Definition stitched `{P : Platform} (log : list Call)
    : list (list (option image) * (Z * option image)) :=
  flat_map (fun c => match c with
                     | @Answered _ T e x =>
                         match e in pipeE T
                               return T -> list (list (option image) * (Z * option image))
                         with
                         | Stitch images => fun r => [(images, r)]
                         | _ => fun _ => []
                         end x
                     end) log.

Definition decodings `{P : Platform} (log : list Call) : list (string * option image) :=
  flat_map (fun c => match c with
                     | @Answered _ T e x =>
                         match e in pipeE T return T -> list (string * option image) with
                         | Imread path => fun img => [(path, img)]
                         | _ => fun _ => []
                         end x
                     end) log.

(** The calls of [scan_images] and what it returns: the listing
    raises, or lists no image file, or some. *)
Inductive Scanned `{P : Platform} (directory : string)
    : list Call -> outcome Exn (list string) -> Prop :=
| scanned_oserror :
    Scanned directory [Answered (Listdir directory) None] (Raised (OSError directory))
| scanned_nothing names :
    image_paths directory names = [] ->
    Scanned directory
      [Answered (Listdir directory) (Some names);
       said WARNING "No image files found in the directory."]
      (Returned [])
| scanned_files names :
    image_paths directory names <> [] ->
    Scanned directory [Answered (Listdir directory) (Some names)]
      (Returned (image_paths directory names)).

(** The calls of [create_panorama] and what it returns: a file does
    not decode, or the engine refuses, or it answers [Stitcher_OK]. *)
Inductive Attempt `{P : Platform} (image_files : list string)
    : list Call -> option image -> Prop :=
| attempt_not_loaded images :
    length images = length image_files ->
    any_none images = true ->
    Attempt image_files
      (said INFO (stitching_message (length image_files)) ::
       reads image_files images ++
       [said ERROR "One or more images could not be loaded."])
      None
| attempt_refused images status panorama :
    length images = length image_files ->
    any_none images = false ->
    status <> Stitcher_OK ->
    Attempt image_files
      (said INFO (stitching_message (length image_files)) ::
       reads image_files images ++
       [Answered StitcherCreate tt; Answered (Stitch images) (status, panorama);
        said ERROR (stitch_failed_message status)])
      None
| attempt_created images panorama :
    length images = length image_files ->
    any_none images = false ->
    Attempt image_files
      (said INFO (stitching_message (length image_files)) ::
       reads image_files images ++
       [Answered StitcherCreate tt; Answered (Stitch images) (Stitcher_OK, panorama);
        said INFO "Panorama successfully created."])
      panorama.

(** The calls of [main] after a scan that has found files: the
    attempt, and then the write or the error. *)
Inductive Script_files `{P : Platform} (image_files : list string)
    : list Call -> list Call -> Prop :=
| files_no_panorama calls :
    Attempt image_files calls None ->
    Script_files image_files calls [said ERROR "Failed to create a panorama."]
| files_saved calls panorama ok :
    Attempt image_files calls (Some panorama) ->
    Script_files image_files calls
      [Answered (Imwrite output_file_name panorama) ok;
       said INFO (saved_message output_file_name)].

(** The calls of [main] and how it ends. *)
Inductive Script `{P : Platform} : list Call -> outcome Exn unit -> Prop :=
| script_usage code :
    Script [Answered ParseArgs (inr code)] (Raised (SystemExit code))
| script_not_listed dir calls e :
    Scanned dir calls (Raised e) ->
    Script (Answered ParseArgs (inl dir) :: calls) (Raised e)
| script_no_images dir calls :
    Scanned dir calls (Returned []) ->
    Script (Answered ParseArgs (inl dir) :: calls ++
            [said ERROR "No images found to process. Exiting program."])
      (Returned tt)
| script_files dir calls image_files calls' calls'' :
    Scanned dir calls (Returned image_files) -> image_files <> [] ->
    Script_files image_files calls' calls'' ->
    Script (Answered ParseArgs (inl dir) :: calls ++ calls' ++ calls'') (Returned tt).

(** An environment for the scenarios: a directory with two image
    files, of which each decodes the first time it is read and never
    again, and an engine that joins what it is given.  Its state is
    the number of reads so far. *)
Definition forgetful : Env nat (P := mock_platform) := fun T e n =>
  match e in pipeE T return nat * T with
  | ParseArgs => (n, inl "shots")
  | Listdir _ => (n, Some ["a.jpg"; "notes.txt"; "b.png"])
  | Imread _ => (S n, if (n <? 2)%nat then Some [n] else None)
  | StitcherCreate => (n, tt)
  | Stitch images => (n, mock_stitch images)
  | Imwrite _ _ => (n, true)
  | Log _ _ => (n, tt)
  end.

(** The record of a run that saves a panorama of two images. *)
Definition saved_log : list (Call (P := mock_platform)) :=
  [Answered ParseArgs (inl "shots");
   Answered (Listdir "shots") (Some ["a.jpg"; "notes.txt"; "b.png"]);
   said INFO "Stitching 2 images into a panorama.";
   Answered (Imread "shots/a.jpg") (Some [0]);
   Answered (Imread "shots/b.png") (Some [1]);
   Answered StitcherCreate tt;
   Answered (Stitch [Some [0]; Some [1]]) (0%Z, Some [0; 1]);
   said INFO "Panorama successfully created.";
   Answered (Imwrite "panorama_output.jpg" [0; 1]) true;
   said INFO "Panorama saved as panorama_output.jpg"].

(** ** Running against an environment *)

(** [env_call H] interprets the call at the head of the tree, whose
    answer is named by [H : h _ e s = (s', x)]; [env_ret] closes a
    run that has returned; [lens] normalises the lengths. *)
Ltac lens := repeat (rewrite length_app || cbn [length]).
Ltac env_call H :=
  eapply runs_call; [|lia]; cbv beta; cbn [logged fst snd]; rewrite H; cbn [fst snd].
Ltac env_ret :=
  eapply runs_ret; [|lia]; rewrite <- ?app_assoc; cbn [app]; rewrite ?app_nil_r;
  reflexivity.
Ltac env_bind H := eapply runs_bind; [exact H| |lia]; cbv beta.

Section Environment.
Context `{P : Platform} {St : Type} (h : Env St).
Implicit Types (s : St) (log calls : list Call) (image_files : list string).

Lemma env_load_images image_files s log :
  exists s' images,
    length images = length image_files /\
    runs (logged h) (load_images_tree image_files) (s, log)
      (length (reads image_files images) + 1)
      ((s', log ++ reads image_files images), images).
Proof.
  revert s log. induction image_files as [|f rest IH]; intros s log.
  - exists s, []. split; [reflexivity|]. env_ret.
  - destruct (h _ (Imread f) s) as [s1 img] eqn:H1.
    destruct (IH s1 (log ++ [Answered (Imread f) img])) as (s' & images & Hlen & Hrun).
    exists s', (img :: images). split; [simpl; lia|].
    cbn [load_images_tree reads combine map length]. fold (reads rest images).
    env_call H1. env_bind Hrun. env_ret.
Qed.

Lemma env_create_panorama image_files s log :
  exists s' calls panorama,
    Attempt image_files calls panorama /\
    runs (logged h) (create_panorama_tree image_files) (s, log) (length calls + 1)
      ((s', log ++ calls), panorama).
Proof.
  destruct (h _ (Log INFO (stitching_message (length image_files))) s)
    as [s1 []] eqn:H1.
  destruct (env_load_images image_files s1
              (log ++ [said INFO (stitching_message (length image_files))]))
    as (s2 & images & Hlen & Hload).
  unfold create_panorama_tree. destruct (any_none images) eqn:Hany.
  - destruct (h _ (Log ERROR "One or more images could not be loaded.") s2)
      as [s3 []] eqn:H3.
    do 3 eexists. split; [apply (attempt_not_loaded _ images); assumption|].
    lens. env_call H1. env_bind Hload. rewrite Hany. env_call H3. env_ret.
  - destruct (h _ StitcherCreate s2) as [s3 []] eqn:H3.
    destruct (h _ (Stitch images) s3) as [s4 [status panorama]] eqn:H4.
    destruct (Z.eqb_spec status Stitcher_OK) as [->|Hne].
    + destruct (h _ (Log INFO "Panorama successfully created.") s4) as [s5 []] eqn:H5.
      do 3 eexists. split; [apply (attempt_created _ images panorama); assumption|].
      lens. env_call H1. env_bind Hload. rewrite Hany. env_call H3. env_call H4.
      cbn [negb Z.eqb Stitcher_OK]. env_call H5. env_ret.
    + destruct (h _ (Log ERROR (stitch_failed_message status)) s4) as [s5 []] eqn:H5.
      do 3 eexists. split; [apply (attempt_refused _ images status panorama); assumption|].
      lens. env_call H1. env_bind Hload. rewrite Hany. env_call H3. env_call H4.
      rewrite (proj2 (Z.eqb_neq _ _) Hne). cbn [negb]. env_call H5. env_ret.
Qed.

Lemma env_scan_images directory s log :
  exists s' calls scanned,
    Scanned directory calls scanned /\
    runs (logged h) (scan_images_tree directory) (s, log) (length calls + 1)
      ((s', log ++ calls), scanned).
Proof.
  destruct (h _ (Listdir directory) s) as [s1 [names|]] eqn:H1; unfold scan_images_tree.
  - destruct (image_paths directory names) as [|f rest] eqn:Hfiles.
    + destruct (h _ (Log WARNING "No image files found in the directory.") s1)
        as [s2 []] eqn:H2.
      do 3 eexists. split; [apply (scanned_nothing _ names Hfiles)|].
      lens. env_call H1. cbv zeta. rewrite Hfiles. cbn [is_nil].
      env_call H2. env_ret.
    + do 3 eexists. split; [apply (scanned_files _ names); rewrite Hfiles; discriminate|].
      lens. env_call H1. cbv zeta. rewrite Hfiles. cbn [is_nil].
      eapply runs_bind; [eapply runs_ret; [reflexivity|constructor]| |lia]. env_ret.
  - do 3 eexists. split; [apply scanned_oserror|]. lens. env_call H1. env_ret.
Qed.

Lemma env_save_image img file_name s log :
  exists s' ok,
    runs (logged h) (save_image_tree img file_name) (s, log) 3
      ((s', log ++ [Answered (Imwrite file_name img) ok;
                    said INFO (saved_message file_name)]), tt).
Proof.
  destruct (h _ (Imwrite file_name img) s) as [s1 ok] eqn:H1.
  destruct (h _ (Log INFO (saved_message file_name)) s1) as [s2 []] eqn:H2.
  exists s2, ok. unfold save_image_tree. env_call H1.
  eapply runs_trigger; [|lia]. unfold logged. cbn [fst snd]. rewrite H2. cbn [fst snd].
  rewrite <- app_assoc. reflexivity.
Qed.

(** The rest of [main] after a scan that has returned files. *)
Lemma env_main_files image_files s log :
  exists s' calls calls',
    Script_files image_files calls calls' /\
    runs (logged h)
      (panorama <- create_panorama_tree image_files ;;
       match panorama with
       | Some p => save_image_tree p output_file_name ;; Ret (Returned tt)
       | None => trigger (Log ERROR "Failed to create a panorama.") ;; Ret (Returned tt)
       end)
      (s, log) (length (calls ++ calls') + 1)
      ((s', log ++ calls ++ calls'), @Returned Exn unit tt).
Proof.
  destruct (env_create_panorama image_files s log)
    as (s1 & calls & [p|] & Hatt & Hrun).
  - destruct (env_save_image p output_file_name s1 (log ++ calls)) as (s2 & ok & Hsave).
    do 3 eexists. split; [apply (files_saved _ _ p ok Hatt)|].
    lens. env_bind Hrun. env_bind Hsave. env_ret.
  - destruct (h _ (Log ERROR "Failed to create a panorama.") s1) as [s2 []] eqn:H2.
    do 3 eexists. split; [apply (files_no_panorama _ _ Hatt)|].
    lens. env_bind Hrun. env_call H2. env_ret.
Qed.

(** The tree of [main] against the environment. *)
Lemma env_main s :
  exists s' log o,
    Script log o /\
    runs (logged h) main_tree (s, []) (length log + 1) ((s', log), o).
Proof.
  destruct (h _ ParseArgs s) as [s1 [dir|code]] eqn:H1; unfold main_tree.
  2:{ do 3 eexists. split; [apply script_usage|]. lens. env_call H1. env_ret. }
  destruct (env_scan_images dir s1 [Answered ParseArgs (inl dir)])
    as (s2 & calls & scanned & Hscan & Hrun).
  destruct scanned as [[|f rest]|e].
  - destruct (h _ (Log ERROR "No images found to process. Exiting program.") s2)
      as [s3 []] eqn:H3.
    do 3 eexists. split; [apply (script_no_images dir calls Hscan)|].
    lens. env_call H1. env_bind Hrun. cbn [is_nil]. env_call H3. env_ret.
  - destruct (env_main_files (f :: rest) s2 (Answered ParseArgs (inl dir) :: calls))
      as (s3 & calls1 & calls2 & Hfiles & Hrest).
    do 3 eexists.
    split; [apply (script_files dir calls (f :: rest) calls1 calls2 Hscan);
            [discriminate|exact Hfiles]|].
    lens. env_call H1. env_bind Hrun. cbn [is_nil].
    eapply runs_le; [exact Hrest|lens; lia].
  - do 3 eexists. split; [apply (script_not_listed dir calls e Hscan)|].
    lens. env_call H1. env_bind Hrun. env_ret.
Qed.

End Environment.

(** ** What the records say *)

Section Records.
Context `{P : Platform}.
Implicit Types (log calls : list Call) (image_files : list string)
  (images : list (option image)).

Lemma writes_app log log' : writes (log ++ log') = writes log ++ writes log'.
Proof. apply flat_map_app. Qed.

Lemma stitched_app log log' : stitched (log ++ log') = stitched log ++ stitched log'.
Proof. apply flat_map_app. Qed.

Lemma decodings_app log log' : decodings (log ++ log') = decodings log ++ decodings log'.
Proof. apply flat_map_app. Qed.

Lemma reads_calls image_files images :
  writes (reads image_files images) = [] /\
  stitched (reads image_files images) = [] /\
  decodings (reads image_files images) = combine image_files images.
Proof.
  unfold reads. induction (combine image_files images) as [|[f img] l (Hw & Hs & Hd)];
    [repeat split|].
  cbn [map]. unfold writes, stitched, decodings in *. cbn [flat_map fst snd app].
  rewrite Hw, Hs, Hd. repeat split.
Qed.

Lemma map_snd_combine {A B : Type} (l : list A) (l' : list B) :
  length l' = length l -> map snd (combine l l') = l'.
Proof.
  revert l'. induction l as [|a l IH]; intros [|b l']; simpl; try discriminate;
    [reflexivity|]. intros [= H]. rewrite IH by assumption. reflexivity.
Qed.

Lemma Scanned_calls directory calls scanned :
  Scanned directory calls scanned ->
  writes calls = [] /\ stitched calls = [] /\ decodings calls = [].
Proof. destruct 1; repeat split. Qed.

(** The calls of an attempt: no write, the reads, and at most one
    call of the engine, on what was read. *)
Lemma Attempt_calls image_files calls panorama :
  Attempt image_files calls panorama ->
  writes calls = [] /\
  (exists images, length images = length image_files /\
                  decodings calls = combine image_files images /\
                  (stitched calls = [] /\ panorama = None \/
                   exists status answer,
                     stitched calls = [(images, (status, answer))] /\
                     any_none images = false /\
                     (panorama = None \/ status = Stitcher_OK /\ answer = panorama))).
Proof.
  destruct 1 as [images Hlen Hany|images status pano Hlen Hany Hne|images pano Hlen Hany];
    destruct (reads_calls image_files images) as (Hw & Hs & Hd);
    change (?c :: ?l ++ ?l') with ([c] ++ l ++ l');
    rewrite !writes_app, !stitched_app, !decodings_app, Hw, Hs, Hd;
    (split; [reflexivity|]); exists images; rewrite app_nil_r;
    (split; [exact Hlen|split; [reflexivity|]]); cbn; eauto 8.
Qed.

(** The same for a run that has found files. *)
Lemma script_files_safety dir calls image_files calls1 calls2 :
  Scanned dir calls (Returned image_files) -> image_files <> [] ->
  Script_files image_files calls1 calls2 ->
  let log := Answered ParseArgs (inl dir) :: calls ++ calls1 ++ calls2 in
  length (stitched log) <= 1 /\ length (writes log) <= 1 /\
  (forall images r,
     In (images, r) (stitched log) ->
     map snd (decodings log) = images /\ any_none images = false /\ images <> []) /\
  (forall file_name panorama,
     In (file_name, panorama) (writes log) ->
     file_name = output_file_name /\
     exists images, In (images, (Stitcher_OK, Some panorama)) (stitched log)).
Proof.
  intros Hscan Hne Hfiles log. subst log.
  destruct (Scanned_calls _ _ _ Hscan) as (Hw & Hs & Hd).
  assert (exists panorama tail, Attempt image_files calls1 panorama /\
            writes calls2 = tail /\ stitched calls2 = [] /\ decodings calls2 = [] /\
            (tail = [] \/ exists p, panorama = Some p /\ tail = [(output_file_name, p)]))
    as (panorama & tail & Hatt & Hw2 & Hs2 & Hd2 & Htail)
    by (destruct Hfiles; do 2 eexists; repeat split; eauto).
  destruct (Attempt_calls _ _ _ Hatt) as (Hw1 & images & Hlen & Hd1 & Hst).
  change (?c :: ?l) with ([c] ++ l).
  rewrite !writes_app, !stitched_app, !decodings_app, Hw, Hs, Hd, Hw1, Hd1, Hw2, Hs2, Hd2.
  cbn [writes stitched decodings flat_map app]. rewrite !app_nil_r.
  rewrite (map_snd_combine _ _ Hlen).
  assert (Himages : images <> [])
    by (intros ->; destruct image_files; [contradiction|discriminate]).
  destruct Hst as [[-> ->]|(status & answer & -> & Hany & Hpano)].
  - destruct Htail as [->|(p & [=] & _)]. cbn. repeat split; try lia; intros ? ? [].
  - split; [cbn; lia|]. split; [destruct Htail as [->|(p & _ & ->)]; cbn; lia|]. split.
    + intros imgs r [[= <- <-]|[]]. auto.
    + intros f p Hin. destruct Htail as [->|(q & -> & ->)]; [elim Hin|].
      destruct Hin as [[= <- <-]|[]]. split; [reflexivity|].
      destruct Hpano as [[=]|[-> ->]]. exists images. left. reflexivity.
Qed.

(** Whatever the libraries answer, a run calls the engine at most
    once and the writer at most once; the engine gets the answers of
    the decoder, in the order of the reads, none of them [None] and
    at least one; the writer gets the fixed name and the panorama that
    the engine has answered with the status [Stitcher_OK]. *)
Theorem script_safety log o :
  Script log o ->
  length (stitched log) <= 1 /\ length (writes log) <= 1 /\
  (forall images r,
     In (images, r) (stitched log) ->
     map snd (decodings log) = images /\ any_none images = false /\ images <> []) /\
  (forall file_name panorama,
     In (file_name, panorama) (writes log) ->
     file_name = output_file_name /\
     exists images, In (images, (Stitcher_OK, Some panorama)) (stitched log)).
Proof.
  destruct 1 as [code|dir calls e Hscan|dir calls Hscan
                |dir calls image_files calls1 calls2 Hscan Hne Hfiles].
  1-3: try (destruct (Scanned_calls _ _ _ Hscan) as (Hw & Hs & Hd));
    change (?c :: ?l) with ([c] ++ l);
    rewrite ?writes_app, ?stitched_app, ?decodings_app, ?Hw, ?Hs, ?Hd; cbn;
    repeat split; try lia; intros ? ? [].
  apply (script_files_safety dir calls image_files calls1 calls2 Hscan Hne Hfiles).
Qed.

End Records.

(** Against every environment the tree of [main] ends: whatever
    the libraries answer, and whatever state they keep, the run
    returns or raises within one node per call and one more, and the
    record of its calls and their answers is a [Script]. *)
Theorem main_tree_any_environment `{P : Platform} {St : Type} (h : Env St) (s : St) :
  exists s' log o,
    Script log o /\
    forall fuel, length log + 1 <= fuel ->
                 run_tree (logged h) fuel main_tree (s, []) = Some ((s', log), o).
Proof. exact (env_main h s). Qed.

(** ** Witnesses *)

Lemma saved_log_Script : Script saved_log (Returned tt).
Proof.
  apply (script_files (P := mock_platform) "shots" [_]
           (image_paths "shots" ["a.jpg"; "notes.txt"; "b.png"]) [_; _; _; _; _; _] [_; _]).
  - apply (scanned_files (P := mock_platform) "shots" ["a.jpg"; "notes.txt"; "b.png"]).
    discriminate.
  - discriminate.
  - apply (files_saved (P := mock_platform)).
    exact (attempt_created (P := mock_platform) ["shots/a.jpg"; "shots/b.png"]
             ([Some [0]; Some [1]] : list (option (list nat))) (Some [0; 1])
             eq_refl eq_refl).
Defined.

Lemma script_safety_witness :
  length (stitched saved_log) <= 1 /\ length (writes saved_log) <= 1 /\
  (forall images r,
     In (images, r) (stitched saved_log) ->
     map snd (decodings saved_log) = images /\ any_none images = false /\ images <> []) /\
  (forall file_name panorama,
     In (file_name, panorama) (writes saved_log) ->
     file_name = output_file_name /\
     exists images, In (images, (Stitcher_OK, Some panorama)) (stitched saved_log)).
Proof. exact (script_safety saved_log (Returned tt) saved_log_Script). Defined.

(** The forgetful environment.  From a fresh state the run is the
    record above; after one read elsewhere the second file no longer
    decodes, and the run stops before the engine. *)
Example forgetful_runs :
  run_tree (logged forgetful) 11 main_tree (0, []) = Some ((2, saved_log), Returned tt) /\
  option_map (fun r => (stitched (snd (fst r)), writes (snd (fst r))))
    (run_tree (logged forgetful) 11 main_tree (1, [])) = Some ([], []).
Proof. split; vm_compute; reflexivity. Qed.
