(* ===== verification/Replay.v ===== *)
(** * Every script is the record of a run

    [Env] shows that the record of every run of the tree of [main] is
    a [Script].  Here is the converse: every script is the record of a
    run, so the rules of [Scanned], [Attempt] and [Script] describe
    the runs of the program and nothing else.

    The environment that shows it is [replay]: its state is a list of
    calls with their answers, and it answers a call with the answer
    at the head of the list when that is an answer to a call to the
    same function.  Run against the replay of a script, the tree of
    [main] makes the calls of the script, uses it up, and ends as the
    script says.  As the interpreter is a function, this makes
    [Script] a relation that is decided by running the program. *)

From ITree Require Import ITree.
From Stdlib Require Import String ZArith Bool Arith Lia List.
From S2P Require Import Prelude Monad PyStr Logging Platform Mock Scan Panorama Main Tree Env.
Import ListNotations.

#[local] Open Scope string_scope.
#[local] Open Scope list_scope.
#[local] Open Scope tree_scope.

(** An answer of each type, for a call that has none. *)
Definition silent `{P : Platform} (T : Type) (e : pipeE T) : T :=
  match e in pipeE T return T with
  | ParseArgs => inr 2%Z
  | Listdir _ => None
  | Imread _ => None
  | StitcherCreate => tt
  | Stitch _ => (1%Z, None)
  | Imwrite _ _ => false
  | Log _ _ => tt
  end.

(** The environment that answers from a record. *)
Definition replay `{P : Platform} : Env (list Call) := fun T e log =>
  match log with
  | [] => ([], silent T e)
  | Answered e' x :: rest =>
      match e in pipeE T, e' in pipeE T' return T' -> list Call * T with
      | ParseArgs, ParseArgs => fun x => (rest, x)
      | Listdir _, Listdir _ => fun x => (rest, x)
      | Imread _, Imread _ => fun x => (rest, x)
      | StitcherCreate, StitcherCreate => fun x => (rest, x)
      | Stitch _, Stitch _ => fun x => (rest, x)
      | Imwrite _ _, Imwrite _ _ => fun x => (rest, x)
      | Log _ _, Log _ _ => fun x => (rest, x)
      | e0, _ => fun _ => (log, silent _ e0)
      end x
  end.

(** ** The functions against the replay of their calls *)

(** [replay_call] interprets the call at the head of the tree, which
    the head of the record answers; [replay_ret] closes a run that
    has returned; [replay_bind H] runs a part of the tree by [H]. *)
Ltac replay_call :=
  eapply runs_call; [|lens; lia]; cbv beta;
  cbn [logged replay fst snd app said]; rewrite <- ?app_assoc; cbn [app].
Ltac replay_ret :=
  eapply runs_ret; [|lens; lia]; rewrite <- ?app_assoc; cbn [app]; rewrite ?app_nil_r;
  reflexivity.
Ltac replay_bind H :=
  eapply runs_bind; [apply H| |lens; lia]; cbv beta.

Section Replay.
Context `{P : Platform}.
Implicit Types (log calls rest : list Call) (image_files : list string).

Lemma replay_load_images image_files images rest log :
  length images = length image_files ->
  runs (logged replay) (load_images_tree image_files)
    (reads image_files images ++ rest, log) (length (reads image_files images) + 1)
    ((rest, log ++ reads image_files images), images).
Proof.
  revert images log. induction image_files as [|f files IH]; intros [|img images] log Hlen;
    try discriminate Hlen; cbn [load_images_tree reads combine map length].
  - replay_ret.
  - injection Hlen as Hlen. fold (reads files images).
    replay_call. replay_bind (fun l => IH images l Hlen). replay_ret.
Qed.

Lemma replay_create_panorama image_files calls panorama rest log :
  Attempt image_files calls panorama ->
  runs (logged replay) (create_panorama_tree image_files) (calls ++ rest, log)
    (length calls + 1) ((rest, log ++ calls), panorama).
Proof.
  destruct 1 as [images Hlen Hany|images status pano Hlen Hany Hne|images pano Hlen Hany];
    unfold create_panorama_tree; replay_call;
    replay_bind (fun r l => replay_load_images image_files images r l Hlen);
    rewrite Hany; replay_call; [replay_ret|replay_call..].
  - rewrite (proj2 (Z.eqb_neq _ _) Hne). cbn [negb]. replay_call. replay_ret.
  - cbn [negb Z.eqb Stitcher_OK]. replay_call. replay_ret.
Qed.

Lemma replay_scan_images directory calls scanned rest log :
  Scanned directory calls scanned ->
  runs (logged replay) (scan_images_tree directory) (calls ++ rest, log)
    (length calls + 1) ((rest, log ++ calls), scanned).
Proof.
  destruct 1 as [|names Hnil|names Hne]; unfold scan_images_tree; replay_call.
  - replay_ret.
  - cbv zeta. rewrite Hnil. cbn [is_nil]. replay_call. replay_ret.
  - cbv zeta. destruct (image_paths directory names); [contradiction|]. cbn [is_nil].
    eapply runs_bind; [eapply runs_ret; [reflexivity|constructor]| |lens; lia]. replay_ret.
Qed.

Lemma replay_save_image img file_name ok rest log :
  runs (logged replay) (save_image_tree img file_name)
    (Answered (Imwrite file_name img) ok :: said INFO (saved_message file_name) :: rest,
     log)
    3 ((rest, log ++ [Answered (Imwrite file_name img) ok;
                      said INFO (saved_message file_name)]), tt).
Proof.
  unfold save_image_tree. replay_call. eapply runs_trigger; [|lia].
  unfold logged. cbn [replay fst snd said]. rewrite <- app_assoc. reflexivity.
Qed.

(** The rest of [main] after a scan that has returned files. *)
Lemma replay_main_files image_files calls calls' log :
  Script_files image_files calls calls' ->
  runs (logged replay)
    (panorama <- create_panorama_tree image_files ;;
     match panorama with
     | Some p => save_image_tree p output_file_name ;; Ret (Returned tt)
     | None => trigger (Log ERROR "Failed to create a panorama.") ;; Ret (Returned tt)
     end)
    (calls ++ calls', log) (length (calls ++ calls') + 1)
    (([], log ++ calls ++ calls'), @Returned Exn unit tt).
Proof.
  destruct 1 as [calls Hatt|calls panorama ok Hatt];
    replay_bind (fun r l => replay_create_panorama _ _ _ r l Hatt).
  - replay_call. replay_ret.
  - replay_bind (fun r l => replay_save_image panorama output_file_name ok r l).
    replay_ret.
Qed.

(** The tree of [main] against the replay of a script. *)
Lemma replay_main log o :
  Script log o -> runs (logged replay) main_tree (log, []) (length log + 1) (([], log), o).
Proof.
  destruct 1 as [code|dir calls e Hscan|dir calls Hscan
                |dir calls image_files calls1 calls2 Hscan Hne Hfiles];
    unfold main_tree; replay_call.
  - replay_ret.
  - rewrite <- (app_nil_r calls) at 1.
    replay_bind (fun r l => replay_scan_images _ _ _ r l Hscan). replay_ret.
  - replay_bind (fun r l => replay_scan_images _ _ _ r l Hscan). cbn [is_nil]. replay_call. replay_ret.
  - replay_bind (fun r l => replay_scan_images _ _ _ r l Hscan).
    destruct image_files; [contradiction|]. cbn [is_nil].
    eapply runs_le; [apply (fun l => replay_main_files _ _ _ l Hfiles)|lens; lia].
Qed.

End Replay.

(** ** The rules are exact *)

Section Exact.
Context `{P : Platform}.
Implicit Types (log : list Call) (o : outcome Exn unit).

(** Running the program decides the rules: a record is a script
    exactly when the tree of [main], run against the replay of the
    record, makes the calls of the record, uses it up and ends as
    stated. *)
Theorem Script_replay log o :
  Script log o <->
  run_tree (logged replay) (length log + 1) main_tree (log, []) = Some (([], log), o).
Proof.
  split; [intros H; exact (replay_main log o H _ (le_n _))|].
  intros H. destruct (env_main replay log) as (s' & log' & o' & Hs & Hrun).
  pose proof (run_tree_mono _ _ _ _ _ _ H (Nat.le_max_l _ (length log' + 1))) as H1.
  rewrite (Hrun _ (Nat.le_max_r _ _)) in H1. injection H1 as _ <- <-. exact Hs.
Qed.

(** A script says how the run ends. *)
Lemma Script_functional log o o' : Script log o -> Script log o' -> o = o'.
Proof. intros H%Script_replay H'%Script_replay. congruence. Qed.

(** C19. The rules of [Script] are exact.  A record of calls with
    their answers and an outcome satisfy the rules if and only if
    some environment, from some state, makes the tree of [main] end
    with that record and that outcome: every run is described by a
    rule, and every rule describes a run, that of the program against
    the replay of the record, which uses the record up within one
    node per call and one more. *)
Theorem Script_exact log o :
  (Script log o <->
   exists (St : Type) (h : Env St) (s s' : St) (fuel : nat),
     run_tree (logged h) fuel main_tree (s, []) = Some ((s', log), o)) /\
  (Script log o ->
   run_tree (logged replay) (length log + 1) main_tree (log, []) = Some (([], log), o)).
Proof.
  split; [split|intros H; exact (replay_main log o H _ (le_n _))].
  - intros H. exists (list Call), replay, log, [], (length log + 1).
    exact (replay_main log o H _ (le_n _)).
  - intros (St & h & s & s' & fuel & H).
    destruct (env_main h s) as (s1 & log' & o' & Hs & Hrun).
    pose proof (run_tree_mono _ _ _ _ _ _ H (Nat.le_max_l _ (length log' + 1))) as H1.
    rewrite (Hrun _ (Nat.le_max_r _ _)) in H1. injection H1 as _ <- <-. exact Hs.
Qed.

End Exact.

(** ** Scenarios *)

(** The record of the run that saves is a script, by running it; the
    same record without the call of the parser is not, and neither is
    the record with a second call of the engine. *)
Example saved_log_replayed :
  Script saved_log (Returned tt) /\
  ~ Script (skipn 1 saved_log) (Returned tt) /\
  ~ Script (firstn 7 saved_log ++ skipn 6 saved_log) (Returned tt).
Proof.
  repeat split; [apply Script_replay; vm_compute; reflexivity|..];
    intros H%Script_replay; vm_compute in H; discriminate H.
Qed.
