(* ===== verification/Order.v ===== *)
(** * The order of the listing

    [os.listdir] returns the entries of a directory in arbitrary
    order, and [scan_images] keeps the order it is given.  This file
    says what of a run depends on that order.

    [relisted dir s s'] relates two file systems that list the same
    entries of [dir], in any order, and decode every file the same.
    Discovery, loading and the guard of [create_panorama] respect the
    relation: [image_paths] and [decoded] map permuted lists to
    permuted lists, [any_none] is the same on them ([Proper]
    instances for [Permutation]).  So two runs on relisted file
    systems end the same way, decode the same files, and reach the
    engine together, with the same images in another order.  What
    comes after is the engine's: when its answer does not depend on
    the order of the images ([OrderInsensitive]), the two runs log the
    same records and write the same panorama. *)

From Stdlib Require Import String Ascii ZArith Bool Arith Lia List Permutation Morphisms.
From S2P Require Import Prelude Monad PyStr Logging Platform Mock Scan Panorama Main.
Import ListNotations.

#[local] Open Scope string_scope.
#[local] Open Scope list_scope.

(** [relisted dir s s']: [s'] has the entries of [dir] that [s] has,
    in some order, or neither can list it; the files decode the
    same. *)
Definition relisted `{P : Platform} (dir : string) (s s' : fsys) : Prop :=
  (forall f, imread f s' = imread f s) /\
  match listdir dir s, listdir dir s' with
  | Some names, Some names' => Permutation names names'
  | None, None => True
  | _, _ => False
  end.

(** An engine whose answer does not depend on the order of the
    images. *)
Class OrderInsensitive (P : Platform) : Prop := {
  stitch_Permutation : forall imgs imgs',
    Permutation imgs imgs' -> stitch imgs = stitch imgs'
}.

(** The test double with an engine that adds up the pixels. *)
Definition sum_stitch (images : list (option (list nat))) : Z * option (list nat) :=
  if (length images <? 2)%nat then (1%Z, None)
  else (0%Z, Some [list_sum (flat_map (fun o => match o with
                                               | Some px => px
                                               | None => []
                                               end) images)]).

#[export] Instance sum_platform : Platform := {|
  image := list nat;
  fsys := MockFS;
  parse_args := mock_parse_args;
  listdir := mock_listdir;
  imread := mock_imread;
  stitch := sum_stitch;
  imwrite := mock_imwrite
|}.

(** The holiday directory, listed the other way round. *)
Definition holiday_fs_reversed : MockFS :=
  {| mock_dirs := [("photos", ["b.PNG"; "notes.txt"; "a.jpg"])];
     mock_files := mock_files holiday_fs;
     mock_readonly := [] |}.

(** ** Permutations *)

#[export] Instance filter_Permutation {A : Type} (f : A -> bool) :
  Proper (@Permutation A ==> @Permutation A) (filter f).
Proof.
  intros l l' H. induction H as [|x l l' _ IH|x y l|l l' l'' _ IH _ IH']; simpl.
  - constructor.
  - destruct (f x); auto.
  - destruct (f x), (f y); auto using perm_swap, Permutation_refl.
  - etransitivity; eassumption.
Qed.

#[export] Instance existsb_Permutation {A : Type} (f : A -> bool) :
  Proper (@Permutation A ==> eq) (existsb f).
Proof.
  intros l l' H. induction H as [|x l l' _ IH|x y l|l l' l'' _ IH _ IH']; simpl.
  - reflexivity.
  - rewrite IH. reflexivity.
  - destruct (f x), (f y); reflexivity.
  - congruence.
Qed.

#[export] Instance image_paths_Permutation (dir : string) :
  Proper (@Permutation string ==> @Permutation string) (image_paths dir).
Proof. intros names names' H. unfold image_paths. rewrite H. reflexivity. Qed.

#[export] Instance any_none_Permutation {A : Type} :
  Proper (@Permutation (option A) ==> eq) any_none.
Proof. intros imgs imgs' H. unfold any_none. rewrite H. reflexivity. Qed.

Lemma list_sum_Permutation (l l' : list nat) :
  Permutation l l' -> list_sum l = list_sum l'.
Proof. induction 1; simpl; lia. Qed.

Lemma sum_stitch_Permutation (imgs imgs' : list (option (list nat))) :
  Permutation imgs imgs' -> sum_stitch imgs = sum_stitch imgs'.
Proof.
  intros H. unfold sum_stitch. rewrite (Permutation_length H).
  destruct (length imgs' <? 2)%nat; [reflexivity|]. do 3 f_equal.
  apply list_sum_Permutation. rewrite H. reflexivity.
Qed.

#[export] Instance sum_insensitive : OrderInsensitive sum_platform.
Proof. split. exact sum_stitch_Permutation. Qed.

(** ** Runs on relisted file systems *)

Section Relisted.
Context `{P : Platform}.
Implicit Types (w : World) (s : fsys) (dir : string) (paths : list string).

Lemma decoded_relisted paths paths' s s' :
  (forall f, imread f s' = imread f s) -> Permutation paths paths' ->
  Permutation (decoded paths s) (decoded paths' s').
Proof.
  intros Hread Hp. unfold decoded. rewrite Hp.
  erewrite map_ext; [reflexivity|]. intros f. symmetry. apply Hread.
Qed.

(** The events of [create_panorama] on permuted files: the same
    decodings and the same images for the engine, in another order;
    with an engine that does not look at the order, the same records
    and the same value. *)
Lemma create_panorama_relisted paths paths' s s' :
  (forall f, imread f s' = imread f s) -> Permutation paths paths' ->
  Permutation (imread_calls (create_panorama_events paths' s'))
              (imread_calls (create_panorama_events paths s)) /\
  Forall2 (@Permutation _) (stitch_calls (create_panorama_events paths' s'))
                           (stitch_calls (create_panorama_events paths s)) /\
  (OrderInsensitive P ->
   log_records (create_panorama_events paths' s') =
   log_records (create_panorama_events paths s) /\
   create_panorama_value paths' s' = create_panorama_value paths s).
Proof.
  intros Hread Hp. pose proof (decoded_relisted _ _ _ _ Hread Hp) as Hd.
  autorewrite with pano. rewrite <- (any_none_Permutation _ _ Hd).
  split; [symmetry; exact Hp|]. split.
  - destruct (any_none _); repeat constructor. symmetry. exact Hd.
  - intros O. unfold create_panorama_events, create_panorama_value; cbv zeta.
    rewrite <- (any_none_Permutation _ _ Hd), <- (stitch_Permutation _ _ Hd).
    rewrite (Permutation_length Hp).
    destruct (any_none _); [|destruct (negb _)]; autorewrite with pano; auto.
Qed.

(** A run in closed form, once the command line is parsed. *)
Lemma main_listed w dir :
  parse_args (w_argv w) = inl dir ->
  emitted main w =
    EvParseArgs :: EvListdir dir ::
    match listdir dir (w_fs w) with
    | None => []
    | Some names =>
        let paths := image_paths dir names in
        if is_nil paths then [scan_warning; no_images_error]
        else create_panorama_events paths (w_fs w) ++
             match create_panorama_value paths (w_fs w) with
             | Some pano => [EvImwrite output_file_name pano;
                             EvLog INFO (saved_message output_file_name)]
             | None => [no_panorama_error]
             end
    end /\
  eval main w = match listdir dir (w_fs w) with
                | Some _ => Returned tt
                | None => Raised (OSError dir)
                end.
Proof.
  intros Hargs. unfold emitted, eval, exec.
  destruct (main_cases w) as [code H|d H Hl|d names H Hl Hn|d names H Hl Hn Hv
                             |d names pano H Hl Hn Hv];
    rewrite Hargs in H; try discriminate H; injection H as <-;
    cbn [w_trace w_fs w_argv extend set_fs fst snd]; rewrite skipn_length_app, Hl;
    cbv zeta; rewrite ?Hn, ?Hv; try rewrite (proj2 (is_nil_false _) Hn); auto.
Qed.

Lemma is_nil_Permutation {A : Type} (l l' : list A) :
  Permutation l l' -> is_nil l = is_nil l'.
Proof.
  intros H. destruct l, l'; try reflexivity;
    [apply Permutation_nil in H|symmetry in H; apply Permutation_nil in H];
    discriminate H.
Qed.

End Relisted.

(** ** What depends on the order *)

Section OrderProperties.
Context `{P : Platform}.
Implicit Types (w : World) (dir : string).

(** C26. The order of the listing matters to the engine only.  Two
    runs on the same command line, from file systems that list the
    same entries of the input directory in different orders and
    decode every file the same, end the same way, decode the same
    files, and call the engine together, on the same images in
    another order; if the answer of the engine does not depend on the
    order of the images, they log the same records and write the same
    panorama. *)
Theorem main_relisted w w' dir :
  w_argv w' = w_argv w ->
  parse_args (w_argv w) = inl dir ->
  relisted dir (w_fs w) (w_fs w') ->
  eval main w' = eval main w /\
  Permutation (imread_calls (emitted main w')) (imread_calls (emitted main w)) /\
  Forall2 (@Permutation _) (stitch_calls (emitted main w'))
                           (stitch_calls (emitted main w)) /\
  (OrderInsensitive P ->
   log_records (emitted main w') = log_records (emitted main w) /\
   imwrite_calls (emitted main w') = imwrite_calls (emitted main w)).
Proof.
  intros Hargv Hargs [Hread Hls].
  assert (Hargs' : parse_args (w_argv w') = inl dir) by congruence.
  destruct (main_listed w dir Hargs) as [-> ->].
  destruct (main_listed w' dir Hargs') as [-> ->].
  destruct (listdir dir (w_fs w)) as [names|], (listdir dir (w_fs w')) as [names'|];
    try contradiction; [|autorewrite with pano; repeat split; auto; constructor].
  cbv zeta. pose proof (image_paths_Permutation dir _ _ Hls) as Hp.
  rewrite <- (is_nil_Permutation _ _ Hp).
  destruct (is_nil (image_paths dir names));
    [autorewrite with pano; repeat split; auto; constructor|].
  destruct (create_panorama_relisted _ _ _ _ Hread Hp) as (Hi & Hs & Ho).
  split; [reflexivity|]. autorewrite with pano in *.
  repeat split.
  - destruct (create_panorama_value _ (w_fs w')), (create_panorama_value _ (w_fs w));
      unfold no_panorama_error; autorewrite with pano; rewrite ?app_nil_r; exact Hi.
  - destruct (create_panorama_value _ (w_fs w')), (create_panorama_value _ (w_fs w));
      unfold no_panorama_error; autorewrite with pano; rewrite ?app_nil_r; exact Hs.
  - destruct (Ho ltac:(assumption)) as [-> ->].
    destruct (create_panorama_value _ _); reflexivity.
  - destruct (Ho ltac:(assumption)) as [_ ->].
    destruct (create_panorama_value _ _); unfold no_panorama_error;
      autorewrite with pano; reflexivity.
Qed.

End OrderProperties.

(** ** Witness on the test double *)

Lemma holiday_relisted : relisted "photos" holiday_fs holiday_fs_reversed.
Proof.
  split; [reflexivity|]. cbn.
  apply (Permutation_rev ["a.jpg"; "notes.txt"; "b.PNG"]).
Qed.

Lemma main_relisted_witness :
  eval main (@mkWorld sum_platform ["-i"; "photos"] holiday_fs_reversed []) =
  eval main (@mkWorld sum_platform ["-i"; "photos"] holiday_fs []) /\
  imwrite_calls (emitted main (@mkWorld sum_platform ["-i"; "photos"] holiday_fs_reversed [])) =
  imwrite_calls (emitted main (@mkWorld sum_platform ["-i"; "photos"] holiday_fs [])).
Proof.
  destruct (main_relisted (P := sum_platform)
              (@mkWorld sum_platform ["-i"; "photos"] holiday_fs [])
              (@mkWorld sum_platform ["-i"; "photos"] holiday_fs_reversed [])
              "photos" eq_refl eq_refl holiday_relisted) as (He & _ & _ & Ho).
  split; [exact He|]. exact (proj2 (Ho sum_insensitive)).
Defined.

(** With the engine of [Mock], which joins the rasters in the order it
    is given, the two runs write different panoramas. *)
Example order_matters :
  imwrite_calls (emitted main (mock_world ["-i"; "photos"] holiday_fs)) =
    [("panorama_output.jpg", [1; 2; 3])] /\
  imwrite_calls (emitted main (mock_world ["-i"; "photos"] holiday_fs_reversed)) =
    [("panorama_output.jpg", [3; 1; 2])].
Proof. split; reflexivity. Qed.
