(* ===== verification/Trace.v ===== *)
(** * The shape of a trace

    What an observer of a run sees is its trace: the library calls and
    the log records, in the order they were made.  This file says
    which traces [main] can leave.

    [delta] is the transition function of a monitor that reads a
    trace one event at a time: the command line is parsed, the
    directory listed, then either the warning and the error of an
    empty scan, or the announcement, the decoding of the files, and
    from there the error of a failed load or the creation of the
    stitcher, the one call of the engine, its verdict, the write and
    the last record.  [accepts] runs it from [MStart] and asks that it
    stops where a run can stop.  Every trace of [main] is accepted.

    From the monitor alone follow the order of the calls (parsing,
    listing, decoding, creation of the stitcher, stitching, writing:
    nothing of an earlier stage happens after a later one, and all
    but the decoding happen at most once) and the bounds on what a
    run does: at most three log records, and a trace that is longer
    than eight events only by the files it decodes, which are at most
    the entries of the directory.

    One edge of the monitor, from [MSucceeded] to [MEnd] on the error
    record, is taken only when the engine answers [Stitcher_OK]
    without a panorama.  Under the contract of the engine
    ([PlatformLaws]) it is never taken and the log is consistent: it
    says that a panorama was created exactly when one was written. *)

From Stdlib Require Import String Ascii ZArith Bool Arith Lia List Sorted.
From S2P Require Import Prelude Monad PyStr Logging Platform Mock Scan Panorama Main.
Import ListNotations.

#[local] Open Scope string_scope.
#[local] Open Scope list_scope.

(** The states of the monitor: what the run has done so far. *)
Inductive Mon : Type :=
| MStart        (* nothing yet *)
| MParsed       (* the command line is parsed *)
| MListed       (* the directory is listed *)
| MWarned       (* no image file: the warning is logged *)
| MLoading      (* the stitching is announced; files are being decoded *)
| MCreated      (* the stitcher is created *)
| MStitched     (* the engine has answered *)
| MRejected     (* [create_panorama] has logged why it returns [None] *)
| MSucceeded    (* [create_panorama] has logged its success *)
| MWritten      (* the writer has been called *)
| MEnd.         (* the last record is logged *)

Definition guard (b : bool) (q : Mon) : option Mon := if b then Some q else None.

Definition delta `{P : Platform} (q : Mon) (e : Event) : option Mon :=
  match q, e with
  | MStart, EvParseArgs => Some MParsed
  | MParsed, EvListdir _ => Some MListed
  | MListed, EvLog WARNING msg =>
      guard (msg =? "No image files found in the directory.") MWarned
  | MListed, EvLog INFO msg => guard (startswith msg "Stitching ") MLoading
  | MWarned, EvLog ERROR msg =>
      guard (msg =? "No images found to process. Exiting program.") MEnd
  | MLoading, EvImread _ => Some MLoading
  | MLoading, EvLog ERROR msg =>
      guard (msg =? "One or more images could not be loaded.") MRejected
  | MLoading, EvStitcherCreate => Some MCreated
  | MCreated, EvStitch _ => Some MStitched
  | MStitched, EvLog ERROR msg =>
      guard (startswith msg "Failed to stitch images, error code: ") MRejected
  | MStitched, EvLog INFO msg => guard (msg =? "Panorama successfully created.") MSucceeded
  | MRejected, EvLog ERROR msg => guard (msg =? "Failed to create a panorama.") MEnd
  | MSucceeded, EvImwrite f _ => guard (f =? output_file_name) MWritten
  | MSucceeded, EvLog ERROR msg => guard (msg =? "Failed to create a panorama.") MEnd
  | MWritten, EvLog INFO msg => guard (msg =? saved_message output_file_name) MEnd
  | _, _ => None
  end.

(** The state after a trace, [None] when the monitor is stuck. *)
Fixpoint monitor `{P : Platform} (q : Mon) (evs : list Event) : option Mon :=
  match evs with
  | [] => Some q
  | e :: evs' =>
      match delta q e with
      | Some q' => monitor q' evs'
      | None => None
      end
  end.

(** Where a run can stop: after the parser has raised [SystemExit],
    after the listing has raised [OSError], and after the last
    record. *)
Definition final (q : Mon) : bool :=
  match q with
  | MParsed | MListed | MEnd => true
  | _ => false
  end.

Definition accepts `{P : Platform} (evs : list Event) : bool :=
  match monitor MStart evs with
  | Some q => final q
  | None => false
  end.

(** The stage of the pipeline a library call belongs to; a log record
    belongs to none. *)
Definition call_stage `{P : Platform} (e : Event) : option nat :=
  match e with
  | EvParseArgs => Some 0
  | EvListdir _ => Some 1
  | EvImread _ => Some 2
  | EvStitcherCreate => Some 3
  | EvStitch _ => Some 4
  | EvImwrite _ _ => Some 5
  | EvLog _ _ => None
  end.

(** The stages of the calls of a trace, in the order of the trace. *)
Definition stages `{P : Platform} (evs : list Event) : list nat :=
  flat_map (fun e => match call_stage e with Some n => [n] | None => [] end) evs.

(** [in_order n m]: a call of stage [m] may come after one of stage
    [n]: a later stage, or one more file to decode. *)
Definition in_order (n m : nat) : Prop := n < m \/ (n = 2 /\ m = 2).

(** The least stage of a call the monitor still lets through. *)
Definition floor (q : Mon) : nat :=
  match q with
  | MStart => 0
  | MParsed => 1
  | MListed | MLoading => 2
  | MCreated => 4
  | MStitched | MSucceeded => 5
  | MWarned | MRejected | MWritten | MEnd => 6
  end.

(** The log records the monitor still lets through, at most. *)
Definition records_left (q : Mon) : nat :=
  match q with
  | MStart | MParsed | MListed => 3
  | MLoading | MCreated | MStitched => 2
  | MWarned | MRejected | MSucceeded | MWritten => 1
  | MEnd => 0
  end.

(** The events other than decodings the monitor still lets through,
    at most. *)
Definition events_left (q : Mon) : nat :=
  match q with
  | MStart => 8
  | MParsed => 7
  | MListed => 6
  | MLoading => 5
  | MCreated => 4
  | MStitched => 3
  | MRejected | MWarned | MWritten => 1
  | MSucceeded => 2
  | MEnd => 0
  end.

(** The entries of the directory the run lists. *)
Definition entries `{P : Platform} (w : World) : nat :=
  match parse_args (w_argv w) with
  | inl dir =>
      match listdir dir (w_fs w) with
      | Some names => length names
      | None => 0
      end
  | inr _ => 0
  end.

Definition created_record `{P : Platform} : Event :=
  EvLog INFO "Panorama successfully created.".

(** An engine that breaks its contract: it answers [Stitcher_OK] and
    hands over no panorama. *)
Definition hollow_platform : Platform := {|
  image := list nat;
  fsys := MockFS;
  parse_args := mock_parse_args;
  listdir := mock_listdir;
  imread := mock_imread;
  stitch := fun _ => (Stitcher_OK, None);
  imwrite := mock_imwrite
|}.

(** ** The monitor *)

Section Monitor.
Context `{P : Platform}.
Implicit Types (q : Mon) (e : Event) (evs : list Event) (w : World).

Lemma prefix_app (p s : string) : startswith (p ++ s) p = true.
Proof.
  unfold startswith. induction p as [|a p IH]; simpl; [destruct s; reflexivity|].
  destruct (ascii_dec a a); [exact IH|contradiction].
Qed.

Lemma monitor_app q evs evs' :
  monitor q (evs ++ evs') =
  match monitor q evs with
  | Some q' => monitor q' evs'
  | None => None
  end.
Proof.
  revert q. induction evs as [|e evs IH]; intros q; simpl; [reflexivity|].
  destruct (delta q e); [apply IH|reflexivity].
Qed.

Lemma monitor_imreads (paths : list string) :
  monitor MLoading (map EvImread paths) = Some MLoading.
Proof. induction paths; simpl; auto. Qed.

(** [create_panorama] takes the monitor from [MListed] to its
    verdict. *)
Lemma monitor_create_panorama (image_files : list string) s :
  monitor MListed (create_panorama_events image_files s) =
  Some (if any_none (decoded image_files s) then MRejected
        else if negb (fst (stitch (decoded image_files s)) =? Stitcher_OK)%Z
             then MRejected else MSucceeded).
Proof.
  unfold create_panorama_events, stitching_message, stitch_failed_message; cbv zeta.
  cbn [monitor delta]. rewrite prefix_app. cbn [guard].
  rewrite monitor_app, monitor_imreads.
  destruct (any_none _); [reflexivity|].
  destruct (negb _); cbn [monitor delta]; [rewrite prefix_app|]; reflexivity.
Qed.

(** One transition: the stage of the call is at least the floor of
    the state it leaves and, unless it is a decoding, below the floor
    of the state it enters; the budgets of records and of events pay
    for it. *)
Lemma delta_stage q e q' :
  delta q e = Some q' ->
  floor q <= floor q' /\
  forall n, call_stage e = Some n ->
            floor q <= n /\ (n < floor q' \/ (n = 2 /\ floor q' = 2)).
Proof.
  destruct q, e as [| | | | | |[] msg]; simpl; unfold guard;
    repeat match goal with |- context [if ?b then _ else _] => destruct b end;
    intros [= <-]; simpl; (split; [lia|intros n [= <-]; lia]).
Qed.

Lemma delta_budget q e q' :
  delta q e = Some q' ->
  length (log_records [e]) + records_left q' <= records_left q /\
  1 + events_left q' <= events_left q + length (imread_calls [e]).
Proof.
  destruct q, e as [| | | | | |[] msg]; simpl; unfold guard;
    repeat match goal with |- context [if ?b then _ else _] => destruct b end;
    intros [= <-]; unfold log_records, imread_calls; simpl; lia.
Qed.

Lemma stages_cons e evs :
  stages (e :: evs) =
  match call_stage e with
  | Some n => n :: stages evs
  | None => stages evs
  end.
Proof. unfold stages. simpl. destruct (call_stage e); reflexivity. Qed.

(** The calls of a trace the monitor reads are in order, and none is
    of a stage below the floor of the state it starts from. *)
Lemma monitor_stages q evs q' :
  monitor q evs = Some q' ->
  StronglySorted in_order (stages evs) /\ Forall (fun n => floor q <= n) (stages evs).
Proof.
  revert q. induction evs as [|e evs IH]; intros q; cbn [monitor].
  - intros _. split; constructor.
  - destruct (delta q e) as [q1|] eqn:Hd; [|discriminate].
    intros [Hs Hf]%IH. destruct (delta_stage _ _ _ Hd) as [Hq He].
    assert (Hf' : Forall (fun n => floor q <= n) (stages evs))
      by (eapply Forall_impl; [|exact Hf]; simpl; lia).
    rewrite stages_cons. destruct (call_stage e) as [n|]; [|auto].
    destruct (He n eq_refl) as [Hn Hn']. split.
    + constructor; [exact Hs|].
      eapply Forall_impl; [|exact Hf]. unfold in_order. simpl.
      intros m Hm. destruct Hn' as [?|[-> Hq1]]; [lia|].
      destruct (Nat.eq_dec m 2); [auto|lia].
    + constructor; auto.
Qed.

(** The budgets bound what a trace the monitor reads holds. *)
Lemma monitor_budget q evs q' :
  monitor q evs = Some q' ->
  length (log_records evs) <= records_left q /\
  length evs <= events_left q + length (imread_calls evs).
Proof.
  revert q. induction evs as [|e evs IH]; intros q; cbn [monitor].
  - intros _. rewrite log_records_nil, imread_calls_nil. simpl. lia.
  - destruct (delta q e) as [q1|] eqn:Hd; [|discriminate].
    intros [Hr He]%IH. destruct (delta_budget _ _ _ Hd) as [Hr1 He1].
    change (e :: evs) with ([e] ++ evs).
    rewrite log_records_app, imread_calls_app, !length_app. simpl length. lia.
Qed.

(** The state the monitor is in at the end of a run. *)
Lemma main_monitor w : exists q, monitor MStart (emitted main w) = Some q /\ final q = true.
Proof.
  unfold emitted, exec. destruct (main_cases w);
    cbn [w_trace w_fs w_argv extend set_fs]; rewrite skipn_length_app;
    cbn [monitor delta]; try (eexists; split; reflexivity);
    rewrite monitor_app, monitor_create_panorama;
    match goal with
    | H : create_panorama_value _ _ = _ |- _ => unfold create_panorama_value in H
    end;
    destruct (any_none _); [| |discriminate|]; try destruct (negb _); try discriminate;
    eexists; split; reflexivity.
Qed.

End Monitor.

(** ** What the traces of [main] look like *)

Section TraceProperties.
Context `{P : Platform}.
Implicit Types (w : World).

(** C24. Every trace of [main] is accepted by the monitor: the calls
    and the log records of a run come in the one order the monitor
    describes, with the messages it expects, and the run stops only
    after the parser or the listing has raised or after its last
    record. *)
Theorem main_trace_accepted w : accepts (emitted main w) = true.
Proof.
  unfold accepts. destruct (main_monitor w) as (q & -> & Hq). exact Hq.
Qed.

(** The stages of the pipeline do not overlap: in every run the
    calls come in the order parsing, listing, decoding, creation of
    the stitcher, stitching, writing; no file is decoded after the
    stitcher is created, nothing is stitched after the write, and
    every call but the decoding is made at most once. *)
Theorem main_calls_in_order w :
  StronglySorted in_order (stages (emitted main w)).
Proof.
  destruct (main_monitor w) as (q & Hq & _). exact (proj1 (monitor_stages _ _ _ Hq)).
Qed.

(** C25. A run is bounded by its directory: it logs at most three
    records, its trace has at most eight events besides the decodings,
    and it decodes at most as many files as the directory has
    entries. *)
Theorem main_trace_bounds w :
  length (log_records (emitted main w)) <= 3 /\
  length (emitted main w) <= 8 + length (imread_calls (emitted main w)) /\
  length (imread_calls (emitted main w)) <= entries w.
Proof.
  destruct (main_monitor w) as (q & Hq & _).
  destruct (monitor_budget _ _ _ Hq) as [Hr He]. do 2 (split; [assumption|]).
  unfold entries. destruct (parse_args (w_argv w)) as [dir|code] eqn:Hp.
  - destruct (listdir dir (w_fs w)) as [names|] eqn:Hl.
    + rewrite (main_imread_calls w dir names Hp Hl). unfold image_paths.
      rewrite length_map. apply filter_length_le.
    + by_rules (main_cases w); simpl; try lia; congruence.
  - by_rules (main_cases w); simpl; try lia; congruence.
Qed.

End TraceProperties.

(** ** The log under the contract of the engine *)

Section Records.
Context `{P : Platform}.
Implicit Types (image_files : list string) (s : fsys).

(** [in_events] decides membership of a record in the events of
    [create_panorama] one event at a time. *)
Ltac in_events :=
  unfold create_panorama_events, created_record, no_panorama_error,
    stitching_message, stitch_failed_message; cbv zeta;
  repeat match goal with |- context [if ?b then _ else _] => destruct b end;
  simpl; rewrite ?in_app_iff, ?in_map_iff; simpl;
  intuition (try discriminate);
  repeat match goal with H : exists _, _ |- _ => destruct H as (? & ? & ?) end;
  try discriminate.

(** [create_panorama] says that the panorama was created exactly on
    the path through [Stitcher_OK]. *)
Lemma created_record_in image_files s :
  In created_record (create_panorama_events image_files s) <->
  any_none (decoded image_files s) = false /\
  negb (fst (stitch (decoded image_files s)) =? Stitcher_OK)%Z = false.
Proof. in_events. Qed.

(** The last error of [main] is not a record of [create_panorama]. *)
Lemma no_panorama_error_not_in image_files s :
  ~ In no_panorama_error (create_panorama_events image_files s).
Proof. in_events. Qed.

(** Under the contract, that path is the one that returns a
    panorama. *)
Lemma create_panorama_value_None `{L : !PlatformLaws P} image_files s :
  create_panorama_value image_files s = None <->
  ~ (any_none (decoded image_files s) = false /\
     negb (fst (stitch (decoded image_files s)) =? Stitcher_OK)%Z = false).
Proof.
  unfold create_panorama_value.
  destruct (any_none _); [intuition discriminate|].
  destruct (stitch _) as [status pano] eqn:Hst; simpl.
  destruct (Z.eqb_spec status Stitcher_OK) as [Hok|Hne]; simpl; [|intuition discriminate].
  pose proof (stitch_ok_some _ _ _ Hst Hok). intuition.
Qed.

(** A panorama is returned only on that path. *)
Lemma create_panorama_value_created image_files s pano :
  create_panorama_value image_files s = Some pano ->
  any_none (decoded image_files s) = false /\
  negb (fst (stitch (decoded image_files s)) =? Stitcher_OK)%Z = false.
Proof.
  unfold create_panorama_value.
  destruct (any_none _); [discriminate|]. destruct (negb _); [discriminate|auto].
Qed.

End Records.

Section Contract.
Context `{P : Platform} {L : PlatformLaws P}.
Implicit Types (w : World).

(** C38. Under the contract of the engine the log is consistent: a run
    says that a panorama was created exactly when it goes on to write
    one, and it never says both that the panorama was created and
    that none was. *)
Theorem main_log_consistent w :
  (In created_record (emitted main w) <-> imwrite_calls (emitted main w) <> []) /\
  ~ (In created_record (emitted main w) /\ In no_panorama_error (emitted main w)).
Proof.
  by_rules (main_cases w); cbn [In]; rewrite ?in_app_iff; cbn [In];
    try (pose proof (no_panorama_error_not_in (image_paths dir names) (w_fs w)) as Hn;
         unfold no_panorama_error in Hn);
    rewrite ?created_record_in;
    try match goal with
    | H : create_panorama_value _ _ = None |- _ => apply create_panorama_value_None in H
    | H : create_panorama_value _ _ = Some _ |- _ => apply create_panorama_value_created in H
    end;
    unfold created_record; intuition (try discriminate; try congruence).
Qed.

End Contract.

(** ** Witnesses on the test double *)

Lemma main_log_consistent_witness :
  (In created_record (emitted main (mock_world ["-i"; "photos"] holiday_fs)) <->
   imwrite_calls (emitted main (mock_world ["-i"; "photos"] holiday_fs)) <> []) /\
  ~ (In created_record (emitted main (mock_world ["-i"; "photos"] holiday_fs)) /\
     In no_panorama_error (emitted main (mock_world ["-i"; "photos"] holiday_fs))).
Proof.
  exact (main_log_consistent (P := mock_platform) (L := mock_laws)
           (mock_world ["-i"; "photos"] holiday_fs)).
Defined.

(** Without the contract the log can contradict itself: with an
    engine that answers [Stitcher_OK] and hands over nothing, the run
    says that the panorama was created and then that none was, and
    writes nothing. *)
Example hollow_engine_contradiction :
  let w := @mkWorld hollow_platform ["-i"; "photos"] holiday_fs [] in
  log_records (@emitted hollow_platform _ main w) =
    [mkLogRecord INFO "Stitching 2 images into a panorama.";
     mkLogRecord INFO "Panorama successfully created.";
     mkLogRecord ERROR "Failed to create a panorama."] /\
  imwrite_calls (@emitted hollow_platform _ main w) = [] /\
  accepts (@emitted hollow_platform _ main w) = true.
Proof. vm_compute. auto. Qed.
