(* ===== verification/Raising.v ===== *)
(** * Calls that raise

    [main.py] has no [try]: an exception of a library call ends the
    run where it is raised.  The trees of [Tree] give [SystemExit] of
    the parser and [OSError] of the listing as answers; here every
    call may raise, the decoder, the engine and the writer included
    (a [cv2.error] of the engine or the writer, a [MemoryError] of
    the decoder).  Exceptions that arrive between two calls (a
    [KeyboardInterrupt]) are outside the model.

    An environment of type [Raising] answers a call or raises;
    [run_raising] interprets a tree against it and stops at the first
    call that raises, with the exception and the call ([Failed]);
    [recorded h] keeps the record of the calls that were answered.
    [raiser] makes the environment a handler of the library's
    interpreter, in which a call that raises is a [throw]; the two
    interpretations agree.

    Against every such environment the tree of [main] ends.  The
    record of the run is a [Script] of [Env] when no call raises, and
    otherwise the part of a script before the call that raised: what
    the run did until then is what an uninterrupted run does.  The
    calls of a script come in the order the monitor of [Trace] reads
    (shown in [Calls]), so a part of a script has the safety of the
    whole: the engine is called at most once, after every read, on
    the images read; the writer at most once, after the engine has
    answered [Stitcher_OK], with its panorama.  Conversely every part
    of a script is the record of a run: that against the replay of
    the part, which raises when the part is used up
    ([replay_raising]).

    [platform_raising] is the platform of the monadic model with
    calls that raise.  On it the file system after a run is the one
    before it or the one after the single write of the panorama: an
    interrupted run leaves no output of its own.  A call that raises
    is taken to leave the file system as it is, the writer included;
    what a write that fails half-way leaves behind is not
    modelled. *)

From ITree Require Import ITree ITreeFacts Events.State Events.StateFacts Events.Exception.
From Stdlib Require Import String ZArith Bool Arith Lia List Sorted.
From S2P Require Import Prelude Monad PyStr Logging Platform Mock Scan Panorama Main.
From S2P Require Import Tree Env Replay Trace Calls.
Import ListNotations.

#[local] Open Scope string_scope.
#[local] Open Scope list_scope.

(** An environment whose calls answer or raise an exception of [X]. *)
Definition Raising `{P : Platform} (X St : Type) : Type :=
  forall T, pipeE T -> St -> St * (X + T).

(** How an interrupted run ends: the call that raised, and what. *)
Inductive Failure `{P : Platform} (X : Type) : Type :=
| Failed {T : Type} (e : pipeE T) (x : X).
Arguments Failed {P X T} e x.

(** The environment with the record of the calls it has answered. *)
Definition recorded `{P : Platform} {X St : Type} (h : Raising X St)
    : Raising X (St * list Call) :=
  fun T e s =>
    match h T e (fst s) with
    | (s', inl x) => ((s', snd s), inl x)
    | (s', inr a) => ((s', snd s ++ [Answered e a]), inr a)
    end.

(** The interpretation with fuel: the run stops at the first call
    that raises, as there is no handler in the program. *)
Fixpoint run_raising `{P : Platform} {X St A : Type} (h : Raising X St) (fuel : nat)
    (t : itree pipeE A) (s : St) : option (St * (Failure X + A)) :=
  match fuel with
  | 0 => None
  | S n =>
      match observe t with
      | RetF r => Some (s, inr r)
      | TauF t' => run_raising h n t' s
      | VisF e k =>
          match h _ e s with
          | (s', inl x) => Some (s', inl (Failed e x))
          | (s', inr a) => run_raising h n (k a) s'
          end
      end
  end.

(** An environment as a handler of the library's interpreter: a call
    that raises throws the exception of the library ([exceptE]), with
    the state it leaves; [ending r] is the tree a run that ends with
    [r] is worth. *)
Definition raiser `{P : Platform} {X St : Type} (h : Raising X St)
    : pipeE ~> Monads.stateT St (itree (exceptE (St * Failure X))) :=
  fun T e s =>
    match h T e s with
    | (s', inl x) => throw (s', Failed e x)
    | (s', inr a) => Ret (s', a)
    end.

Definition ending `{P : Platform} {X St A : Type} (r : St * (Failure X + A))
    : itree (exceptE (St * Failure X)) (St * A) :=
  match r with
  | (s', inl f) => throw (s', f)
  | (s', inr a) => Ret (s', a)
  end.

(** An environment that never raises. *)
Definition answering `{P : Platform} {X St : Type} (h : Env St) : Raising X St :=
  fun T e s => (fst (h T e s), inr (snd (h T e s))).

(** The environment [quiet h] answers as [h] does, and with the
    answer [silent] of [Replay] where [h] raises: it is the run that
    goes on where the other is interrupted. *)
Definition quiet `{P : Platform} {X St : Type} (h : Raising X St) : Env St :=
  fun T e s =>
    match h T e s with
    | (s', inl _) => (s', silent T e)
    | (s', inr a) => (s', a)
    end.

(** The record of a run up to some point: the beginning of a script.
    It is what a run has called when a call raises, and all of it
    when none does. *)
Definition Interrupted `{P : Platform} (log : list Call) : Prop :=
  exists rest o, Script (log ++ rest) o.

(** The platform with calls that raise: [raises] says which call
    raises what, and from which world.  A call that raises leaves the
    world as it is; the others are those of [platform_env]. *)
Definition platform_raising `{P : Platform} {X : Type}
    (raises : forall T, pipeE T -> World -> option X) : Raising X World :=
  fun T e w =>
    match raises T e w with
    | Some x => (w, inl x)
    | None => (fst (platform_env T e w), inr (snd (platform_env T e w)))
    end.

(** The file system after the calls of the writer. *)
Definition written `{P : Platform} (ws : list (string * image)) (s : fsys) : fsys :=
  fold_left (fun s fp => snd (imwrite (fst fp) (snd fp) s)) ws s.

(** [same_kind e c]: the call [c] of a record is a call to the
    function that [e] calls. *)
Definition same_kind `{P : Platform} {T : Type} (e : pipeE T) (c : Call) : bool :=
  match c with
  | Answered e' _ =>
      match e, e' with
      | ParseArgs, ParseArgs | Listdir _, Listdir _ | Imread _, Imread _
      | StitcherCreate, StitcherCreate | Stitch _, Stitch _
      | Imwrite _ _, Imwrite _ _ | Log _ _, Log _ _ => true
      | _, _ => false
      end
  end.

(** The replay of a record that raises when the record is used up. *)
Definition replay_raising `{P : Platform} : Raising unit (list Call) := fun T e log =>
  match log with
  | [] => ([], inl tt)
  | _ => (fst (replay T e log), inr (snd (replay T e log)))
  end.

(** An engine that raises on every call, in any world. *)
Definition engine_raises `{P : Platform} (T : Type) (e : pipeE T) (w : World)
    : option string :=
  match e with
  | Stitch _ => Some "cv2.error"
  | _ => None
  end.

(** An environment for the scenarios: the directory of [forgetful]
    with an engine that raises. *)
Definition throwing : Raising string nat (P := mock_platform) := fun T e n =>
  match e in pipeE T return nat * (string + T) with
  | ParseArgs => (n, inr (inl "shots"))
  | Listdir _ => (n, inr (Some ["a.jpg"; "notes.txt"; "b.png"]))
  | Imread _ => (S n, inr (Some [n]))
  | StitcherCreate => (n, inr tt)
  | Stitch images => (n, inl "cv2.error")
  | Imwrite _ _ => (n, inr true)
  | Log _ _ => (n, inr tt)
  end.

(** ** The interpreter *)

Section RunRaising.
Context `{P : Platform} {X St : Type} (h : Raising X St).
Implicit Types (s : St) (fuel : nat) (log : list Call).

(** More fuel does not change the result. *)
Lemma run_raising_mono {A : Type} fuel fuel' (t : itree pipeE A) s r :
  run_raising h fuel t s = Some r -> fuel <= fuel' -> run_raising h fuel' t s = Some r.
Proof.
  revert fuel' t s. induction fuel as [|n IH]; intros [|n'] t s; simpl;
    try discriminate; try lia.
  destruct (observe t) as [a|t'|T e k]; intros H Hle;
    [exact H|apply (IH _ _ _ H); lia|].
  destruct (h T e s) as [s' [x|a]]; [exact H|apply (IH _ _ _ H); lia].
Qed.

(** Nothing runs after a throw. *)
Lemma bind_throw {Err A B : Type} (x : Err) (k : A -> itree (exceptE Err) B) :
  ITree.bind (throw x) k ≈ throw x.
Proof. unfold throw. rewrite bind_vis. apply eqit_Vis. intros []. Qed.

(** The interpreter with fuel computes the interpretation of the
    library: a run that ends on an exception is a tree that throws
    it. *)
Lemma run_raising_interp {A : Type} fuel (t : itree pipeE A) s r :
  run_raising h fuel t s = Some r -> interp_state (raiser h) t s ≈ ending r.
Proof.
  revert t s. induction fuel as [|n IH]; intros t s; cbn [run_raising]; [discriminate|].
  rewrite unfold_interp_state. destruct (observe t) as [a|t'|T e k]; cbn.
  - intros [= <-]. reflexivity.
  - intros H. rewrite tau_eutt. apply IH, H.
  - unfold raiser. destruct (h T e s) as [s' [x|a]].
    + intros [= <-]. apply bind_throw.
    + intros H. rewrite Eqit.bind_ret_l, tau_eutt. apply IH, H.
Qed.

End RunRaising.

(** ** The record of a run *)

Section Recorded.
Context `{P : Platform} {X St : Type} (h : Raising X St).
Implicit Types (s : St) (fuel : nat) (log : list Call).

(** A run only adds to the record. *)
Lemma logged_extends {A : Type} (g : Env St) fuel (t : itree pipeE A) s log r :
  run_tree (logged g) fuel t (s, log) = Some r -> exists rest, snd (fst r) = log ++ rest.
Proof.
  revert t s log. induction fuel as [|n IH]; intros t s log; cbn [run_tree];
    [discriminate|].
  destruct (observe t) as [a|t'|T e k].
  - intros [= <-]. exists []. symmetry. apply app_nil_r.
  - apply IH.
  - cbn [logged fst snd]. intros [rest ->]%IH. rewrite <- app_assoc. eauto.
Qed.

(** What the two environments do on a call, by what [h] does. *)
Lemma recorded_call {T : Type} (e : pipeE T) s log s' (r : X + T) :
  h T e s = (s', r) ->
  recorded h T e (s, log) =
  ((s', match r with inl _ => log | inr a => log ++ [Answered e a] end), r) /\
  logged (quiet h) T e (s, log) =
  let a := match r with inl _ => silent T e | inr a => a end in
  ((s', log ++ [Answered e a]), a).
Proof.
  intros H. unfold recorded, logged, quiet. cbn [fst snd]. rewrite H.
  destruct r; split; reflexivity.
Qed.

(** The run against [h] is the run against [quiet h] up to the first
    call that raises: it ends as that run does when no call raises,
    and otherwise with a record that the other continues with the call
    that raised. *)
Lemma run_raising_quiet {A : Type} fuel (t : itree pipeE A) s log r :
  run_tree (logged (quiet h)) fuel t (s, log) = Some r ->
  run_raising (recorded h) fuel t (s, log) = Some (fst r, inr (snd r)) \/
  exists s0 s' log' T (e : pipeE T) x rest,
    run_raising (recorded h) fuel t (s, log) = Some ((s', log'), inl (Failed e x)) /\
    h T e s0 = (s', inl x) /\
    snd (fst r) = log' ++ Answered e (silent T e) :: rest.
Proof.
  revert t s log. induction fuel as [|n IH]; intros t s log;
    cbn [run_tree run_raising]; [discriminate|].
  destruct (observe t) as [a|t'|T e k].
  - intros [= <-]. left. reflexivity.
  - apply IH.
  - destruct (h T e s) as [s1 r1] eqn:Hh.
    destruct (recorded_call e s log s1 r1 Hh) as [-> ->]. cbv zeta. cbn [fst snd].
    destruct r1 as [x|a]; [|apply IH].
    intros [rest Hr]%logged_extends. right. exists s, s1, log, T, e, x, rest.
    rewrite Hr, <- app_assoc. auto.
Qed.

(** Against an environment that never raises the run is the run of
    [Env]. *)
Lemma run_raising_answering {A : Type} (g : Env St) fuel (t : itree pipeE A) s log :
  run_raising (recorded (answering (X := X) g)) fuel t (s, log) =
  option_map (fun r => (fst r, inr (snd r))) (run_tree (logged g) fuel t (s, log)).
Proof.
  revert t s log. induction fuel as [|n IH]; intros t s log;
    cbn [run_tree run_raising]; [reflexivity|].
  destruct (observe t) as [a|t'|T e k]; [reflexivity|apply IH|apply IH].
Qed.

(** The tree of [main] against the environment. *)
Lemma raising_main s :
  exists s' log r rest o,
    Script (log ++ rest) o /\
    (forall fuel, length (log ++ rest) + 1 <= fuel ->
       run_raising (recorded h) fuel main_tree (s, []) = Some ((s', log), r)) /\
    match r with
    | inr o' => o' = o /\ rest = []
    | inl (Failed e x) =>
        (exists s0, h _ e s0 = (s', inl x)) /\
        exists d rest', rest = Answered e d :: rest'
    end.
Proof.
  destruct (env_main (quiet h) s) as (s1 & full & o & Hscript & Hrun).
  destruct (run_raising_quiet _ _ _ _ _ (Hrun _ (le_n _)))
    as [H|(s0 & s' & log & T & e & x & rest & H & Hh & Hlog)]; cbn [fst snd] in *.
  - exists s1, full, (inr o), [], o. rewrite app_nil_r.
    repeat split; [exact Hscript|]. intros fuel. apply (run_raising_mono _ _ _ _ _ _ H).
  - subst full. exists s', log, (inl (Failed e x)), (Answered e (silent T e) :: rest), o.
    repeat split; [exact Hscript| |eauto..].
    intros fuel. apply (run_raising_mono _ _ _ _ _ _ H).
Qed.

End Recorded.

(** ** Interrupted runs *)

Section Interrupted.
Context `{P : Platform}.
Implicit Types (log rest : list Call).

(** The monitor reads every part of a script: the record of a run,
    whole or interrupted, is the beginning of a trace it accepts. *)
Lemma interrupted_monitor log :
  Interrupted log -> exists q, monitor MStart (map event_of log) = Some q.
Proof.
  intros (rest & o & (q & Hq & _)%Script_monitor). rewrite map_app, monitor_app in Hq.
  destruct (monitor MStart (map event_of log)); [eauto|discriminate].
Qed.

(** The calls of an interrupted run. *)
Lemma Interrupted_calls log :
  Interrupted log ->
  length (stitched log) <= 1 /\ length (writes log) <= 1 /\
  (forall images r,
     In (images, r) (stitched log) ->
     map snd (decodings log) = images /\ any_none images = false /\ images <> []) /\
  (forall file_name panorama,
     In (file_name, panorama) (writes log) ->
     file_name = output_file_name /\
     exists images, In (images, (Stitcher_OK, Some panorama)) (stitched log)).
Proof.
  intros (rest & o & H). pose proof (Script_stages _ _ H) as Hord.
  rewrite map_app, stages_app in Hord.
  pose proof (StronglySorted_app_inv _ _ _ Hord) as Hlt.
  destruct (script_safety _ _ H) as (Hs & Hw & Hst & Hwr).
  destruct (stages_calls log) as (_ & Hs1 & Hw1), (stages_calls rest) as (Hd2 & Hs2 & _).
  rewrite stitched_app, writes_app, decodings_app, ?length_app in *.
  split; [lia|]. split; [lia|]. split.
  - intros images r Hin.
    destruct (Hst images r) as (Hmap & Hany & Hne); [apply in_or_app; auto|].
    destruct (decodings rest) as [|x l]; [rewrite app_nil_r in Hmap; auto|].
    destruct (Hlt 4 2) as [|[]]; [eauto|apply (Hd2 x); left; reflexivity|lia..].
  - intros f p Hin. destruct (Hwr f p) as (Hf & images & Himg); [apply in_or_app; auto|].
    split; [exact Hf|]. exists images. apply in_app_or in Himg as [Himg|Himg]; [exact Himg|].
    destruct (Hlt 5 4) as [|[]]; [eauto..|lia|lia].
Qed.


(** C17. The safety of a run holds wherever the run is interrupted.
    In every part of a script that starts at its beginning (the
    record of a run until a call raises, or all of it: [Interrupted])
    the engine is
    called at most once and the writer at most once; the engine is
    called after the last read, on the answers of the decoder in the
    order of the reads, none of them [None] and at least one; the
    writer is called after the engine has answered [Stitcher_OK], with
    the fixed name and the panorama of that answer. *)
Theorem interrupted_safety log :
  Interrupted log ->
  length (stitched log) <= 1 /\ length (writes log) <= 1 /\
  (forall images r,
     In (images, r) (stitched log) ->
     map snd (decodings log) = images /\ any_none images = false /\ images <> []) /\
  (forall file_name panorama,
     In (file_name, panorama) (writes log) ->
     file_name = output_file_name /\
     exists images, In (images, (Stitcher_OK, Some panorama)) (stitched log)).
Proof. exact (Interrupted_calls log). Qed.

End Interrupted.

(** ** On the platform *)

Section Output.
Context `{P : Platform} {X : Type} (raises : forall T, pipeE T -> World -> option X).
Implicit Types (w : World) (log : list Call) (fuel : nat).

Lemma written_app ws ws' (s : fsys) : written (ws ++ ws') s = written ws' (written ws s).
Proof. apply fold_left_app. Qed.

(** Only the writer changes the file system. *)
Lemma platform_env_fs {T : Type} (e : pipeE T) w :
  w_fs (fst (platform_env T e w)) =
  written (writes [Answered e (snd (platform_env T e w))]) (w_fs w).
Proof.
  destruct e; try reflexivity. cbn. destruct (isEnabledFor basicConfig lvl); reflexivity.
Qed.

Lemma platform_raising_call {T : Type} (e : pipeE T) w w1 (r1 : X + T) :
  platform_raising raises T e w = (w1, r1) ->
  w_fs w1 = written (writes match r1 with inl _ => [] | inr a => [Answered e a] end) (w_fs w).
Proof.
  unfold platform_raising. destruct (raises T e w); intros [= <- <-];
    [reflexivity|apply platform_env_fs].
Qed.

(** The file system after a run, whole or interrupted, is the one
    before it with the writes of the record. *)
Lemma platform_raising_fs {A : Type} fuel (t : itree pipeE A) w log r :
  run_raising (recorded (platform_raising raises)) fuel t (w, log) = Some r ->
  exists calls, snd (fst r) = log ++ calls /\
                w_fs (fst (fst r)) = written (writes calls) (w_fs w).
Proof.
  revert t w log. induction fuel as [|n IH]; intros t w log; cbn [run_raising];
    [discriminate|].
  destruct (observe t) as [a|t'|T e k].
  - intros [= <-]. exists []. rewrite app_nil_r. auto.
  - apply IH.
  - destruct (platform_raising raises T e w) as [w1 r1] eqn:Hh.
    destruct (recorded_call _ e w log w1 r1 Hh) as [-> _].
    apply platform_raising_call in Hh. destruct r1 as [x|a].
    + intros [= <-]. exists []. rewrite app_nil_r. auto.
    + intros (calls & -> & ->)%IH. exists (Answered e a :: calls).
      change (Answered e a :: calls) with ([Answered e a] ++ calls).
      rewrite writes_app, written_app, Hh, <- app_assoc. auto.
Qed.

(** C32. No exception leaves an output of its own.  On the platform,
    whichever calls raise, the run of [main] ends, and the file
    system after it is the one before it, or the one after the single
    write of a panorama to [panorama_output.jpg], which the engine
    has answered with [Stitcher_OK]: a run that a call interrupts
    before the writer has written nothing. *)
Theorem raising_output w :
  exists w' log r n,
    (forall fuel, n <= fuel ->
       run_raising (recorded (platform_raising raises)) fuel main_tree (w, []) =
       Some ((w', log), r)) /\
    (writes log = [] /\ w_fs w' = w_fs w \/
     exists panorama images,
       writes log = [(output_file_name, panorama)] /\
       In (images, (Stitcher_OK, Some panorama)) (stitched log) /\
       w_fs w' = snd (imwrite output_file_name panorama (w_fs w))).
Proof.
  destruct (raising_main (platform_raising raises) w)
    as (w' & log & r & rest & o & Hscript & Hrun & _).
  exists w', log, r, (length (log ++ rest) + 1). split; [exact Hrun|].
  destruct (Interrupted_calls log) as (_ & Hw & _ & Hwr); [exists rest, o; exact Hscript|].
  destruct (platform_raising_fs _ _ _ _ _ (Hrun _ (le_n _))) as (calls & Hlog & Hfs).
  cbn [fst snd app] in Hlog, Hfs. subst calls.
  destruct (writes log) as [|[f p] [|? ?]]; [left; auto| |simpl in Hw; lia].
  destruct (Hwr f p (or_introl eq_refl)) as (-> & images & Hin). right. eauto.
Qed.

End Output.

(** ** Every part of a script is the record of a run *)

Section Cut.
Context `{P : Platform}.
Implicit Types (log rest acc : list Call) (fuel : nat).

(** The replay looks at the head of the record only, and takes it
    when it is a call to the same function. *)
Lemma replay_head {T : Type} (e : pipeE T) (c : Call) rest rest' :
  snd (replay T e (c :: rest)) = snd (replay T e (c :: rest')) /\
  (same_kind e c = true -> fst (replay T e (c :: rest)) = rest).
Proof. destruct c as [T' e' x]; destruct e, e'; split; (reflexivity || discriminate). Qed.

Lemma same_kind_refl {T : Type} (e : pipeE T) (x : T) : same_kind e (Answered e x) = true.
Proof. destruct e; reflexivity. Qed.

(** The run against the replay of a record, cut where a part of the
    record ends: the replay that raises there ends the run with that
    part as its record. *)
Lemma replay_cut {A : Type} fuel (t : itree pipeE A) log rest acc a :
  run_tree (logged replay) fuel t (log ++ rest, acc) = Some (([], acc ++ log ++ rest), a) ->
  exists r, run_raising (recorded replay_raising) fuel t (log, acc) =
            Some (([], acc ++ log), r).
Proof.
  revert t log acc. induction fuel as [|n IH]; intros t log acc;
    cbn [run_tree run_raising]; [discriminate|].
  destruct (observe t) as [a'|t'|T e k]; [|apply IH|].
  { intros [= H _ _]. apply app_eq_nil in H as [-> _]. rewrite app_nil_r. eauto. }
  destruct log as [|c log]; [rewrite app_nil_r; cbn; eauto|].
  unfold logged at 2 3, recorded at 1, replay_raising. cbn [fst snd app].
  destruct (replay_head e c (log ++ rest) log) as [Hsnd Hfst]. rewrite <- Hsnd.
  set (x := snd (replay T e (c :: log ++ rest))). intros H.
  destruct (logged_extends _ _ _ _ _ _ H) as [tail Htail]. cbn [fst snd] in Htail.
  rewrite <- app_assoc in Htail. apply app_inv_head in Htail. injection Htail as Hc _.
  assert (Hkind : same_kind e c = true) by (rewrite Hc; apply same_kind_refl).
  rewrite (Hfst Hkind) in H. rewrite (proj2 (replay_head e c log log) Hkind).
  replace (acc ++ c :: log ++ rest) with ((acc ++ [Answered e x]) ++ log ++ rest) in H
    by (rewrite <- app_assoc, Hc; reflexivity).
  destruct (IH _ _ _ H) as [r Hr]. exists r.
  replace (acc ++ c :: log) with ((acc ++ [Answered e x]) ++ log)
    by (rewrite <- app_assoc, Hc; reflexivity).
  exact Hr.
Qed.

(** The rules of interrupted runs are exact.  A record is the
    beginning of a script if and only if some environment whose calls
    may raise, from some state, makes the tree of [main] end with that
    record, by itself or on an exception. *)
Theorem Interrupted_exact log :
  Interrupted log <->
  exists (X St : Type) (h : Raising X St) (s s' : St) r fuel,
    run_raising (recorded h) fuel main_tree (s, []) = Some ((s', log), r).
Proof.
  split.
  - intros (rest & o & H).
    destruct (replay_cut _ _ log rest [] o (replay_main _ _ H _ (le_n _))) as [r Hr].
    exists unit, (list Call), replay_raising, log, [], r. eauto.
  - intros (X & St & h & s & s' & r & fuel & H).
    destruct (raising_main h s) as (s1 & log1 & r1 & rest & o & Hs & Hrun & _).
    pose proof (run_raising_mono _ _ _ _ _ _ H
                  (Nat.le_max_l _ (length (log1 ++ rest) + 1))) as H1.
    rewrite (Hrun _ (Nat.le_max_r _ _)) in H1. injection H1 as _ <- _.
    exists rest, o. exact Hs.
Qed.

End Cut.

(** C18. Exceptions end the run, and every run ends.  Against every
    environment, also one whose calls raise, the interpretation of
    the tree of [main] ends within one node per call of a script and
    one more.  When no call raises the record of the run is a script
    and the run ends as the script says.  When a call raises the run
    ends there with that exception, raised by the environment on that
    call, and the record is the part of a script before the call:
    nothing is called after it, and nothing before it that an
    uninterrupted run would not have called. *)
Theorem main_tree_raising `{P : Platform} {X St : Type} (h : Raising X St) (s : St) :
  exists s' log r rest o,
    Script (log ++ rest) o /\
    (forall fuel, length (log ++ rest) + 1 <= fuel ->
       run_raising (recorded h) fuel main_tree (s, []) = Some ((s', log), r)) /\
    match r with
    | inr o' => o' = o /\ rest = []
    | inl (Failed e x) =>
        (exists s0, h _ e s0 = (s', inl x)) /\
        exists d rest', rest = Answered e d :: rest'
    end.
Proof. exact (raising_main h s). Qed.

(** ** Witnesses *)

Lemma interrupted_safety_witness :
  length (stitched (firstn 7 saved_log)) <= 1 /\
  length (writes (firstn 7 saved_log)) <= 1 /\
  (forall images r,
     In (images, r) (stitched (firstn 7 saved_log)) ->
     map snd (decodings (firstn 7 saved_log)) = images /\
     any_none images = false /\ images <> []) /\
  (forall file_name panorama,
     In (file_name, panorama) (writes (firstn 7 saved_log)) ->
     file_name = output_file_name /\
     exists images,
       In (images, (Stitcher_OK, Some panorama)) (stitched (firstn 7 saved_log))).
Proof.
  apply (interrupted_safety (firstn 7 saved_log)).
  exists (skipn 7 saved_log), (Returned tt). exact saved_log_Script.
Defined.

(** The engine raises: the run ends there, after the two reads and
    the creation of the stitcher, with nothing written; the record is
    the beginning of the record of the run that saves. *)
Example throwing_runs :
  run_raising (recorded throwing) 11 main_tree (0, []) =
  Some ((2, firstn 6 saved_log), inl (Failed (Stitch [Some [0]; Some [1]]) "cv2.error")) /\
  writes (firstn 6 saved_log) = [].
Proof. split; vm_compute; reflexivity. Qed.

(** The same on the test double, from the holiday photographs: the
    run ends at the call of the engine and the file system is as it
    was. *)
Example engine_raises_runs :
  option_map (fun r => (w_fs (fst (fst r)), writes (snd (fst r))))
    (run_raising (recorded (platform_raising engine_raises)) 11 main_tree
       (mock_world ["-i"; "photos"] holiday_fs, [])) =
  Some (holiday_fs, []).
Proof. vm_compute. reflexivity. Qed.
