(* ===== verification/Machine.v ===== *)
(** * The run as a state machine

    The control flow of [main], with [scan_images], [create_panorama]
    and [save_image] inlined, as a transition system.  A configuration
    is a control point of the source with the values of the live
    variables ([Phase]) and the world.  Every library call and every
    logging call is one transition; the list comprehension of
    [create_panorama] is a loop that decodes one file per transition.

    [step] is the transition relation and [next] the function that
    computes it.  The file shows that the machine is deterministic,
    that exactly the configurations in phase [Done] are stuck, that
    every transition decreases the measure [remaining] (so every run
    terminates, within [remaining] steps), and that [run] with that
    much fuel ends where [main] ends.  Invariants of all reachable
    configurations are proved by induction on the run. *)

From Stdlib Require Import String Ascii ZArith Bool Arith Lia List.
From Stdlib Require Import Relations RelationClasses.
From S2P Require Import Prelude Monad PyStr Logging Platform Mock Scan Panorama Main.
Import ListNotations.

#[local] Open Scope string_scope.
#[local] Open Scope list_scope.

Inductive Phase `{P : Platform} : Type :=
| Start
| Scanning (input_dir : string)
| Scanned (image_files : list string)
| Loading (todo : list string) (images : list (option image))
| Stitching (images : list (option image))
| Stitched (status : Z) (panorama : option image)
| Attempted (panorama : option image)
| Saved
| Done (o : outcome Exn unit).

Definition Config `{P : Platform} : Type := (Phase * World)%type.

(** One transition, computed.  [None] means that the configuration
    is final. *)
Definition next `{P : Platform} (c : Config) : option Config :=
  let (ph, w) := c in
  match ph with
  | Start =>
      match parse_args (w_argv w) with
      | inl dir => Some (Scanning dir, extend w [EvParseArgs])
      | inr code => Some (Done (Raised (SystemExit code)), extend w [EvParseArgs])
      end
  | Scanning dir =>
      match listdir dir (w_fs w) with
      | Some names =>
          let files := image_paths dir names in
          Some (Scanned files,
                extend w (EvListdir dir :: if is_nil files then [scan_warning] else []))
      | None => Some (Done (Raised (OSError dir)), extend w [EvListdir dir])
      end
  | Scanned files =>
      if is_nil files then Some (Done (Returned tt), extend w [no_images_error])
      else Some (Loading files [],
                 extend w [EvLog INFO (stitching_message (length files))])
  | Loading (f :: todo) images =>
      Some (Loading todo (images ++ [imread f (w_fs w)]), extend w [EvImread f])
  | Loading [] images =>
      if any_none images then
        Some (Attempted None,
              extend w [EvLog ERROR "One or more images could not be loaded."])
      else Some (Stitching images, extend w [EvStitcherCreate])
  | Stitching images =>
      let (status, panorama) := stitch images in
      Some (Stitched status panorama, extend w [EvStitch images])
  | Stitched status panorama =>
      if negb (status =? Stitcher_OK)%Z then
        Some (Attempted None, extend w [EvLog ERROR (stitch_failed_message status)])
      else Some (Attempted panorama, extend w [EvLog INFO "Panorama successfully created."])
  | Attempted None => Some (Done (Returned tt), extend w [no_panorama_error])
  | Attempted (Some pano) =>
      Some (Saved,
            extend (set_fs w (snd (imwrite output_file_name pano (w_fs w))))
              [EvImwrite output_file_name pano])
  | Saved =>
      Some (Done (Returned tt), extend w [EvLog INFO (saved_message output_file_name)])
  | Done _ => None
  end.

(** The transition relation, one rule per edge of the control flow. *)
Inductive step `{P : Platform} : Config -> Config -> Prop :=
| step_parse w dir :
    parse_args (w_argv w) = inl dir ->
    step (Start, w) (Scanning dir, extend w [EvParseArgs])
| step_usage w code :
    parse_args (w_argv w) = inr code ->
    step (Start, w) (Done (Raised (SystemExit code)), extend w [EvParseArgs])
| step_list w dir names :
    listdir dir (w_fs w) = Some names ->
    step (Scanning dir, w)
         (Scanned (image_paths dir names),
          extend w (EvListdir dir ::
                    if is_nil (image_paths dir names) then [scan_warning] else []))
| step_list_error w dir :
    listdir dir (w_fs w) = None ->
    step (Scanning dir, w) (Done (Raised (OSError dir)), extend w [EvListdir dir])
| step_no_images w :
    step (Scanned [], w) (Done (Returned tt), extend w [no_images_error])
| step_begin w files :
    files <> [] ->
    step (Scanned files, w)
         (Loading files [], extend w [EvLog INFO (stitching_message (length files))])
| step_load w f todo images :
    step (Loading (f :: todo) images, w)
         (Loading todo (images ++ [imread f (w_fs w)]), extend w [EvImread f])
| step_load_failed w images :
    any_none images = true ->
    step (Loading [] images, w)
         (Attempted None,
          extend w [EvLog ERROR "One or more images could not be loaded."])
| step_create w images :
    any_none images = false ->
    step (Loading [] images, w) (Stitching images, extend w [EvStitcherCreate])
| step_stitch w images :
    step (Stitching images, w)
         (Stitched (fst (stitch images)) (snd (stitch images)),
          extend w [EvStitch images])
| step_refused w status panorama :
    status <> Stitcher_OK ->
    step (Stitched status panorama, w)
         (Attempted None, extend w [EvLog ERROR (stitch_failed_message status)])
| step_ok w panorama :
    step (Stitched Stitcher_OK panorama, w)
         (Attempted panorama, extend w [EvLog INFO "Panorama successfully created."])
| step_no_panorama w :
    step (Attempted None, w) (Done (Returned tt), extend w [no_panorama_error])
| step_write w pano :
    step (Attempted (Some pano), w)
         (Saved,
          extend (set_fs w (snd (imwrite output_file_name pano (w_fs w))))
            [EvImwrite output_file_name pano])
| step_saved w :
    step (Saved, w)
         (Done (Returned tt), extend w [EvLog INFO (saved_message output_file_name)]).

(** Reflexive transitive closure of [step]. *)
Inductive steps `{P : Platform} : Config -> Config -> Prop :=
| steps_refl c : steps c c
| steps_step c1 c2 c3 : step c1 c2 -> steps c2 c3 -> steps c1 c3.

(** [run n c]: at most [n] transitions from [c]. *)
Fixpoint run `{P : Platform} (n : nat) (c : Config) : Config :=
  match n with
  | 0 => c
  | S n' =>
      match next c with
      | Some c' => run n' c'
      | None => c
      end
  end.

Definition is_done `{P : Platform} (c : Config) : bool :=
  match fst c with
  | Done _ => true
  | _ => false
  end.

(** The number of image files a run from this world will discover. *)
Definition discovered `{P : Platform} (dir : string) (w : World) : nat :=
  match listdir dir (w_fs w) with
  | Some names => length (image_paths dir names)
  | None => 0
  end.

(** The number of transitions left before the run is over, at most. *)
Definition remaining `{P : Platform} (c : Config) : nat :=
  let (ph, w) := c in
  match ph with
  | Start =>
      match parse_args (w_argv w) with
      | inl dir => 9 + discovered dir w
      | inr _ => 1
      end
  | Scanning dir => 8 + discovered dir w
  | Scanned files => 7 + length files
  | Loading todo _ => 6 + length todo
  | Stitching _ => 5
  | Stitched _ _ => 4
  | Attempted _ => 3
  | Saved => 1
  | Done _ => 0
  end.

(** The stage of the pipeline a phase belongs to: 0 for discovery,
    1 for loading, 2 for stitching, 3 for writing, 4 when the run is
    over. *)
Definition stage `{P : Platform} (ph : Phase) : nat :=
  match ph with
  | Start | Scanning _ | Scanned _ => 0
  | Loading _ _ => 1
  | Stitching _ | Stitched _ _ | Attempted _ => 2
  | Saved => 3
  | Done _ => 4
  end.

(** ** The transition function and the transition relation *)

Section StepFunction.
Context `{P : Platform}.
Implicit Types (c : Config) (w : World).

Lemma step_next c c' : step c c' -> next c = Some c'.
Proof.
  intros H; destruct H; simpl;
    repeat match goal with
    | H : _ = _ |- _ => rewrite H
    end; try reflexivity.
  - destruct files; [contradiction|reflexivity].
  - destruct (stitch images); reflexivity.
  - destruct (Z.eqb_spec status Stitcher_OK); [contradiction|reflexivity].
Qed.

Lemma next_step c c' : next c = Some c' -> step c c'.
Proof.
  destruct c as [ph w]. destruct ph; simpl.
  - destruct (parse_args (w_argv w)) eqn:E; intros [= <-]; constructor; auto.
  - destruct (listdir input_dir (w_fs w)) eqn:E; intros [= <-]; constructor; auto.
  - destruct image_files; intros [= <-]; constructor. discriminate.
  - destruct todo; [destruct (any_none images) eqn:E|];
      intros [= <-]; constructor; auto.
  - pose proof (step_stitch w images) as H.
    destruct (stitch images); intros [= <-]; exact H.
  - destruct (Z.eqb_spec status Stitcher_OK) as [->|Hne]; intros [= <-];
      constructor; auto.
  - destruct panorama; intros [= <-]; constructor.
  - intros [= <-]; constructor.
  - discriminate.
Qed.

Lemma step_deterministic c c1 c2 : step c c1 -> step c c2 -> c1 = c2.
Proof. intros H1%step_next H2%step_next. congruence. Qed.

(** Exactly the configurations in phase [Done] have no successor. *)
Lemma next_None_iff c : next c = None <-> is_done c = true.
Proof.
  destruct c as [ph w]; unfold is_done; simpl. split.
  - destruct ph; simpl; try reflexivity; repeat destruct_match; discriminate.
  - destruct ph; simpl; try discriminate. reflexivity.
Qed.

Lemma done_stuck c c' : is_done c = true -> ~ step c c'.
Proof. intros Hd%next_None_iff Hs%step_next. congruence. Qed.

Lemma progress c : is_done c = false -> exists c', step c c'.
Proof.
  intros Hd. destruct (next c) as [c'|] eqn:E.
  - exists c'. apply next_step, E.
  - apply next_None_iff in E. congruence.
Qed.

End StepFunction.

(** ** Runs *)

Section Runs.
Context `{P : Platform}.
Implicit Types (c : Config) (w : World).

Lemma steps_one c c' : step c c' -> steps c c'.
Proof. intros H. eapply steps_step; [exact H|apply steps_refl]. Qed.

Lemma steps_trans c1 c2 c3 : steps c1 c2 -> steps c2 c3 -> steps c1 c3.
Proof. induction 1; eauto using steps. Qed.

#[export] Instance steps_preorder : PreOrder steps.
Proof. split; [exact steps_refl|exact steps_trans]. Qed.

Lemma run_steps n c : steps c (run n c).
Proof.
  revert c. induction n as [|n IH]; intros c; simpl; [apply steps_refl|].
  destruct (next c) as [c'|] eqn:E; [|apply steps_refl].
  eapply steps_step; [apply next_step, E|apply IH].
Qed.

Lemma run_done n c : is_done c = true -> run n c = c.
Proof. intros H%next_None_iff. destruct n; simpl; [|rewrite H]; reflexivity. Qed.

(** A run that ends in a final configuration is found by [run] with
    any sufficient fuel. *)
Lemma steps_done_unique c c1 c2 :
  steps c c1 -> is_done c1 = true -> steps c c2 -> is_done c2 = true -> c1 = c2.
Proof.
  induction 1 as [c|c c' c1 Hs H1 IH]; intros Hd1 H2 Hd2.
  - destruct H2 as [|c c'' c2 Hs' _]; [reflexivity|].
    elim (done_stuck _ _ Hd1 Hs').
  - destruct H2 as [|c c'' c2 Hs' H2]; [elim (done_stuck _ _ Hd2 Hs)|].
    rewrite (step_deterministic _ _ _ Hs' Hs) in H2. auto.
Qed.

Lemma discovered_extend dir w evs : discovered dir (extend w evs) = discovered dir w.
Proof. reflexivity. Qed.

Lemma step_remaining c c' : step c c' -> remaining c' < remaining c.
Proof.
  intros H; destruct H; simpl; rewrite ?discovered_extend; unfold discovered;
    repeat match goal with
    | H : _ = _ |- _ => rewrite H
    end; simpl; lia.
Qed.

Lemma run_remaining n c : remaining c <= n -> is_done (run n c) = true.
Proof.
  revert c. induction n as [|n IH]; intros c Hn; simpl.
  - destruct c as [[] w]; simpl in *; try lia; try reflexivity.
    destruct (parse_args (w_argv w)); lia.
  - destruct (next c) as [c'|] eqn:E; [|apply next_None_iff, E].
    apply IH. apply next_step, step_remaining in E. lia.
Qed.

End Runs.

(** ** The machine and the program *)

Section MachineMain.
Context `{P : Platform}.
Implicit Types (c : Config) (w : World).

(** The comprehension: one transition per file. *)
Lemma loading_loop todo images w :
  steps (Loading todo images, w)
        (Loading [] (images ++ decoded todo (w_fs w)), extend w (map EvImread todo)).
Proof.
  revert images w. induction todo as [|f todo IH]; intros images w; simpl.
  - rewrite app_nil_r, extend_nil. apply steps_refl.
  - eapply steps_step; [apply step_load|].
    specialize (IH (images ++ [imread f (w_fs w)]) (extend w [EvImread f])).
    rewrite extend_extend, <- app_assoc in IH. exact IH.
Qed.

(** The stitch attempt, from the first log record to the return of
    [create_panorama]. *)
Lemma attempt_steps files w :
  files <> [] ->
  steps (Scanned files, w)
        (Attempted (create_panorama_value files (w_fs w)),
         extend w (create_panorama_events files (w_fs w))).
Proof.
  intros Hne. eapply steps_step; [apply step_begin, Hne|].
  etransitivity; [apply loading_loop|]. rewrite extend_extend. simpl app.
  unfold create_panorama_value, create_panorama_events. cbn [w_fs extend].
  remember (decoded files (w_fs w)) as images eqn:Himages.
  destruct (any_none images) eqn:Hany.
  - eapply steps_step; [apply step_load_failed, Hany|].
    rewrite extend_extend. apply steps_refl.
  - eapply steps_step; [apply step_create, Hany|].
    eapply steps_step; [apply step_stitch|]. rewrite !extend_extend.
    destruct (Z.eqb_spec (fst (stitch images)) Stitcher_OK) as [Hok|Hno];
      cbn [negb].
    + rewrite Hok. eapply steps_step; [apply step_ok|].
      rewrite extend_extend, <- !app_assoc. apply steps_refl.
    + eapply steps_step; [apply step_refused, Hno|].
      rewrite extend_extend, <- !app_assoc. apply steps_refl.
Qed.

Lemma MainRun_steps w o w' : MainRun w o w' -> steps (Start, w) (Done o, w').
Proof.
  intros H; destruct H.
  - apply steps_one, step_usage; assumption.
  - eapply steps_step; [apply step_parse; eassumption|].
    eapply steps_step; [apply step_list_error; eassumption|].
    rewrite extend_extend. apply steps_refl.
  - eapply steps_step; [apply step_parse; eassumption|].
    eapply steps_step; [apply step_list; eassumption|].
    rewrite H1. eapply steps_step; [apply step_no_images|].
    rewrite !extend_extend. apply steps_refl.
  - eapply steps_step; [apply step_parse; eassumption|].
    eapply steps_step; [apply step_list; eassumption|].
    etransitivity; [apply attempt_steps; assumption|]. cbn [w_fs extend].
    rewrite H2. eapply steps_step; [apply step_no_panorama|].
    rewrite (proj2 (is_nil_false _) H1), !extend_extend. apply steps_refl.
  - eapply steps_step; [apply step_parse; eassumption|].
    eapply steps_step; [apply step_list; eassumption|].
    etransitivity; [apply attempt_steps; assumption|]. cbn [w_fs extend].
    rewrite H2. eapply steps_step; [apply step_write|].
    eapply steps_step; [apply step_saved|].
    rewrite (proj2 (is_nil_false _) H1), !extend_set_fs, !extend_extend.
    cbn [w_fs extend]. apply steps_refl.
Qed.

(** C11. The state machine and the program agree: the machine started
    in [Start] reaches the final phase [Done o] in world [w'] exactly
    when [main] run from the same world ends with outcome [o] in
    [w']. *)
Theorem machine_main w o w' :
  steps (Start, w) (Done o, w') <-> main w = (o, w').
Proof.
  split.
  - intros Hs. pose proof (MainRun_steps _ _ _ (main_cases w)) as Hm.
    pose proof (steps_done_unique _ _ _ Hs eq_refl Hm eq_refl) as [= -> ->].
    destruct (main w); reflexivity.
  - intros H. apply MainRun_steps. pose proof (main_cases w) as Hm.
    rewrite H in Hm. exact Hm.
Qed.

(** C10. Every run terminates: from any configuration, [remaining]
    transitions are enough to reach a final configuration, and from
    [Start] that configuration is the one [main] ends in.  The bound
    is linear in the number of files discovered. *)
Theorem run_terminates w :
  run (remaining (Start, w)) (Start, w) = (Done (eval main w), exec main w) /\
  remaining (Start, w) <=
    9 + match parse_args (w_argv w) with
        | inl dir => discovered dir w
        | inr _ => 0
        end.
Proof.
  split.
  - eapply steps_done_unique.
    + apply run_steps.
    + apply run_remaining. reflexivity.
    + apply MainRun_steps, main_cases.
    + reflexivity.
  - simpl. destruct (parse_args (w_argv w)); lia.
Qed.

End MachineMain.

(** ** Invariants of the reachable configurations *)

(** What holds of the events [evs] observed since the start and of
    the current world, in every configuration a run from [w0] can
    reach: before the writing stage the file system is the initial one
    and the writer has not been called; before the stitching stage the
    engine has not been called; the engine and the writer are called
    at most once; and the machine is about to call the engine only on
    images without [None]. *)
Definition run_invariant `{P : Platform} (w0 : World) (c : Config) : Prop :=
  let (ph, w) := c in
  exists evs,
    w_trace w = w_trace w0 ++ evs /\
    w_argv w = w_argv w0 /\
    (stage ph <= 2 -> w_fs w = w_fs w0 /\ imwrite_calls evs = []) /\
    (stage ph <= 1 -> stitch_calls evs = []) /\
    engine_calls evs <= 1 /\
    length (imwrite_calls evs) <= 1 /\
    match ph with
    | Stitching images => any_none images = false /\ stitch_calls evs = []
    | Saved => imwrite_calls evs <> []
    | _ => True
    end.

Section Invariants.
Context `{P : Platform}.
Implicit Types (c : Config) (w : World).

Lemma run_invariant_start w0 : run_invariant w0 (Start, w0).
Proof.
  exists []. rewrite app_nil_r. unfold engine_calls. simpl.
  repeat split; auto; lia.
Qed.

(** [use_invariant] turns the guarded clauses of the invariant into
    the facts that hold in the current phase. *)
Ltac use_invariant :=
  repeat match goal with
  | H : _ <= _ -> _ |- _ => first [specialize (H ltac:(lia)) | clear H]
  | H : _ /\ _ |- _ => destruct H
  | H : stitch_calls _ = [] |- _ => rewrite H in *; clear H
  | H : imwrite_calls _ = [] |- _ => rewrite H in *; clear H
  end.

Lemma run_invariant_step w0 c c' :
  run_invariant w0 c -> step c c' -> run_invariant w0 c'.
Proof.
  intros Hinv Hs.
  destruct Hs; destruct Hinv as (evs & Htr & Hargv & Hfs & Hst & He & Hw & Hph);
    (eexists (evs ++ _); cbn [w_trace w_argv w_fs extend set_fs];
     split; [rewrite Htr, <- app_assoc; reflexivity|]; split; [exact Hargv|]);
    unfold engine_calls, scan_warning, no_images_error, no_panorama_error in *;
    try destruct (is_nil (image_paths dir names));
    autorewrite with pano; rewrite ?app_nil_r, ?length_app;
    cbn [stage app length] in *; use_invariant;
    repeat split; intros; cbn [app length] in *;
    try lia; try discriminate; try assumption.
Qed.

Lemma run_invariant_steps w0 c c' :
  run_invariant w0 c -> steps c c' -> run_invariant w0 c'.
Proof. intros Hinv Hs. induction Hs; eauto using run_invariant_step. Qed.

Lemma stage_step c c' : step c c' -> stage (fst c) <= stage (fst c').
Proof. intros H; destruct H; simpl; lia. Qed.

End Invariants.

(** ** Properties of every run *)

Section RunProperties.
Context `{P : Platform}.
Implicit Types (c : Config) (w : World).

(** C40. At every point of every run the file system is the initial
    one until the writing stage is reached, the writer has not been
    called before that stage, the engine has not been called before
    the stitching stage, and neither is ever called twice. *)
Theorem reachable_invariant w0 c :
  steps (Start, w0) c -> run_invariant w0 c.
Proof. apply run_invariant_steps, run_invariant_start. Qed.

(** Whenever the machine is about to call the engine, the images
    it holds contain no [None]: the guard of [create_panorama] stands
    between every failed decode and the engine. *)
Theorem engine_inputs_decoded w0 w images :
  steps (Start, w0) (Stitching images, w) ->
  Forall (fun o => o <> None) images.
Proof.
  intros Hsteps.
  destruct (run_invariant_steps _ _ _ (run_invariant_start w0) Hsteps)
    as (evs & _ & _ & _ & _ & _ & _ & Hany & _).
  apply any_none_false, Hany.
Qed.

(** There is no edge back to an earlier stage: along any run the
    stage (discovery, loading, stitching, writing, over) never
    decreases, so a failed attempt is never retried and nothing is
    loaded after the engine has been called. *)
Theorem stage_monotone c c' :
  steps c c' -> stage (fst c) <= stage (fst c').
Proof.
  induction 1 as [|c1 c2 c3 Hs _ IH]; [lia|].
  apply stage_step in Hs. lia.
Qed.

(** The machine is deterministic, and a configuration has no
    successor exactly when its phase is [Done]: a run cannot get stuck
    half-way, and it cannot continue after [main] has returned or
    raised. *)
Theorem step_function c c' :
  (step c c' <-> next c = Some c') /\
  (is_done c = true <-> forall c'', ~ step c c'').
Proof.
  split; [split; [apply step_next|apply next_step]|].
  split; [intros H c''; apply done_stuck, H|].
  intros H. destruct (is_done c) eqn:Hd; [reflexivity|].
  destruct (progress c Hd) as [c'' Hs]. elim (H c'' Hs).
Qed.

End RunProperties.

(** ** Witnesses on the test double *)

Lemma reachable_invariant_witness :
  run_invariant (mock_world ["-i"; "photos"] holiday_fs)
    (run 7 (Start, mock_world ["-i"; "photos"] holiday_fs)).
Proof.
  exact (reachable_invariant _ _ (run_steps 7 (Start, mock_world ["-i"; "photos"] holiday_fs))).
Defined.

Lemma engine_inputs_decoded_witness :
  Forall (fun o : option (list nat) => o <> None) [Some [1; 2]; Some [3]].
Proof.
  exact (engine_inputs_decoded (mock_world ["-i"; "photos"] holiday_fs) _ _
           (run_steps 6 (Start, mock_world ["-i"; "photos"] holiday_fs))).
Defined.

Lemma stage_monotone_witness :
  stage (fst (Start, mock_world ["-i"; "photos"] holiday_fs)) <=
  stage (fst (run 6 (Start, mock_world ["-i"; "photos"] holiday_fs))).
Proof.
  exact (stage_monotone _ _ (run_steps 6 (Start, mock_world ["-i"; "photos"] holiday_fs))).
Defined.

(** The run on the two photographs takes eleven transitions. *)
Example run_photos :
  run 11 (Start, mock_world ["-i"; "photos"] holiday_fs) =
  (Done (Returned tt), exec main (mock_world ["-i"; "photos"] holiday_fs)).
Proof. reflexivity. Qed.
