(* ===== verification/Observer.v ===== *)
(** * The monitor follows the machine

    [Trace] says which traces a finished run leaves; this file says
    the same of a run at every point.  [observes ph q] relates a
    control point of the machine to the states the monitor can be in
    when the run is there.  Each transition of the machine appends to
    the trace events that take the monitor from a state related to the
    source to a state related to the target ([step_observed]), so the
    monitor is never stuck on the trace of a reachable configuration
    and always knows where the run is: what an observer has seen so
    far is a prefix of a trace of [main], and the monitor is in a
    final state when the run is over. *)

From Stdlib Require Import String Ascii ZArith Bool Arith Lia List.
From S2P Require Import Prelude Monad PyStr Logging Platform Mock Scan Panorama Main Trace Machine.
Import ListNotations.

#[local] Open Scope string_scope.
#[local] Open Scope list_scope.

(** The states of the monitor at a control point of the machine.  An
    empty scan has logged its warning; a run that is over has raised
    after the parsing or the listing or has logged its last record;
    [Attempted None] is reached from a failure and, with an engine
    that answers [Stitcher_OK] without a panorama, from a success. *)
Definition observes `{P : Platform} (ph : Phase) (q : Mon) : bool :=
  match ph, q with
  | Start, MStart => true
  | Scanning _, MParsed => true
  | Scanned files, MWarned => is_nil files
  | Scanned files, MListed => negb (is_nil files)
  | Loading _ _, MLoading => true
  | Stitching _, MCreated => true
  | Stitched _ _, MStitched => true
  | Attempted None, MRejected => true
  | Attempted _, MSucceeded => true
  | Saved, MWritten => true
  | Done (Raised (SystemExit _)), MParsed => true
  | Done (Raised (OSError _)), MListed => true
  | Done (Returned _), MEnd => true
  | _, _ => false
  end.

(** [observed w0 c]: the trace of [c] is the trace of [w0] followed by
    events that the monitor reads from [MStart] to a state of the
    control point of [c]. *)
Definition observed `{P : Platform} (w0 : World) (c : Config) : Prop :=
  exists evs q,
    w_trace (snd c) = w_trace w0 ++ evs /\
    monitor MStart evs = Some q /\
    observes (fst c) q = true.

Section Observer.
Context `{P : Platform}.
Implicit Types (c : Config) (w : World) (q : Mon).

(** One transition of the machine is a path of the monitor. *)
Lemma step_observed c c' q :
  step c c' -> observes (fst c) q = true ->
  exists evs q',
    w_trace (snd c') = w_trace (snd c) ++ evs /\
    monitor q evs = Some q' /\
    observes (fst c') q' = true.
Proof.
  intros Hs Hq.
  destruct Hs; destruct q; try discriminate Hq; cbn [fst snd observes] in *;
    try (destruct files; [contradiction|]; try discriminate Hq);
    try (destruct (is_nil (image_paths dir names)) eqn:Hnil);
    try (destruct (Z.eqb_spec status Stitcher_OK); [contradiction|]);
    try destruct panorama;
    do 2 eexists; (split; [reflexivity|]);
    unfold scan_warning, no_images_error, no_panorama_error, stitching_message,
      stitch_failed_message;
    cbn [monitor delta]; rewrite ?prefix_app, ?String.eqb_refl;
    cbn [guard observes is_nil negb]; rewrite ?Hnil; auto.
Qed.

Lemma observed_start w0 : observed w0 (Start, w0).
Proof. exists [], MStart. rewrite app_nil_r. auto. Qed.

Lemma observed_step w0 c c' : observed w0 c -> step c c' -> observed w0 c'.
Proof.
  intros (evs & q & Ht & Hm & Hq) Hs.
  destruct (step_observed _ _ _ Hs Hq) as (evs' & q' & Ht' & Hm' & Hq').
  exists (evs ++ evs'), q'. rewrite Ht', Ht, app_assoc, monitor_app, Hm. auto.
Qed.

Lemma observed_steps w0 c c' : observed w0 c -> steps c c' -> observed w0 c'.
Proof. intros Ho Hs. induction Hs; eauto using observed_step. Qed.

(** Where the monitor is when the run is over. *)
Lemma observes_done c q : is_done c = true -> observes (fst c) q = true -> final q = true.
Proof.
  destruct c as [[] w]; try discriminate. intros _.
  destruct o as [[]|[]], q; simpl; congruence.
Qed.

(** The monitor follows the run: at every point of a run from
    [Start] the events added to the trace so far are read by the
    monitor without getting stuck and leave it in a state of the
    control point the run is at; when the run is over that state is
    final, so what was seen is an accepted trace. *)
Theorem run_observed w0 c :
  steps (Start, w0) c ->
  observed w0 c /\
  (is_done c = true ->
   exists evs, w_trace (snd c) = w_trace w0 ++ evs /\ accepts evs = true).
Proof.
  intros Hs.
  pose proof (observed_steps _ _ _ (observed_start w0) Hs) as Ho.
  split; [exact Ho|]. intros Hd. destruct Ho as (evs & q & Ht & Hm & Hq).
  exists evs. split; [exact Ht|]. unfold accepts. rewrite Hm.
  eapply observes_done; eauto.
Qed.

End Observer.

(** ** Witness on the test double *)

Lemma run_observed_witness :
  observed (mock_world ["-i"; "photos"] holiday_fs)
    (run 5 (Start, mock_world ["-i"; "photos"] holiday_fs)) /\
  (is_done (run 5 (Start, mock_world ["-i"; "photos"] holiday_fs)) = true ->
   exists evs,
     w_trace (snd (run 5 (Start, mock_world ["-i"; "photos"] holiday_fs))) =
     w_trace (mock_world ["-i"; "photos"] holiday_fs) ++ evs /\
     accepts evs = true).
Proof.
  exact (run_observed (P := mock_platform) (mock_world ["-i"; "photos"] holiday_fs)
           (run 5 (Start, mock_world ["-i"; "photos"] holiday_fs)) (run_steps 5 _)).
Defined.
