(* ===== verification/Liveness.v ===== *)
(** * Liveness of a run

    The safety theorems of [Machine] say what a run never does; this
    file says what it does in the end.  [eventually Q c] holds when
    every run from the configuration [c] reaches a configuration that
    satisfies [Q]; [leads_to A B] when that is so from every
    configuration that satisfies [A].

    Because every transition decreases the measure [remaining], every
    run reaches a final configuration, and a property of the final
    configurations is a property runs eventually have
    ([eventually_final]).  From there: a run from [Start] ends, and a
    run that returns has said in its last log record how it went; a
    panorama that the engine has delivered is written and reported;
    the files still to decode are all decoded before the result of
    the loading is looked at. *)

From Stdlib Require Import String Ascii ZArith Bool Arith Lia List Wf_nat.
From S2P Require Import Prelude Monad PyStr Logging Platform Mock Scan Panorama Main Machine.
Import ListNotations.

#[local] Open Scope string_scope.
#[local] Open Scope list_scope.

(** Every run from [c] reaches a configuration that satisfies [Q]. *)
Inductive eventually `{P : Platform} (Q : Config -> Prop) : Config -> Prop :=
| eventually_now c : Q c -> eventually Q c
| eventually_later c :
    (exists c', step c c') ->
    (forall c', step c c' -> eventually Q c') ->
    eventually Q c.

Definition leads_to `{P : Platform} (A B : Config -> Prop) : Prop :=
  forall c, A c -> eventually B c.

(** The three records a run of [main] can end with. *)
Definition verdicts `{P : Platform} : list Event :=
  [EvLog INFO (saved_message output_file_name); no_images_error; no_panorama_error].

(** A final configuration in which the run has said how it went: the
    run raised, or its last event is one of the three verdicts. *)
Definition reported `{P : Platform} (c : Config) : Prop :=
  match fst c with
  | Done (Returned _) => In (last (w_trace (snd c)) EvParseArgs) verdicts
  | Done (Raised _) => True
  | _ => False
  end.

(** The run is over, the panorama is in the file system under the
    fixed name as the writer left it, and the last record says so. *)
Definition saved `{P : Platform} (pano : image) (s : fsys) (c : Config) : Prop :=
  fst c = Done (Returned tt) /\
  w_fs (snd c) = snd (imwrite output_file_name pano s) /\
  last (w_trace (snd c)) EvParseArgs = EvLog INFO (saved_message output_file_name).

(** ** The operator *)

Section Eventually.
Context `{P : Platform}.
Implicit Types (c : Config) (w : World) (Q : Config -> Prop).

Lemma eventually_mono Q Q' c :
  (forall c', Q c' -> Q' c') -> eventually Q c -> eventually Q' c.
Proof. intros HQ. induction 1; [apply eventually_now|apply eventually_later]; auto. Qed.

(** The machine is deterministic: one transition is all of them. *)
Lemma eventually_step Q c c' : step c c' -> eventually Q c' -> eventually Q c.
Proof.
  intros Hs Hc'. apply eventually_later; [eauto|].
  intros c'' Hs'. rewrite (step_deterministic _ _ _ Hs' Hs). exact Hc'.
Qed.

Lemma eventually_steps Q c c' : steps c c' -> eventually Q c' -> eventually Q c.
Proof. induction 1; eauto using eventually_step. Qed.

Lemma eventually_idem Q c : eventually (eventually Q) c -> eventually Q c.
Proof. induction 1; [assumption|apply eventually_later; auto]. Qed.

(** What holds eventually holds somewhere along the run. *)
Lemma eventually_reached Q c : eventually Q c -> exists c', steps c c' /\ Q c'.
Proof.
  induction 1 as [c HQ|c [c' Hs] _ IH].
  - exists c. split; [apply steps_refl|exact HQ].
  - destruct (IH c' Hs) as (c'' & Hsteps & HQ).
    exists c''. split; [eapply steps_step; eauto|exact HQ].
Qed.

(** Runs terminate, so what holds of the final configurations of the
    runs from [c] holds eventually. *)
Lemma eventually_final Q c :
  (forall c', steps c c' -> is_done c' = true -> Q c') -> eventually Q c.
Proof.
  induction c as [c IH] using (induction_ltof1 _ remaining). intros HQ.
  destruct (is_done c) eqn:Hd.
  - apply eventually_now, HQ; [apply steps_refl|exact Hd].
  - apply eventually_later; [apply progress, Hd|].
    intros c' Hs. apply IH; [apply step_remaining, Hs|].
    intros c'' Hsteps. apply HQ. eapply steps_step; eauto.
Qed.

Lemma eventually_done c : eventually (fun c' => is_done c' = true) c.
Proof. apply eventually_final. auto. Qed.

(** The final configuration of the run from [Start]. *)
Lemma final_config w c :
  steps (Start, w) c -> is_done c = true -> c = (Done (eval main w), exec main w).
Proof.
  intros Hs Hd. eapply steps_done_unique; eauto.
  apply MainRun_steps, main_cases.
Qed.

End Eventually.

(** ** What runs do in the end *)

Section LivenessProperties.
Context `{P : Platform}.
Implicit Types (c : Config) (w : World).

Lemma last_app_ne {A : Type} (l l' : list A) d :
  l' <> [] -> last (l ++ l') d = last l' d.
Proof.
  intros Hne. induction l as [|a l IH]; simpl; [reflexivity|].
  destruct (l ++ l') eqn:E; [|exact IH].
  apply app_eq_nil in E as [_ ->]. contradiction.
Qed.

(** The last event of a world that has been extended. *)
Lemma last_extend w evs d :
  evs <> [] -> last (w_trace (extend w evs)) d = last evs d.
Proof. apply last_app_ne. Qed.

(** C23. Every run reports: the run from [Start] reaches a final
    configuration, whatever the command line, the directory, the
    files and the engine, and when [main] returns, the last thing it
    has done is to log one of three records: that the panorama was
    saved, that no image was found, or that no panorama was
    created. *)
Theorem run_reports w : eventually reported (Start, w).
Proof.
  apply eventually_final. intros c Hs Hd.
  rewrite (final_config _ _ Hs Hd). unfold reported, eval, exec, verdicts.
  destruct (main_cases w); cbn [fst snd]; auto;
    rewrite <- ?extend_set_fs, last_extend by discriminate.
  - simpl; auto.
  - rewrite !app_comm_cons, last_last. simpl; auto.
  - rewrite !app_comm_cons, last_app_ne by discriminate. simpl; auto.
Qed.

(** A delivered panorama is saved: from the point where
    [create_panorama] has returned a panorama, every run writes it
    under the fixed name, logs that it was saved, and ends. *)
Theorem panorama_leads_to_saved pano s :
  leads_to (fun c => fst c = Attempted (Some pano) /\ w_fs (snd c) = s)
           (saved pano s).
Proof.
  intros [ph w] [Hph Hs]; simpl in *; subst.
  eapply eventually_step; [apply step_write|].
  eapply eventually_step; [apply step_saved|].
  apply eventually_now. unfold saved. cbn [fst snd].
  split; [reflexivity|]. split; [reflexivity|].
  rewrite last_extend by discriminate. reflexivity.
Qed.

(** Loading completes: from any point of the comprehension, every
    run decodes each of the files still to do, in order, and only
    then looks at the result. *)
Theorem loading_leads_to_loaded todo images w :
  eventually
    (fun c => c = (Loading [] (images ++ decoded todo (w_fs w)),
                   extend w (map EvImread todo)))
    (Loading todo images, w).
Proof.
  eapply eventually_steps; [apply loading_loop|]. apply eventually_now. reflexivity.
Qed.

End LivenessProperties.

(** ** Witnesses on the test double *)

Lemma panorama_leads_to_saved_witness :
  eventually (P := mock_platform) (saved [1; 2; 3] holiday_fs)
    (Attempted (Some [1; 2; 3]), mock_world ["-i"; "photos"] holiday_fs).
Proof.
  apply (panorama_leads_to_saved (P := mock_platform) [1; 2; 3] holiday_fs).
  split; reflexivity.
Defined.
