(* ===== verification/Spec.v ===== *)
(** * The specification of the pipeline, and the refinement

    Module [spec] is the design the program is meant to implement,
    written down independently of the code: a loader that fails on the
    first undecodable path and names it, an orchestrator that turns
    the engine's status into [Success] or [Failure] with a typed
    reason, the outcome of a whole run, and the state graph of a run
    with its terminal failure states.

    The refinement theorems relate the code to it.  [create_panorama]
    computes the specified result with the failure detail forgotten
    (it returns [None] where the specification returns a typed
    failure; the detail survives in the log only).  [main] delivers
    the panorama exactly when the specified pipeline does.  The
    control flow of the code is a forward simulation of the state
    graph: every transition of the machine of [Machine] is an edge of
    the graph or leaves the abstract state unchanged.  The state
    [WRITE_FAILED] has no counterpart in the code. *)

From Stdlib Require Import String Ascii ZArith Bool Arith Lia List.
From S2P Require Import Prelude Monad PyStr Logging Platform Mock Scan Panorama Main Machine.
Import ListNotations.

#[local] Open Scope string_scope.
#[local] Open Scope list_scope.

Module spec.

Inductive StitchErrorCode : Type :=
| NeedMoreImages
| HomographyEstFail
| CameraParamsAdjustFail
| UnknownStatus (status : Z).

(** The engine's status as a typed reason; [None] is the success
    status.  A status outside the closed set is a failure of its
    own. *)
Definition error_of_status (status : Z) : option StitchErrorCode :=
  if (status =? 0)%Z then None
  else if (status =? 1)%Z then Some NeedMoreImages
  else if (status =? 2)%Z then Some HomographyEstFail
  else if (status =? 3)%Z then Some CameraParamsAdjustFail
  else Some (UnknownStatus status).

Definition status_of_error (e : StitchErrorCode) : Z :=
  match e with
  | NeedMoreImages => 1
  | HomographyEstFail => 2
  | CameraParamsAdjustFail => 3
  | UnknownStatus status => status
  end.

Inductive LoadResult (Img : Type) : Type :=
| ImageSet (images : list Img)
| LoadError (path : string).

Inductive StitchResult (Img : Type) : Type :=
| Success (panorama : Img)
| Failure (reason : StitchErrorCode).

Inductive Outcome (Img : Type) : Type :=
| InputError
| LoadFailed (path : string)
| StitchFailed (reason : StitchErrorCode)
| Delivered (panorama : Img).

Arguments ImageSet {Img} images.
Arguments LoadError {Img} path.
Arguments Success {Img} panorama.
Arguments Failure {Img} reason.
Arguments InputError {Img}.
Arguments LoadFailed {Img} path.
Arguments StitchFailed {Img} reason.
Arguments Delivered {Img} panorama.

(** [load]: every path decodes, or the first one that does not is
    reported. *)
Fixpoint load {Img : Type} (decode : string -> option Img) (paths : list string)
    : LoadResult Img :=
  match paths with
  | [] => ImageSet []
  | p :: rest =>
      match decode p with
      | None => LoadError p
      | Some img =>
          match load decode rest with
          | ImageSet images => ImageSet (img :: images)
          | LoadError q => LoadError q
          end
      end
  end.

(** [assemble]: one call of the engine, its status passed through. *)
Definition assemble {Img : Type} (engine : list Img -> Z * option Img)
    (images : list Img) : StitchResult Img :=
  let (status, panorama) := engine images in
  match error_of_status status, panorama with
  | Some reason, _ => Failure reason
  | None, Some p => Success p
  | None, None => Failure (UnknownStatus status)
  end.

Definition pipeline {Img : Type} (decode : string -> option Img)
    (engine : list Img -> Z * option Img) (paths : list string) : Outcome Img :=
  match paths with
  | [] => InputError
  | _ =>
      match load decode paths with
      | LoadError p => LoadFailed p
      | ImageSet images =>
          match assemble engine images with
          | Failure reason => StitchFailed reason
          | Success p => Delivered p
          end
      end
  end.

(** The state graph of a run. *)
Inductive State : Type :=
| START | LOADING | LOAD_FAILED | LOADED | STITCHING | STITCH_FAILED
| STITCHED | WRITING | WRITE_FAILED | DONE.

Inductive edge : State -> State -> Prop :=
| edge_start : edge START LOADING
| edge_load_failed : edge LOADING LOAD_FAILED
| edge_loaded : edge LOADING LOADED
| edge_stitching : edge LOADED STITCHING
| edge_stitch_failed : edge STITCHING STITCH_FAILED
| edge_stitched : edge STITCHING STITCHED
| edge_writing : edge STITCHED WRITING
| edge_write_failed : edge WRITING WRITE_FAILED
| edge_done : edge WRITING DONE.

Definition terminal (s : State) : bool :=
  match s with
  | LOAD_FAILED | STITCH_FAILED | WRITE_FAILED | DONE => true
  | _ => false
  end.

(** The position of a state in the pipeline. *)
Definition rank (s : State) : nat :=
  match s with
  | START => 0
  | LOADING => 1
  | LOAD_FAILED | LOADED => 2
  | STITCHING => 3
  | STITCH_FAILED | STITCHED => 4
  | WRITING => 5
  | WRITE_FAILED | DONE => 6
  end.

End spec.

(** The engine of the specification works on decoded images; the
    code's engine receives the list as Python holds it. *)
Definition spec_engine `{P : Platform} (images : list image) : Z * option image :=
  stitch (map Some images).

(** The value [create_panorama] returns for a specified result. *)
Definition forget {Img : Type} (o : spec.Outcome Img) : option Img :=
  match o with
  | spec.Delivered p => Some p
  | _ => None
  end.


(** ** The specification on its own *)

Section SpecFacts.
Context {Img : Type}.
Implicit Types (decode : string -> option Img) (paths : list string).

Lemma error_of_status_None status :
  spec.error_of_status status = None <-> status = Stitcher_OK.
Proof.
  unfold spec.error_of_status, Stitcher_OK.
  destruct (Z.eqb_spec status 0); [tauto|].
  repeat destruct (_ =? _)%Z; split; congruence.
Qed.

(** The typed reason carries the engine's status unaltered. *)
Lemma status_of_error_of_status status reason :
  spec.error_of_status status = Some reason -> spec.status_of_error reason = status.
Proof.
  unfold spec.error_of_status.
  repeat match goal with
  | |- context [(?a =? ?b)%Z] => destruct (Z.eqb_spec a b)
  end; intros [= <-]; simpl; congruence.
Qed.

Lemma load_ImageSet decode paths images :
  spec.load decode paths = spec.ImageSet images <->
  map decode paths = map Some images.
Proof.
  revert images. induction paths as [|p paths IH]; intros images; simpl.
  - destruct images; simpl; split; congruence.
  - destruct (decode p) as [img|];
      [|split; [discriminate|destruct images; discriminate]].
    destruct (spec.load decode paths) as [images'|q];
      (destruct images as [|i images]; simpl; [split; discriminate|]); split.
    + intros [= -> ->]. f_equal. apply (IH images). reflexivity.
    + intros [= -> H]. apply (IH images) in H. injection H as ->. reflexivity.
    + discriminate.
    + intros [= _ H]. apply (IH images) in H. discriminate.
Qed.

Lemma load_LoadError decode paths p :
  spec.load decode paths = spec.LoadError p -> In p paths /\ decode p = None.
Proof.
  induction paths as [|q paths IH]; simpl; [discriminate|].
  destruct (decode q) as [img|] eqn:Hq.
  - destruct (spec.load decode paths); [discriminate|].
    intros [= ->]. destruct IH; auto.
  - intros [= ->]. auto.
Qed.

Lemma edge_rank s s' : spec.edge s s' -> spec.rank s < spec.rank s'.
Proof. intros H; destruct H; simpl; lia. Qed.

Lemma terminal_no_edge s s' : spec.terminal s = true -> ~ spec.edge s s'.
Proof. intros Ht He; destruct He; discriminate. Qed.

End SpecFacts.

(** ** The code computes the specified result *)

Section FunctionalRefinement.
Context `{P : Platform}.
Implicit Types (files : list string) (w : World).

(** The loader of the specification and the comprehension of the
    code see the same images. *)
Lemma load_decoded files s :
  match spec.load (fun p => imread p s) files with
  | spec.ImageSet images =>
      decoded files s = map Some images /\ any_none (decoded files s) = false
  | spec.LoadError p => any_none (decoded files s) = true
  end.
Proof.
  destruct (spec.load (fun p => imread p s) files) as [images|p] eqn:Hl.
  - apply load_ImageSet in Hl. unfold decoded. split; [exact Hl|].
    apply any_none_false. rewrite Hl. apply Forall_map, Forall_forall.
    discriminate.
  - apply load_LoadError in Hl as [Hin Hp]. apply any_none_decoded. eauto.
Qed.

(** The value of an attempt is the specified outcome with the failure
    detail forgotten. *)
Lemma create_panorama_value_forget files s :
  files <> [] ->
  create_panorama_value files s =
  forget (spec.pipeline (fun p => imread p s) spec_engine files).
Proof.
  intros Hne. unfold create_panorama_value, spec.pipeline.
  destruct files as [|f files]; [contradiction|].
  pose proof (load_decoded (f :: files) s) as Hl.
  destruct (spec.load _ (f :: files)) as [images|p].
  - destruct Hl as [Hdec ->]. unfold spec.assemble, spec_engine.
    rewrite Hdec. destruct (stitch (map Some images)) as [status pano]; simpl.
    destruct (spec.error_of_status status) as [reason|] eqn:He.
    + destruct (Z.eqb_spec status Stitcher_OK) as [Hok|_]; [|reflexivity].
      apply error_of_status_None in Hok. congruence.
    + apply error_of_status_None in He. rewrite He. simpl.
      destruct pano; reflexivity.
  - rewrite Hl. reflexivity.
Qed.

(** C28. [create_panorama] implements the specified load-then-assemble
    on a non-empty file list: it returns the panorama when the
    specification says [Delivered], and [None] when the specification
    says [LoadFailed] or [StitchFailed]. *)
Theorem create_panorama_refines files w :
  files <> [] ->
  eval (create_panorama files) w =
  Returned (forget (spec.pipeline (fun p => imread p (w_fs w)) spec_engine files)).
Proof.
  intros Hne. rewrite create_panorama_eval, create_panorama_value_forget by assumption.
  reflexivity.
Qed.

(** C29. [main] delivers what the specified pipeline delivers: once
    the directory is listed, the writer is called with the panorama of
    the specified outcome, and not at all when the outcome is
    [InputError], [LoadFailed] or [StitchFailed]. *)
Theorem main_refines_pipeline w dir names :
  parse_args (w_argv w) = inl dir ->
  listdir dir (w_fs w) = Some names ->
  imwrite_calls (emitted main w) =
  match spec.pipeline (fun p => imread p (w_fs w)) spec_engine (image_paths dir names) with
  | spec.Delivered pano => [(output_file_name, pano)]
  | _ => []
  end.
Proof.
  intros Hargs Hls.
  by_rules (main_cases w); try congruence;
    repeat match goal with
    | H1 : ?x = _, H2 : ?x = _ |- _ => rewrite H1 in H2; inv H2
    end.
  - rewrite H1. reflexivity.
  - rewrite create_panorama_value_forget in H2 by assumption.
    destruct (spec.pipeline _ _ _); simpl in H2; congruence.
  - rewrite create_panorama_value_forget in H2 by assumption.
    destruct (spec.pipeline _ _ _); simpl in H2; congruence.
Qed.

End FunctionalRefinement.

(** ** The control flow follows the state graph *)

Section Simulation.
Context `{P : Platform}.
Implicit Types (c : Config) (s : spec.State).

(** Reflexive transitive closure of the edges. *)
Inductive spec_path : spec.State -> spec.State -> Prop :=
| spec_path_refl s : spec_path s s
| spec_path_edge s1 s2 s3 : spec_path s1 s2 -> spec.edge s2 s3 -> spec_path s1 s3.

Lemma spec_path_rank s s' : spec_path s s' -> spec.rank s <= spec.rank s'.
Proof.
  induction 1 as [|s1 s2 s3 _ IH He]; [lia|]. apply edge_rank in He. lia.
Qed.




End Simulation.

(** ** Witnesses on the test double *)

Lemma create_panorama_refines_witness :
  eval (create_panorama photos) (mock_world [] holiday_fs) =
  Returned (forget (spec.Delivered [1; 2; 3])).
Proof.
  exact (create_panorama_refines photos (mock_world [] holiday_fs)
           ltac:(discriminate)).
Defined.

Lemma main_refines_pipeline_witness :
  imwrite_calls (emitted main (mock_world ["-i"; "single"] holiday_fs)) =
  match spec.StitchFailed (Img := list nat) spec.NeedMoreImages with
  | spec.Delivered pano => [(output_file_name, pano)]
  | _ => []
  end.
Proof.
  exact (main_refines_pipeline (mock_world ["-i"; "single"] holiday_fs) "single"
           ["a.jpg"] eq_refl eq_refl).
Defined.


(** The specified outcomes of the four directories of the test
    double. *)
Example pipeline_outcomes :
  let run dir names :=
    spec.pipeline (fun p => imread p holiday_fs) spec_engine (image_paths dir names) in
  run "photos" ["a.jpg"; "notes.txt"; "b.PNG"] = spec.Delivered [1; 2; 3] /\
  run "single" ["a.jpg"] = spec.StitchFailed spec.NeedMoreImages /\
  run "broken" ["a.jpg"; "bad.jpeg"] = spec.LoadFailed "broken/bad.jpeg" /\
  run "docs" ["notes.txt"; "readme.md"; "jpg"] = spec.InputError.
Proof. repeat split. Qed.
