(* ===== verification/Engine.v ===== *)
(** * The stitching engine: its contract, and the stages behind it

    [create_panorama] hands the decoded images to
    [cv2.Stitcher_create().stitch] and reads a status and a panorama
    back (line 26).  Nothing of the engine is in [main.py]; the
    pipeline sees its answers only.  This file states what the
    pipeline may expect of them and what follows for a run.

    [Status] is the enumeration [cv::Stitcher::Status]; [StitcherLaws]
    is the contract: the status is one of the four, fewer than two
    images are answered with [ERR_NEED_MORE_IMGS], and a raster comes
    with the status [OK] only.  Under the contract a run writes its
    output only when at least two image files were discovered, a run
    on a single image file reports the code 1 and writes nothing, and
    every status that reaches the log is one of the three failure
    codes of the specification.

    Section [Stages] is the control flow of [Stitcher::stitch] over
    abstract stages: features are found and matched, the images
    outside the biggest component of the match graph are left out,
    the cameras are estimated and adjusted, the panorama is composed.
    Each stage is a parameter ([Stages]); which status is returned
    when a stage fails is what the section models, and it is shown to
    satisfy the contract whatever the stages compute.  An engine of
    this shape may leave images out without a word
    ([staged_leaves_out]). *)

From Stdlib Require Import String ZArith Bool Arith Lia List.
From S2P Require Import Prelude Monad PyStr Logging Platform Mock Scan Panorama Main Spec.
Import ListNotations.

#[local] Open Scope string_scope.
#[local] Open Scope list_scope.

(** [cv::Stitcher::Status]. *)
Inductive Status : Type :=
| OK
| ERR_NEED_MORE_IMGS
| ERR_HOMOGRAPHY_EST_FAIL
| ERR_CAMERA_PARAMS_ADJUST_FAIL.

Definition status_code (st : Status) : Z :=
  match st with
  | OK => 0
  | ERR_NEED_MORE_IMGS => 1
  | ERR_HOMOGRAPHY_EST_FAIL => 2
  | ERR_CAMERA_PARAMS_ADJUST_FAIL => 3
  end.

(** What the pipeline may expect of the engine. *)
Class StitcherLaws (P : Platform) : Prop := {
  stitch_closed : forall images, exists st, fst (stitch images) = status_code st;
  stitch_need_more : forall images,
    length images < 2 -> fst (stitch images) = status_code ERR_NEED_MORE_IMGS;
  stitch_raster_ok : forall images,
    snd (stitch images) <> None -> fst (stitch images) = Stitcher_OK
}.

(** ** The stages of the engine *)

(** The parts of the engine that compute: the features of an image,
    the pairwise matches, the indices of the images in the biggest
    component of the match graph and the matches among them, the
    estimation of the cameras and their adjustment, which may both
    fail, and the composition. *)
Record Stages (image : Type) : Type := mkStages {
  features : Type;
  matches : Type;
  cameras : Type;
  finder : image -> features;
  matcher : list features -> matches;
  leaveBiggestComponent : list features -> matches -> list nat;
  restrict : matches -> list nat -> matches;
  estimator : list features -> matches -> option cameras;
  bundle_adjuster : list features -> matches -> cameras -> option cameras;
  compose : list image -> cameras -> image
}.

Arguments features {image} _.
Arguments matches {image} _.
Arguments cameras {image} _.
Arguments finder {image} _ _.
Arguments matcher {image} _ _.
Arguments leaveBiggestComponent {image} _ _ _.
Arguments restrict {image} _ _ _.
Arguments estimator {image} _ _ _.
Arguments bundle_adjuster {image} _ _ _ _.
Arguments compose {image} _ _ _.

(** The elements of [l] at the positions [indices]. *)
Definition select {A : Type} (indices : list nat) (l : list A) : list A :=
  flat_map (fun i => match nth_error l i with Some x => [x] | None => [] end) indices.

(** The decoded images of a list; [create_panorama] calls the engine
    on lists without [None] only. *)
Definition present {A : Type} (images : list (option A)) : list A :=
  flat_map (fun o => match o with Some x => [x] | None => [] end) images.

Section Stages.
Context {image : Type} (S : Stages image).

(** [Stitcher::matchImages]: the images that go on, with their
    features and matches. *)
Definition matchImages (imgs : list image)
    : Status + (list image * list (features S) * matches S) :=
  if (length imgs <? 2)%nat then inl ERR_NEED_MORE_IMGS
  else
    let feats := map (finder S) imgs in
    let pairwise := matcher S feats in
    let indices := leaveBiggestComponent S feats pairwise in
    if (length (select indices imgs) <? 2)%nat then inl ERR_NEED_MORE_IMGS
    else inr (select indices imgs, select indices feats, restrict S pairwise indices).

(** [Stitcher::estimateCameraParams]. *)
Definition estimateCameraParams (feats : list (features S)) (pairwise : matches S)
    : Status + cameras S :=
  match estimator S feats pairwise with
  | None => inl ERR_HOMOGRAPHY_EST_FAIL
  | Some cams =>
      match bundle_adjuster S feats pairwise cams with
      | None => inl ERR_CAMERA_PARAMS_ADJUST_FAIL
      | Some adjusted => inr adjusted
      end
  end.

(** [Stitcher::estimateTransform]. *)
Definition estimateTransform (imgs : list image) : Status + (list image * cameras S) :=
  match matchImages imgs with
  | inl st => inl st
  | inr (kept, feats, pairwise) =>
      match estimateCameraParams feats pairwise with
      | inl st => inl st
      | inr cams => inr (kept, cams)
      end
  end.

(** [Stitcher::stitch]: the transform is estimated, and the panorama
    composed if that went well. *)
Definition Stitcher_stitch (imgs : list image) : Status * option image :=
  match estimateTransform imgs with
  | inl st => (st, None)
  | inr (kept, cams) => (OK, Some (compose S kept cams))
  end.

(** The call as Python sees it: the status as an integer. *)
Definition staged_stitch (images : list (option image)) : Z * option image :=
  let (st, pano) := Stitcher_stitch (present images) in (status_code st, pano).

End Stages.

(** The test double with the staged engine in the place of its
    own. *)
Definition staged_platform (S : Stages (list nat)) : Platform :=
  {| image := list nat;
     fsys := MockFS;
     parse_args := mock_parse_args;
     listdir := mock_listdir;
     imread := mock_imread;
     stitch := staged_stitch S;
     imwrite := mock_imwrite |}.

(** Stages for the test double: an image without pixels matches
    nothing, the cameras are the number of images kept, and the
    composition joins the rasters. *)
Definition plain_stages : Stages (list nat) :=
  {| features := nat;
     matches := unit;
     cameras := nat;
     finder := @length nat;
     matcher := fun _ => tt;
     leaveBiggestComponent := fun feats _ =>
       filter (fun i => negb (nth i feats 0 =? 0)%nat) (seq 0 (length feats));
     restrict := fun _ _ => tt;
     estimator := fun feats _ => Some (length feats);
     bundle_adjuster := fun _ _ cams => Some cams;
     compose := fun imgs _ => concat imgs |}.

(** ** The status codes *)

Lemma status_code_inj st st' : status_code st = status_code st' -> st = st'.
Proof. destruct st, st'; simpl; intros H; try reflexivity; discriminate H. Qed.

Lemma status_code_range st : (0 <= status_code st <= 3)%Z.
Proof. destruct st; simpl; lia. Qed.

Lemma status_code_OK st : status_code st = Stitcher_OK <-> st = OK.
Proof. split; [apply (status_code_inj st OK)|intros ->; reflexivity]. Qed.

(** The codes are the ones the specification names. *)
Lemma status_code_error st :
  spec.error_of_status (status_code st) =
  match st with
  | OK => None
  | ERR_NEED_MORE_IMGS => Some spec.NeedMoreImages
  | ERR_HOMOGRAPHY_EST_FAIL => Some spec.HomographyEstFail
  | ERR_CAMERA_PARAMS_ADJUST_FAIL => Some spec.CameraParamsAdjustFail
  end.
Proof. destruct st; reflexivity. Qed.

(** ** The staged engine keeps the contract *)

Section StagedLaws.
Context {image : Type} (S : Stages image).
Implicit Types (imgs kept : list image) (images : list (option image)).

Lemma present_length {A : Type} (l : list (option A)) : length (present l) <= length l.
Proof. induction l as [|[x|] l IH]; simpl; lia. Qed.

Lemma present_Some {A : Type} (l : list A) : present (map Some l) = l.
Proof. induction l as [|x l IH]; simpl; congruence. Qed.

Lemma select_In {A : Type} (indices : list nat) (l : list A) x :
  In x (select indices l) -> In x l.
Proof.
  unfold select. rewrite in_flat_map. intros (i & _ & Hx).
  destruct (nth_error l i) as [y|] eqn:Hy; [|elim Hx].
  destruct Hx as [<-|[]]. eapply nth_error_In, Hy.
Qed.

Lemma matchImages_few imgs : length imgs < 2 -> matchImages S imgs = inl ERR_NEED_MORE_IMGS.
Proof. intros H%Nat.ltb_lt. unfold matchImages. rewrite H. reflexivity. Qed.

Lemma matchImages_kept imgs kept feats pairwise :
  matchImages S imgs = inr (kept, feats, pairwise) ->
  2 <= length imgs /\ 2 <= length kept /\ incl kept imgs.
Proof.
  unfold matchImages. destruct (Nat.ltb_spec (length imgs) 2); [discriminate|].
  cbv zeta. match goal with
  | |- context [(?n <? 2)%nat] => destruct (Nat.ltb_spec n 2); [discriminate|]
  end.
  intros [= <- _ _]. repeat split; try assumption.
  intros x. apply select_In.
Qed.

Lemma matchImages_status imgs st : matchImages S imgs = inl st -> st = ERR_NEED_MORE_IMGS.
Proof.
  unfold matchImages. repeat destruct (_ <? _)%nat; intros [= <-]; reflexivity.
Qed.

(** The engine answers [OK] exactly when two images or more are
    given and kept and the cameras are estimated and adjusted; the
    panorama is composed of the images kept. *)
Theorem Stitcher_stitch_OK imgs pano :
  Stitcher_stitch S imgs = (OK, Some pano) <->
  exists kept feats pairwise cams adjusted,
    matchImages S imgs = inr (kept, feats, pairwise) /\
    estimator S feats pairwise = Some cams /\
    bundle_adjuster S feats pairwise cams = Some adjusted /\
    pano = compose S kept adjusted.
Proof.
  unfold Stitcher_stitch, estimateTransform, estimateCameraParams. split.
  - destruct (matchImages S imgs) as [st|[[kept feats] pairwise]]; [discriminate|].
    destruct (estimator S feats pairwise) as [cams|] eqn:He; [|discriminate].
    destruct (bundle_adjuster S feats pairwise cams) as [adjusted|] eqn:Ha; [|discriminate].
    intros [= <-]. exists kept, feats, pairwise, cams, adjusted. auto.
  - intros (kept & feats & pairwise & cams & adjusted & -> & -> & -> & ->). reflexivity.
Qed.

(** Every failure has its code, and no raster. *)
Lemma Stitcher_stitch_failed imgs st pano :
  Stitcher_stitch S imgs = (st, pano) -> st <> OK -> pano = None.
Proof.
  unfold Stitcher_stitch. destruct (estimateTransform S imgs) as [st'|[kept cams]];
    intros [= <- <-]; [reflexivity|contradiction].
Qed.

Lemma Stitcher_stitch_few imgs :
  length imgs < 2 -> Stitcher_stitch S imgs = (ERR_NEED_MORE_IMGS, None).
Proof.
  intros H. unfold Stitcher_stitch, estimateTransform.
  rewrite (matchImages_few imgs H). reflexivity.
Qed.

Lemma staged_stitch_status images :
  fst (staged_stitch S images) = status_code (fst (Stitcher_stitch S (present images))).
Proof. unfold staged_stitch. destruct (Stitcher_stitch S _). reflexivity. Qed.

Lemma staged_stitch_raster images :
  snd (staged_stitch S images) = snd (Stitcher_stitch S (present images)).
Proof. unfold staged_stitch. destruct (Stitcher_stitch S _). reflexivity. Qed.

Lemma estimateTransform_status imgs st : estimateTransform S imgs = inl st -> st <> OK.
Proof.
  unfold estimateTransform, estimateCameraParams.
  destruct (matchImages S imgs) as [st'|[[k f] p]] eqn:Hm.
  - apply matchImages_status in Hm as ->. intros [= <-]. discriminate.
  - destruct (estimator S f p) as [c|]; [|intros [= <-]; discriminate].
    destruct (bundle_adjuster S f p c); intros [= <-]; discriminate.
Qed.

Lemma Stitcher_stitch_raster imgs :
  snd (Stitcher_stitch S imgs) <> None <-> fst (Stitcher_stitch S imgs) = OK.
Proof.
  unfold Stitcher_stitch.
  destruct (estimateTransform S imgs) as [st|[kept cams]] eqn:He; simpl.
  - apply estimateTransform_status in He. split; [intros H; elim H; reflexivity|].
    intros ->. elim He. reflexivity.
  - split; [reflexivity|discriminate].
Qed.

End StagedLaws.

Lemma staged_stitcher_laws (S : Stages (list nat)) : StitcherLaws (staged_platform S).
Proof.
  split; cbn [stitch staged_platform]; intros images.
  - rewrite staged_stitch_status. eauto.
  - intros H. rewrite staged_stitch_status, Stitcher_stitch_few; [reflexivity|].
    pose proof (present_length images). lia.
  - rewrite staged_stitch_status, staged_stitch_raster.
    intros H%Stitcher_stitch_raster. rewrite H. reflexivity.
Qed.

Lemma staged_platform_laws (S : Stages (list nat)) : PlatformLaws (staged_platform S).
Proof.
  split; cbn [stitch imwrite staged_platform].
  - intros images status pano Hst Hok.
    pose proof (staged_stitch_status S images) as Hs.
    pose proof (staged_stitch_raster S images) as Hr.
    rewrite Hst in Hs, Hr. cbn [fst snd] in Hs, Hr. subst status pano.
    apply Stitcher_stitch_raster, status_code_OK, eq_sym, Hs.
  - exact mock_imwrite_failed.
Qed.

Lemma mock_stitcher_laws : StitcherLaws mock_platform.
Proof.
  split; cbn [stitch mock_platform]; unfold mock_stitch; intros images.
  - destruct (_ <? _)%nat; [exists ERR_NEED_MORE_IMGS; reflexivity|].
    destruct (existsb _ _); [exists ERR_HOMOGRAPHY_EST_FAIL|exists OK]; reflexivity.
  - intros H. cbn [image mock_platform] in H. apply Nat.ltb_lt in H.
    rewrite H. reflexivity.
  - destruct (_ <? _)%nat; [intros H; elim H; reflexivity|].
    destruct (existsb _ _); [intros H; elim H|]; reflexivity.
Qed.

(** [clear_records H] closes a goal in which [H] says that a record
    is one of several others that differ from it. *)
Ltac clear_records H :=
  repeat (destruct H as [H|H]; [discriminate H|]); elim H.

(** ** What the contract gives a run *)

Section Contract.
Context `{P : Platform} {E : StitcherLaws P}.
Implicit Types (w : World).

Lemma stitch_few_refused images :
  length images < 2 -> fst (stitch images) <> Stitcher_OK.
Proof. intros H. rewrite (stitch_need_more images H). discriminate. Qed.

(** A panorama is the value of an attempt on two files or more. *)
Lemma create_panorama_value_two image_files s pano :
  create_panorama_value image_files s = Some pano -> 2 <= length image_files.
Proof.
  intros [_ Hst]%create_panorama_value_Some.
  destruct (Nat.lt_ge_cases (length image_files) 2) as [Hlt|]; [|assumption].
  rewrite <- (decoded_length image_files s) in Hlt.
  apply stitch_few_refused in Hlt. rewrite Hst in Hlt. elim Hlt. reflexivity.
Qed.

(** The records of an attempt that carry a status carry the status
    of the engine's answer, which was a refusal. *)
Lemma create_panorama_events_status image_files s status :
  In (EvLog ERROR (stitch_failed_message status)) (create_panorama_events image_files s) ->
  status = fst (stitch (decoded image_files s)) /\ status <> Stitcher_OK.
Proof.
  unfold create_panorama_events. cbv zeta.
  intros [H|H]; [discriminate H|]. apply in_app_iff in H as [H|H].
  { apply in_map_iff in H as (f & Hf & _). discriminate Hf. }
  destruct (any_none _); [destruct H as [H|[]]; discriminate H|].
  destruct H as [H|[H|H]]; try discriminate H.
  destruct (Z.eqb_spec (fst (stitch (decoded image_files s))) Stitcher_OK) as [|Hne];
    simpl in H; destruct H as [H|[]]; [discriminate H|].
  injection H as H%str_of_Z_inj. subst. auto.
Qed.

Lemma refused_code status images :
  status = fst (stitch images) -> status <> Stitcher_OK -> In status [1; 2; 3]%Z.
Proof.
  intros -> Hne. destruct (stitch_closed images) as [st Hst]. rewrite Hst in *.
  destruct st; simpl; auto; elim Hne; reflexivity.
Qed.

(** C16. Under the engine's contract the output is written only from
    two images or more: a run of [main] that calls the writer has
    discovered at least two image files in the input directory, and
    the engine answered [OK] on their decodings. *)
Theorem main_writes_two w :
  imwrite_calls (emitted main w) <> [] ->
  exists dir names,
    parse_args (w_argv w) = inl dir /\
    listdir dir (w_fs w) = Some names /\
    2 <= length (image_paths dir names) /\
    fst (stitch (decoded (image_paths dir names) (w_fs w))) = status_code OK.
Proof.
  by_rules (main_cases w); try (intros Hw; elim Hw; reflexivity).
  intros _. exists dir, names. repeat split; eauto using create_panorama_value_two.
  match goal with H : create_panorama_value _ _ = Some _ |- _ =>
    apply create_panorama_value_Some in H as [_ ->] end.
  reflexivity.
Qed.

(** The trace of a run on a directory with one image file that
    decodes. *)
Lemma main_single_emitted w dir names f :
  parse_args (w_argv w) = inl dir ->
  listdir dir (w_fs w) = Some names ->
  image_paths dir names = [f] ->
  imread f (w_fs w) <> None ->
  main w =
  (Returned tt,
   extend w [EvParseArgs; EvListdir dir;
             EvLog INFO (stitching_message 1); EvImread f;
             EvStitcherCreate; EvStitch [imread f (w_fs w)];
             EvLog ERROR (stitch_failed_message 1); no_panorama_error]).
Proof.
  intros Hargs Hls Hf Hdec.
  assert (Hst : fst (stitch (decoded [f] (w_fs w))) = 1%Z)
    by (apply stitch_need_more; simpl; lia).
  assert (Hany : any_none (decoded [f] (w_fs w)) = false).
  { apply all_decoded_any_none. intros g [<-|[]]. exact Hdec. }
  assert (Hval : create_panorama_value (image_paths dir names) (w_fs w) = None).
  { rewrite Hf. unfold create_panorama_value. rewrite Hany, Hst. reflexivity. }
  assert (Hne : image_paths dir names <> []) by (rewrite Hf; discriminate).
  rewrite (MainRun_main _ _ _ (run_no_panorama w dir names Hargs Hls Hne Hval)), Hf.
  unfold create_panorama_events. rewrite Hany, Hst. reflexivity.
Qed.

(** C15. One image is not enough.  On a directory with a single
    image file that decodes, [main] calls the engine on that image,
    logs "Failed to stitch images, error code: 1" (the code of
    [ERR_NEED_MORE_IMGS]) and then "Failed to create a panorama.",
    writes nothing, and returns. *)
Theorem main_single_image w dir names f :
  parse_args (w_argv w) = inl dir ->
  listdir dir (w_fs w) = Some names ->
  image_paths dir names = [f] ->
  imread f (w_fs w) <> None ->
  eval main w = Returned tt /\
  stitch_calls (emitted main w) = [[imread f (w_fs w)]] /\
  log_records (emitted main w) =
    [mkLogRecord INFO (stitching_message 1);
     mkLogRecord ERROR (stitch_failed_message (status_code ERR_NEED_MORE_IMGS));
     mkLogRecord ERROR "Failed to create a panorama."] /\
  imwrite_calls (emitted main w) = [] /\
  w_fs (exec main w) = w_fs w.
Proof.
  intros Hargs Hls Hf Hdec. unfold eval, emitted, exec.
  rewrite (main_single_emitted w dir names f Hargs Hls Hf Hdec).
  cbn [fst snd w_trace w_fs extend]. rewrite skipn_length_app.
  repeat split.
Qed.

(** A record with a status is a record of the attempt. *)
Lemma main_status_record w status :
  In (EvLog ERROR (stitch_failed_message status)) (emitted main w) ->
  exists image_files,
    In (EvLog ERROR (stitch_failed_message status))
       (create_panorama_events image_files (w_fs w)).
Proof.
  by_rules (main_cases w); cbn [In]; intros Hin.
  1-3: clear_records Hin.
  all: destruct Hin as [Hx|[Hx|Hin]]; try discriminate Hx;
    apply in_app_iff in Hin as [Hin|Hin]; [eauto|]; cbn [In] in Hin; clear_records Hin.
Qed.

(** C31. The codes that reach the log are the failure codes of the
    engine: a record "Failed to stitch images, error code: n" of a
    run has for [n] the code of a status other than [OK], so [n] is
    among 1, 2 and 3, which the specification reads as need more
    images, homography estimation failed and camera parameter
    adjustment failed, never as an unknown status. *)
Theorem main_status_closed w status :
  In (EvLog ERROR (stitch_failed_message status)) (emitted main w) ->
  (exists st, st <> OK /\ status = status_code st) /\
  In status [1; 2; 3]%Z /\
  In (spec.error_of_status status)
     [Some spec.NeedMoreImages; Some spec.HomographyEstFail;
      Some spec.CameraParamsAdjustFail].
Proof.
  intros (fs & [Hs Hne]%create_panorama_events_status)%main_status_record.
  pose proof (refused_code _ _ Hs Hne) as H. split; [|split; [exact H|]];
    destruct H as [<-|[<-|[<-|[]]]]; simpl; auto;
    [exists ERR_NEED_MORE_IMGS|exists ERR_HOMOGRAPHY_EST_FAIL
    |exists ERR_CAMERA_PARAMS_ADJUST_FAIL]; split; (discriminate || reflexivity).
Qed.

End Contract.

(** ** Witnesses *)

Lemma main_writes_two_witness :
  exists dir names,
    mock_parse_args ["-i"; "photos"] = inl dir /\
    mock_listdir dir holiday_fs = Some names /\
    2 <= length (image_paths dir names) /\
    fst (mock_stitch (decoded (P := mock_platform) (image_paths dir names) holiday_fs)) =
    status_code OK.
Proof.
  refine (main_writes_two (P := mock_platform) (E := mock_stitcher_laws)
            (mock_world ["-i"; "photos"] holiday_fs) _).
  vm_compute. discriminate.
Defined.

Lemma main_single_image_witness :
  eval main (mock_world ["-i"; "single"] holiday_fs) = Returned tt /\
  stitch_calls (emitted main (mock_world ["-i"; "single"] holiday_fs)) =
    [[Some [1; 2]]] /\
  log_records (emitted main (mock_world ["-i"; "single"] holiday_fs)) =
    [mkLogRecord INFO (stitching_message 1);
     mkLogRecord ERROR "Failed to stitch images, error code: 1";
     mkLogRecord ERROR "Failed to create a panorama."] /\
  imwrite_calls (emitted main (mock_world ["-i"; "single"] holiday_fs)) = [] /\
  w_fs (exec main (mock_world ["-i"; "single"] holiday_fs)) = holiday_fs.
Proof.
  refine (main_single_image (P := mock_platform) (E := mock_stitcher_laws)
            (mock_world ["-i"; "single"] holiday_fs) "single" ["a.jpg"] "single/a.jpg"
            _ _ _ _); try reflexivity.
  vm_compute. discriminate.
Defined.

Lemma main_status_closed_witness :
  (exists st, st <> OK /\ 1%Z = status_code st) /\
  In 1%Z [1; 2; 3]%Z /\
  In (spec.error_of_status 1)
     [Some spec.NeedMoreImages; Some spec.HomographyEstFail;
      Some spec.CameraParamsAdjustFail].
Proof.
  refine (main_status_closed (P := mock_platform) (E := mock_stitcher_laws)
            (mock_world ["-i"; "single"] holiday_fs) 1 _).
  vm_compute. auto 10.
Defined.

(** The staged engine on three images of which one has no pixels:
    the panorama is made of the other two, with the status [OK]. *)
Example staged_leaves_out :
  staged_stitch plain_stages [Some [1; 2]; Some []; Some [3]] = (0%Z, Some [1; 2; 3]) /\
  staged_stitch plain_stages [Some [1; 2]; Some []] = (1%Z, None).
Proof. split; reflexivity. Qed.
