(* ===== verification/Rerun.v ===== *)
(** * Running the pipeline again

    A second run of [main] on the same command line starts from the
    file system the first run left.  When that file system shows the
    same listing of the input directory and the same decodings of its
    image files ([stable]), and writing the same image twice is the
    same as writing it once, the second run takes the same path, makes
    the same call to the writer, and leaves the file system as the
    first run left it.  A run is a function of its command line and
    its file system: [plan], [main_outcome] and [main_events] give
    what it writes, how it ends and what it does; they look at the
    image files of the input directory only, so two file systems
    that agree on those ([same_images]) give the same run.  The
    theorem on the second run is proved against the interface;
    [FileSystem] shows when a concrete file system meets its
    hypotheses, and that it does not when the input directory is the
    working directory, where the output file of the first run is an
    input of the second. *)

From Stdlib Require Import String Ascii ZArith Bool Arith Lia List.
From S2P Require Import Prelude Monad PyStr Logging Platform Mock Scan Panorama Main.
Import ListNotations.

#[local] Open Scope string_scope.
#[local] Open Scope list_scope.

(** [stable dir s s']: the input directory lists the same in [s'] as
    in [s], and its image files decode the same. *)
Definition stable `{P : Platform} (dir : string) (s s' : fsys) : Prop :=
  listdir dir s' = listdir dir s /\
  forall names f,
    listdir dir s = Some names -> In f (image_paths dir names) ->
    imread f s' = imread f s.

(** [same_images dir s s']: the input directory has the same image
    files in [s'] as in [s], in the same order, and they decode the
    same; the other entries of the directory, and the rest of the file
    system, may differ. *)
Definition same_images `{P : Platform} (dir : string) (s s' : fsys) : Prop :=
  match listdir dir s, listdir dir s' with
  | Some names, Some names' =>
      filter is_image_file names' = filter is_image_file names /\
      forall f, In f (image_paths dir names) -> imread f s' = imread f s
  | None, None => True
  | _, _ => False
  end.

(** The panorama a run from this command line and file system will
    write, if any. *)
Definition plan `{P : Platform} (argv : list string) (s : fsys) : option image :=
  match parse_args argv with
  | inl dir =>
      match listdir dir s with
      | Some names =>
          if is_nil (image_paths dir names) then None
          else create_panorama_value (image_paths dir names) s
      | None => None
      end
  | inr _ => None
  end.

(** The outcome of a run, from the command line and the file system:
    the exception of the parser or of the listing, or a normal
    return. *)
Definition main_outcome `{P : Platform} (argv : list string) (s : fsys)
    : outcome Exn unit :=
  match parse_args argv with
  | inl dir =>
      match listdir dir s with
      | Some _ => Returned tt
      | None => Raised (OSError dir)
      end
  | inr code => Raised (SystemExit code)
  end.

(** The calls and the log records of a run, in order. *)
Definition main_events `{P : Platform} (argv : list string) (s : fsys) : list Event :=
  EvParseArgs ::
  match parse_args argv with
  | inl dir =>
      EvListdir dir ::
      match listdir dir s with
      | Some names =>
          let image_files := image_paths dir names in
          if is_nil image_files then [scan_warning; no_images_error]
          else
            create_panorama_events image_files s ++
            match create_panorama_value image_files s with
            | Some pano =>
                [EvImwrite output_file_name pano;
                 EvLog INFO (saved_message output_file_name)]
            | None => [no_panorama_error]
            end
      | None => []
      end
  | inr _ => []
  end.

(** Writing the output twice is writing it once. *)
Definition write_idempotent `{P : Platform} : Prop :=
  forall pano s,
    snd (imwrite output_file_name pano (snd (imwrite output_file_name pano s))) =
    snd (imwrite output_file_name pano s).

Section Rerun.
Context `{P : Platform}.
Implicit Types (w : World) (s : fsys).

Lemma stable_refl dir s : stable dir s s.
Proof. split; auto. Qed.

Lemma stable_decoded dir s s' names :
  stable dir s s' -> listdir dir s = Some names ->
  decoded (image_paths dir names) s' = decoded (image_paths dir names) s.
Proof.
  intros [_ Hst] Hls. unfold decoded. apply map_ext_in. intros f Hin.
  eapply Hst; eauto.
Qed.

(** The plan depends on the command line, the listing and the
    decodings only. *)
Lemma plan_stable argv dir s s' :
  parse_args argv = inl dir -> stable dir s s' -> plan argv s' = plan argv s.
Proof.
  intros Hargs Hst. unfold plan. rewrite Hargs. pose proof Hst as [-> _].
  destruct (listdir dir s) as [names|] eqn:Hls; [|reflexivity].
  unfold create_panorama_value.
  rewrite (stable_decoded _ _ _ _ Hst Hls). reflexivity.
Qed.

Lemma main_argv w : w_argv (exec main w) = w_argv w.
Proof. unfold exec. destruct (main_cases w); reflexivity. Qed.

(** The file system after a run, and the calls to the writer, are
    those of the plan. *)
Lemma main_follows_plan w :
  w_fs (exec main w) =
    match plan (w_argv w) (w_fs w) with
    | Some pano => snd (imwrite output_file_name pano (w_fs w))
    | None => w_fs w
    end /\
  imwrite_calls (emitted main w) =
    match plan (w_argv w) (w_fs w) with
    | Some pano => [(output_file_name, pano)]
    | None => []
    end.
Proof.
  unfold plan. by_rules (main_cases w);
    repeat match goal with
    | H : _ = _ |- _ => rewrite H
    end; simpl; auto;
    rewrite (proj2 (is_nil_false _)) by assumption; auto.
Qed.

(** A run is a function of its command line and its file system:
    the outcome and the events do not depend on what was observed
    before. *)
Lemma main_closed w :
  eval main w = main_outcome (w_argv w) (w_fs w) /\
  emitted main w = main_events (w_argv w) (w_fs w).
Proof.
  unfold main_outcome, main_events. by_rules (main_cases w);
    repeat match goal with
    | H : _ = _ |- _ => rewrite H
    end; cbn [fst is_nil]; auto;
    rewrite (proj2 (is_nil_false _)) by assumption; auto.
Qed.

Lemma main_deterministic w w' :
  w_argv w = w_argv w' -> w_fs w = w_fs w' ->
  eval main w = eval main w' /\ emitted main w = emitted main w' /\
  w_fs (exec main w) = w_fs (exec main w').
Proof.
  intros Hargv Hfs.
  rewrite (proj1 (main_closed w)), (proj2 (main_closed w)),
    (proj1 (main_closed w')), (proj2 (main_closed w')),
    (proj1 (main_follows_plan w)), (proj1 (main_follows_plan w')), Hargv, Hfs.
  auto.
Qed.

(** What is not an image file does not matter.  Two runs on the same
    command line, from file systems in which the input directory has
    the same image files, decoding the same, make the same calls with
    the same arguments, log the same records, end the same way and
    hand the same panorama to the writer: entries with other
    extensions are ignored, and nothing outside the directory is
    looked at. *)
Theorem main_ignores_others argv dir s s' :
  parse_args argv = inl dir -> same_images dir s s' ->
  main_events argv s' = main_events argv s /\
  main_outcome argv s' = main_outcome argv s /\
  plan argv s' = plan argv s.
Proof.
  intros Hargs Hsame. unfold same_images in Hsame.
  unfold main_events, main_outcome, plan. rewrite Hargs.
  destruct (listdir dir s) as [names|], (listdir dir s') as [names'|];
    try contradiction; [|auto]. destruct Hsame as [Hf Hdec].
  assert (Hp : image_paths dir names' = image_paths dir names)
    by (unfold image_paths; rewrite Hf; reflexivity).
  assert (Hd : decoded (image_paths dir names) s' = decoded (image_paths dir names) s)
    by (apply map_ext_in; exact Hdec).
  rewrite Hp. unfold create_panorama_events, create_panorama_value. rewrite Hd. auto.
Qed.

(** The second run plans what the first did. *)
Lemma rerun_plan w dir :
  parse_args (w_argv w) = inl dir ->
  stable dir (w_fs w) (w_fs (exec main w)) ->
  plan (w_argv (exec main w)) (w_fs (exec main w)) = plan (w_argv w) (w_fs w).
Proof. intros Hargs Hst. rewrite main_argv. eapply plan_stable; eauto. Qed.

Lemma rerun_writes w dir :
  parse_args (w_argv w) = inl dir ->
  stable dir (w_fs w) (w_fs (exec main w)) ->
  imwrite_calls (emitted main (exec main w)) = imwrite_calls (emitted main w).
Proof.
  intros Hargs Hst.
  rewrite (proj2 (main_follows_plan (exec main w))), (proj2 (main_follows_plan w)).
  rewrite (rerun_plan _ _ Hargs Hst). reflexivity.
Qed.

Lemma rerun_fs w dir :
  parse_args (w_argv w) = inl dir ->
  stable dir (w_fs w) (w_fs (exec main w)) ->
  write_idempotent ->
  w_fs (exec main (exec main w)) = w_fs (exec main w).
Proof.
  intros Hargs Hst Hidem.
  rewrite (proj1 (main_follows_plan (exec main w))), (rerun_plan _ _ Hargs Hst).
  destruct (plan (w_argv w) (w_fs w)) as [pano|] eqn:Hplan; [|reflexivity].
  rewrite (proj1 (main_follows_plan w)), Hplan. apply Hidem.
Qed.

(** C35. Running the pipeline twice is running it once, provided the
    first run leaves the input directory as it found it and the writer
    overwrites: the second run then writes the same panorama under the
    same name and the file system does not change any further. *)
Theorem main_rerun w dir :
  parse_args (w_argv w) = inl dir ->
  stable dir (w_fs w) (w_fs (exec main w)) ->
  write_idempotent ->
  w_fs (exec main (exec main w)) = w_fs (exec main w) /\
  imwrite_calls (emitted main (exec main w)) = imwrite_calls (emitted main w).
Proof. intros; split; eauto using rerun_fs, rerun_writes. Qed.

End Rerun.
