(* ===== verification/FileSystem.v ===== *)
(** * A file system on which the output is an input

    An instance of [Platform], for any parser of the command line
    and any engine, whose file system is a finite map from
    directories to finite maps from names to files (stdpp's [gmap]),
    with a working directory.  A path with a slash is resolved to the
    directory before its last slash and the name after it; a path
    without one, such as [panorama_output.jpg], is a name in the
    working directory; the directory [.] is the working directory.
    Writing a file makes it appear in the listing of its directory:
    that is what the test double of [Mock] does not show.  A file
    holds what decoding it gives; the writer stores an image as the
    codec of [Codec] gives it back in the format of the file name, so
    what is read from [panorama_output.jpg] is the panorama as JPEG
    keeps it.

    On this file system the hypotheses of [main_rerun] hold whenever
    the input directory is not the working directory, so a second run
    reproduces the first.  When the input directory is the working
    directory they fail: the second run decodes the output of the
    first as one of its inputs.  The round trip through the output
    file gives the panorama back exactly when the panorama survives
    JPEG. *)

From stdpp Require Import gmap strings.
From Stdlib Require Import ZArith Ascii String.
From S2P Require Import Prelude Monad PyStr Logging Platform Mock Scan Panorama Main Codec Rerun.

#[local] Open Scope string_scope.

Inductive file : Type :=
| Raster (pixels : list nat)
| Other.

Record Disk : Type := mkDisk {
  cwd : string;
  dirs : gmap string (gmap string file)
}.

(** The directory and the name of a path: the text before and after
    its last slash. *)
Fixpoint split_path (p : string) : option (string * string) :=
  match p with
  | EmptyString => None
  | String c rest =>
      match split_path rest with
      | Some (d, b) => Some (String c d, b)
      | None => if Ascii.eqb c "/"%char then Some (EmptyString, rest) else None
      end
  end.

Definition canon (d : Disk) (dir : string) : string :=
  if decide (dir = ".") then cwd d else dir.

Definition locate (d : Disk) (p : string) : string * string :=
  match split_path p with
  | Some (dir, base) => (canon d dir, base)
  | None => (cwd d, p)
  end.

Definition disk_listdir (dir : string) (d : Disk) : option (list string) :=
  match dirs d !! canon d dir with
  | Some m => Some ((map_to_list m).*1)
  | None => None
  end.

Definition disk_imread (p : string) (d : Disk) : option (list nat) :=
  match dirs d !! (locate d p).1 with
  | Some m =>
      match m !! (locate d p).2 with
      | Some (Raster px) => Some px
      | _ => None
      end
  | None => None
  end.

(** [cv2.imwrite]: the encoder is that of the file name, and the
    directory must exist.  Without an encoder for the name OpenCV
    raises; here the write fails, and [main] never asks for it. *)
Definition disk_imwrite `{Codec (list nat)} (p : string) (img : list nat) (d : Disk)
    : bool * Disk :=
  match imwrite_format p, dirs d !! (locate d p).1 with
  | Some fmt, Some m =>
      (true,
       {| cwd := cwd d;
          dirs := <[(locate d p).1 := <[(locate d p).2 := Raster (reread fmt img)]> m]>
                    (dirs d) |})
  | _, _ => (false, d)
  end.

(** The interface on this file system, for any parser of the command
    line and any engine. *)
Definition disk_platform_of `{Codec (list nat)} (parse : list string -> string + Z)
    (engine : list (option (list nat)) -> Z * option (list nat)) : Platform :=
  {| image := list nat;
     fsys := Disk;
     parse_args := parse;
     listdir := disk_listdir;
     imread := disk_imread;
     stitch := engine;
     imwrite := disk_imwrite |}.

(** With the parser and the engine of the test double. *)
#[export] Instance disk_platform `{Codec (list nat)} : Platform | 0 :=
  disk_platform_of mock_parse_args mock_stitch.

(** No name of a directory entry contains a slash. *)
Definition no_slash (name : string) : Prop := split_path name = None.

Definition wf_disk (d : Disk) : Prop :=
  forall dir m name, dirs d !! dir = Some m -> is_Some (m !! name) -> no_slash name.

(** A working directory with two photographs, and a separate
    directory with the same two. *)
Definition shots : gmap string file :=
  <["a.jpg" := Raster [1; 2]]> (<["b.png" := Raster [3]]> (<["notes.txt" := Other]> ∅)).

Definition home_disk : Disk :=
  {| cwd := "/home/me";
     dirs := <["/home/me" := shots]> (<["/data/shots" := shots]> ∅) |}.

(** The same disk without the notes in the separate directory. *)
Definition tidy_disk : Disk :=
  {| cwd := cwd home_disk;
     dirs := <["/data/shots" := delete "notes.txt" shots]> (dirs home_disk) |}.

Definition disk_world {C : Codec (list nat)} (argv : list string) (d : Disk)
    : World (P := @disk_platform C) :=
  @mkWorld (@disk_platform C) argv d [].

(** ** Paths *)

Section Paths.
Implicit Types (d : Disk) (dir name p : string).

Lemma split_path_join dir name :
  no_slash name -> split_path (dir ++ String "/" name) = Some (dir, name).
Proof.
  unfold no_slash. intros Hn. induction dir as [|c dir IH].
  - change (split_path (String "/" name) = Some ("", name)).
    simpl. rewrite Hn. reflexivity.
  - change (split_path (String c (dir ++ String "/" name)) = Some (String c dir, name)).
    simpl. rewrite IH. reflexivity.
Qed.

Lemma split_path_base dir name p :
  split_path p = Some (dir, name) -> no_slash name.
Proof.
  revert dir. induction p as [|c p IH]; simpl; intros dir; [discriminate|].
  destruct (split_path p) as [[d b]|] eqn:Hp.
  - intros [= _ <-]. eapply IH. reflexivity.
  - destruct (Ascii.eqb c "/"); [|discriminate]. intros [= _ <-]. exact Hp.
Qed.

Lemma no_slash_relative name : no_slash name -> startswith name "/" = false.
Proof.
  unfold no_slash. destruct name as [|c name]; [reflexivity|].
  rewrite startswith_char, Ascii.eqb_sym. simpl.
  destruct (split_path name) as [[? ?]|]; [discriminate|].
  destruct (Ascii.eqb c "/"); [discriminate|reflexivity].
Qed.

Lemma locate_base_no_slash d p : no_slash (locate d p).2.
Proof.
  unfold locate. destruct (split_path p) as [[dir base]|] eqn:Hp; simpl.
  - eapply split_path_base, Hp.
  - exact Hp.
Qed.

Lemma locate_cwd d d' p : cwd d' = cwd d -> locate d' p = locate d p.
Proof. unfold locate, canon. intros ->. reflexivity. Qed.

Lemma locate_output d : locate d output_file_name = (cwd d, output_file_name).
Proof. reflexivity. Qed.

(** A joined path is found in the directory it was joined with. *)
Lemma locate_join d dir name :
  dir <> "" -> endswith dir "/" = false -> no_slash name ->
  locate d (path_join dir name) = (canon d dir, name).
Proof.
  intros Hdir Hend Hname.
  rewrite path_join_relative by auto using no_slash_relative.
  rewrite Hend. change ("/" ++ name) with (String "/" name).
  unfold locate. rewrite split_path_join by assumption. reflexivity.
Qed.

End Paths.

(** ** The laws of the interface *)

Section DiskLaws.
Context {C : Codec (list nat)}.
Implicit Types (d : Disk) (dir name p : string).

Lemma disk_imwrite_cwd p img d : cwd (disk_imwrite p img d).2 = cwd d.
Proof.
  unfold disk_imwrite.
  destruct (imwrite_format p), (dirs d !! (locate d p).1); reflexivity.
Qed.

(** The write of [save_image] in [main]: a JPEG file in the working
    directory. *)
Lemma disk_imwrite_output img d :
  disk_imwrite output_file_name img d =
  match dirs d !! cwd d with
  | Some m =>
      (true,
       {| cwd := cwd d;
          dirs := <[cwd d := <[output_file_name := Raster (reread JPEG img)]> m]> (dirs d) |})
  | None => (false, d)
  end.
Proof. reflexivity. Qed.

Lemma disk_imwrite_failed p img d :
  (disk_imwrite p img d).1 = false -> (disk_imwrite p img d).2 = d.
Proof.
  unfold disk_imwrite.
  destruct (imwrite_format p), (dirs d !! (locate d p).1);
    solve [discriminate|reflexivity].
Qed.

(** The interface keeps its laws with any engine that gives a raster
    with the status OK. *)
Lemma disk_platform_laws parse engine :
  (forall imgs status pano,
     engine imgs = (status, pano) -> status = Stitcher_OK -> pano <> None) ->
  PlatformLaws (disk_platform_of parse engine).
Proof. intros Hok. split; [exact Hok|exact disk_imwrite_failed]. Qed.

#[export] Instance disk_laws : PlatformLaws disk_platform.
Proof. exact (disk_platform_laws _ _ mock_stitch_ok_some). Qed.

Lemma disk_write_idempotent parse engine :
  write_idempotent (P := disk_platform_of parse engine).
Proof.
  intros pano d. cbn [imwrite disk_platform_of]. rewrite !disk_imwrite_output.
  destruct (dirs d !! cwd d) as [m|] eqn:Hm; cbn [snd cwd dirs].
  - rewrite lookup_insert_eq. cbn [snd]. f_equal.
    rewrite insert_insert_eq, insert_insert_eq. reflexivity.
  - rewrite Hm. reflexivity.
Qed.

(** Writing keeps the file system well formed. *)
Lemma disk_imwrite_wf p img d : wf_disk d -> wf_disk (disk_imwrite p img d).2.
Proof.
  intros Hwf. unfold disk_imwrite.
  destruct (imwrite_format p) as [fmt|]; [|exact Hwf].
  destruct (dirs d !! (locate d p).1) as [m|] eqn:Hm; [|exact Hwf].
  intros dir m' name. cbn [snd dirs].
  destruct (decide ((locate d p).1 = dir)) as [<-|Hne].
  - rewrite lookup_insert_eq. intros [= <-].
    destruct (decide ((locate d p).2 = name)) as [<-|Hne'].
    + intros _. apply locate_base_no_slash.
    + rewrite lookup_insert_ne by assumption. eapply Hwf, Hm.
  - rewrite lookup_insert_ne by assumption. apply Hwf.
Qed.

End DiskLaws.

(** ** Running again on this file system *)

Section DiskRerun.
Context {C : Codec (list nat)} (parse : list string -> string + Z)
  (engine : list (option (list nat)) -> Z * option (list nat)).
#[local] Abbreviation DP := (disk_platform_of parse engine).
Implicit Types (d : Disk) (dir name p : string) (w : World (P := DP)).

Lemma disk_listdir_names dir d names name :
  wf_disk d -> disk_listdir dir d = Some names -> In name names -> no_slash name.
Proof.
  unfold disk_listdir. intros Hwf.
  destruct (dirs d !! canon d dir) as [m|] eqn:Hm; [|discriminate].
  intros [= <-] Hin%list_elem_of_In%list_elem_of_fmap.
  destruct Hin as ([k v] & -> & Hkv%elem_of_map_to_list). simpl.
  eapply Hwf; eauto.
Qed.

(** Writing the output leaves every other directory as it was. *)
Lemma disk_stable dir d pano :
  wf_disk d -> dir <> "" -> endswith dir "/" = false -> canon d dir <> cwd d ->
  stable (P := DP) dir d (disk_imwrite output_file_name pano d).2.
Proof.
  intros Hwf Hdir Hend Hother. unfold stable. cbn [listdir imread disk_platform_of].
  rewrite disk_imwrite_output.
  destruct (dirs d !! cwd d) as [m|] eqn:Hm; cbn [snd]; [|auto].
  split.
  - unfold disk_listdir, canon in *. cbn [cwd dirs].
    rewrite lookup_insert_ne by congruence. reflexivity.
  - intros names f Hls (name & Hname & _ & ->)%image_paths_In.
    pose proof (disk_listdir_names _ _ _ _ Hwf Hls Hname) as Hns.
    unfold disk_imread. rewrite !locate_join by assumption.
    unfold canon in *. cbn [fst snd cwd dirs].
    rewrite lookup_insert_ne by congruence. reflexivity.
Qed.

(** The first run leaves the input directory stable when it is not
    the working directory. *)
Lemma disk_main_stable w dir :
  wf_disk (w_fs w) -> dir <> "" -> endswith dir "/" = false ->
  canon (w_fs w) dir <> cwd (w_fs w) ->
  stable dir (w_fs w) (w_fs (exec main w)).
Proof.
  intros Hwf Hdir Hend Hother. destruct (main_follows_plan w) as [-> _].
  destruct (plan (w_argv w) (w_fs w)); [|apply stable_refl].
  apply disk_stable; assumption.
Qed.

(** On the file system with listings, a second run reproduces the
    first whenever the input directory is not the working directory:
    it writes the same panorama and the file system does not change
    any further. *)
Theorem disk_rerun w dir :
  wf_disk (w_fs w) ->
  parse (w_argv w) = inl dir ->
  dir <> "" -> endswith dir "/" = false ->
  canon (w_fs w) dir <> cwd (w_fs w) ->
  w_fs (exec main (exec main w)) = w_fs (exec main w) /\
  imwrite_calls (emitted main (exec main w)) = imwrite_calls (emitted main w).
Proof.
  intros Hwf Hargs Hdir Hend Hother.
  pose proof (disk_main_stable w dir Hwf Hdir Hend Hother) as Hst.
  split; [eapply rerun_fs|eapply rerun_writes];
    eauto using disk_write_idempotent.
Qed.

(** C33. When the input directory is the working directory, a run
    that delivers a panorama changes the input of the next run: the
    second run decodes [panorama_output.jpg], the output of the first,
    as one of its images. *)
Theorem disk_reingests w dir pano :
  parse (w_argv w) = inl dir ->
  canon (w_fs w) dir = cwd (w_fs w) ->
  plan (w_argv w) (w_fs w) = Some pano ->
  In (path_join dir output_file_name) (imread_calls (emitted main (exec main w))).
Proof.
  intros Hargs Hcwd Hplan.
  assert (exists m, dirs (w_fs w) !! cwd (w_fs w) = Some m) as [m Hm].
  { unfold plan in Hplan. cbn [parse_args listdir disk_platform_of] in Hplan.
    rewrite Hargs in Hplan.
    unfold disk_listdir in Hplan. rewrite Hcwd in Hplan.
    destruct (dirs (w_fs w) !! cwd (w_fs w)); [eauto|discriminate]. }
  assert (Hfs : w_fs (exec main w) =
                {| cwd := cwd (w_fs w);
                   dirs := <[cwd (w_fs w) :=
                               <[output_file_name := Raster (reread JPEG pano)]> m]>
                             (dirs (w_fs w)) |}).
  { destruct (main_follows_plan w) as [-> _]. rewrite Hplan.
    cbn [imwrite disk_platform_of]. rewrite disk_imwrite_output, Hm. reflexivity. }
  erewrite main_imread_calls; [|rewrite main_argv; exact Hargs|].
  2:{ rewrite Hfs. cbn [listdir disk_platform_of]. unfold disk_listdir, canon in *.
      cbn [cwd dirs]. rewrite Hcwd, lookup_insert_eq. reflexivity. }
  apply image_paths_In. exists output_file_name.
  split; [|split; reflexivity].
  apply list_elem_of_In, list_elem_of_fmap.
  exists (output_file_name, Raster (reread JPEG pano)). split; [reflexivity|].
  apply elem_of_map_to_list, lookup_insert_eq.
Qed.

(** What a run leaves in the output file: the panorama as JPEG gives
    it back. *)
Lemma disk_output_file w (pano : list nat) :
  plan (w_argv w) (w_fs w) = Some pano ->
  is_Some (dirs (w_fs w) !! cwd (w_fs w)) ->
  disk_imread output_file_name (w_fs (exec main w)) = Some (reread JPEG pano).
Proof.
  intros Hplan [m Hm]. rewrite (proj1 (main_follows_plan w)), Hplan.
  cbn [imread imwrite disk_platform_of]. rewrite disk_imwrite_output, Hm.
  unfold disk_imread. rewrite !locate_output. cbn [fst snd cwd dirs].
  rewrite !lookup_insert_eq. reflexivity.
Qed.

(** C34. The output round trip.  After a run that delivers a
    panorama from a working directory that exists, decoding
    [panorama_output.jpg] gives the panorama as JPEG keeps it,
    whatever the file held before; it gives the panorama itself
    exactly when the panorama survives JPEG. *)
Theorem disk_output_roundtrip w (pano : list nat) :
  plan (w_argv w) (w_fs w) = Some pano ->
  is_Some (dirs (w_fs w) !! cwd (w_fs w)) ->
  disk_imread output_file_name (w_fs (exec main w)) = Some (reread JPEG pano) /\
  (disk_imread output_file_name (w_fs (exec main w)) = Some pano <-> lossless JPEG pano).
Proof.
  intros Hplan Hcwd. rewrite (disk_output_file w pano Hplan Hcwd).
  split; [reflexivity|]. unfold lossless. split; [intros [= H]; exact H|intros H; f_equal; exact H].
Qed.

End DiskRerun.

(** ** Witnesses *)

Lemma shots_names name : is_Some (shots !! name) -> no_slash name.
Proof.
  unfold shots. rewrite !lookup_insert_is_Some, lookup_empty.
  intros [<-|[_ [<-|[_ [<-|[_ H]]]]]]; try reflexivity.
  destruct H; discriminate.
Qed.

Lemma home_disk_wf : wf_disk home_disk.
Proof.
  intros dir m name. unfold home_disk. cbn [dirs].
  rewrite !lookup_insert_Some, lookup_empty.
  intros [[_ <-]|[_ [[_ <-]|[_ H]]]]; [apply shots_names..|discriminate].
Qed.

Lemma main_rerun_witness :
  w_fs (exec main (exec main (disk_world ["-i"; "/data/shots"] home_disk))) =
    w_fs (exec main (disk_world ["-i"; "/data/shots"] home_disk)) /\
  imwrite_calls (emitted main (exec main (disk_world ["-i"; "/data/shots"] home_disk))) =
    imwrite_calls (emitted main (disk_world ["-i"; "/data/shots"] home_disk)).
Proof.
  refine (main_rerun (disk_world ["-i"; "/data/shots"] home_disk) "/data/shots"
            eq_refl _ (disk_write_idempotent _ _)).
  apply (disk_main_stable mock_parse_args mock_stitch);
    [apply home_disk_wf|discriminate|reflexivity|discriminate].
Defined.

Lemma disk_rerun_witness :
  w_fs (exec main (exec main (disk_world ["-i"; "/data/shots"] home_disk))) =
    w_fs (exec main (disk_world ["-i"; "/data/shots"] home_disk)) /\
  imwrite_calls (emitted main (exec main (disk_world ["-i"; "/data/shots"] home_disk))) =
    imwrite_calls (emitted main (disk_world ["-i"; "/data/shots"] home_disk)).
Proof.
  refine (disk_rerun mock_parse_args mock_stitch
            (disk_world ["-i"; "/data/shots"] home_disk) "/data/shots"
            home_disk_wf eq_refl _ eq_refl _); discriminate.
Defined.

Lemma disk_reingests_witness :
  In "./panorama_output.jpg"
     (imread_calls (emitted main (exec main (disk_world ["-i"; "."] home_disk)))).
Proof.
  refine (disk_reingests mock_parse_args mock_stitch
            (disk_world ["-i"; "."] home_disk) "." [1; 2; 3] _ _ _);
    vm_compute; reflexivity.
Defined.

Lemma disk_output_roundtrip_witness :
  disk_imread output_file_name
    (w_fs (exec main (disk_world ["-i"; "/data/shots"] home_disk))) =
    Some (reread JPEG [1; 2; 3]) /\
  (disk_imread output_file_name
     (w_fs (exec main (disk_world ["-i"; "/data/shots"] home_disk))) = Some [1; 2; 3] <->
   lossless JPEG [1; 2; 3]).
Proof.
  refine (disk_output_roundtrip mock_parse_args mock_stitch
            (disk_world ["-i"; "/data/shots"] home_disk) [1; 2; 3] _ _);
    [vm_compute; reflexivity|].
  eexists. vm_compute. reflexivity.
Defined.

(** With the coarse codec the panorama of the two photographs does
    not survive the output file. *)
Example output_not_identical :
  disk_imread output_file_name
    (w_fs (exec main (disk_world ["-i"; "/data/shots"] home_disk))) = Some [0; 2; 2] /\
  plan ["-i"; "/data/shots"] home_disk = Some [1; 2; 3].
Proof. split; vm_compute; reflexivity. Qed.

(** In the working directory the second run stitches three images,
    the third being the panorama of the first as JPEG has kept it; in
    a separate input directory it stitches the same two again. *)
Example second_run_in_cwd :
  stitch_calls (emitted main (exec main (disk_world ["-i"; "."] home_disk))) =
  [[Some [1; 2]; Some [3]; Some [0; 2; 2]]].
Proof. vm_compute. reflexivity. Qed.

Example second_run_elsewhere :
  stitch_calls (emitted main (exec main (disk_world ["-i"; "/data/shots"] home_disk))) =
  [[Some [1; 2]; Some [3]]].
Proof. vm_compute. reflexivity. Qed.

(** [evaluate t] replaces the closed term [t] of the goal by its
    value. *)
Ltac evaluate t :=
  let v := eval vm_compute in t in replace t with v by (vm_compute; reflexivity).

(** The notes do not matter: with or without them the run on the
    separate directory makes the same calls and logs the same. *)
Example notes_ignored :
  main_events (P := disk_platform (H := coarse_codec)) ["-i"; "/data/shots"] tidy_disk =
  main_events (P := disk_platform (H := coarse_codec)) ["-i"; "/data/shots"] home_disk.
Proof.
  apply (main_ignores_others (P := disk_platform (H := coarse_codec)) _ "/data/shots");
    [reflexivity|].
  unfold same_images. cbn [listdir imread disk_platform disk_platform_of].
  evaluate (disk_listdir "/data/shots" home_disk).
  evaluate (disk_listdir "/data/shots" tidy_disk).
  split; [vm_compute; reflexivity|]. intros f Hin.
  match type of Hin with
  | In _ ?l => let v := eval vm_compute in l in
               replace l with v in Hin by (vm_compute; reflexivity)
  end.
  destruct Hin as [<-|[<-|[]]]; vm_compute; reflexivity.
Qed.
