(* ===== verification/Args.v ===== *)
(** * The command line: the parser of [main]

    Lines 55-57 of [main.py] build an [argparse.ArgumentParser] with
    one option, [-i] / [--input_dir], which is required and takes one
    value, and call [parse_args()].  [argparse] adds [-h] / [--help].

    Module [argparse] is that parser: the table of option strings, the
    classification of one argument string ([parse_optional], with the
    split at [=], the abbreviations of long options, the attached
    value of a short option, and the strings that look like negative
    numbers or contain a space), and the loop that consumes the
    classified strings ([consume]).  The result of [parse_args] is the
    value of [input_dir] or the exit code: 0 after the help, 2 after
    an error.  It follows CPython 3.8 to 3.11.  Two argument strings
    are left out because their treatment depends on the version of the
    interpreter: [--], and [-h=], on which those versions raise
    [IndexError]; [parse_args] is [None] on a command line that
    contains one of them.  The digits of a negative number are the
    ASCII digits.

    The theorems give the accepted command lines as a grammar
    ([CommandLine]) and show that [parse_args] recognises exactly it;
    that a value given with [=] is taken as it is, whatever it looks
    like, while a value in an argument string of its own must not look
    like an option; that the exit code is 0 or 2, and 0 only when a
    help option was given.  [ArgparseLaws] ties the parameter
    [parse_args] of [Platform] to the model, and the last section runs
    [main] from a command line. *)

From Stdlib Require Import String Ascii ZArith Bool Arith Lia List FunInd.
From S2P Require Import Prelude Monad PyStr Logging Platform Mock Scan Panorama Main.
Import ListNotations.

#[local] Open Scope string_scope.
#[local] Open Scope list_scope.

Module argparse.

(** The two actions of the parser: the help that [argparse] adds, and
    the store action of line 56. *)
Inductive Action : Type := Help | InputDir.

(** [ArgumentParser(description=...)], line 55. *)
Definition description : string := "Create a panorama from images.".

(** [add_argument('-i', '--input_dir', required=True, help=...)],
    line 56, and the automatic [-h], [--help]. *)
Record Argument : Type := mkArgument {
  option_strings : list string;
  dest : string;
  required : bool;
  nargs : nat;
  help : string;
  action : Action
}.

Definition help_argument : Argument :=
  {| option_strings := ["-h"; "--help"];
     dest := "help";
     required := false;
     nargs := 0;
     help := "show this help message and exit";
     action := Help |}.

Definition input_dir_argument : Argument :=
  {| option_strings := ["-i"; "--input_dir"];
     dest := "input_dir";
     required := true;
     nargs := 1;
     help := "Path to the directory with images.";
     action := InputDir |}.

Definition parser : list Argument := [help_argument; input_dir_argument].

(** [parser._option_string_actions], in insertion order. *)
Definition option_string_actions : list (string * Action) :=
  flat_map (fun a => map (fun s => (s, action a)) (option_strings a)) parser.

Definition lookup_option (s : string) : option Action :=
  assoc s option_string_actions.

(** [s.split('=', 1)] for a string that contains [=]. *)
Fixpoint split_eq (s : string) : option (string * string) :=
  match s with
  | EmptyString => None
  | String c s' =>
      if Ascii.eqb c "=" then Some (EmptyString, s')
      else match split_eq s' with
           | Some (a, b) => Some (String c a, b)
           | None => None
           end
  end.

Definition is_digit (c : ascii) : bool :=
  let n := nat_of_ascii c in ((48 <=? n) && (n <=? 57))%nat.

(** The longest prefix of digits, and the rest. *)
Fixpoint span_digits (s : string) : string * string :=
  match s with
  | EmptyString => (EmptyString, EmptyString)
  | String c s' =>
      if is_digit c then let (a, b) := span_digits s' in (String c a, b)
      else (EmptyString, s)
  end.

(** [s] without one final newline: where [$] matches. *)
Fixpoint chomp (s : string) : string :=
  match s with
  | EmptyString => EmptyString
  | String c s' =>
      match s' with
      | EmptyString => if Ascii.eqb c "010" then EmptyString else s
      | _ => String c (chomp s')
      end
  end.

(** [_negative_number_matcher]: the regular expression
    [^-\d+$|^-\d*\.\d+$]. *)
Definition negative_number (s : string) : bool :=
  match s with
  | String "-" r =>
      let (a, b) := span_digits (chomp r) in
      match b with
      | EmptyString => negb (String.eqb a "")
      | String "." f =>
          let (d, rest) := span_digits f in
          negb (String.eqb d "") && String.eqb rest ""
      | _ => false
      end
  | _ => false
  end.

Definition contains (c : ascii) (s : string) : bool :=
  existsb (Ascii.eqb c) (list_ascii_of_string s).

(** What [_parse_optional] makes of one argument string. *)
Inductive Parsed : Type :=
| Positional
| Opt (a : Action) (option_string : string) (explicit_arg : option string)
| Unknown
| Ambiguous.

(** [_get_option_tuples]: the interpretations of an argument string
    that is no option string itself.  A string that starts with [--]
    abbreviates every long option it is a prefix of, up to its [=]; a
    string that starts with one [-] is a short option with the rest
    attached. *)
Definition get_option_tuples (arg : string)
    : list (Action * string * option string) :=
  if startswith arg "--" then
    let (option_prefix, explicit_arg) :=
      match split_eq arg with
      | Some (p, e) => (p, Some e)
      | None => (arg, None)
      end in
    flat_map (fun sa : string * Action =>
                if startswith (fst sa) option_prefix
                then [(snd sa, fst sa, explicit_arg)] else [])
      option_string_actions
  else
    let short_option_prefix := substring 0 2 arg in
    let short_explicit_arg := substring 2 (String.length arg - 2) arg in
    flat_map (fun sa : string * Action =>
                if String.eqb (fst sa) short_option_prefix
                then [(snd sa, fst sa, Some short_explicit_arg)]
                else if startswith (fst sa) arg
                then [(snd sa, fst sa, None)] else [])
      option_string_actions.

Definition parse_optional (arg : string) : Parsed :=
  match arg with
  | EmptyString => Positional
  | String c rest =>
      if negb (Ascii.eqb c "-") then Positional
      else
        match lookup_option arg with
        | Some a => Opt a arg None
        | None =>
            if String.eqb rest "" then Positional
            else
              match match split_eq arg with
                    | Some (o, e) =>
                        match lookup_option o with
                        | Some a => Some (a, o, e)
                        | None => None
                        end
                    | None => None
                    end with
              | Some (a, o, e) => Opt a o (Some e)
              | None =>
                  match get_option_tuples arg with
                  | _ :: _ :: _ => Ambiguous
                  | [(a, o, e)] => Opt a o e
                  | [] =>
                      if negative_number arg then Positional
                      else if contains " " arg then Positional
                      else Unknown
                  end
              end
        end
  end.

(** A single-dash option without a value, with text attached: the
    text is read as further single-dash options ([-hi] is [-h -i]).
    The actions collected run only when the whole string has been
    read, and the first of them is the help. *)
Fixpoint chain (explicit_arg : string) (value_follows : bool) : Z :=
  match explicit_arg with
  | EmptyString => 2
  | String c e =>
      match lookup_option (String "-" (String c EmptyString)) with
      | Some Help => if String.eqb e "" then 0 else chain e value_follows
      | Some InputDir => if String.eqb e "" && negb value_follows then 2 else 0
      | None => 2
      end
  end%Z.

Definition is_positional (p : Parsed) : bool :=
  match p with
  | Positional => true
  | _ => false
  end.

(** The loop of [_parse_known_args] on the classified argument
    strings: [value] is [namespace.input_dir], [extras] says whether a
    string was left over. *)
Function consume (args : list (string * Parsed)) (value : option string)
    (extras : bool) {struct args} : string + Z :=
  match args with
  | [] =>
      match value with
      | Some d => if extras then inr 2%Z else inl d
      | None => inr 2%Z
      end
  | (s, p) :: rest =>
      match p with
      | Positional | Unknown => consume rest value true
      | Ambiguous => inr 2%Z
      | Opt Help o None => inr 0%Z
      | Opt Help o (Some e) =>
          if startswith o "--" then inr 2%Z
          else inr (chain e match rest with
                            | (_, q) :: _ => is_positional q
                            | [] => false
                            end)
      | Opt InputDir o (Some e) => consume rest (Some e) extras
      | Opt InputDir o None =>
          match rest with
          | (d, Positional) :: rest' => consume rest' (Some d) extras
          | _ => inr 2%Z
          end
      end
  end.

Definition is_ambiguous (p : Parsed) : bool :=
  match p with
  | Ambiguous => true
  | _ => false
  end.

(** The argument strings whose treatment depends on the version of
    the interpreter. *)
Definition version_dependent (arg : string) : bool :=
  String.eqb arg "--" || String.eqb arg "-h=".

(** [parser.parse_args()] on [sys.argv[1:]]: every argument string is
    classified first, then the loop runs. *)
Definition parse_args (argv : list string) : option (string + Z) :=
  if existsb version_dependent argv then None
  else
    let marks := map (fun s => (s, parse_optional s)) argv in
    if existsb (fun sp => is_ambiguous (snd sp)) marks then Some (inr 2%Z)
    else Some (consume marks None false).

End argparse.

(** [classify argv]: the argument strings with what [_parse_optional]
    makes of them. *)
Definition classify (argv : list string) : list (string * argparse.Parsed) :=
  map (fun s => (s, argparse.parse_optional s)) argv.

(** ** The accepted command lines

    One occurrence of the option with its value: in one argument
    string ([--input_dir=DIR], [-i=DIR], [-iDIR], an abbreviation
    with [=]), or in two. *)
Inductive Item : list string -> string -> Prop :=
| item_explicit s o d :
    argparse.parse_optional s = argparse.Opt argparse.InputDir o (Some d) ->
    Item [s] d
| item_separate s o d :
    argparse.parse_optional s = argparse.Opt argparse.InputDir o None ->
    argparse.parse_optional d = argparse.Positional ->
    Item [s; d] d.

(** A command line is accepted when it is a non-empty sequence of
    occurrences of the option; the last one gives the value. *)
Inductive CommandLine : list string -> string -> Prop :=
| cl_last item d : Item item d -> CommandLine item d
| cl_more item d' rest d :
    Item item d' -> CommandLine rest d -> CommandLine (item ++ rest) d.

(** What [Platform] may assume of its [parse_args]: where the model
    is defined, [argparse] does what the model says. *)
Class ArgparseLaws (P : Platform) : Prop := {
  parse_args_model : forall argv r,
    argparse.parse_args argv = Some r -> parse_args argv = r
}.

(** The test double with the parser of the model. *)
Definition cli_parse_args (argv : list string) : string + Z :=
  match argparse.parse_args argv with
  | Some r => r
  | None => inr 2%Z
  end.

#[export] Instance cli_platform : Platform := {|
  image := list nat;
  fsys := MockFS;
  parse_args := cli_parse_args;
  listdir := mock_listdir;
  imread := mock_imread;
  stitch := mock_stitch;
  imwrite := mock_imwrite
|}.

Definition cli_world (argv : list string) (s : MockFS) : World (P := cli_platform) :=
  {| w_argv := argv; w_fs := s; w_trace := [] |}.

(** ** Classification *)

Section Classification.
Import argparse.
Implicit Types (s d : string) (argv : list string) (p : Parsed).

(** The argument strings a command line is made of when it is
    accepted: occurrences of the option, and values. *)
Definition plain_token (p : Parsed) : bool :=
  match p with
  | Positional | Opt InputDir _ _ => true
  | _ => false
  end.

Lemma version_dependent_not_plain s :
  version_dependent s = true -> plain_token (parse_optional s) = false.
Proof.
  unfold version_dependent. rewrite orb_true_iff, !String.eqb_eq.
  intros [->| ->]; reflexivity.
Qed.

Lemma plain_tokens_supported argv :
  Forall (fun s => plain_token (parse_optional s) = true) argv ->
  existsb version_dependent argv = false /\
  existsb (fun sp => is_ambiguous (snd sp)) (classify argv) = false.
Proof.
  induction 1 as [|s argv Hs _ [IH1 IH2]]; [auto|]. simpl. rewrite IH1, IH2.
  destruct (version_dependent s) eqn:Hv.
  - apply version_dependent_not_plain in Hv. congruence.
  - destruct (parse_optional s); simpl in *; auto; discriminate.
Qed.

(** A string that does not start with a dash is a value. *)
Lemma parse_optional_no_dash s :
  startswith s "-" = false -> parse_optional s = Positional.
Proof.
  destruct s as [|c s]; [reflexivity|]. rewrite startswith_char, Ascii.eqb_sym.
  unfold parse_optional. intros ->. reflexivity.
Qed.

(** With [=], the value is taken as it is. *)
Lemma parse_optional_explicit d :
  parse_optional ("--input_dir=" ++ d) = Opt InputDir "--input_dir" (Some d) /\
  parse_optional ("-i=" ++ d) = Opt InputDir "-i" (Some d).
Proof. split; reflexivity. Qed.

Lemma classify_app argv argv' :
  classify (argv ++ argv') = classify argv ++ classify argv'.
Proof. apply map_app. Qed.

Lemma classify_fst argv : map fst (classify argv) = argv.
Proof. unfold classify. rewrite map_map. apply map_id. Qed.

Lemma classify_classified argv :
  Forall (fun sp => snd sp = parse_optional (fst sp)) (classify argv).
Proof. apply Forall_map, Forall_forall. reflexivity. Qed.

End Classification.

(** ** The loop *)

Section Consume.
Import argparse.
Implicit Types (s d : string) (argv : list string) (v : option string)
  (ms : list (string * Parsed)).

Lemma consume_Item item d rest v extras :
  Item item d ->
  consume (classify (item ++ rest)) v extras =
  consume (classify rest) (Some d) extras.
Proof. intros [s o d' Hs|s o d' Hs Hd]; simpl; rewrite Hs, ?Hd; reflexivity. Qed.

Lemma Item_plain item d :
  Item item d -> Forall (fun s => plain_token (parse_optional s) = true) item.
Proof.
  intros [s o d' Hs|s o d' Hs Hd]; repeat constructor; rewrite ?Hs, ?Hd; reflexivity.
Qed.

Lemma CommandLine_plain argv d :
  CommandLine argv d -> Forall (fun s => plain_token (parse_optional s) = true) argv.
Proof.
  induction 1; [|apply Forall_app; split]; eauto using Item_plain.
Qed.

Lemma consume_CommandLine argv d v :
  CommandLine argv d -> consume (classify argv) v false = inl d.
Proof.
  intros H. revert v. induction H as [item d Hi|item d' rest d Hi _ IH]; intros v.
  - rewrite <- (app_nil_r item), (consume_Item _ _ _ _ _ Hi). reflexivity.
  - rewrite (consume_Item _ _ _ _ _ Hi). apply IH.
Qed.

Lemma CommandLine_explicit s o d' rest d :
  parse_optional s = Opt InputDir o (Some d') ->
  rest = [] /\ Some d' = Some d \/ CommandLine rest d ->
  CommandLine (s :: rest) d.
Proof.
  intros Hs [[-> [= ->]]|Hcl].
  - apply cl_last. eapply item_explicit, Hs.
  - apply (cl_more [s] d'); [eapply item_explicit, Hs|exact Hcl].
Qed.

Lemma CommandLine_separate s o x rest d :
  parse_optional s = Opt InputDir o None ->
  parse_optional x = Positional ->
  rest = [] /\ Some x = Some d \/ CommandLine rest d ->
  CommandLine (s :: x :: rest) d.
Proof.
  intros Hs Hx [[-> [= ->]]|Hcl].
  - apply cl_last. eapply item_separate; eauto.
  - apply (cl_more [s; x] x); [eapply item_separate; eauto|exact Hcl].
Qed.

(** The loop returns a value only when nothing was left over and
    the strings were occurrences of the option throughout. *)
Lemma consume_inl ms v extras d :
  Forall (fun sp => snd sp = parse_optional (fst sp)) ms ->
  consume ms v extras = inl d ->
  extras = false /\ (ms = [] /\ v = Some d \/ CommandLine (map fst ms) d).
Proof.
  functional induction (consume ms v extras); intros Hc Hd;
    try discriminate; repeat match goal with
    | H : Forall _ (_ :: _) |- _ => inv H
    end; simpl in *;
    try (destruct (IHs ltac:(assumption) Hd) as [He Hrest];
         first [congruence|split; [exact He|right]]).
  - injection Hd as ->. auto.
  - eapply CommandLine_explicit; [symmetry; eassumption|].
    destruct Hrest as [[-> Hv]|Hcl]; auto.
  - eapply CommandLine_separate; [symmetry; eassumption..|].
    destruct Hrest as [[-> Hv]|Hcl]; auto.
Qed.

Lemma chain_codes e follows : chain e follows = 0%Z \/ chain e follows = 2%Z.
Proof.
  induction e as [|c e IH]; simpl; [auto|].
  destruct (lookup_option _) as [[]|]; auto.
  - destruct (String.eqb e ""); auto.
  - destruct (_ && _); auto.
Qed.

(** The loop exits with 0 or 2, and with 0 only at a help option. *)
Lemma consume_inr ms v extras c :
  consume ms v extras = inr c ->
  (c = 0 \/ c = 2)%Z /\
  (c = 0%Z -> exists s o e, In (s, Opt Help o e) ms).
Proof.
  functional induction (consume ms v extras); intros Hc;
    try discriminate; try injection Hc as <-;
    first
      [ destruct (IHs Hc) as [H0 H1]; split; [exact H0|];
        intros (s' & o' & e' & Hin)%H1; exists s', o', e'; simpl; auto
      | split; [auto|discriminate]
      | split; [auto using chain_codes|intros _; do 3 eexists; left; reflexivity] ].
Qed.

End Consume.

(** ** The parser *)

Section Parser.
Import argparse.
Implicit Types (s d : string) (argv : list string).

Lemma parse_args_inl argv d :
  parse_args argv = Some (inl d) <-> CommandLine argv d.
Proof.
  unfold parse_args; cbv zeta; fold (classify argv). split.
  - destruct (existsb version_dependent argv); [discriminate|].
    destruct (existsb _ (classify argv)); [discriminate|]. intros [= H].
    destruct (consume_inl _ _ _ _ (classify_classified argv) H)
      as [_ [[_ [=]]|Hcl]].
    rewrite classify_fst in Hcl. exact Hcl.
  - intros H.
    destruct (plain_tokens_supported _ (CommandLine_plain _ _ H)) as [-> ->].
    rewrite (consume_CommandLine _ _ _ H). reflexivity.
Qed.

Lemma parse_args_inr argv c :
  parse_args argv = Some (inr c) ->
  (c = 0 \/ c = 2)%Z /\
  (c = 0%Z -> exists s o e, In s argv /\ parse_optional s = Opt Help o e).
Proof.
  unfold parse_args; cbv zeta; fold (classify argv).
  destruct (existsb version_dependent argv); [discriminate|].
  destruct (existsb _ (classify argv)); [intros [= <-]; split; [auto|discriminate]|].
  intros [= [Hc Hz]%consume_inr]. split; [exact Hc|].
  intros (s & o & e & Hin)%Hz. exists s, o, e.
  apply in_map_iff in Hin as (s' & [= <- Hs] & Hin). auto.
Qed.

Lemma parse_args_None argv :
  parse_args argv = None <-> In "--" argv \/ In "-h=" argv.
Proof.
  unfold parse_args; cbv zeta.
  destruct (existsb version_dependent argv) eqn:Hv.
  - apply existsb_exists in Hv as (s & Hin & Hs). split; [intros _|reflexivity].
    unfold version_dependent in Hs.
    rewrite orb_true_iff, !String.eqb_eq in Hs. destruct Hs as [->| ->]; auto.
  - split; [intros H; destruct (existsb _ (map _ argv)) in H; discriminate H|].
    rewrite existsb_false_iff in Hv.
    intros [H|H]; apply Hv in H; discriminate.
Qed.


(** C39. How a value reaches the parser.  Given with [=], in the same
    argument string as the option, the directory is taken as it is,
    whatever it looks like.  Given in an argument string of its own,
    it is taken exactly when that string is not read as an option,
    which is the case of every string that does not start with a
    dash. *)
Theorem parse_args_value d :
  parse_args [("--input_dir=" ++ d)%string] = Some (inl d) /\
  parse_args [("-i=" ++ d)%string] = Some (inl d) /\
  (parse_args ["-i"; d] = Some (inl d) <-> parse_optional d = Positional) /\
  (parse_args ["--input_dir"; d] = Some (inl d) <-> parse_optional d = Positional) /\
  (startswith d "-" = false -> parse_optional d = Positional).
Proof.
  repeat split; try reflexivity; try apply parse_optional_no_dash;
    unfold parse_args; cbn [existsb map];
    change (version_dependent "-i") with false;
    change (version_dependent "--input_dir") with false;
    cbn [orb]; destruct (version_dependent d) eqn:Hv;
    try (apply version_dependent_not_plain in Hv);
    destruct (parse_optional d) as [|[] ? ?| |]; simpl in *; congruence.
Qed.

(** The exit codes of the parser.  It is defined on every command
    line that contains neither [--] nor [-h=]; where it exits, the
    code is 0 or 2, and it is 0 only if some argument string is read
    as the help option. *)
Theorem parse_args_exit_codes argv :
  (parse_args argv = None <-> In "--" argv \/ In "-h=" argv) /\
  (forall c, parse_args argv = Some (inr c) ->
     (c = 0 \/ c = 2)%Z /\
     (c = 0%Z -> exists s o e, In s argv /\ parse_optional s = Opt Help o e)).
Proof. split; [apply parse_args_None|apply parse_args_inr]. Qed.

End Parser.

(** ** [main] from a command line *)

Section MainFromCommandLine.
Context `{P : Platform} {L : ArgparseLaws P}.
Implicit Types (w : World) (d : string).

Lemma CommandLine_parse_args argv d : CommandLine argv d -> parse_args argv = inl d.
Proof. intros H%parse_args_inl. apply parse_args_model, H. Qed.

(** [main] scans the directory the command line names: when the
    command line is accepted, the directory that is listed is the
    value of the last occurrence of the option, and the run returns
    normally unless the listing raises. *)
Theorem main_cli w d :
  CommandLine (w_argv w) d ->
  (exists evs, emitted main w = EvParseArgs :: EvListdir d :: evs) /\
  (eval main w = Returned tt \/ eval main w = Raised (OSError d)).
Proof.
  intros Hargs%CommandLine_parse_args.
  by_rules (main_cases w); try congruence;
    match goal with
    | H : parse_args _ = inl _ |- _ => rewrite Hargs in H; injection H as <-
    end; eauto.
Qed.

(** The exit status of the program is 0, 1 or 2: 2 exactly when
    the parser rejects the command line, 1 exactly when the command
    line is accepted and its directory cannot be listed, 0 in every
    other case, the help and every failure of the pipeline
    included. *)
Theorem main_exit_status_cli w :
  argparse.parse_args (w_argv w) <> None ->
  (exit_status (eval main w) = 0 \/ exit_status (eval main w) = 1 \/
   exit_status (eval main w) = 2)%Z /\
  (exit_status (eval main w) = 2%Z <->
   argparse.parse_args (w_argv w) = Some (inr 2%Z)) /\
  (exit_status (eval main w) = 1%Z <->
   exists d, CommandLine (w_argv w) d /\ listdir d (w_fs w) = None).
Proof.
  intros Hdef.
  destruct (argparse.parse_args (w_argv w)) as [[d|c]|] eqn:Hp; [| |contradiction].
  - pose proof (parse_args_model _ _ Hp) as Hargs.
    apply parse_args_inl in Hp. unfold eval.
    destruct (main_cases w); cbn [fst exit_status]; try congruence;
      (split; [auto|split; [split; discriminate|]]);
      assert (dir = d) as -> by congruence;
      (split; [try discriminate; eauto|]);
      intros (d' & Hd'%CommandLine_parse_args & Hls); try reflexivity;
      assert (d' = d) as -> by congruence; congruence.
  - pose proof (parse_args_model _ _ Hp) as Hargs.
    destruct (parse_args_inr _ _ Hp) as [Hc _]. unfold eval.
    destruct (main_cases w); cbn [fst exit_status]; try congruence.
    assert (code = c) as -> by congruence.
    split; [destruct Hc as [->| ->]; auto|]. split.
    + split; congruence.
    + split; [destruct Hc; lia|].
      intros (d & Hd%CommandLine_parse_args & _). congruence.
Qed.

End MainFromCommandLine.

(** ** Witnesses *)

#[export] Instance cli_laws : ArgparseLaws cli_platform.
Proof.
  split. intros argv r H. cbn [parse_args cli_platform].
  unfold cli_parse_args. rewrite H. reflexivity.
Qed.

Lemma main_cli_witness :
  (exists evs,
     emitted main (cli_world ["-i"; "old"; "--input=photos"] holiday_fs) =
     EvParseArgs :: EvListdir "photos" :: evs) /\
  (eval main (cli_world ["-i"; "old"; "--input=photos"] holiday_fs) = Returned tt \/
   eval main (cli_world ["-i"; "old"; "--input=photos"] holiday_fs) =
     Raised (OSError "photos")).
Proof.
  refine (main_cli (cli_world ["-i"; "old"; "--input=photos"] holiday_fs) "photos" _).
  apply (cl_more ["-i"; "old"] "old").
  - apply (item_separate "-i" "-i" "old"); reflexivity.
  - apply cl_last, (item_explicit "--input=photos" "--input_dir" "photos").
    reflexivity.
Defined.

Lemma main_exit_status_cli_witness :
  (exit_status (eval main (cli_world ["-i"; "missing"] holiday_fs)) = 0 \/
   exit_status (eval main (cli_world ["-i"; "missing"] holiday_fs)) = 1 \/
   exit_status (eval main (cli_world ["-i"; "missing"] holiday_fs)) = 2)%Z /\
  (exit_status (eval main (cli_world ["-i"; "missing"] holiday_fs)) = 2%Z <->
   argparse.parse_args ["-i"; "missing"] = Some (inr 2%Z)) /\
  (exit_status (eval main (cli_world ["-i"; "missing"] holiday_fs)) = 1%Z <->
   exists d, CommandLine ["-i"; "missing"] d /\ listdir d holiday_fs = None).
Proof.
  exact (main_exit_status_cli (cli_world ["-i"; "missing"] holiday_fs)
           ltac:(discriminate)).
Defined.

(** Command lines and what the parser makes of them: the usual forms,
    abbreviations, the help, a repeated option, a left-over string,
    and values that start with a dash. *)
Example parse_args_examples :
  map argparse.parse_args
    [["-i"; "photos"]; ["--input_dir"; "photos"]; ["--input_dir=photos"];
     ["-iphotos"]; ["--in"; "photos"]; ["-i"; "a"; "-i"; "b"];
     []; ["-h"]; ["--help"]; ["-i"; "photos"; "-h"]; ["-hi"];
     ["-i"; "photos"; "extra"]; ["-i"]; ["--=x"];
     ["-i"; "-out"]; ["-i=-out"]; ["-i"; "-5"]; ["-i"; "-my dir"]] =
  [Some (inl "photos"); Some (inl "photos"); Some (inl "photos");
   Some (inl "photos"); Some (inl "photos"); Some (inl "b");
   Some (inr 2%Z); Some (inr 0%Z); Some (inr 0%Z); Some (inr 0%Z); Some (inr 2%Z);
   Some (inr 2%Z); Some (inr 2%Z); Some (inr 2%Z);
   Some (inr 2%Z); Some (inl "-out"); Some (inl "-5"); Some (inl "-my dir")].
Proof. reflexivity. Qed.
