(* ===== verification/Usage.v ===== *)
(** * The command line, spelled out

    [Args] gives the accepted command lines as sequences of
    occurrences of the option, where an occurrence is what the parser
    classifies as one.  This file says how an occurrence is spelled.

    The option has ten spellings: [-i], [--input_dir] and the
    prefixes of [--input_dir] longer than [--], which [argparse]
    accepts as abbreviations because no other option starts like
    them.  An occurrence is a spelling, [=] and the value in one
    argument string; or [-i] with the value attached; or a spelling
    followed by the value in an argument string of its own, which the
    parser must not read as an option.  The strings that do not start
    with a dash, the single dash and the negative numbers are such
    values. *)

From Stdlib Require Import String Ascii ZArith Bool Arith Lia List.
From S2P Require Import Prelude Monad PyStr Logging Platform Mock Scan Panorama Main Args.
Import ListNotations.
Import argparse.

#[local] Open Scope list_scope.
#[local] Open Scope string_scope.

(** The prefixes of a string, the shortest first. *)
Fixpoint prefixes (s : string) : list string :=
  match s with
  | EmptyString => [EmptyString]
  | String c s' => EmptyString :: map (String c) (prefixes s')
  end.

(** The spellings of an option: its short option strings, and the
    prefixes of its long option strings that are longer than [--]. *)
Definition spellings (a : Argument) : list string :=
  flat_map (fun o => if startswith o "--"
                     then filter (fun p => (2 <? String.length p)%nat) (prefixes o)
                     else [o])
    (option_strings a).

(** One occurrence of the option with its value, as it is typed. *)
Inductive Occurrence : list string -> string -> Prop :=
| occ_equals p d :
    In p (spellings input_dir_argument) -> Occurrence [(p ++ "=" ++ d)%string] d
| occ_attached d :
    d <> "" -> startswith d "=" = false -> Occurrence [("-i" ++ d)%string] d
| occ_separate p d :
    In p (spellings input_dir_argument) -> parse_optional d = Positional ->
    Occurrence [p; d] d.

(** A command line as it is typed: occurrences of the option, one
    after the other; the last one gives the value. *)
Inductive Usage : list string -> string -> Prop :=
| usage_last ws d : Occurrence ws d -> Usage ws d
| usage_more ws d' rest d :
    Occurrence ws d' -> Usage rest d -> Usage (ws ++ rest)%list d.

(** ** Strings *)

Section Strings.
Implicit Types (s p o d : string).

Lemma prefix_prefixes p s : startswith s p = true -> In p (prefixes s).
Proof.
  unfold startswith. revert p. induction s as [|c s IH]; intros [|a p]; simpl; auto.
  - discriminate.
  - destruct (ascii_dec a c) as [->|]; [|discriminate].
    intros H. right. apply in_map, IH, H.
Qed.

Lemma split_eq_Some s p d : split_eq s = Some (p, d) -> s = p ++ "=" ++ d.
Proof.
  revert p. induction s as [|c s IH]; intros p; simpl; [discriminate|].
  destruct (Ascii.eqb_spec c "=") as [->|_]; [intros [= <- <-]; reflexivity|].
  destruct (split_eq s) as [[a b]|]; [|discriminate].
  intros [= <- <-]. simpl. f_equal. apply IH. reflexivity.
Qed.

Lemma startswith_cons a s b p :
  startswith (String a s) (String b p) = Ascii.eqb b a && startswith s p.
Proof.
  unfold startswith. simpl. destruct (ascii_dec b a) as [->|Hne].
  - rewrite Ascii.eqb_refl. reflexivity.
  - apply Ascii.eqb_neq in Hne. rewrite Hne. reflexivity.
Qed.

(** The first two characters and the rest. *)
Lemma substring_short s :
  substring 0 2 s = "-i" -> s = "-i" ++ substring 2 (String.length s - 2) s.
Proof.
  destruct s as [|a [|b r]]; try discriminate. simpl.
  replace (substring 0 0 r) with "" by (destruct r; reflexivity).
  intros [= -> ->]. rewrite Nat.sub_0_r, substring_full. reflexivity.
Qed.

End Strings.

(** ** How the parser reads one argument string *)

Section Reading.
Implicit Types (s p o d : string) (a : Action) (e : option string).

Lemma lookup_option_Some s a :
  lookup_option s = Some a -> In (s, a) option_string_actions.
Proof.
  unfold lookup_option. induction option_string_actions as [|[k v] l IH]; simpl;
    [discriminate|].
  destruct (String.eqb_spec s k) as [->|_]; [intros [= ->]; auto|auto].
Qed.

Lemma InputDir_option_strings o :
  In (o, InputDir) option_string_actions -> o = "-i" \/ o = "--input_dir".
Proof. simpl. intuition congruence. Qed.

(** The three ways an argument string is read as an option: it is an
    option string; it is one up to its [=]; or it is an abbreviation
    or a short option with its value attached. *)
Lemma parse_optional_Opt s a o e :
  parse_optional s = Opt a o e ->
  (lookup_option s = Some a /\ o = s /\ e = None) \/
  (exists d, split_eq s = Some (o, d) /\ lookup_option o = Some a /\ e = Some d) \/
  In (a, o, e) (get_option_tuples s).
Proof.
  unfold parse_optional. destruct s as [|c r]; [discriminate|].
  destruct (negb _); [discriminate|].
  destruct (lookup_option (String c r)) as [a'|] eqn:Hl; [intros [= <- <- <-]; auto|].
  destruct (String.eqb r ""); [discriminate|].
  assert (Htuples :
    match get_option_tuples (String c r) with
    | _ :: _ :: _ => Ambiguous
    | [(a, o, e)] => Opt a o e
    | [] => if negative_number (String c r) then Positional
            else if contains " " (String c r) then Positional else Unknown
    end = Opt a o e -> In (a, o, e) (get_option_tuples (String c r))).
  { destruct (get_option_tuples _) as [|[[a1 o1] e1] [|]]; try discriminate.
    - repeat match goal with |- context [if ?b then _ else _] => destruct b end;
        discriminate.
    - intros [= <- <- <-]. left. reflexivity. }
  destruct (split_eq _) as [[o' e']|]; [|auto].
  destruct (lookup_option o') as [a'|] eqn:Hl'; [|auto].
  intros [= <- <- <-]. right. left. eauto.
Qed.

(** What an interpretation of [_get_option_tuples] says of the
    string: it is a prefix of the option string, or one up to its
    [=], or starts with the short option string. *)
Lemma get_option_tuples_In s a o e :
  In (a, o, e) (get_option_tuples s) ->
  In (o, a) option_string_actions /\
  ((startswith o s = true /\ e = None) \/
   (exists p d, s = p ++ "=" ++ d /\ startswith o p = true /\ startswith s "--" = true) \/
   (o = substring 0 2 s /\ e = Some (substring 2 (String.length s - 2) s))).
Proof.
  unfold get_option_tuples. destruct (startswith s "--") eqn:Hlong.
  - destruct (split_eq s) as [[p d]|] eqn:Hsp;
      intros ([o' a'] & Hin & Hx)%in_flat_map; simpl in Hx;
      destruct (startswith o' _) eqn:Hp; try contradiction;
      destruct Hx as [[= <- <- <-]|[]]; (split; [exact Hin|]); eauto.
    right. left. exists p, d. split; [apply split_eq_Some, Hsp|auto].
  - intros ([o' a'] & Hin & Hx)%in_flat_map; simpl in Hx.
    destruct (String.eqb_spec o' (substring 0 2 s)) as [->|_].
    + destruct Hx as [[= <- <- <-]|[]]. auto.
    + destruct (startswith o' s) eqn:Hp; [|contradiction].
      destruct Hx as [[= <- <- <-]|[]]. auto.
Qed.

End Reading.

(** ** The spellings of the option *)

Section Spelling.
Implicit Types (s p o d : string) (e : option string).

(** [in_list] finds a closed string in a closed list. *)
Ltac in_list := vm_compute; repeat first [left; reflexivity | right].

(** [candidates H] replaces a string that is in a closed list by
    each of its elements. *)
Ltac candidates H :=
  vm_compute in H; repeat destruct H as [<-|H]; try contradiction.

Lemma String_neq c s : String c s <> s.
Proof. intros H%(f_equal String.length). simpl in H. lia. Qed.

(** Read as the option, an argument string is a spelling, a spelling
    with [=] and a value, or [-i] with a value attached. *)
Lemma parse_optional_InputDir s o e :
  parse_optional s = Opt InputDir o e ->
  (e = None /\ In s (spellings input_dir_argument)) \/
  (exists p d, e = Some d /\ In p (spellings input_dir_argument) /\ s = p ++ "=" ++ d) \/
  (exists d, e = Some d /\ s = "-i" ++ d /\ d <> "" /\ startswith d "=" = false).
Proof.
  intros H.
  destruct (parse_optional_Opt _ _ _ _ H) as [(Hl & -> & ->)|[(d & Hsp & Hl & ->)|Hin]].
  - apply lookup_option_Some, InputDir_option_strings in Hl.
    left. split; [reflexivity|]. destruct Hl as [->| ->]; in_list.
  - apply lookup_option_Some, InputDir_option_strings in Hl. apply split_eq_Some in Hsp.
    right; left. exists o, d. repeat split; [|exact Hsp]. destruct Hl as [->| ->]; in_list.
  - apply get_option_tuples_In in Hin as [Ho Hcases].
    apply InputDir_option_strings in Ho.
    destruct Hcases as [[Hp ->]|[(p & d & -> & Hp & _)|[Hsub He]]].
    + left. split; [reflexivity|]. apply prefix_prefixes in Hp.
      destruct Ho as [->| ->]; candidates Hp; try discriminate H; in_list.
    + right; left. apply prefix_prefixes in Hp.
      destruct Ho as [->| ->]; candidates Hp; simpl in H;
        repeat match type of H with
               | (if ?b then _ else _) = _ => destruct b
               end;
        try discriminate H; injection H as <-;
        match goal with |- exists p d0, _ /\ _ /\ ?c ++ _ = _ => exists c, d end;
        repeat split; in_list.
    + right; right. destruct Ho as [->| ->];
        [|destruct s as [|? [|? []]]; discriminate Hsub].
      symmetry in Hsub. apply substring_short in Hsub.
      destruct (substring 2 _ s) as [|c d]; rewrite Hsub in H; [subst e; discriminate H|].
      exists (String c d). repeat split; [exact He|exact Hsub|discriminate|].
      rewrite startswith_char. destruct (Ascii.eqb_spec "=" c) as [<-|]; [|reflexivity].
      subst e. injection H as H. symmetry in H. destruct (String_neq _ _ H).
Qed.

Lemma spelling_alone p :
  In p (spellings input_dir_argument) -> exists o, parse_optional p = Opt InputDir o None.
Proof. intros H. candidates H; eexists; reflexivity. Qed.

Lemma spelling_equals p d :
  In p (spellings input_dir_argument) ->
  exists o, parse_optional (p ++ "=" ++ d) = Opt InputDir o (Some d).
Proof. intros H. candidates H; eexists; reflexivity. Qed.

(** [-i] with a value attached. *)
Lemma spelling_attached d :
  d <> "" -> startswith d "=" = false ->
  parse_optional ("-i" ++ d) = Opt InputDir "-i" (Some d).
Proof.
  destruct d as [|c d]; [contradiction|]. intros _.
  rewrite startswith_char, Ascii.eqb_sym. intros Hc.
  unfold parse_optional. simpl. rewrite Hc.
  destruct (split_eq d) as [[a b]|]; simpl; rewrite substring_full; reflexivity.
Qed.

Lemma Item_Occurrence ws d : Item ws d <-> Occurrence ws d.
Proof.
  split.
  - intros [s o d' Hs|s o d' Hs Hd];
      apply parse_optional_InputDir in Hs
        as [[He Hp]|[(p & d0 & He & Hp & ->)|(d0 & He & -> & Hne & Hst)]];
      try discriminate He; try injection He as <-; eauto using Occurrence.
  - intros [p d' Hp|d' Hne Hst|p d' Hp Hd].
    + destruct (spelling_equals p d' Hp) as [o Ho]. eapply item_explicit, Ho.
    + eapply item_explicit, spelling_attached; assumption.
    + destruct (spelling_alone p Hp) as [o Ho]. eapply item_separate; eauto.
Qed.

Lemma Item_is_Occurrence ws d : Item ws d -> Occurrence ws d.
Proof. apply Item_Occurrence. Qed.

Lemma Occurrence_is_Item ws d : Occurrence ws d -> Item ws d.
Proof. apply Item_Occurrence. Qed.

Lemma CommandLine_Usage argv d : CommandLine argv d <-> Usage argv d.
Proof.
  split; induction 1;
    eauto using CommandLine, Usage, Item_is_Occurrence, Occurrence_is_Item.
Qed.

End Spelling.

(** ** Values *)

Section Values.
Implicit Types (s d r : string) (c : ascii).

(** After a dash, a character that starts no option string: no
    option string starts like the argument string. *)
Lemma dash_no_tuples c r :
  c <> "h"%char -> c <> "i"%char -> c <> "-"%char ->
  get_option_tuples (String "-" (String c r)) = [].
Proof.
  intros Hh Hi Hd.
  destruct (get_option_tuples _) as [|[[a o] e] l] eqn:Ht; [reflexivity|exfalso].
  assert (Hin : In (a, o, e) (get_option_tuples (String "-" (String c r))))
    by (rewrite Ht; left; reflexivity).
  apply get_option_tuples_In in Hin as [Ho Hc]. apply (in_map fst) in Ho.
  destruct Hc as [[Hp _]|[(p & d & _ & _ & Hlong)|[Hsub _]]].
  - apply prefix_prefixes in Hp. simpl in Ho.
    repeat destruct Ho as [<-|Ho]; try contradiction; simpl in Hp; intuition congruence.
  - rewrite !startswith_cons in Hlong.
    apply andb_true_iff in Hlong as [_ [Hc%Ascii.eqb_eq _]%andb_true_iff]. congruence.
  - assert (o = String "-" (String c "")) as -> by (destruct r; exact Hsub).
    simpl in Ho. intuition congruence.
Qed.

Lemma dash_no_option c s :
  c <> "h"%char -> c <> "i"%char -> c <> "-"%char ->
  lookup_option (String "-" (String c s)) = None.
Proof.
  intros Hh Hi Hd. destruct (lookup_option _) as [a|] eqn:Hl; [|reflexivity].
  apply lookup_option_Some in Hl. simpl in Hl. intuition congruence.
Qed.

(** Such an argument string is a value only when it looks like a
    negative number or contains a space. *)
Lemma parse_optional_dash c r :
  c <> "h"%char -> c <> "i"%char -> c <> "-"%char ->
  parse_optional (String "-" (String c r)) =
  if negative_number (String "-" (String c r)) then Positional
  else if contains " " (String "-" (String c r)) then Positional
  else Unknown.
Proof.
  intros Hh Hi Hd. unfold parse_optional.
  rewrite dash_no_option, dash_no_tuples by assumption.
  rewrite Ascii.eqb_refl. cbn [negb String.eqb].
  destruct (split_eq _) as [[o e]|] eqn:Hsp; [|reflexivity].
  destruct (lookup_option o) as [a|] eqn:Hl; [exfalso|reflexivity].
  apply split_eq_Some in Hsp. apply lookup_option_Some, (in_map fst) in Hl. simpl in Hl.
  repeat destruct Hl as [<-|Hl]; try contradiction; simpl in Hsp; congruence.
Qed.

(** A negative number starts with a dash and a character that starts
    no option string. *)
Lemma negative_number_shape d :
  negative_number d = true ->
  exists c r, d = String "-" (String c r) /\
    c <> "h"%char /\ c <> "i"%char /\ c <> "-"%char.
Proof.
  destruct d as [|c0 [|c r]]; try discriminate;
    destruct c0 as [[] [] [] [] [] [] [] []]; try discriminate.
  intros H. exists c, r. split; [reflexivity|].
  repeat split; intros ->; destruct r; discriminate H.
Qed.

(** The strings that are values wherever they stand. *)
Lemma value_strings d :
  startswith d "-" = false \/ d = "-" \/ negative_number d = true ->
  parse_optional d = Positional.
Proof.
  intros [H|[->|H]]; [apply parse_optional_no_dash, H|reflexivity|].
  destruct (negative_number_shape d H) as (c & r & -> & Hh & Hi & Hd).
  rewrite parse_optional_dash, H by assumption. reflexivity.
Qed.

End Values.

(** ** The command lines the parser accepts *)

Section AcceptedCommandLines.
Implicit Types (argv : list string) (d : string).

(** C22. The accepted command lines, as they are typed.  The parser
    yields a directory exactly for a non-empty sequence of
    occurrences of the option and nothing else, an occurrence being
    one of the ten spellings ([-i], [--input_dir] or a prefix of it
    longer than [--]) followed by the value, in the same argument
    string after [=], attached to [-i], or in the next argument
    string if that is not read as an option; the directory is the
    value of the last occurrence.  A string that does not start with
    a dash, a single dash and a negative number are never read as an
    option. *)
Theorem parse_args_Usage argv d :
  (parse_args argv = Some (inl d) <-> Usage argv d) /\
  (startswith d "-" = false \/ d = "-" \/ negative_number d = true ->
   parse_optional d = Positional).
Proof.
  split; [|apply value_strings].
  rewrite <- CommandLine_Usage. apply parse_args_inl.
Qed.

End AcceptedCommandLines.

(** The usual command lines, and some unusual ones. *)
Example usage_examples :
  Usage ["-i"; "photos"] "photos" /\
  Usage ["--input=photos"] "photos" /\
  Usage ["-iphotos"] "photos" /\
  Usage ["--inp"; "old"; "-i=-new"] "-new" /\
  Usage ["-i"; "-5"] "-5" /\
  ~ Usage ["-i"; "-new"] "-new" /\
  ~ Usage ["photos"] "photos".
Proof.
  repeat split;
    try (apply CommandLine_Usage, parse_args_inl; reflexivity);
    intros H%CommandLine_Usage%parse_args_inl; discriminate H.
Qed.
