(* ===== verification/EndToEnd.v ===== *)
(** * The whole program on the modelled platform

    The components put together: the parser of [Args] for the command
    line, the file system of [FileSystem] with the formats of [Codec],
    and the staged engine of [Engine], as one instance of [Platform].
    The instance keeps the laws of the three interfaces
    ([PlatformLaws], [StitcherLaws], [ArgparseLaws]), so every theorem
    of the development applies to it.

    The theorems say what a run of [main] does from the command line
    to the output file: the panorama is written exactly when the
    command line is a usage of the option, the directory it names
    lists, every image file of it decodes, two images or more are
    matched, and the cameras are estimated and adjusted; what is then
    read back from [panorama_output.jpg] is the composition of the
    matched images as JPEG keeps it.  In every other case the file
    system is left as it was. *)

From stdpp Require Import gmap strings.
From Stdlib Require Import ZArith Ascii String.
From S2P Require Import Prelude Monad PyStr Logging Platform Mock Scan Panorama Main.
From S2P Require Import Codec Spec Engine Rerun FileSystem Args Usage.

#[local] Open Scope string_scope.

(** The platform of the models: the command line of [argparse], the
    file system with listings and formats, the engine in stages. *)
Definition whole_platform `{Codec (list nat)} (S : Stages (list nat)) : Platform :=
  disk_platform_of cli_parse_args (staged_stitch S).

Definition whole_world `{Codec (list nat)} (S : Stages (list nat))
    (argv : list string) (d : Disk) : World (P := whole_platform S) :=
  @mkWorld (whole_platform S) argv d [].

(** The whole pipeline goes through: what the success of a run
    depends on, from the command line to the adjusted cameras. *)
Definition goes_through `{Codec (list nat)} (S : Stages (list nat))
    (argv : list string) (d : Disk) (pano : list nat) : Prop :=
  exists dir names kept feats pairwise cams adjusted,
    Usage argv dir /\
    disk_listdir dir d = Some names /\
    (forall f, In f (image_paths dir names) -> disk_imread f d <> None) /\
    matchImages S (present (map (fun f => disk_imread f d) (image_paths dir names))) =
      inr (kept, feats, pairwise) /\
    estimator S feats pairwise = Some cams /\
    bundle_adjuster S feats pairwise cams = Some adjusted /\
    pano = compose S kept adjusted.

(** ** The laws of the interfaces *)

Section Whole.
Context {C : Codec (list nat)} (S : Stages (list nat)).
#[local] Abbreviation WP := (whole_platform S).
Implicit Types (w : World (P := WP)) (d : Disk) (argv : list string).

Lemma whole_platform_laws : PlatformLaws WP.
Proof.
  apply disk_platform_laws.
  exact (stitch_ok_some (PlatformLaws := staged_platform_laws S)).
Qed.

Lemma whole_stitcher_laws : StitcherLaws WP.
Proof. destruct (staged_stitcher_laws S) as [H1 H2 H3]. split; assumption. Qed.

Lemma whole_argparse_laws : ArgparseLaws WP.
Proof.
  split. intros argv r H. cbn [parse_args whole_platform disk_platform_of].
  unfold cli_parse_args. rewrite H. reflexivity.
Qed.

(** ** The plan of a run *)

Lemma cli_parse_args_inl argv dir : cli_parse_args argv = inl dir <-> Usage argv dir.
Proof.
  rewrite <- CommandLine_Usage, <- parse_args_inl. unfold cli_parse_args.
  destruct (argparse.parse_args argv) as [r|]; split; intros H;
    solve [discriminate H|injection H as ->; reflexivity|rewrite H; reflexivity].
Qed.

Lemma staged_stitch_OK images pano :
  staged_stitch S images = (Stitcher_OK, Some pano) <->
  Stitcher_stitch S (present images) = (OK, Some pano).
Proof.
  unfold staged_stitch. destruct (Stitcher_stitch S (present images)) as [st p].
  split; [intros [= Hst%status_code_OK ->]; subst|intros [= -> ->]]; reflexivity.
Qed.

(** The panorama a run will write, by the stages it goes through. *)
Lemma whole_plan argv d pano :
  plan (P := WP) argv d = Some pano <-> goes_through S argv d pano.
Proof.
  unfold plan, goes_through. cbn [parse_args listdir whole_platform disk_platform_of].
  split.
  - destruct (cli_parse_args argv) as [dir|] eqn:Hargs; [|discriminate].
    destruct (disk_listdir dir d) as [names|] eqn:Hls; [|discriminate].
    destruct (is_nil _); [discriminate|].
    intros [Hany Hst%staged_stitch_OK%Stitcher_stitch_OK]%create_panorama_value_Some.
    destruct Hst as (kept & feats & pairwise & cams & adjusted & Hm & He & Ha & ->).
    exists dir, names, kept, feats, pairwise, cams, adjusted.
    apply cli_parse_args_inl in Hargs. apply any_none_false in Hany.
    unfold decoded in Hany. rewrite Forall_map, Forall_forall in Hany.
    repeat split; try assumption. intros f Hf%list_elem_of_In. exact (Hany f Hf).
  - intros (dir & names & kept & feats & pairwise & cams & adjusted &
            Hargs%cli_parse_args_inl & Hls & Hdec & Hm & He & Ha & ->).
    rewrite Hargs, Hls.
    assert (Hst : Stitcher_stitch S
                    (present (decoded (P := WP) (image_paths dir names) d)) =
                  (OK, Some (compose S kept adjusted)))
      by (apply Stitcher_stitch_OK; eauto 10).
    destruct (matchImages_kept S _ _ _ _ Hm) as (Hlen & _).
    pose proof (present_length (decoded (P := WP) (image_paths dir names) d)) as Hp.
    unfold decoded in Hp at 2. rewrite length_map in Hp.
    destruct (image_paths dir names) as [|f rest] eqn:Hfiles; [simpl in *; lia|].
    cbn [is_nil]. apply create_panorama_value_Some. split.
    + apply any_none_false. unfold decoded. rewrite Forall_map, Forall_forall.
      intros g Hg%list_elem_of_In. exact (Hdec g Hg).
    + apply staged_stitch_OK, Hst.
Qed.

(** C14. From the command line to the output file.  On the modelled
    platform [main] writes a panorama exactly when the whole pipeline
    goes through: the command line is a usage of the option, the
    directory lists, its image files decode, the engine keeps two
    images or more and estimates and adjusts the cameras.  The
    panorama is the composition of the images kept, it is written
    once under the fixed name, and in every other case the file
    system is left as it was. *)
Theorem whole_run w pano :
  (imwrite_calls (emitted main w) = [(output_file_name, pano)] <->
   goes_through S (w_argv w) (w_fs w) pano) /\
  (imwrite_calls (emitted main w) = [] -> w_fs (exec main w) = w_fs w).
Proof.
  destruct (main_follows_plan w) as [Hfs Hcalls]. rewrite <- whole_plan, Hcalls, Hfs.
  destruct (plan (w_argv w) (w_fs w)) as [p|]; split; try split; congruence.
Qed.

(** What the output file holds.  When the pipeline goes through
    and the working directory exists, reading [panorama_output.jpg]
    after the run gives the panorama as JPEG keeps it, and the run
    returns normally. *)
Theorem whole_run_output w pano :
  goes_through S (w_argv w) (w_fs w) pano ->
  is_Some (dirs (w_fs w) !! cwd (w_fs w)) ->
  eval main w = Returned tt /\
  disk_imread output_file_name (w_fs (exec main w)) = Some (reread JPEG pano).
Proof.
  intros Hgo%whole_plan Hcwd. split; [|exact (disk_output_file _ _ w pano Hgo Hcwd)].
  unfold plan in Hgo. unfold eval.
  destruct (main_cases w) as [code Hargs|dir Hargs Hls| | |]; try reflexivity;
    rewrite Hargs in Hgo; [discriminate|rewrite Hls in Hgo; discriminate].
Qed.

End Whole.

(** ** Witnesses *)

Lemma whole_run_output_witness :
  eval main (whole_world plain_stages ["--input"; "/data/shots"] home_disk) = Returned tt /\
  disk_imread output_file_name
    (w_fs (exec main (whole_world plain_stages ["--input"; "/data/shots"] home_disk))) =
  Some (reread JPEG [1; 2; 3]).
Proof.
  refine (whole_run_output plain_stages
            (whole_world plain_stages ["--input"; "/data/shots"] home_disk) [1; 2; 3] _ _).
  - apply whole_plan. vm_compute. reflexivity.
  - eexists. vm_compute. reflexivity.
Defined.

(** The same directory through the whole platform: the abbreviated
    option is accepted, and the output holds the panorama as the
    coarse codec keeps it. *)
Example whole_run_shots :
  disk_imread output_file_name
    (w_fs (exec main (whole_world plain_stages ["--input"; "/data/shots"] home_disk))) =
  Some [0; 2; 2].
Proof. vm_compute. reflexivity. Qed.
